(** * whatsapp-sender: the automation engine of [waSender.js] and the monitor
      routes of [server.js]

    The engine drives a browser through Playwright.  The browser is not part
    of the program, so it appears here as an environment [Env]: an oracle
    that says, from the history of everything that has happened so far, how
    the next driver call settles (resolves, rejects, or never settles), what
    the page's DOM looks like, what the clock reads, and whether a stop
    request is served while the call is pending.  The program itself is
    written in a state-and-exception monad over a store that holds the
    module-level variables ([lastPage], [monitorHandle]), the closure cells
    of every monitor ([stats], [stopped]) and the history. *)

From Stdlib Require Import ZArith NArith String Ascii List Bool Lia DecimalString.
From stdpp Require Import base tactics option list strings gmap.

Open Scope Z_scope.

(** ** JavaScript strings

    A JavaScript string is a sequence of UTF-16 code units.  Phone numbers
    and messages arrive from a JSON body, so unpaired surrogates are
    possible.  Selectors, keys, directory names and error texts only ever
    come from literals of the program or from the driver and are kept as
    Rocq strings. *)

Definition jsstring := list N.

Definition lit (s : string) : jsstring :=
  map N_of_ascii (list_ascii_of_string s).

Module URI.

(** [encodeURIComponent], following ECMAScript's abstract operation
    Encode(string, extraUnescaped) with an empty extraUnescaped. *)

Definition isAlpha (c : N) : bool :=
  ((65 <=? c) && (c <=? 90) || (97 <=? c) && (c <=? 122))%N.

Definition isDigit (c : N) : bool := ((48 <=? c) && (c <=? 57))%N.

(** uriMark: - _ . ! ~ * ' ( ) *)
Definition isMark (c : N) : bool :=
  existsb (N.eqb c) [45; 95; 46; 33; 126; 42; 39; 40; 41]%N.

Definition unescaped (c : N) : bool := isAlpha c || isDigit c || isMark c.

Definition isLeadSurrogate (c : N) : bool := ((0xD800 <=? c) && (c <=? 0xDBFF))%N.
Definition isTrailSurrogate (c : N) : bool := ((0xDC00 <=? c) && (c <=? 0xDFFF))%N.

Definition pairToCodePoint (lead trail : N) : N :=
  ((lead - 0xD800) * 0x400 + (trail - 0xDC00) + 0x10000)%N.

(** The UTF-8 octets of a code point. *)
Definition utf8 (cp : N) : list N :=
  (if cp <? 0x80 then [cp]
   else if cp <? 0x800 then
     [N.lor 0xC0 (N.shiftr cp 6); N.lor 0x80 (N.land cp 0x3F)]
   else if cp <? 0x10000 then
     [N.lor 0xE0 (N.shiftr cp 12);
      N.lor 0x80 (N.land (N.shiftr cp 6) 0x3F);
      N.lor 0x80 (N.land cp 0x3F)]
   else
     [N.lor 0xF0 (N.shiftr cp 18);
      N.lor 0x80 (N.land (N.shiftr cp 12) 0x3F);
      N.lor 0x80 (N.land (N.shiftr cp 6) 0x3F);
      N.lor 0x80 (N.land cp 0x3F)])%N.

(** An upper-case hexadecimal digit. *)
Definition hexDigit (n : N) : N := (if n <? 10 then 48 + n else 55 + n)%N.

(** "%" followed by the two-digit upper-case hexadecimal octet. *)
Definition escapeOctet (b : N) : jsstring :=
  [37; hexDigit (b / 16); hexDigit (b mod 16)]%N.

Definition escapeOctets (bs : list N) : jsstring :=
  concat (map escapeOctet bs).

(** [None] stands for the URIError thrown on an unpaired surrogate. *)
Fixpoint encode (s : jsstring) : option jsstring :=
  match s with
  | [] => Some []
  | c :: rest =>
      if unescaped c then option_map (cons c) (encode rest)
      else if isTrailSurrogate c then None
      else if isLeadSurrogate c then
        match rest with
        | d :: rest' =>
            if isTrailSurrogate d then
              option_map (app (escapeOctets (utf8 (pairToCodePoint c d))))
                         (encode rest')
            else None
        | [] => None
        end
      else option_map (app (escapeOctets (utf8 c))) (encode rest)
  end.

Definition encodeURIComponent := encode.

End URI.

(** ** Thrown values and the outcome of an asynchronous computation *)

(** What the program reads from a caught value [e]: [e.message] and
    [String(e)]. *)
Record JsError := mkError { e_message : option string; e_string : string }.

Definition URIError : JsError :=
  {| e_message := Some "URI malformed"%string;
     e_string := "URIError: URI malformed"%string |}.

(** [e.message || String(e)]: the empty string and [undefined] are falsy. *)
Definition errorText (e : JsError) : string :=
  match e_message e with
  | Some m => if String.eqb m EmptyString then e_string e else m
  | None => e_string e
  end.

(** An [await]ed promise resolves, rejects, or stays pending for ever. *)
Inductive Res (A : Type) : Type :=
| Ok (a : A)
| Throw (e : JsError)
| Pending.
Arguments Ok {A} a.
Arguments Throw {A} e.
Arguments Pending {A}.

(** ** The deep link *)

Definition host : string := "web.whatsapp.com".

Definition buildWhatsAppUrl (phone message : jsstring) : Res jsstring :=
  match URI.encodeURIComponent message with
  | None => Throw URIError
  | Some text =>
      match URI.encodeURIComponent phone with
      | None => Throw URIError
      | Some p =>
          Ok (lit "https://web.whatsapp.com/send?phone=" ++ p ++ lit "&text=" ++ text)
      end
  end.

(** ** The page's DOM, as the in-page script reads it

    The document is the table of its elements in document order; each
    element knows its parent element by index.  [rendered] is what the
    script tests with [offsetParent !== null]. *)

Record Element := mkElement {
  tag : string;
  attrs : list (string * string);
  parent : option nat;
  rendered : bool
}.

Definition Document := list Element.

Module Dom.

Fixpoint getAttribute (name : string) (l : list (string * string)) : option string :=
  match l with
  | [] => None
  | (k, v) :: rest => if String.eqb k name then Some v else getAttribute name rest
  end.

(** The selectors the script uses: an optional tag name and an optional
    [attr="value"] test. *)
Record Selector := mkSelector {
  sel_tag : option string;
  sel_attr : option (string * string)
}.

Definition matches (sel : Selector) (e : Element) : bool :=
  match sel_tag sel with
  | Some t => String.eqb (tag e) t
  | None => true
  end &&
  match sel_attr sel with
  | Some (k, v) =>
      match getAttribute k (attrs e) with
      | Some v' => String.eqb v' v
      | None => false
      end
  | None => true
  end.

Fixpoint matchesFrom (sel : Selector) (i : nat) (els : list Element) : list nat :=
  match els with
  | [] => []
  | e :: rest =>
      if matches sel e then i :: matchesFrom sel (S i) rest
      else matchesFrom sel (S i) rest
  end.

Definition querySelectorAll (sel : Selector) (doc : Document) : list nat :=
  matchesFrom sel 0%nat doc.

Definition querySelector (sel : Selector) (doc : Document) : option nat :=
  head (querySelectorAll sel doc).

(** [el.closest(sel)]: the element itself or its nearest ancestor that
    matches.  The fuel bounds the walk up the parent chain. *)
Fixpoint closestFrom (fuel : nat) (doc : Document) (sel : Selector) (i : nat) : option nat :=
  match fuel with
  | O => None
  | S fuel' =>
      match doc !! i with
      | None => None
      | Some e =>
          if matches sel e then Some i
          else match parent e with
               | Some p => closestFrom fuel' doc sel p
               | None => None
               end
      end
  end.

Definition closest (doc : Document) (sel : Selector) (i : nat) : option nat :=
  closestFrom (S (length doc)) doc sel i.

(** [el.offsetParent !== null] *)
Definition hasOffsetParent (doc : Document) (i : nat) : bool :=
  match doc !! i with
  | Some e => rendered e
  | None => false
  end.

Definition lowerAscii (a : ascii) : ascii :=
  let n := nat_of_ascii a in
  if ((65 <=? n) && (n <=? 90))%nat then ascii_of_nat (n + 32) else a.

(** [toLowerCase] on the letters A-Z.  No other character lower-cases to
    one of s, e, n, d, so the test below is not affected. *)
Fixpoint toLowerCase (s : string) : string :=
  match s with
  | EmptyString => EmptyString
  | String a rest => String (lowerAscii a) (toLowerCase rest)
  end.

Fixpoint includes (needle hay : string) : bool :=
  String.prefix needle hay ||
  match hay with
  | EmptyString => false
  | String _ rest => includes needle rest
  end.

End Dom.

Module Ladder.
Import Dom.

Definition selectors : list Selector :=
  [ mkSelector (Some "button") (Some ("aria-label", "Send"));
    mkSelector (Some "button") (Some ("data-testid", "send"));
    mkSelector (Some "button") (Some ("data-tab", "11"));
    mkSelector None (Some ("data-testid", "send")) ]%string.

Definition sendIcon : Selector :=
  mkSelector (Some "span"%string) (Some ("data-icon", "send")%string).

Definition button : Selector := mkSelector (Some "button"%string) None.

(** Each function returns the element it clicked, if any. *)

(** Try direct selectors first *)
Fixpoint tryDirect (doc : Document) (sels : list Selector) : option nat :=
  match sels with
  | [] => None
  | sel :: rest =>
      match querySelector sel doc with
      | Some el => if hasOffsetParent doc el then Some el else tryDirect doc rest
      | None => tryDirect doc rest
      end
  end.

(** Fallback: a span with data-icon="send", click its parent button *)
Fixpoint tryIcons (doc : Document) (spans : list nat) : option nat :=
  match spans with
  | [] => None
  | span :: rest =>
      match closest doc button span with
      | Some btn => if hasOffsetParent doc btn then Some btn else tryIcons doc rest
      | None => tryIcons doc rest
      end
  end.

Definition ariaLabel (doc : Document) (i : nat) : string :=
  match doc !! i with
  | Some e =>
      match getAttribute "aria-label" (attrs e) with
      | Some l => if String.eqb l EmptyString then EmptyString else l
      | None => EmptyString
      end
  | None => EmptyString
  end.

(** Last resort: a visible button whose aria-label contains "send" *)
Fixpoint tryLabels (doc : Document) (btns : list nat) : option nat :=
  match btns with
  | [] => None
  | btn :: rest =>
      let label := toLowerCase (ariaLabel doc btn) in
      if includes "send" label && hasOffsetParent doc btn then Some btn
      else tryLabels doc rest
  end.

(** The function passed to [page.evaluate] by [trySendClick]. *)
Definition script (doc : Document) : option nat :=
  match tryDirect doc selectors with
  | Some el => Some el
  | None =>
      match tryIcons doc (querySelectorAll sendIcon doc) with
      | Some btn => Some btn
      | None => tryLabels doc (querySelectorAll button doc)
      end
  end.

End Ladder.

(** ** Recipients, driver calls and the history *)

Record Row := mkRow {
  phone : jsstring;
  message : jsstring;
  name : option jsstring
}.

(** The argument of [onProgress]: [{ index, row, ok, error? }]. *)
Record Progress := mkProgress {
  index : nat;
  row : Row;
  ok : bool;
  error : option string
}.

(** The arguments of [onEvent]. *)
Inductive MonitorEvent :=
| RowEvent (clicked : bool) (t : Z) (clicks : Z) (index : nat) (row : Row)
           (ok : bool) (error : option string)
| DoneEvent (clicks : Z)
| ClickEvent (t : Z) (clicks : Z).

(** The two functions the program passes to [page.evaluate]. *)
Inductive Script := ZoomScript | LadderScript.

(** Contexts and pages are named by the number they were created with. *)
Inductive Call :=
| Mkdir (dir : string)
| LaunchPersistentContext (dir : string)
| NewPage (context : nat)
| Goto (page : nat) (url : jsstring)
| WaitForSelector (page : nat) (selector : string) (timeout : Z)
| Evaluate (page : nat) (script : Script)
| IsVisible (page : nat) (selector : string)
| LocatorClick (page : nat) (selector : string)
| KeyboardPress (page : nat) (key : string)
| Screenshot (page : nat)
| ContextClose (context : nat)
| Sleep (ms : Z).

Inductive Event :=
| Called (c : Call)                       (* a driver call was issued and awaited *)
| Clicked (page : nat) (element : nat)    (* [el.click()] inside the page *)
| OnProgress (p : Progress)               (* [onProgress] was invoked *)
| OnEvent (monitor : nat) (e : MonitorEvent)   (* [onEvent] was invoked *)
| Stopping (monitor : nat).                (* [stop()] ran on a monitor's handle *)

Definition History := list Event.

Inductive Settle := Resolves | Rejects (e : JsError) | Hangs.

(** The environment: the browser, the clock and the operator. Every answer
    may depend on all that has happened before. *)
Record Env := mkEnv {
  settle : History -> Call -> Settle;
  dom : History -> nat -> Document;
  visible : History -> nat -> string -> bool;
  clock : History -> Z;
  isClosed : History -> nat -> bool;
  png : History -> nat -> list N;
  stopRequested : History -> bool
}.

(** ** The store *)

Record Stats := mkStats {
  running : bool;
  clicks : Z;
  lastClick : option Z;
  current : option jsstring
}.

(** What one invocation of [startMonitor] closes over. *)
Record Monitor := mkMonitor {
  stats : Stats;
  stopped : bool;
  context : nat
}.

Record Store := mkStore {
  history : History;
  monitors : list Monitor;
  lastPage : option nat;            (* waSender.js *)
  monitorHandle : option nat;       (* server.js *)
  created : nat                     (* contexts and pages created so far *)
}.

Definition initial : Store :=
  {| history := []; monitors := []; lastPage := None; monitorHandle := None;
     created := 0 |}.

Definition withHistory (h : History) (s : Store) : Store :=
  {| history := h; monitors := monitors s; lastPage := lastPage s;
     monitorHandle := monitorHandle s; created := created s |}.

Definition withMonitors (ms : list Monitor) (s : Store) : Store :=
  {| history := history s; monitors := ms; lastPage := lastPage s;
     monitorHandle := monitorHandle s; created := created s |}.

Definition withLastPage (p : option nat) (s : Store) : Store :=
  {| history := history s; monitors := monitors s; lastPage := p;
     monitorHandle := monitorHandle s; created := created s |}.

Definition withMonitorHandle (m : option nat) (s : Store) : Store :=
  {| history := history s; monitors := monitors s; lastPage := lastPage s;
     monitorHandle := m; created := created s |}.

Definition withCreated (n : nat) (s : Store) : Store :=
  {| history := history s; monitors := monitors s; lastPage := lastPage s;
     monitorHandle := monitorHandle s; created := n |}.

Definition record (e : Event) (s : Store) : Store :=
  withHistory (history s ++ [e]) s.

Definition withStats (f : Stats -> Stats) (m : Monitor) : Monitor :=
  {| stats := f (stats m); stopped := stopped m; context := context m |}.

Definition withStopped (b : bool) (m : Monitor) : Monitor :=
  {| stats := stats m; stopped := b; context := context m |}.

Definition setRunning (b : bool) (s : Stats) : Stats :=
  {| running := b; clicks := clicks s; lastClick := lastClick s; current := current s |}.

Definition setClicks (n : Z) (s : Stats) : Stats :=
  {| running := running s; clicks := n; lastClick := lastClick s; current := current s |}.

Definition setLastClick (t : Z) (s : Stats) : Stats :=
  {| running := running s; clicks := clicks s; lastClick := Some t; current := current s |}.

Definition setCurrent (c : jsstring) (s : Stats) : Stats :=
  {| running := running s; clicks := clicks s; lastClick := lastClick s; current := Some c |}.

Definition updateMonitor (m : nat) (f : Monitor -> Monitor) (s : Store) : Store :=
  withMonitors (alter f m (monitors s)) s.

(** Reading through a handle. A monitor that was never created reads as
    stopped. *)
Definition statsOf (m : nat) (s : Store) : option Stats :=
  stats <$> monitors s !! m.

Definition isStopped (m : nat) (s : Store) : bool :=
  match monitors s !! m with
  | Some c => stopped c
  | None => true
  end.

Definition isRunning (m : nat) (s : Store) : bool :=
  match monitors s !! m with
  | Some c => running (stats c)
  | None => false
  end.

Definition clicksOf (m : nat) (s : Store) : Z :=
  match monitors s !! m with
  | Some c => clicks (stats c)
  | None => 0
  end.

(** ** Asynchronous computations

    An [async] function is a function of the store that yields how its
    promise settles and the store it leaves behind. *)

Definition M (A : Type) : Type := Store -> Res A * Store.

Definition ret {A} (a : A) : M A := fun s => (Ok a, s).

Definition throw {A} (e : JsError) : M A := fun s => (Throw e, s).

Definition bind {A B} (m : M A) (k : A -> M B) : M B :=
  fun s =>
    match m s with
    | (Ok a, s') => k a s'
    | (Throw e, s') => (Throw e, s')
    | (Pending, s') => (Pending, s')
    end.

(** [try { m } catch (e) { handler e }] *)
Definition tryCatch {A} (m : M A) (handler : JsError -> M A) : M A :=
  fun s =>
    match m s with
    | (Throw e, s') => handler e s'
    | other => other
    end.

(** [try { m } finally { fin }] *)
Definition tryFinally {A} (m : M A) (fin : M unit) : M A :=
  fun s =>
    match m s with
    | (Pending, s') => (Pending, s')
    | (r, s') =>
        match fin s' with
        | (Ok _, s'') => (r, s'')
        | (Throw e, s'') => (Throw e, s'')
        | (Pending, s'') => (Pending, s'')
        end
    end.

Definition lift {A} (r : Res A) : M A := fun s => (r, s).

Definition gets {A} (f : Store -> A) : M A := fun s => (Ok (f s), s).

Definition modify (f : Store -> Store) : M unit := fun s => (Ok tt, f s).

Declare Scope async_scope.
Delimit Scope async_scope with async.
Notation "x <- m ;; k" := (bind m (fun x => k))
  (at level 100, m at next level, k at level 200, right associativity) : async_scope.
Notation "m ;; k" := (bind m (fun _ => k))
  (at level 100, k at level 200, right associativity) : async_scope.
Open Scope async_scope.

Definition BATCH_SESSION_DIR : string := ".wa-session".
Definition MONITOR_SESSION_DIR : string := ".wa-session-monitor".

(** Selector texts handed to the driver: [tag[attr="value"]]. *)
Definition quote : string := String (ascii_of_nat 34) EmptyString.

Definition attrSelector (tag attr value : string) : string :=
  (tag ++ "[" ++ attr ++ "=" ++ quote ++ value ++ quote ++ "]")%string.

(** [div[contenteditable="true"][data-tab]]: present once a chat view (or
    the chat list) has loaded. *)
Definition composer : string :=
  (attrSelector "div" "contenteditable" "true" ++ "[data-tab]")%string.

Definition decimal (n : nat) : jsstring :=
  lit (NilEmpty.string_of_uint (Nat.to_uint n)).

(** What a route of server.js answers. *)
Inductive Response :=
| Success (already : bool)      (* 200 [{ ok: true }], [{ ok: true, already: true }] *)
| NotRunning                    (* 200 [{ ok: true, was: 'not running' }] *)
| InvalidPayload                (* 400 [{ error: 'Invalid payload', issues }] *)
| Failure (error : string).     (* 500 [{ error }] *)

(** What awaiting a call gives, by the way the call settles. *)
Definition settled (r : Settle) : Res unit :=
  match r with
  | Resolves => Ok tt
  | Rejects e => Throw e
  | Hangs => Pending
  end.

(** ** waSender.js *)

Section Engine.

Variable env : Env.

(** *** Driver calls and suspension points *)

(** Issue a driver call, recorded as [e], and take its settlement: no other
    task runs. *)
Definition callAs (e : Event) (c : Call) : M unit :=
  fun s =>
    let s' := record e s in
    match settle env (history s) c with
    | Resolves => (Ok tt, s')
    | Rejects e => (Throw e, s')
    | Hangs => (Pending, s')
    end.

Definition call (c : Call) : M unit := callAs (Called c) c.

(** [stop] of the handle returned by [startMonitor]:
    [stopped = true; stats.running = false;
     try { await context.close(); } catch (_) { }]
    Its [context.close()] is recorded as [Stopping m], so that the history
    tells the calls of the engine's own tasks from the operator's. *)
Definition halted (c : Monitor) : Monitor :=
  withStats (setRunning false) (withStopped true c).

Definition stop (m : nat) : M unit :=
  modify (updateMonitor m halted);;
  c <- gets (fun s => monitors s !! m);;
  match c with
  | Some c => tryCatch (callAs (Stopping m) (ContextClose (context c))) (fun _ => ret tt)
  | None => ret tt
  end.

(** The only other task whose effects the engine can observe is the
    handler of [POST /api/monitor/stop] of server.js:
    [if (!monitorHandle) return ...;
     await monitorHandle.stop(); monitorHandle = null;] *)
Definition monitorStopRoute : M Response :=
  h <- gets monitorHandle;;
  match h with
  | None => ret NotRunning
  | Some m =>
      tryCatch (stop m;; modify (withMonitorHandle None);; ret (Success false))
               (fun e => ret (Failure (errorText e)))
  end.

(** While a task is suspended at an [await], the operator's stop request
    may be served.  Here it is served to its end before the task resumes:
    its [context.close()] has settled by then.  What the handler does
    after its own [await] is [monitorHandle = null], and no task of the
    engine reads the handle; for the routes, which do, the handler is
    given in its two halves, [monitorStopBegin] and [monitorStopEnd]
    below. *)
Definition interfere (s : Store) : Store :=
  if stopRequested env (history s) then snd (monitorStopRoute s) else s.

Definition awaiting {A} (m : M A) : M A :=
  fun s => let (r, s') := m s in (r, interfere s').

Definition await (c : Call) : M unit := awaiting (call c).

(** [setTimeout] always fires. *)
Definition sleep (ms : Z) : M unit :=
  awaiting (modify (record (Called (Sleep ms)))).

(** An [await] in its two halves, for the places where what happens
    between them matters.  First the call is issued: it is recorded and how
    it will settle is determined, but nothing has been awaited yet. *)
Definition issueAs (e : Event) (c : Call) : M Settle :=
  fun s => (Ok (settle env (history s) c), record e s).

Definition issue (c : Call) : M Settle := issueAs (Called c) c.

(** Then the task that awaits it is resumed with its result; other tasks
    have run meanwhile. *)
Definition resume {A} (r : Res A) : M A := awaiting (lift r).

(** [Date.now()] *)
Definition now : M Z := gets (fun s => clock env (history s)).

(** A call that creates a context or a page. *)
Definition create (c : Call) : M nat :=
  await c;;
  n <- gets created;;
  modify (withCreated (S n));;
  ret n.

Definition ensureDir (p : string) : M unit := await (Mkdir p).

Definition getContext (sessionDir : string) : M nat :=
  ensureDir sessionDir;;
  create (LaunchPersistentContext sessionDir).

Definition newPage (context : nat) : M nat := create (NewPage context).

Definition waitForReady (page : nat) : M unit :=
  await (Goto page (lit "https://web.whatsapp.com/"));;
  (* Wait until logged in (search box visible = chat list loaded) *)
  await (WaitForSelector page composer 0);;
  await (Evaluate page ZoomScript).

(** *** trySendClick *)

(** Strategy 1: the in-page script. *)
Definition evaluateLadder (page : nat) : M bool :=
  awaiting
    (call (Evaluate page LadderScript);;
     el <- gets (fun s => Ladder.script (dom env (history s) page));;
     match el with
     | Some el => modify (record (Clicked page el));; ret true
     | None => ret false
     end).

Definition playwrightSelectors : list string :=
  [ attrSelector "button" "aria-label" "Send";
    attrSelector "button" "data-testid" "send";
    attrSelector "span" "data-icon" "send";
    ("button " ++ attrSelector "span" "data-icon" "send")%string ].

(** [loc.isVisible()] *)
Definition isVisible (page : nat) (sel : string) : M bool :=
  awaiting
    (call (IsVisible page sel);;
     gets (fun s => visible env (history s) page sel)).

(** Strategy 2: Playwright locators as backup. *)
Fixpoint tryLocators (page : nat) (sels : list string) : M bool :=
  match sels with
  | [] => ret false
  | sel :: rest =>
      done <- tryCatch
                (vis <- tryCatch (isVisible page sel) (fun _ => ret false);;
                 if vis then await (LocatorClick page sel);; ret true
                 else ret false)
                (fun _ => ret false);;
      if done then ret true else tryLocators page rest
  end.

Definition trySendClick (page : nat) : M bool :=
  clicked <- evaluateLadder page;;
  if clicked then ret true
  else tryLocators page playwrightSelectors.

(** *** sendSingle *)

(** [for (attempt < 5) { ok = await trySendClick(page); if (ok) return;
     await sleep(1000); }]: [true] when the function returned early. *)
Fixpoint sendAttempts (attempts : nat) (page : nat) : M bool :=
  match attempts with
  | O => ret false
  | S attempts' =>
      ok <- trySendClick page;;
      if ok then ret true
      else sleep 1000;; sendAttempts attempts' page
  end.

Definition sendSingle (page : nat) (r : Row) : M unit :=
  url <- lift (buildWhatsAppUrl (phone r) (message r));;
  await (Goto page url);;
  (* Wait for chat to load: wait for message input *)
  await (WaitForSelector page composer 60000);;
  sleep 2000;;
  returned <- sendAttempts 5 page;;
  if returned then ret tt
  else
    (* Final fallback: press Enter *)
    await (KeyboardPress page "Enter");;
    sleep 1200.

(** *** sendBatch *)

(** [onProgress?.(p)]: the flag says whether the caller passed one. *)
Definition notifyProgress (onProgress : bool) (p : Progress) : M unit :=
  if onProgress then modify (record (OnProgress p)) else ret tt.

(** The body of the loop of [sendBatch] for [row = rows[i]]. *)
Definition batchIteration (page : nat) (onProgress : bool) (delayMs : Z)
           (i : nat) (r : Row) : M unit :=
  tryCatch
    (sendSingle page r;;
     notifyProgress onProgress (mkProgress i r true None))
    (fun e =>
       notifyProgress onProgress (mkProgress i r false (Some (errorText e))));;
  sleep delayMs.

(** [for (let i = 0; i < rows.length; i++)], over the rows from [i] on. *)
Fixpoint batchLoop (page : nat) (onProgress : bool) (delayMs : Z)
         (i : nat) (rows : list Row) : M unit :=
  match rows with
  | [] => ret tt
  | r :: rest =>
      batchIteration page onProgress delayMs i r;;
      batchLoop page onProgress delayMs (S i) rest
  end.

Definition sendBatch (rows : list Row) (onProgress : bool) (delayMs : option Z) : M unit :=
  let delayMs := default 4000 delayMs in
  context <- getContext BATCH_SESSION_DIR;;
  page <- newPage context;;
  tryFinally
    (waitForReady page;;
     batchLoop page onProgress delayMs 0 rows)
    (await (ContextClose context)).

End Engine.

(** *** Monitor mode *)

(** The detached loop that [startMonitor] leaves behind.  [startMonitor]
    calls the loop, an async function, and does not await it: the loop
    runs at once up to its first [await], and the task says where it is
    suspended when [startMonitor] returns. *)
Inductive Task :=
| CsvTask (monitor page : nat) (r : Row) (rest : list Row) (delayMs : Z) (onEvent : bool)
          (url : jsstring) (goto : Settle)
    (* in [page.goto(url)] for the first recipient [r], which settles as [goto] *)
| CsvPause (monitor page : nat) (r : Row) (rest : list Row) (delayMs : Z) (onEvent : bool)
    (* the first recipient could not be put into a link and was reported;
       in the [sleep(delayMs)] after it *)
| WatchTask (monitor page : nat) (onEvent : bool) (evaluated : Res (option nat))
    (* in the [page.evaluate] of the first pass of the ladder, which
       resolves with the element the script clicks, if any *)
| WatchPause (monitor page : nat) (onEvent : bool)
    (* the first tick made no pass; in its [sleep(500)] *)
| Ended.
    (* the loop found [stopped] set and is over *)

Section MonitorMode.

Variable env : Env.

(** [let lastPage = null] is module state; [getScreenshot] reads it. *)
Definition getScreenshot : M (option (list N)) :=
  p <- gets lastPage;;
  match p with
  | None => ret None
  | Some page =>
      closed <- gets (fun s => isClosed env (history s) page);;
      if closed then ret None
      else
        tryCatch
          (awaiting env
             (call env (Screenshot page);;
              bytes <- gets (fun s => png env (history s) page);;
              ret (Some bytes)))
          (fun _ => ret None)
  end.

(** [onEvent?.(e)] *)
Definition notifyEvent (onEvent : bool) (m : nat) (e : MonitorEvent) : M unit :=
  if onEvent then modify (record (OnEvent m e)) else ret tt.

Definition getStopped (m : nat) : M bool := gets (isStopped m).

Definition getClicks (m : nat) : M Z := gets (clicksOf m).

Definition updateStats (m : nat) (f : Stats -> Stats) : M unit :=
  modify (updateMonitor m (withStats f)).

(** [`${i + 1}/${rows.length} — ${row.phone}`] *)
Definition currentMarker (i total : nat) (r : Row) : jsstring :=
  decimal (i + 1) ++ lit "/" ++ decimal total ++ lit " " ++ [0x2014%N] ++ lit " "
    ++ phone r.

(** [for (attempt < 5 && !sent) { sent = await trySendClick(page);
     if (!sent) await sleep(1000); }] *)
Fixpoint csvAttempts (attempts : nat) (page : nat) (sent : bool) : M bool :=
  match attempts with
  | O => ret sent
  | S attempts' =>
      if sent then ret sent
      else
        sent' <- trySendClick env page;;
        (if sent' then ret tt else sleep env 1000);;
        csvAttempts attempts' page sent'
  end.

(** The [try] block of one CSV iteration. *)
Definition csvSend (m page : nat) (onEvent : bool) (i : nat) (r : Row) : M unit :=
  url <- lift (buildWhatsAppUrl (phone r) (message r));;
  await env (Goto page url);;
  await env (WaitForSelector page composer 60000);;
  sleep env 2500;;
  sent <- csvAttempts 5 page false;;
  (if sent then ret tt
   else (* Last resort: press Enter *) await env (KeyboardPress page "Enter"));;
  n <- getClicks m;;
  updateStats m (setClicks (n + 1));;
  t <- now env;;
  updateStats m (setLastClick t);;
  notifyEvent onEvent m (RowEvent true t (n + 1) i r true None).

(** One CSV iteration up to, and without, the trailing sleep. *)
Definition csvIteration (m page : nat) (onEvent : bool) (total i : nat) (r : Row) : M unit :=
  updateStats m (setCurrent (currentMarker i total r));;
  tryCatch
    (csvSend m page onEvent i r)
    (fun e =>
       t <- now env;;
       n <- getClicks m;;
       notifyEvent onEvent m (RowEvent false t n i r false (e_message e))).

(** [for (let i = 0; i < rows.length && !stopped; i++) { ...;
     if (!stopped) await sleep(delayMs); }] over the rows from [i] on. *)
Fixpoint csvLoop (m page : nat) (onEvent : bool) (delayMs : Z) (total i : nat)
         (rows : list Row) : M unit :=
  match rows with
  | [] => ret tt
  | r :: rest =>
      halt <- getStopped m;;
      if halt then ret tt
      else
        csvIteration m page onEvent total i r;;
        halt <- getStopped m;;
        (if halt then ret tt else sleep env delayMs);;
        csvLoop m page onEvent delayMs total (S i) rest
  end.

Definition closeQuietly (context : nat) : M unit :=
  tryCatch (await env (ContextClose context)) (fun _ => ret tt).

(** What follows the loop: [if (!stopped) { stats.running = false;
    stats.current = 'Done'; onEvent?.({ done: true, ... });
    try { await context.close(); } catch (_) { } }] *)
Definition csvFinish (m : nat) (onEvent : bool) : M unit :=
  halt <- getStopped m;;
  if halt then ret tt
  else
    updateStats m (setRunning false);;
    updateStats m (setCurrent (lit "Done"));;
    n <- getClicks m;;
    notifyEvent onEvent m (DoneEvent n);;
    c <- gets (fun s => monitors s !! m);;
    match c with
    | Some c => closeQuietly (context c)
    | None => ret tt
    end.

Definition csvMode (m page : nat) (rows : list Row) (delayMs : Z) (onEvent : bool) : M unit :=
  csvLoop m page onEvent delayMs (length rows) 0 rows;;
  csvFinish m onEvent.

(** The loop has not ended within the ticks observed. *)
Definition stillRunning : M unit := fun s => (Pending, s).

(** One tick of watch mode, up to the sleep: the new [lastClickedAt]. *)
Definition watchTick (m page : nat) (onEvent : bool) (lastClickedAt : Z) : M Z :=
  tryCatch
    (t0 <- now env;;
     (* Debounce: don't click again within 1.5s of last click *)
     if t0 - lastClickedAt >? 1500 then
       clicked <- trySendClick env page;;
       if clicked then
         n <- getClicks m;;
         updateStats m (setClicks (n + 1));;
         t <- now env;;
         updateStats m (setLastClick t);;
         notifyEvent onEvent m (ClickEvent t (n + 1));;
         ret t
       else ret lastClickedAt
     else ret lastClickedAt)
    (fun _ => (* Page navigating: ignore *) ret lastClickedAt).

(** [while (!stopped) { ...; await sleep(500); }], for [ticks] ticks. *)
Fixpoint watchLoop (ticks : nat) (m page : nat) (onEvent : bool) (lastClickedAt : Z) : M unit :=
  match ticks with
  | O => stillRunning
  | S ticks' =>
      halt <- getStopped m;;
      if halt then ret tt
      else
        lastClickedAt' <- watchTick m page onEvent lastClickedAt;;
        sleep env 500;;
        watchLoop ticks' m page onEvent lastClickedAt'
  end.

Definition watching : jsstring := lit "Watching for send button" ++ [0x2026%N].

Definition watchMode (ticks : nat) (m page : nat) (onEvent : bool) : M unit :=
  updateStats m (setCurrent watching);;
  watchLoop ticks m page onEvent 0.

(** *** The loop in two parts: up to its first [await], and from there on *)

(** The [catch] block of a CSV iteration. *)
Definition csvCatch (m : nat) (onEvent : bool) (i : nat) (r : Row) (e : JsError) : M unit :=
  t <- now env;;
  n <- getClicks m;;
  notifyEvent onEvent m (RowEvent false t n i r false (e_message e)).

(** The [try] block of a CSV iteration from the result of its
    [page.goto] on. *)
Definition csvSendFrom (m page : nat) (onEvent : bool) (i : nat) (r : Row)
           (goto : Res unit) : M unit :=
  resume env goto;;
  await env (WaitForSelector page composer 60000);;
  sleep env 2500;;
  sent <- csvAttempts 5 page false;;
  (if sent then ret tt
   else (* Last resort: press Enter *) await env (KeyboardPress page "Enter"));;
  n <- getClicks m;;
  updateStats m (setClicks (n + 1));;
  t <- now env;;
  updateStats m (setLastClick t);;
  notifyEvent onEvent m (RowEvent true t (n + 1) i r true None).

(** The CSV loop up to its first [await]: the [page.goto] of the first
    recipient, or, when [buildWhatsAppUrl] throws, the pause that follows
    the report of that recipient. *)
Definition startCsv (m page : nat) (r : Row) (rest : list Row) (delayMs : Z)
           (onEvent : bool) : M Task :=
  halt <- getStopped m;;
  if halt then ret Ended
  else
    updateStats m (setCurrent (currentMarker 0 (length (r :: rest)) r));;
    match buildWhatsAppUrl (phone r) (message r) with
    | Ok url =>
        goto <- issue env (Goto page url);;
        ret (CsvTask m page r rest delayMs onEvent url goto)
    | Throw e =>
        csvCatch m onEvent 0 r e;;
        halt <- getStopped m;;
        if halt then ret Ended
        else
          modify (record (Called (Sleep delayMs)));;
          ret (CsvPause m page r rest delayMs onEvent)
    | Pending => lift Pending   (* [buildWhatsAppUrl] returns or throws *)
    end.

(** [page.evaluate] of the ladder script, issued: how it settles and, when
    it resolves, what the script clicks. *)
Definition issueLadder (page : nat) : M (Res (option nat)) :=
  fun s =>
    let s1 := record (Called (Evaluate page LadderScript)) s in
    (Ok match settle env (history s) (Evaluate page LadderScript) with
        | Resolves => Ok (Ladder.script (dom env (history s1) page))
        | Rejects e => Throw e
        | Hangs => Pending
        end, s1).

(** [trySendClick] from the result of that evaluation on. *)
Definition trySendClickFrom (page : nat) (evaluated : Res (option nat)) : M bool :=
  clicked <- awaiting env
               (el <- lift evaluated;;
                match el with
                | Some el => modify (record (Clicked page el));; ret true
                | None => ret false
                end);;
  if clicked then ret true
  else tryLocators env page playwrightSelectors.

(** A tick of watch mode from the result of the evaluation of its pass
    on. *)
Definition watchTickFrom (m page : nat) (onEvent : bool) (lastClickedAt : Z)
           (evaluated : Res (option nat)) : M Z :=
  tryCatch
    (clicked <- trySendClickFrom page evaluated;;
     if clicked then
       n <- getClicks m;;
       updateStats m (setClicks (n + 1));;
       t <- now env;;
       updateStats m (setLastClick t);;
       notifyEvent onEvent m (ClickEvent t (n + 1));;
       ret t
     else ret lastClickedAt)
    (fun _ => (* Page navigating: ignore *) ret lastClickedAt).

(** The watch loop up to its first [await]: the [page.evaluate] of the
    first pass, or the pause of a first tick that makes no pass. *)
Definition startWatch (m page : nat) (onEvent : bool) : M Task :=
  updateStats m (setCurrent watching);;
  halt <- getStopped m;;
  if halt then ret Ended
  else
    t0 <- now env;;
    if t0 - 0 >? 1500 then
      evaluated <- issueLadder page;;
      ret (WatchTask m page onEvent evaluated)
    else
      modify (record (Called (Sleep 500)));;
      ret (WatchPause m page onEvent).

(** [if (rows && rows.length > 0) { (async () => ...)(); }
     else { (async () => ...)(); }] up to the first [await] of the loop. *)
Definition startLoop (m page : nat) (rows : option (list Row)) (delayMs : Z)
           (onEvent : bool) : M Task :=
  match rows with
  | Some (r :: rest) => startCsv m page r rest delayMs onEvent
  | _ => startWatch m page onEvent
  end.

(** The loop from its first [await] on.  ([ticks] bounds the ticks of the
    watch loop that are observed.) *)
Definition runTask (ticks : nat) (t : Task) : M unit :=
  match t with
  | CsvTask m page r rest delayMs onEvent url goto =>
      tryCatch (csvSendFrom m page onEvent 0 r (settled goto)) (csvCatch m onEvent 0 r);;
      halt <- getStopped m;;
      (if halt then ret tt else sleep env delayMs);;
      csvLoop m page onEvent delayMs (length (r :: rest)) 1 rest;;
      csvFinish m onEvent
  | CsvPause m page r rest delayMs onEvent =>
      resume env (Ok tt);;
      csvLoop m page onEvent delayMs (length (r :: rest)) 1 rest;;
      csvFinish m onEvent
  | WatchTask m page onEvent evaluated =>
      lastClickedAt <- watchTickFrom m page onEvent 0 evaluated;;
      sleep env 500;;
      watchLoop ticks m page onEvent lastClickedAt
  | WatchPause m page onEvent =>
      resume env (Ok tt);;
      watchLoop ticks m page onEvent 0
  | Ended => ret tt
  end.

(** [const stats = { running: true, clicks: 0, lastClick: null,
     current: null }; let stopped = false;] *)
Definition newMonitor (context : nat) : M nat :=
  m <- gets (fun s => length (monitors s));;
  modify (fun s =>
    withMonitors
      (monitors s ++ [ {| stats := mkStats true 0 None None; stopped := false;
                          context := context |} ]) s);;
  ret m.

(** [startMonitor] up to its [return { stats, stop }].  The loop is an
    async function that is called and not awaited: it has run up to its
    first [await] when [startMonitor] returns, and what it does from there
    on is the task that is left behind. *)
Definition startMonitor (rows : option (list Row)) (delayMs : option Z) (onEvent : bool)
  : M (nat * Task) :=
  let delayMs := default 4000 delayMs in
  context <- getContext env MONITOR_SESSION_DIR;;
  page <- newPage env context;;
  modify (withLastPage (Some page));;
  m <- newMonitor context;;
  waitForReady env page;;
  task <- startLoop m page rows delayMs onEvent;;
  ret (m, task).

End MonitorMode.

(** ** server.js: the monitor routes *)

(** The body of [POST /api/monitor/start] once parsed as JSON. *)
Record StartRequest := mkStartRequest {
  req_rows : option (list Row);
  req_delayMs : option Z
}.

(** [MonitorStartSchema] *)
Definition validRow (r : Row) : bool :=
  (5 <=? length (phone r))%nat && (1 <=? length (message r))%nat.

Definition validDelay (d : Z) : bool := (500 <=? d) && (d <=? 30000).

Definition MonitorStartSchema (q : StartRequest) : bool :=
  match req_rows q with Some rows => forallb validRow rows | None => true end &&
  match req_delayMs q with Some d => validDelay d | None => true end.

(** How far a handler has come when it is suspended. *)
Inductive StopProgress :=
| StopAnswered (r : Response)
| Closing (close : Settle).       (* in [context.close()], which settles as [close] *)

Inductive StartProgress :=
| StartAnswered (r : Response)
| AwaitingLogin (monitor page : nat) (login : Settle).
    (* in the readiness wait of [startMonitor], which settles as [login] *)

Section Routes.

Variable env : Env.

(** [monitorHandle && monitorHandle.stats.running] *)
Definition monitorActive (s : Store) : bool :=
  match monitorHandle s with
  | Some m => isRunning m s
  | None => false
  end.

Definition monitorStartRoute (q : StartRequest) : M (Response * option Task) :=
  active <- gets monitorActive;;
  if active then ret (Success true, None)
  else if negb (MonitorStartSchema q) then ret (InvalidPayload, None)
  else
    tryCatch
      (started <- startMonitor env (req_rows q) (Some (default 4000 (req_delayMs q))) true;;
       modify (withMonitorHandle (Some (fst started)));;
       ret (Success false, Some (snd started)))
      (fun e => ret (Failure (errorText e), None)).

(** *** Handlers that overlap

    A handler is suspended at each [await] and other requests are served
    meanwhile.  The stop route and the start route are given here in the
    two halves between which that matters: served without anything in
    between, the halves make up the routes above. *)

(** [POST /api/monitor/stop] up to its [await monitorHandle.stop()]: the
    flags are set and the close is issued. *)
Definition monitorStopBegin : M StopProgress :=
  h <- gets monitorHandle;;
  match h with
  | None => ret (StopAnswered NotRunning)
  | Some m =>
      modify (updateMonitor m halted);;
      c <- gets (fun s => monitors s !! m);;
      match c with
      | Some c =>
          close <- issueAs env (Stopping m) (ContextClose (context c));;
          ret (Closing close)
      | None => ret (Closing Resolves)
      end
  end.

(** The stop route from the end of the close on: [monitorHandle = null],
    whatever the handle is by then. *)
Definition monitorStopEnd (close : Settle) : M Response :=
  match close with
  | Hangs => lift Pending
  | _ => modify (withMonitorHandle None);; ret (Success false)
  end.

(** [POST /api/monitor/start] up to the readiness wait of [startMonitor],
    which has no timeout: the handler stays there until somebody logs
    in. *)
Definition monitorStartUntilLogin (q : StartRequest) : M StartProgress :=
  active <- gets monitorActive;;
  if active then ret (StartAnswered (Success true))
  else if negb (MonitorStartSchema q) then ret (StartAnswered InvalidPayload)
  else
    tryCatch
      (context <- getContext env MONITOR_SESSION_DIR;;
       page <- newPage env context;;
       modify (withLastPage (Some page));;
       m <- newMonitor context;;
       await env (Goto page (lit "https://web.whatsapp.com/"));;
       login <- issue env (WaitForSelector page composer 0);;
       ret (AwaitingLogin m page login))
      (fun e => ret (StartAnswered (Failure (errorText e)))).

(** The start route from the end of that wait on. *)
Definition monitorStartFromLogin (q : StartRequest) (m page : nat) (login : Settle)
  : M (Response * option Task) :=
  tryCatch
    (resume env (settled login);;
     await env (Evaluate page ZoomScript);;
     task <- startLoop env m page (req_rows q) (default 4000 (req_delayMs q)) true;;
     modify (withMonitorHandle (Some m));;
     ret (Success false, Some task))
    (fun e => ret (Failure (errorText e), None)).

Definition monitorStatusRoute : M (option Stats) :=
  h <- gets monitorHandle;;
  match h with
  | None => ret (Some (mkStats false 0 None None))
  | Some m => gets (statsOf m)
  end.

End Routes.

(** ** Vocabulary of the statements *)

(** *** Percent-encoding

    What the words "percent-encoded query parameter" mean, independently of
    [encodeURIComponent]: the text uses only characters that are safe inside
    a query component, and reading every [%XY] as the octet it denotes
    gives back the UTF-8 octets of the original string. *)

Module PercentEncoding.

(** Code units proper: below 2^16. *)
Definition codeUnits (s : jsstring) : Prop := Forall (fun c => (c < 0x10000)%N) s.

Definition isSurrogate (c : N) : bool := ((0xD800 <=? c) && (c <=? 0xDFFF))%N.

(** The code points of a UTF-16 string; [None] on an unpaired surrogate. *)
Fixpoint codePoints (s : jsstring) : option (list N) :=
  match s with
  | [] => Some []
  | c :: rest =>
      if negb (isSurrogate c) then option_map (cons c) (codePoints rest)
      else if (c <=? 0xDBFF)%N then
        match rest with
        | d :: rest' =>
            if ((0xDC00 <=? d) && (d <=? 0xDFFF))%N then
              option_map (cons (0x10000 + (c - 0xD800) * 0x400 + (d - 0xDC00))%N)
                         (codePoints rest')
            else None
        | [] => None
        end
      else None
  end.

Definition wellFormed (s : jsstring) : Prop := is_Some (codePoints s).

(** The UTF-8 octets of a well-formed string. *)
Definition octetsOf (s : jsstring) : option (list N) :=
  option_map (fun cps => concat (map URI.utf8 cps)) (codePoints s).

Definition hexValue (c : N) : option N :=
  (if (48 <=? c) && (c <=? 57) then Some (c - 48)
   else if (65 <=? c) && (c <=? 70) then Some (c - 55)
   else if (97 <=? c) && (c <=? 102) then Some (c - 87)
   else None)%N.

(** Percent-decoding, as a URL parser does it on a query component. *)
Fixpoint decode (s : jsstring) : option (list N) :=
  match s with
  | [] => Some []
  | c :: rest =>
      if (c =? 37)%N then
        match rest with
        | h :: l :: rest' =>
            match hexValue h, hexValue l with
            | Some a, Some b => option_map (cons (16 * a + b)%N) (decode rest')
            | _, _ => None
            end
        | _ => None
        end
      else option_map (cons c) (decode rest)
  end.

(** Characters that cannot end or split a query component: the unreserved
    ones, and "%" with its hexadecimal digits (which are unreserved). *)
Definition safe (c : N) : bool := URI.unescaped c || (c =? 37)%N.

Definition encodes (s text : jsstring) : Prop :=
  forallb safe text = true /\
  exists octets, octetsOf s = Some octets /\ decode text = Some octets.

(** [encodeURIComponent] is right at [s]: what it returns encodes [s], and
    it throws only when [s] has an unpaired surrogate. *)
Definition encodedRight (s : jsstring) : Prop :=
  match URI.encode s with
  | Some text => encodes s text
  | None => codePoints s = None
  end.

End PercentEncoding.

(** *** Reading the history *)

Definition isCalled (e : Event) : option Call :=
  match e with Called c => Some c | _ => None end.

Definition isProgress (e : Event) : option Progress :=
  match e with OnProgress p => Some p | _ => None end.

Definition isEventOf (m : nat) (e : Event) : option MonitorEvent :=
  match e with
  | OnEvent m' ev => if Nat.eqb m' m then Some ev else None
  | _ => None
  end.

(** The driver calls the engine's tasks have issued, oldest first. *)
Definition callsOf (h : History) : list Call := omap isCalled h.

(** The arguments [onProgress] has been invoked with, oldest first. *)
Definition progressOf (h : History) : list Progress := omap isProgress h.

(** The arguments [onEvent] of monitor [m] has been invoked with. *)
Definition eventsOf (m : nat) (h : History) : list MonitorEvent := omap (isEventOf m) h.

Definition isPress (key : string) (c : Call) : bool :=
  match c with
  | KeyboardPress _ k => String.eqb k key
  | _ => false
  end.

Definition isLadderPass (c : Call) : bool :=
  match c with
  | Evaluate _ LadderScript => true
  | _ => false
  end.

Definition count (f : Call -> bool) (l : list Call) : nat := length (filter (fun c => f c = true) l).

(** *** Judgements on asynchronous computations *)

(** Whatever the store, [m] takes it to a store related by [R]. *)
Definition steps (R : Store -> Store -> Prop) {A} (m : M A) : Prop :=
  forall s, R s (snd (m s)).

(** The promise of [m] settles. *)
Definition settles {A} (m : M A) : Prop :=
  forall s, fst (m s) <> Pending.

(** Whatever the store, [m] settles as [r] and the engine issues exactly
    the calls [l] on the way. *)
Definition performs {A} (m : M A) (r : Res A) (l : list Call) : Prop :=
  forall s, fst (m s) = r /\ callsOf (history (snd (m s))) = callsOf (history s) ++ l.

(** *** Assumptions on the environment *)

Definition neverHangs (env : Env) : Prop :=
  forall h c, settle env h c <> Hangs.

Definition resolves (env : Env) (c : Call) : Prop :=
  forall h, settle env h c = Resolves.

(** The session opens: every call of [getContext], [newPage] and
    [waitForReady] on the session directory [dir] resolves. *)
Definition sessionOpens (env : Env) (dir : string) : Prop :=
  resolves env (Mkdir dir) /\
  resolves env (LaunchPersistentContext dir) /\
  (forall context, resolves env (NewPage context)) /\
  (forall page, resolves env (Goto page (lit "https://web.whatsapp.com/"))) /\
  (forall page, resolves env (WaitForSelector page composer 0)) /\
  (forall page, resolves env (Evaluate page ZoomScript)).

(** *** What a batch is expected to report

    Recipient by recipient, in input order: [ok: true] when its
    [sendSingle] resolves, [ok: false] with the error text when it rejects.
    (Nothing more is reported once a [sendSingle] stays pending.) *)
Fixpoint expectedReports (env : Env) (page : nat) (delayMs : Z) (i : nat)
         (rows : list Row) (s : Store) : list Progress :=
  match rows with
  | [] => []
  | r :: rest =>
      let s' := snd (batchIteration env page true delayMs i r s) in
      match fst (sendSingle env page r s) with
      | Ok _ => mkProgress i r true None :: expectedReports env page delayMs (S i) rest s'
      | Throw e =>
          mkProgress i r false (Some (errorText e))
            :: expectedReports env page delayMs (S i) rest s'
      | Pending => []
      end
  end.

(** The part of [sendBatch] before its loop: [getContext], [newPage] and
    [waitForReady], giving the page the loop runs on. *)
Definition openBatchSession (env : Env) : M nat :=
  context <- getContext env BATCH_SESSION_DIR;;
  page <- newPage env context;;
  waitForReady env page;;
  ret page.

(** *** Reading a list of calls *)

Definition isLocatorCall (c : Call) : bool :=
  match c with
  | IsVisible _ _ | LocatorClick _ _ => true
  | _ => false
  end.

Definition sleepOf (c : Call) : option Z :=
  match c with Sleep ms => Some ms | _ => None end.

(** The pauses among the calls, in order. *)
Definition sleepsOf (l : list Call) : list Z := omap sleepOf l.

(** The calls of [passes] passes of the click ladder that each found
    nothing to click, each followed by a pause of [gap] ms: every pass is
    one evaluation of the in-page script followed by locator calls only. *)
Fixpoint failedPasses (page : nat) (gap : Z) (passes : nat) (l : list Call) : Prop :=
  match passes with
  | O => l = []
  | S passes' =>
      exists locators rest,
        l = Evaluate page LadderScript :: locators ++ Sleep gap :: rest /\
        forallb isLocatorCall locators = true /\
        failedPasses page gap passes' rest
  end.

(** No strategy of the click ladder ever succeeds on the page. *)
Definition noSendControl (env : Env) (page : nat) : Prop :=
  forall s, fst (trySendClick env page s) = Ok false.

(** *** The page states of the click ladder *)

(** No direct selector finds an element the script would click: each finds
    nothing, or an element without offset parent. *)
Definition noDirectMatch (doc : Document) : Prop :=
  forall sel el,
    In sel Ladder.selectors ->
    Dom.querySelector sel doc = Some el ->
    Dom.hasOffsetParent doc el = false.

(** [btn] is the visible button that encloses the send icon [span]. *)
Definition iconButton (doc : Document) (span btn : nat) : Prop :=
  In span (Dom.querySelectorAll Ladder.sendIcon doc) /\
  Dom.closest doc Ladder.button span = Some btn /\
  Dom.hasOffsetParent doc btn = true.

(** *** Requests served one after the other *)

Fixpoint startRequests (env : Env) (qs : list StartRequest)
  : M (list (Response * option Task)) :=
  match qs with
  | [] => ret []
  | q :: rest =>
      a <- monitorStartRoute env q;;
      l <- startRequests env rest;;
      ret (a :: l)
  end.

(** The sessions launched so far on the directory [dir]. *)
Definition launchesOf (dir : string) (h : History) : nat :=
  count (fun c => match c with
                  | LaunchPersistentContext d => String.eqb d dir
                  | _ => false
                  end) (callsOf h).

(** *** Relations between the store before and after a computation *)

(** The invocations of [onProgress] are as they were. *)
Definition sameProgress (s s' : Store) : Prop :=
  progressOf (history s') = progressOf (history s).

(** What serving a stop request does to the store. *)
Definition afterStop (env : Env) (m : nat) (s : Store) : Store :=
  match monitors s !! m with
  | None => withMonitorHandle None s
  | Some c =>
      let s' := record (Stopping m) (updateMonitor m halted s) in
      match settle env (history s) (ContextClose (context c)) with
      | Hangs => s'
      | _ => withMonitorHandle None s'
      end
  end.


(** Monitor [m] keeps its click count, its events and its existence. *)
Definition keeps (m : nat) (s s' : Store) : Prop :=
  clicksOf m s' = clicksOf m s /\
  eventsOf m (history s') = eventsOf m (history s) /\
  (is_Some (monitors s !! m) -> is_Some (monitors s' !! m)).

(** Once stopped, monitor [m] does not report [running]. *)
Definition stopMeansNotRunning (m : nat) (s : Store) : Prop :=
  isStopped m s = true -> isRunning m s = false.

Definition keepsStopped (m : nat) (s s' : Store) : Prop :=
  stopMeansNotRunning m s -> stopMeansNotRunning m s'.

(** *** The debounce of watch mode, read off the history *)

(** [Date.now()] never goes back. *)
Definition monotoneClock (env : Env) : Prop :=
  forall h h', clock env h <= clock env (h ++ h').

(** The event starts a pass of the click ladder. *)
Definition passOf (e : Event) : bool :=
  match e with
  | Called (Evaluate _ LadderScript) => true
  | _ => false
  end.

(** The event records a click of monitor [m], at time [t]. *)
Definition clickOf (m : nat) (e : Event) : option Z :=
  match e with
  | OnEvent m' (ClickEvent t _) => if Nat.eqb m' m then Some t else None
  | _ => None
  end.

Definition clickTimes (m : nat) (h : History) : list Z := omap (clickOf m) h.

(** The time of the last recorded click after the events [segment], when it
    was [last] before them. *)
Fixpoint lastAfter (m : nat) (last : Z) (segment : History) : Z :=
  match segment with
  | [] => last
  | e :: rest =>
      match clickOf m e with
      | Some t => lastAfter m t rest
      | None => lastAfter m last rest
      end
  end.

(** The events [segment] follow the history [before], in which the last
    click was recorded at [last].  Every pass of the ladder among them
    starts when the clock reads more than 1500 ms after the last recorded
    click, and every click is recorded more than 1500 ms after the click
    recorded before it. *)
Fixpoint debounced (env : Env) (m : nat) (before : History) (last : Z)
         (segment : History) : Prop :=
  match segment with
  | [] => True
  | e :: rest =>
      (passOf e = true -> 1500 < clock env before - last) /\
      match clickOf m e with
      | Some t => 1500 < t - last /\ debounced env m (before ++ [e]) t rest
      | None => debounced env m (before ++ [e]) last rest
      end
  end.

(** Events that neither start a pass nor record a click of [m]. *)
Definition quiet (m : nat) (e : Event) : Prop :=
  passOf e = false /\ clickOf m e = None.

(** The history grows by quiet events only. *)
Definition quietStep (m : nat) (s s' : Store) : Prop :=
  exists tail, history s' = history s ++ tail /\ Forall (quiet m) tail.

(** Every time in [ts] is more than 1500 ms after the one before it,
    starting from [last]. *)
Fixpoint spaced (last : Z) (ts : list Z) : Prop :=
  match ts with
  | [] => True
  | t :: rest => 1500 < t - last /\ spaced t rest
  end.

(** *** Environments used as examples *)

(** A page on which everything resolves, nothing is ever found to click,
    and the clock advances by one second per event. *)
Definition quietPage : Env :=
  {| settle := fun _ _ => Resolves;
     dom := fun _ _ => [];
     visible := fun _ _ _ => false;
     clock := fun h => 1000 * Z.of_nat (length h);
     isClosed := fun _ _ => false;
     png := fun _ _ => [];
     stopRequested := fun _ => false |}.

(** The operator never scans the login code: the wait of [waitForReady],
    which has no timeout, stays pending; all else resolves. *)
Definition loginPending : Env :=
  {| settle := fun _ c =>
       match c with
       | WaitForSelector _ _ 0 => Hangs
       | _ => Resolves
       end;
     dom := fun _ _ => [];
     visible := fun _ _ _ => false;
     clock := fun h => 1000 * Z.of_nat (length h);
     isClosed := fun _ _ => false;
     png := fun _ _ => [];
     stopRequested := fun _ => false |}.

(** A chat whose send control is a button without any known attribute that
    holds the send icon. *)
Definition iconOnlyDocument : Document :=
  [ mkElement "div" [] None true;
    mkElement "button" [("class", "x1")] (Some 0%nat) true;
    mkElement "span" [("data-icon", "send")] (Some 1%nat) true ]%string.

Definition iconOnlyPage : Env :=
  {| settle := fun _ _ => Resolves;
     dom := fun _ _ => iconOnlyDocument;
     visible := fun _ _ _ => false;
     clock := fun h => 1000 * Z.of_nat (length h);
     isClosed := fun _ _ => false;
     png := fun _ _ => [];
     stopRequested := fun _ => false |}.

(** The last event of a history. *)
Definition latest (h : History) : option Event := last h.

(** A page like [quietPage], with an operator whose stop request is served
    while the [n]-th press of the Enter key is pending. *)
Definition stopAtEnter (n : nat) : Env :=
  {| settle := fun _ _ => Resolves;
     dom := fun _ _ => [];
     visible := fun _ _ _ => false;
     clock := fun h => 1000 * Z.of_nat (length h);
     isClosed := fun _ _ => false;
     png := fun _ _ => [];
     stopRequested := fun h =>
       match latest h with
       | Some (Called (KeyboardPress _ _)) =>
           Nat.eqb (count (isPress "Enter") (callsOf h)) n
       | _ => false
       end |}.

Definition recipient : Row := mkRow (lit "919999999999") (lit "hi") None.

Definition secondRecipient : Row := mkRow (lit "918888888888") (lit "hello") None.

Definition thirdRecipient : Row := mkRow (lit "917777777777") (lit "bye") None.

(** The store once a monitor has been started on context 0 and page 1 and
    registered by the start route. *)
Definition monitoring : Store :=
  {| history := [];
     monitors := [ {| stats := mkStats true 0 None None; stopped := false; context := 0 |} ];
     lastPage := Some 1%nat;
     monitorHandle := Some 0%nat;
     created := 2 |}.

(** The deep link of [recipient]. *)
Definition recipientUrl : jsstring :=
  lit "https://web.whatsapp.com/send?phone=919999999999&text=hi".

(** ** server.js: the CSV upload *)

From Stdlib Require Import Sorted.


Module Csv.

(** WhiteSpace and LineTerminator code units, as [String.prototype.trim]
    removes them. *)
Definition isWhiteSpace (c : N) : bool :=
  ((9 <=? c) && (c <=? 13) || (c =? 32) || (c =? 0xA0) || (c =? 0x1680)
   || (0x2000 <=? c) && (c <=? 0x200A) || (c =? 0x2028) || (c =? 0x2029)
   || (c =? 0x202F) || (c =? 0x205F) || (c =? 0x3000) || (c =? 0xFEFF))%N.

Fixpoint dropWhile (p : N -> bool) (s : jsstring) : jsstring :=
  match s with
  | [] => []
  | c :: rest => if p c then dropWhile p rest else s
  end.

Definition dropWhileEnd (p : N -> bool) (s : jsstring) : jsstring :=
  rev (dropWhile p (rev s)).

Definition trim (s : jsstring) : jsstring :=
  dropWhileEnd isWhiteSpace (dropWhile isWhiteSpace s).

(** [s.replace(/^'+/, '')] *)
Definition stripApostrophes (s : jsstring) : jsstring :=
  dropWhile (N.eqb 39) s.

(** [s.replace(/^"|"$/g, '')]: one double quote at the start, and one at the
    end of what is left. *)
Definition stripQuotes (s : jsstring) : jsstring :=
  let s1 := match s with
            | c :: rest => if (c =? 34)%N then rest else s
            | [] => []
            end in
  match rev s1 with
  | c :: rest => if (c =? 34)%N then rev rest else s1
  | [] => []
  end.

(** [s.replace(/\D/g, '')] *)
Definition digitsOnly (s : jsstring) : jsstring :=
  filter (B := list N) (fun c => URI.isDigit c = true) s.

(** [raw] is a column of the record, or [undefined]. *)
Definition normalizePhone (raw : option jsstring) : jsstring :=
  let s := stripQuotes (stripApostrophes (trim (default [] raw))) in
  digitsOnly s.

(** A record of csv-parse with [columns: true]: column name to text. *)
Definition Record_ := gmap string jsstring.

(** [a ?? b ?? ...] over the columns named [keys]. *)
Fixpoint firstDefined (r : Record_) (keys : list string) : option jsstring :=
  match keys with
  | [] => None
  | k :: rest =>
      match r !! k with
      | Some v => Some v
      | None => firstDefined r rest
      end
  end.

Definition phoneKeys : list string :=
  [ "phone"; "Phone"; "PHONE"; "phone no."; "phone no"; "Phone No."; "Phone No";
    "Phone Number"; "phone number"; "number"; "Number"; "Mobile"; "mobile" ]%string.

Definition messageKeys : list string := [ "message"; "Message"; "MESSAGE" ]%string.

Definition nameKeys : list string := [ "name"; "Name"; "NAME" ]%string.

(** A row of the preview: [{ id, phone, message, name }]. *)
Record ParsedRow := mkParsedRow {
  id : nat;
  p_phone : jsstring;
  p_message : jsstring;
  p_name : option jsstring
}.

(** What [RowSchema] finds wrong. *)
Inductive Issue := PhoneEmpty | MessageEmpty.

Record RowError := mkRowError { e_row : nat; issues : list Issue }.

(** [RowSchema.safeParse({ phone, message, name })] *)
Definition RowSchema (phone message : jsstring) : list Issue :=
  (if (1 <=? length phone)%nat then [] else [PhoneEmpty]) ++
  (if (1 <=? length message)%nat then [] else [MessageEmpty]).

(** The body of [records.forEach((r, idx) => ...)]: what is pushed. *)
Definition readRecord (idx : nat) (r : Record_) : ParsedRow + RowError :=
  let phone := normalizePhone (firstDefined r phoneKeys) in
  let message := default [] (firstDefined r messageKeys) in
  let name := match default [] (firstDefined r nameKeys) with
              | [] => None
              | n => Some n
              end in
  match RowSchema phone message with
  | [] => inl (mkParsedRow (idx + 1) phone message name)
  | found => inr (mkRowError (idx + 1) found)
  end.

(** [rows] and [errors] after the records from [idx] on. *)
Fixpoint readRecords (idx : nat) (records : list Record_)
  : list ParsedRow * list RowError :=
  match records with
  | [] => ([], [])
  | r :: rest =>
      let (rows, errors) := readRecords (S idx) rest in
      match readRecord idx r with
      | inl row => (row :: rows, errors)
      | inr e => (rows, e :: errors)
      end
  end.

(** [csvText.split(/\r?\n/)[0]] *)
Fixpoint firstLine (s : jsstring) : jsstring :=
  match s with
  | [] => []
  | c :: rest =>
      if (c =? 10)%N then []
      else if (c =? 13)%N then
        match rest with
        | d :: _ => if (d =? 10)%N then [] else c :: firstLine rest
        | [] => [c]
        end
      else c :: firstLine rest
  end.

Inductive Delimiter := Tab | Comma.

Definition delimiterGuess (csvText : jsstring) : Delimiter :=
  if existsb (N.eqb 9) (trim (firstLine csvText)) then Tab else Comma.

Inductive Response :=
| Parsed (rows : list ParsedRow) (errors : list RowError) (count : nat)   (* 200 *)
| NoFile                                                                  (* 400 *)
| ParseFailed (error : string).                                           (* 500 *)

(** [e.message || 'Failed to parse CSV'] *)
Definition failureText (e : JsError) : string :=
  match e_message e with
  | Some m => if String.eqb m EmptyString then "Failed to parse CSV"%string else m
  | None => "Failed to parse CSV"%string
  end.

Section Route.

(** [parse(csvText, { columns: true, skip_empty_lines: true, trim: true,
    delimiter })] of csv-parse: its records, or what it throws. *)
Variable parse : jsstring -> Delimiter -> JsError + list Record_.

(** [POST /api/parse-csv]; [file] is the text of the uploaded file. *)
Definition parseCsvRoute (file : option jsstring) : Response :=
  match file with
  | None => NoFile
  | Some csvText =>
      let records :=
        match parse csvText (delimiterGuess csvText) with
        | inr records => inr records
        | inl _ => parse csvText Tab
        end in
      match records with
      | inl e => ParseFailed (failureText e)
      | inr records =>
          let (rows, errors) := readRecords 0 records in
          Parsed rows errors (length rows)
      end
  end.

End Route.

End Csv.

(** ** server.js: batch jobs *)

Module Jobs.

Inductive Status := Running | Finished | Errored.

(** An entry of [job.events].  The entry pushed when the batch itself
    fails has neither [index] nor [phone]. *)
Record JobEvent := mkJobEvent {
  t : Z;
  j_index : option nat;
  j_phone : option jsstring;
  j_ok : bool;
  j_error : option string
}.

Record Job := mkJob {
  id : jsstring;
  status : Status;
  total : nat;
  done : nat;
  ok : nat;
  failed : nat;
  events : list JobEvent;
  startedAt : Z;
  finishedAt : option Z
}.

(** The body of [POST /api/send] once parsed as JSON. *)
Record SendRequest := mkSendRequest {
  rows : option (list Row);
  delayMs : option Z
}.

(** [SendRequestSchema]: [rows] is required. *)
Definition SendRequestSchema (q : SendRequest) : bool :=
  match rows q with Some rows => forallb validRow rows | None => false end &&
  match delayMs q with Some d => validDelay d | None => true end.

(** [Array.prototype.shift] *)
Definition shift {A} (l : list A) : list A := tail l.

(** The [onProgress] callback the route passes to [sendBatch], called with
    [evt] when [Date.now()] reads [now]. *)
Definition onProgress (now : Z) (evt : Progress) (job : Job) : Job :=
  match evt with
  | mkProgress i r evtOk evtError =>
      let pushed := events job ++ [ mkJobEvent now (Some i) (Some (phone r)) evtOk evtError ] in
      {| id := id job;
         status := status job;
         total := total job;
         done := done job + 1;
         ok := if evtOk then ok job + 1 else ok job;
         failed := if evtOk then failed job else failed job + 1;
         events := if (200 <? length pushed)%nat then shift pushed else pushed;
         startedAt := startedAt job;
         finishedAt := finishedAt job |}
  end.

(** The job after the callbacks recorded in [segment], which follow the
    history [before]. *)
Fixpoint replay (env : Env) (before segment : History) (job : Job) : Job :=
  match segment with
  | [] => job
  | e :: rest =>
      let before' := before ++ [e] in
      match e with
      | OnProgress evt => replay env before' rest (onProgress (clock env before') evt job)
      | _ => replay env before' rest job
      end
  end.

(** [job.status = 'finished'; job.finishedAt = Date.now();] *)
Definition finish (now : Z) (job : Job) : Job :=
  {| id := id job; status := Finished; total := total job; done := done job;
     ok := ok job; failed := failed job; events := events job;
     startedAt := startedAt job; finishedAt := Some now |}.

(** [job.status = 'error'; job.finishedAt = Date.now();
     job.events.push({ t: Date.now(), ok: false, error: e.message || String(e) });] *)
Definition fail (now : Z) (e : JsError) (job : Job) : Job :=
  {| id := id job; status := Errored; total := total job; done := done job;
     ok := ok job; failed := failed job;
     events := events job ++ [ mkJobEvent now None None false (Some (errorText e)) ];
     startedAt := startedAt job; finishedAt := Some now |}.

(** The server: the [jobs] map of server.js and the store of the engine. *)
Record Server := mkServer {
  jobs : gmap jsstring Job;
  engine : Store
}.

Inductive Response :=
| Accepted (jobId : jsstring)    (* 200 [{ jobId }] *)
| Invalid.                       (* 400 [{ error: 'Invalid payload', issues }] *)

Definition decimalZ (z : Z) : jsstring :=
  lit (NilEmpty.string_of_int (Z.to_int z)).

Section Routes.

Variable env : Env.

(** [Math.random().toString(16).slice(2)] *)
Variable random : jsstring.

(** [POST /api/send].  The handler answers as soon as the job is stored
    and goes on to run the batch; the server it leaves is the one at the
    end of the handler (with the job still [Running] if the batch never
    settles).  The callback only touches [job], so the job is obtained by
    replaying the callback over the invocations the batch has recorded. *)
Definition sendRoute (q : SendRequest) (sv : Server) : Response * Server :=
  if negb (SendRequestSchema q) then (Invalid, sv)
  else
    let batch := default [] (rows q) in
    let s := engine sv in
    let jobId := decimalZ (clock env (history s)) ++ lit "-" ++ random in
    let job := {| id := jobId; status := Running; total := length batch;
                  done := 0; ok := 0; failed := 0; events := [];
                  startedAt := clock env (history s); finishedAt := None |} in
    let (r, s') := sendBatch env batch true (Some (default 1500 (delayMs q))) s in
    let job1 := replay env (history s) (drop (length (history s)) (history s')) job in
    let job2 := match r with
                | Ok _ => finish (clock env (history s')) job1
                | Throw e => fail (clock env (history s')) e job1
                | Pending => job1
                end in
    (Accepted jobId, {| jobs := <[jobId := job2]> (jobs sv); engine := s' |}).

(** [GET /api/job/:id]: the job, or 404. *)
Definition jobRoute (jobId : jsstring) (sv : Server) : option Job :=
  jobs sv !! jobId.

End Routes.

End Jobs.

(** ** server.js: the screenshot route *)

Inductive ScreenshotResponse :=
| Image (bytes : list N)                 (* 200, [image/png] *)
| NoSession                              (* 404 [No active browser session] *)
| ScreenshotFailed (message : option string).   (* 500 [e.message] *)

Definition screenshotRoute (env : Env) : M ScreenshotResponse :=
  tryCatch
    (png <- getScreenshot env;;
     match png with
     | None => ret NoSession
     | Some bytes => ret (Image bytes)
     end)
    (fun e => ret (ScreenshotFailed (e_message e))).

(** ** More vocabulary *)

(** The history has only grown. *)
Definition grows (s s' : Store) : Prop :=
  exists segment, history s' = history s ++ segment.

(** The operator never asks to stop. *)
Definition neverStops (env : Env) : Prop :=
  forall h, stopRequested env h = false.

(** The handle of server.js, if any, names a monitor that was created. *)
Definition handleInRange (s : Store) : Prop :=
  forall m, monitorHandle s = Some m -> (m < length (monitors s))%nat.

(** The entries [onProgress] pushes for the invocations recorded in
    [segment], which follow the history [before]. *)
Fixpoint stamped (env : Env) (before segment : History) : list Jobs.JobEvent :=
  match segment with
  | [] => []
  | e :: rest =>
      let before' := before ++ [e] in
      match e with
      | OnProgress (mkProgress i r evtOk evtError) =>
          Jobs.mkJobEvent (clock env before') (Some i) (Some (phone r)) evtOk evtError
            :: stamped env before' rest
      | _ => stamped env before' rest
      end
  end.

(** The last [n] elements of a list. *)
Definition lastN {A} (n : nat) (l : list A) : list A := drop (length l - n) l.

(** The entries with [ok: true]. *)
Definition countOk (l : list Jobs.JobEvent) : nat :=
  length (filter (fun e => Jobs.j_ok e = true) l).

(** No monitor was created, and the handle stays within those that were. *)
Definition sameMonitors (s s' : Store) : Prop :=
  length (monitors s') = length (monitors s) /\
  (handleInRange s -> handleInRange s').

(** As long as the handle of server.js does not name monitor [m], nothing
    touches it. *)
Definition untouched (m : nat) (s s' : Store) : Prop :=
  monitorHandle s <> Some m ->
  monitors s' !! m = monitors s !! m /\ monitorHandle s' <> Some m.

(** The handle of server.js is as it was, or has been dropped. *)
Definition handleKept (s s' : Store) : Prop :=
  monitorHandle s' = monitorHandle s \/ monitorHandle s' = None.

(** [btn] is a button whose [aria-label] contains "send", whatever the
    case of its letters. *)
Definition labelledSend (doc : Document) (btn : nat) : Prop :=
  In btn (Dom.querySelectorAll Ladder.button doc) /\
  Dom.includes "send" (Dom.toLowerCase (Ladder.ariaLabel doc btn)) = true.

(** A direct selector finds [el] first. *)
Definition directMatch (doc : Document) (el : nat) : Prop :=
  exists sel, In sel Ladder.selectors /\ Dom.querySelector sel doc = Some el.

(** The clicks made inside pages: page and element, oldest first. *)
Definition isClicked (e : Event) : option (nat * nat) :=
  match e with
  | Clicked page el => Some (page, el)
  | _ => None
  end.

Definition clickedOf (h : History) : list (nat * nat) := omap isClicked h.

(** The engine's calls have only grown. *)
Definition callsGrow (s s' : Store) : Prop :=
  exists l, callsOf (history s') = callsOf (history s) ++ l.

(** *** The [try] block of a CSV iteration, in two parts *)

(** Up to the click or the Enter key: the delivery. *)
Definition csvDeliver (env : Env) (page : nat) (r : Row) : M unit :=
  url <- lift (buildWhatsAppUrl (phone r) (message r));;
  await env (Goto page url);;
  await env (WaitForSelector page composer 60000);;
  sleep env 2500;;
  sent <- csvAttempts env 5 page false;;
  if sent then ret tt else await env (KeyboardPress page "Enter").

(** From there on: the counters and the event. *)
Definition csvCount (env : Env) (m : nat) (onEvent : bool) (i : nat) (r : Row) : M unit :=
  n <- getClicks m;;
  updateStats m (setClicks (n + 1));;
  t <- now env;;
  updateStats m (setLastClick t);;
  notifyEvent onEvent m (RowEvent true t (n + 1) i r true None).

(** The event reports the recipient [r] at position [i], as sent or as
    failed. *)
Definition reportsRow (i : nat) (r : Row) (e : MonitorEvent) : Prop :=
  match e with
  | RowEvent clicked _ _ i' r' ok' _ => i' = i /\ r' = r /\ clicked = ok'
  | _ => False
  end.

Fixpoint reportsRows (i : nat) (rows : list Row) (events : list MonitorEvent) : Prop :=
  match rows, events with
  | [], [] => True
  | r :: rows', e :: events' => reportsRow i r e /\ reportsRows (S i) rows' events'
  | _, _ => False
  end.

Definition sentOk (e : MonitorEvent) : bool :=
  match e with
  | RowEvent _ _ _ _ _ ok' _ => ok'
  | _ => false
  end.

(** The recipients reported as sent. *)
Definition sentCount (events : list MonitorEvent) : Z :=
  Z.of_nat (length (filter (fun e => sentOk e = true) events)).

(** Only the history has changed, and not by an event of monitor [m]. *)
Definition onlyCalls (m : nat) (s s' : Store) : Prop :=
  monitors s' = monitors s /\
  eventsOf m (history s') = eventsOf m (history s) /\
  callsGrow s s'.

(** *** The loop at its first await *)

(** The call in which the task is suspended. *)
Definition suspendedIn (task : Task) : list Call :=
  match task with
  | CsvTask _ page _ _ _ _ url _ => [Goto page url]
  | CsvPause _ _ _ _ delayMs _ => [Sleep delayMs]
  | WatchTask _ page _ _ => [Evaluate page LadderScript]
  | WatchPause _ _ _ => [Sleep 500]
  | Ended => []
  end.

(** What the loop has passed to [onEvent] before it was suspended, at time
    [t] and with [n] clicks counted: nothing, unless the first recipient
    could not be put into a link. *)
Definition reported (t n : Z) (task : Task) : list MonitorEvent :=
  match task with
  | CsvPause _ _ r _ _ true => [RowEvent false t n 0 r false (e_message URIError)]
  | _ => []
  end.

(** [task] is the loop of a monitor [m] started on [page] for [rows],
    suspended at its first await: in CSV mode for a non-empty [rows], in
    the navigation to the first deep link or, when there is no such link,
    in the pause after that recipient; in watch mode otherwise, in the
    evaluation of the first pass or in the pause of the first tick. *)
Definition suspendedLoop (rows : option (list Row)) (delayMs : Z) (onEvent : bool)
           (m page : nat) (task : Task) : Prop :=
  match rows with
  | Some (r :: rest) =>
      match buildWhatsAppUrl (phone r) (message r) with
      | Ok url => exists goto, task = CsvTask m page r rest delayMs onEvent url goto
      | _ => task = CsvPause m page r rest delayMs onEvent
      end
  | _ =>
      (exists evaluated, task = WatchTask m page onEvent evaluated) \/
      task = WatchPause m page onEvent
  end.

(** *** Requests that overlap *)

(** Two start requests, the second served while the first is in the
    readiness wait of [startMonitor]; then the login is done and the two
    handlers run on, the first one first. *)
Definition overlappingStarts (env : Env) (q1 q2 : StartRequest)
  : M ((Response * option Task) * (Response * option Task)) :=
  p1 <- monitorStartUntilLogin env q1;;
  p2 <- monitorStartUntilLogin env q2;;
  a1 <- match p1 with
        | StartAnswered r => ret (r, None)
        | AwaitingLogin m page login => monitorStartFromLogin env q1 m page login
        end;;
  a2 <- match p2 with
        | StartAnswered r => ret (r, None)
        | AwaitingLogin m page login => monitorStartFromLogin env q2 m page login
        end;;
  ret (a1, a2).

(** *** Reading UTF-8 back *)

Module Utf8.

(** The first code point of a sequence of octets and the octets after it,
    by the length that the first octet announces. *)
Definition decodeFirst (octets : list N) : option (N * list N) :=
  match octets with
  | [] => None
  | b0 :: rest =>
      (if b0 <? 0x80 then Some (b0, rest)
       else if b0 <? 0xE0 then
         match rest with
         | b1 :: rest' => Some ((b0 - 0xC0) * 64 + (b1 - 0x80), rest')
         | _ => None
         end
       else if b0 <? 0xF0 then
         match rest with
         | b1 :: b2 :: rest' =>
             Some ((b0 - 0xE0) * 4096 + (b1 - 0x80) * 64 + (b2 - 0x80), rest')
         | _ => None
         end
       else
         match rest with
         | b1 :: b2 :: b3 :: rest' =>
             Some ((b0 - 0xF0) * 262144 + (b1 - 0x80) * 4096 + (b2 - 0x80) * 64
                   + (b3 - 0x80), rest')
         | _ => None
         end)%N
  end.

End Utf8.

(** ** Inputs used as examples *)

(** A sheet of three records: a phone as a spreadsheet exports it, a record
    whose phone column holds no digit, and a short phone. *)
Definition sheet : list Csv.Record_ :=
  [ {[ "Phone"%string := lit "'+91 99999-99999"; "message"%string := lit "hi" ]};
    {[ "phone"%string := lit "n/a"; "Phone"%string := lit "918888888888";
       "message"%string := lit "hello" ]};
    {[ "Mobile"%string := lit "112"; "Message"%string := lit "call me";
       "name"%string := lit "Ada" ]} ].

(** A parser that reads the upload as [sheet] when told to split at
    commas, and fails on tabs. *)
Definition parseSheet (csvText : jsstring) (d : Csv.Delimiter) : JsError + list Csv.Record_ :=
  match d with
  | Csv.Comma => inr sheet
  | Csv.Tab => inl (mkError (Some "Invalid Record Length"%string) "Error: Invalid Record Length"%string)
  end.

Definition sheetText : jsstring := lit "Phone,message".

Definition sheetRows : list Csv.ParsedRow :=
  [ Csv.mkParsedRow 1 (lit "919999999999") (lit "hi") None;
    Csv.mkParsedRow 3 (lit "112") (lit "call me") (Some (lit "Ada")) ].

Definition sheetErrors : list Csv.RowError := [ Csv.mkRowError 2 [Csv.PhoneEmpty] ].

(** The browser cannot be launched: [launchPersistentContext] rejects. *)
Definition launchError : JsError :=
  mkError (Some "browserType.launchPersistentContext: Executable doesn't exist"%string)
          "Error: browserType.launchPersistentContext: Executable doesn't exist"%string.

Definition launchFails : Env :=
  {| settle := fun _ c =>
       match c with
       | LaunchPersistentContext _ => Rejects launchError
       | _ => Resolves
       end;
     dom := fun _ _ => [];
     visible := fun _ _ _ => false;
     clock := fun h => 1000 * Z.of_nat (length h);
     isClosed := fun _ _ => false;
     png := fun _ _ => [];
     stopRequested := fun _ => false |}.

Definition server : Jobs.Server := {| Jobs.jobs := ∅; Jobs.engine := initial |}.

Definition sendTwo : Jobs.SendRequest :=
  {| Jobs.rows := Some [recipient; secondRecipient]; Jobs.delayMs := Some 500 |}.

(** The network is down: every navigation rejects. *)
Definition navigationError : JsError :=
  mkError (Some "page.goto: net::ERR_INTERNET_DISCONNECTED"%string)
          "Error: page.goto: net::ERR_INTERNET_DISCONNECTED"%string.

Definition navigationFails : Env :=
  {| settle := fun _ c =>
       match c with
       | Goto _ _ => Rejects navigationError
       | _ => Resolves
       end;
     dom := fun _ _ => [];
     visible := fun _ _ _ => false;
     clock := fun h => 1000 * Z.of_nat (length h);
     isClosed := fun _ _ => false;
     png := fun _ _ => [];
     stopRequested := fun _ => false |}.

(** The number is not on WhatsApp: the composer of the chat never shows,
    and the wait for it runs out. *)
Definition timeoutError : JsError :=
  mkError (Some "page.waitForSelector: Timeout 60000ms exceeded."%string)
          "TimeoutError: page.waitForSelector: Timeout 60000ms exceeded."%string.

Definition chatNeverLoads : Env :=
  {| settle := fun _ c =>
       match c with
       | WaitForSelector _ _ 60000 => Rejects timeoutError
       | _ => Resolves
       end;
     dom := fun _ _ => [];
     visible := fun _ _ _ => false;
     clock := fun h => 1000 * Z.of_nat (length h);
     isClosed := fun _ _ => false;
     png := fun _ _ => [];
     stopRequested := fun _ => false |}.

(** A message cut in the middle of an emoji: a lead surrogate alone. *)
Definition brokenMessage : Row := mkRow (lit "919999999999") [0xD83D%N] None.

(** The third record of [sheet] and the row the preview makes of it. *)
Definition shortRecord : Csv.Record_ :=
  {[ "Mobile"%string := lit "112"; "Message"%string := lit "call me";
     "name"%string := lit "Ada" ]}.

Definition shortRow : Csv.ParsedRow :=
  Csv.mkParsedRow 3 (lit "112") (lit "call me") (Some (lit "Ada")).

(** The second record of [sheet]. *)
Definition shadowedRecord : Csv.Record_ :=
  {[ "phone"%string := lit "n/a"; "Phone"%string := lit "918888888888";
     "message"%string := lit "hello" ]}.

(** A page like [quietPage] on which the chat of a recipient never loads:
    the navigation to a deep link stays pending. *)
Definition chatHangs : Env :=
  {| settle := fun _ c =>
       match c with
       | Goto _ url =>
           if bool_decide (url = lit "https://web.whatsapp.com/") then Resolves else Hangs
       | _ => Resolves
       end;
     dom := fun _ _ => [];
     visible := fun _ _ _ => false;
     clock := fun h => 1000 * Z.of_nat (length h);
     isClosed := fun _ _ => false;
     png := fun _ _ => [];
     stopRequested := fun _ => false |}.

(** A page like [quietPage], with an operator whose stop request is served
    while the readiness wait of a start is pending. *)
Definition stopWhileStarting : Env :=
  {| settle := fun _ _ => Resolves;
     dom := fun _ _ => [];
     visible := fun _ _ _ => false;
     clock := fun h => 1000 * Z.of_nat (length h);
     isClosed := fun _ _ => false;
     png := fun _ _ => [];
     stopRequested := fun h =>
       match latest h with
       | Some (Called (WaitForSelector _ _ 0)) => true
       | _ => false
       end |}.

(** A chat that shows its send control all the time, with a clock that
    reads 2 s at first and advances by 300 ms per event. *)
Definition sendControlShown : Env :=
  {| settle := fun _ _ => Resolves;
     dom := fun _ _ => iconOnlyDocument;
     visible := fun _ _ _ => false;
     clock := fun h => 2000 + 300 * Z.of_nat (length h);
     isClosed := fun _ _ => false;
     png := fun _ _ => [];
     stopRequested := fun _ => false |}.

(** * Properties *)

(** ** The deep link (buildWhatsAppUrl) *)

Module PercentEncodingFacts.
Import URI PercentEncoding.

Local Open Scope N_scope.

Lemma lor_octet a b : a < 256 -> b < 256 -> N.lor a b < 256.
Proof.
  intros Ha Hb.
  destruct (N.eq_dec (N.lor a b) 0) as [->|Hne]; [lia|].
  change 256 with (2 ^ 8). apply N.log2_lt_pow2; [lia|].
  rewrite N.log2_lor.
  destruct (N.eq_dec a 0) as [->|Ha0], (N.eq_dec b 0) as [->|Hb0]; simpl.
  - lia.
  - rewrite N.max_r by (apply N.le_0_l).
    apply N.log2_lt_pow2; [lia|]. exact Hb.
  - rewrite N.max_l by (apply N.le_0_l).
    apply N.log2_lt_pow2; [lia|]. exact Ha.
  - apply N.max_lub_lt; apply N.log2_lt_pow2; try lia; assumption.
Qed.

Lemma land_6bits x : N.land x 0x3F < 64.
Proof.
  change 0x3F with (N.ones 6). rewrite N.land_ones.
  apply N.mod_lt. discriminate.
Qed.

Lemma continuation_octet x : N.lor 0x80 (N.land x 0x3F) < 256.
Proof. apply lor_octet; [lia|]. pose proof (land_6bits x). lia. Qed.

Lemma shiftr_bound x k q : x < 2 ^ k * q -> N.shiftr x k < q.
Proof.
  intros H. rewrite N.shiftr_div_pow2.
  apply N.Div0.div_lt_upper_bound. exact H.
Qed.

Lemma utf8_octets cp : cp < 0x110000 -> Forall (fun b => b < 256) (utf8 cp).
Proof.
  intros Hcp. unfold utf8.
  destruct (N.ltb_spec cp 0x80); [repeat constructor; lia|].
  destruct (N.ltb_spec cp 0x800).
  { repeat constructor; try apply continuation_octet.
    apply lor_octet; [lia|].
    assert (N.shiftr cp 6 < 32) by (apply shiftr_bound; simpl; lia). lia. }
  destruct (N.ltb_spec cp 0x10000).
  { repeat constructor; try apply continuation_octet.
    apply lor_octet; [lia|].
    assert (N.shiftr cp 12 < 16) by (apply shiftr_bound; simpl; lia). lia. }
  repeat constructor; try apply continuation_octet.
  apply lor_octet; [lia|].
  assert (N.shiftr cp 18 < 8) by (apply shiftr_bound; simpl; lia). lia.
Qed.

Lemma hexValue_hexDigit n : n < 16 -> hexValue (hexDigit n) = Some n.
Proof.
  intros Hn. unfold hexDigit, hexValue.
  destruct (N.ltb_spec n 10).
  - replace ((48 <=? 48 + n) && (48 + n <=? 57))%bool with true.
    + f_equal. lia.
    + symmetry. apply andb_true_intro. split; apply N.leb_le; lia.
  - replace ((48 <=? 55 + n) && (55 + n <=? 57))%bool with false.
    + replace ((65 <=? 55 + n) && (55 + n <=? 70))%bool with true.
      * f_equal. lia.
      * symmetry. apply andb_true_intro. split; apply N.leb_le; lia.
    + symmetry. apply andb_false_intro2. apply N.leb_gt. lia.
Qed.

Lemma unescaped_hexDigit n : n < 16 -> unescaped (hexDigit n) = true.
Proof.
  intros Hn. unfold hexDigit, unescaped.
  destruct (N.ltb_spec n 10).
  - assert (E : isDigit (48 + n) = true).
    { unfold isDigit. apply andb_true_intro. split; apply N.leb_le; lia. }
    rewrite E, orb_true_r. reflexivity.
  - assert (E : isAlpha (55 + n) = true).
    { unfold isAlpha. apply orb_true_intro. left.
      apply andb_true_intro. split; apply N.leb_le; lia. }
    rewrite E. reflexivity.
Qed.

Lemma decode_escapeOctet b rest :
  b < 256 -> decode (escapeOctet b ++ rest) = option_map (cons b) (decode rest).
Proof.
  intros Hb. unfold escapeOctet.
  assert (Hhi : b / 16 < 16) by (apply N.Div0.div_lt_upper_bound; lia).
  assert (Hlo : b mod 16 < 16) by (apply N.mod_lt; discriminate).
  cbn [app decode]. rewrite N.eqb_refl.
  rewrite (hexValue_hexDigit _ Hhi), (hexValue_hexDigit _ Hlo).
  replace (16 * (b / 16) + b mod 16) with b; [reflexivity|].
  apply N.div_mod. discriminate.
Qed.

Lemma safe_escapeOctet b : b < 256 -> forallb safe (escapeOctet b) = true.
Proof.
  intros Hb. unfold escapeOctet, safe.
  assert (Hhi : b / 16 < 16) by (apply N.Div0.div_lt_upper_bound; lia).
  assert (Hlo : b mod 16 < 16) by (apply N.mod_lt; discriminate).
  cbn [forallb].
  rewrite (unescaped_hexDigit _ Hhi), (unescaped_hexDigit _ Hlo).
  reflexivity.
Qed.

Lemma decode_escapeOctets bs rest :
  Forall (fun b => b < 256) bs ->
  decode (escapeOctets bs ++ rest) = option_map (app bs) (decode rest).
Proof.
  unfold escapeOctets. induction 1 as [|b bs Hb _ IH]; cbn [map concat].
  - cbn. destruct (decode rest); reflexivity.
  - rewrite <- app_assoc, (decode_escapeOctet _ _ Hb), IH.
    destruct (decode rest); reflexivity.
Qed.

Lemma safe_escapeOctets bs :
  Forall (fun b => b < 256) bs -> forallb safe (escapeOctets bs) = true.
Proof.
  unfold escapeOctets. induction 1 as [|b bs Hb _ IH]; cbn [map concat].
  - reflexivity.
  - rewrite forallb_app, (safe_escapeOctet _ Hb), IH. reflexivity.
Qed.

(** An unescaped character is ASCII, is not "%" and is not a surrogate. *)
Lemma unescaped_ascii c : unescaped c = true -> c < 0x80 /\ c <> 37.
Proof.
  unfold unescaped, isAlpha, isDigit, isMark. cbn [existsb].
  rewrite !orb_true_iff, !andb_true_iff, !N.leb_le, !N.eqb_eq. lia.
Qed.

Lemma surrogate_split c :
  isSurrogate c = isTrailSurrogate c || isLeadSurrogate c.
Proof.
  unfold isSurrogate, isTrailSurrogate, isLeadSurrogate.
  apply eq_true_iff_eq.
  rewrite orb_true_iff, !andb_true_iff, !N.leb_le. lia.
Qed.

Lemma encodes_nil : encodes [] [].
Proof. split; [reflexivity|]. exists []. split; reflexivity. Qed.

Lemma encodes_cons_plain c s text :
  unescaped c = true -> encodes s text -> encodes (c :: s) (c :: text).
Proof.
  intros Hc [Hsafe (octets & Hoct & Hdec)].
  destruct (unescaped_ascii _ Hc) as [Hlt Hne].
  split.
  - cbn [forallb]. unfold safe at 1. rewrite Hc. exact Hsafe.
  - exists (c :: octets). split.
    + unfold octetsOf in *. cbn [codePoints].
      assert (E : isSurrogate c = false).
      { unfold isSurrogate. apply andb_false_intro1. apply N.leb_gt. lia. }
      rewrite E. cbn [negb].
      destruct (codePoints s) as [cps|]; [|discriminate].
      cbn in *. injection Hoct as <-.
      unfold utf8. destruct (N.ltb_spec c 0x80); [reflexivity|lia].
    + cbn [decode]. destruct (N.eqb_spec c 37); [contradiction|].
      rewrite Hdec. reflexivity.
Qed.

Lemma encodes_cons_escaped cp pre s text :
  cp < 0x110000 ->
  (forall cps, codePoints s = Some cps -> codePoints (pre ++ s) = Some (cp :: cps)) ->
  encodes s text ->
  encodes (pre ++ s) (escapeOctets (utf8 cp) ++ text).
Proof.
  intros Hcp Hpre [Hsafe (octets & Hoct & Hdec)].
  pose proof (utf8_octets _ Hcp) as Hbytes.
  split.
  - rewrite forallb_app, (safe_escapeOctets _ Hbytes). exact Hsafe.
  - exists (utf8 cp ++ octets). split.
    + unfold octetsOf in *.
      destruct (codePoints s) as [cps|]; [|discriminate].
      rewrite (Hpre _ eq_refl). cbn in *. injection Hoct as <-. reflexivity.
    + rewrite (decode_escapeOctets _ _ Hbytes), Hdec. reflexivity.
Qed.

Lemma encode_right_upto n :
  forall s, (length s <= n)%nat -> codeUnits s -> encodedRight s.
Proof.
  induction n as [|n IH]; intros s Hlen Hcu.
  { destruct s; [|simpl in Hlen; lia]. exact encodes_nil. }
  destruct s as [|c rest]; [exact encodes_nil|].
  assert (Hc : c < 0x10000) by (inversion Hcu; assumption).
  assert (Hrest : codeUnits rest) by (inversion Hcu; assumption).
  simpl in Hlen.
  assert (IHrest : encodedRight rest) by (apply IH; [lia|assumption]).
  unfold encodedRight in *. cbn [encode].
  destruct (unescaped c) eqn:Hun.
  { destruct (unescaped_ascii _ Hun) as [Hlt _].
    destruct (encode rest) as [text|]; cbn [option_map].
    - apply encodes_cons_plain; assumption.
    - cbn [codePoints].
      replace (isSurrogate c) with false.
      + cbn [negb]. rewrite IHrest. reflexivity.
      + symmetry. unfold isSurrogate. apply andb_false_intro1, N.leb_gt. lia. }
  destruct (isTrailSurrogate c) eqn:Htrail.
  { cbn [codePoints]. rewrite surrogate_split, Htrail. cbn [orb negb].
    unfold isTrailSurrogate in Htrail.
    apply andb_true_iff in Htrail as [Hlo _]. apply N.leb_le in Hlo.
    replace (c <=? 0xDBFF) with false; [reflexivity|].
    symmetry. apply N.leb_gt. lia. }
  destruct (isLeadSurrogate c) eqn:Hlead.
  { cbn [codePoints]. rewrite surrogate_split, Htrail, Hlead. cbn [orb negb].
    unfold isLeadSurrogate in Hlead.
    apply andb_true_iff in Hlead as [Hlo Hhi].
    rewrite Hhi.
    destruct rest as [|d rest']; [reflexivity|].
    unfold isTrailSurrogate at 1.
    destruct ((0xDC00 <=? d) && (d <=? 0xDFFF))%bool eqn:Hd; [|reflexivity].
    assert (IHrest' : match encode rest' with
                      | Some text => encodes rest' text
                      | None => codePoints rest' = None
                      end).
    { apply IH; [simpl in Hlen; lia|]. inversion Hrest; assumption. }
    apply N.leb_le in Hlo, Hhi.
    apply andb_true_iff in Hd as [Hdlo Hdhi]. apply N.leb_le in Hdlo, Hdhi.
    assert (Ecp : pairToCodePoint c d = 0x10000 + (c - 0xD800) * 0x400 + (d - 0xDC00))
      by (unfold pairToCodePoint; lia).
    destruct (encode rest') as [text|]; cbn [option_map].
    - change (c :: d :: rest') with ([c; d] ++ rest').
      apply encodes_cons_escaped; [unfold pairToCodePoint; lia| |exact IHrest'].
      intros cps Hcps. cbn [app codePoints].
      rewrite surrogate_split.
      replace (isTrailSurrogate c) with false
        by (symmetry; apply andb_false_intro1, N.leb_gt; lia).
      replace (isLeadSurrogate c) with true
        by (symmetry; apply andb_true_intro; split; apply N.leb_le; lia).
      cbn [orb negb].
      replace (c <=? 0xDBFF) with true by (symmetry; apply N.leb_le; lia).
      replace ((0xDC00 <=? d) && (d <=? 0xDFFF))%bool with true
        by (symmetry; apply andb_true_intro; split; apply N.leb_le; lia).
      rewrite Hcps, Ecp. reflexivity.
    - rewrite IHrest'. reflexivity. }
  assert (Hsur : isSurrogate c = false)
    by (rewrite surrogate_split, Htrail, Hlead; reflexivity).
  destruct (encode rest) as [text|]; cbn [option_map].
  - change (c :: rest) with ([c] ++ rest).
    apply encodes_cons_escaped; [lia| |exact IHrest].
    intros cps Hcps. cbn [app codePoints]. rewrite Hsur, Hcps. reflexivity.
  - cbn [codePoints]. rewrite Hsur, IHrest. reflexivity.
Qed.

Lemma encode_right s : codeUnits s -> encodedRight s.
Proof. apply (encode_right_upto (length s)). lia. Qed.

Lemma encode_some s text :
  codeUnits s -> encodeURIComponent s = Some text -> encodes s text.
Proof.
  intros Hcu E. pose proof (encode_right s Hcu) as H.
  unfold encodedRight, encodeURIComponent in *. rewrite E in H. exact H.
Qed.

Lemma encode_total s :
  codeUnits s -> wellFormed s -> exists text, encodeURIComponent s = Some text.
Proof.
  intros Hcu [cps Hwf]. pose proof (encode_right s Hcu) as H.
  unfold encodedRight, encodeURIComponent in *.
  destruct (encode s) as [text|]; [eauto|congruence].
Qed.

End PercentEncodingFacts.

(** C6.  For code-unit strings [phone] and [message], every URL that
    [buildWhatsAppUrl] builds is [https://web.whatsapp.com/send?phone=P&text=T]
    where [P] and [T] are the percent-encodings of the phone and of the
    message; and it does build one whenever both strings are well-formed
    UTF-16. *)
Theorem buildWhatsAppUrl_deep_link (phone message : jsstring) :
  PercentEncoding.codeUnits phone ->
  PercentEncoding.codeUnits message ->
  (forall url, buildWhatsAppUrl phone message = Ok url ->
     exists p t,
       url = lit ("https://" ++ host ++ "/send?phone=") ++ p ++ lit "&text=" ++ t /\
       PercentEncoding.encodes phone p /\
       PercentEncoding.encodes message t) /\
  (PercentEncoding.wellFormed phone -> PercentEncoding.wellFormed message ->
   exists url, buildWhatsAppUrl phone message = Ok url).
Proof.
  intros Hp Hm. unfold buildWhatsAppUrl. split.
  - intros url Hurl.
    destruct (URI.encodeURIComponent message) as [t|] eqn:Et; [|discriminate].
    destruct (URI.encodeURIComponent phone) as [p|] eqn:Ep; [|discriminate].
    injection Hurl as <-. exists p, t. split; [reflexivity|].
    split; apply PercentEncodingFacts.encode_some; assumption.
  - intros Wp Wm.
    destruct (PercentEncodingFacts.encode_total _ Hm Wm) as [t ->].
    destruct (PercentEncodingFacts.encode_total _ Hp Wp) as [p ->].
    eauto.
Qed.

Lemma buildWhatsAppUrl_deep_link_witness :
  (forall url, buildWhatsAppUrl (lit "919999999999") (lit "hi") = Ok url ->
     exists p t,
       url = lit ("https://" ++ host ++ "/send?phone=") ++ p ++ lit "&text=" ++ t /\
       PercentEncoding.encodes (lit "919999999999") p /\
       PercentEncoding.encodes (lit "hi") t) /\
  (PercentEncoding.wellFormed (lit "919999999999") ->
   PercentEncoding.wellFormed (lit "hi") ->
   exists url, buildWhatsAppUrl (lit "919999999999") (lit "hi") = Ok url).
Proof.
  apply (buildWhatsAppUrl_deep_link (lit "919999999999") (lit "hi"));
    unfold PercentEncoding.codeUnits; simpl; repeat constructor.
Defined.

(** ** Reasoning about asynchronous computations *)

Lemma bind_run {A B} (m : M A) (k : A -> M B) s :
  bind m k s =
  match fst (m s) with
  | Ok a => k a (snd (m s))
  | Throw e => (Throw e, snd (m s))
  | Pending => (Pending, snd (m s))
  end.
Proof. unfold bind. destruct (m s) as [[a|e|] s']; reflexivity. Qed.

Lemma tryCatch_run {A} (m : M A) (handler : JsError -> M A) s :
  tryCatch m handler s =
  match fst (m s) with
  | Throw e => handler e (snd (m s))
  | Ok a => (Ok a, snd (m s))
  | Pending => (Pending, snd (m s))
  end.
Proof. unfold tryCatch. destruct (m s) as [[a|e|] s']; reflexivity. Qed.

Lemma awaiting_run env {A} (m : M A) s :
  awaiting env m s = (fst (m s), interfere env (snd (m s))).
Proof. unfold awaiting. destruct (m s); reflexivity. Qed.

Lemma updateMonitor_missing m f s :
  monitors s !! m = None -> updateMonitor m f s = s.
Proof.
  intros H. unfold updateMonitor. destruct s as [h ms lp mh cr]. cbn in *.
  unfold withMonitors. cbn. f_equal.
  apply list_eq. intros i. destruct (decide (i = m)) as [->|Hne].
  - rewrite list_lookup_alter_eq, H. reflexivity.
  - rewrite list_lookup_alter_ne by congruence. reflexivity.
Qed.

Lemma interfere_run env s :
  interfere env s =
  if stopRequested env (history s) then
    match monitorHandle s with
    | Some m => afterStop env m s
    | None => s
    end
  else s.
Proof.
  unfold interfere. destruct (stopRequested env (history s)); [|reflexivity].
  unfold monitorStopRoute, bind, gets. cbn [fst snd].
  destruct (monitorHandle s) as [m|]; [|reflexivity].
  unfold afterStop, tryCatch, stop, bind, modify, gets, callAs, ret.
  cbn [monitors updateMonitor withMonitors history].
  rewrite list_lookup_alter_eq.
  destruct (monitors s !! m) as [c|] eqn:E; cbn [fmap option_fmap option_map].
  - change (context (halted c)) with (context c).
    unfold tryCatch. cbn [history updateMonitor withMonitors].
    destruct (settle env (history s) (ContextClose (context c))); reflexivity.
  - cbn. fold (updateMonitor m halted s). rewrite (updateMonitor_missing _ _ _ E).
    reflexivity.
Qed.

Lemma interfere_history env s :
  history (interfere env s) = history s \/
  exists m, history (interfere env s) = history s ++ [Stopping m].
Proof.
  rewrite interfere_run.
  destruct (stopRequested env (history s)); [|left; reflexivity].
  destruct (monitorHandle s) as [m|]; [|left; reflexivity].
  unfold afterStop. destruct (monitors s !! m) as [c|]; [|left; reflexivity].
  right. exists m.
  destruct (settle env (history s) (ContextClose (context c))); reflexivity.
Qed.

Section Frame.

Variable env : Env.
Variable R : Store -> Store -> Prop.
Hypothesis R_refl : forall s, R s s.
Hypothesis R_trans : forall a b c, R a b -> R b c -> R a c.
Hypothesis R_interfere : forall s, R s (interfere env s).
(* the calls of a pass of the ladder *)
Hypothesis R_isVisible : forall p sel s, R s (record (Called (IsVisible p sel)) s).
Hypothesis R_locatorClick : forall p sel s, R s (record (Called (LocatorClick p sel)) s).
Hypothesis R_evaluate : forall p s, R s (record (Called (Evaluate p LadderScript)) s).
Hypothesis R_clicked : forall p el s, R s (record (Clicked p el) s).
(* pauses, and any call at all *)
Hypothesis R_sleep : forall ms s, R s (record (Called (Sleep ms)) s).
Hypothesis R_called : forall c s, R s (record (Called c) s).
Hypothesis R_created : forall n s, R s (withCreated n s).

Lemma steps_ret {A} (a : A) : steps R (ret a).
Proof. intros s. apply R_refl. Qed.

Lemma steps_lift {A} (r : Res A) : steps R (lift r).
Proof. intros s. apply R_refl. Qed.

Lemma steps_gets {A} (f : Store -> A) : steps R (gets f).
Proof. intros s. apply R_refl. Qed.

Lemma steps_bind {A B} (m : M A) (k : A -> M B) :
  steps R m -> (forall a, steps R (k a)) -> steps R (bind m k).
Proof.
  intros Hm Hk s. rewrite bind_run. specialize (Hm s).
  destruct (fst (m s)); cbn; [|assumption..].
  eapply R_trans; [exact Hm|apply Hk].
Qed.

Lemma steps_tryCatch {A} (m : M A) (handler : JsError -> M A) :
  steps R m -> (forall e, steps R (handler e)) -> steps R (tryCatch m handler).
Proof.
  intros Hm Hh s. rewrite tryCatch_run. specialize (Hm s).
  destruct (fst (m s)); cbn; [assumption| |assumption].
  eapply R_trans; [exact Hm|apply Hh].
Qed.

Lemma steps_awaiting {A} (m : M A) : steps R m -> steps R (awaiting env m).
Proof.
  intros Hm s. rewrite awaiting_run. cbn.
  eapply R_trans; [apply Hm|apply R_interfere].
Qed.

(** A call, given that recording it is a step. *)
Lemma steps_call_of c :
  (forall s, R s (record (Called c) s)) -> steps R (call env c).
Proof.
  intros Hc s. unfold call, callAs.
  destruct (settle env (history s) c); cbn; apply Hc.
Qed.

Lemma steps_await_of c :
  (forall s, R s (record (Called c) s)) -> steps R (await env c).
Proof. intros Hc. apply steps_awaiting, steps_call_of, Hc. Qed.

Lemma steps_sleep ms : steps R (sleep env ms).
Proof. apply steps_awaiting. intros s. apply R_sleep. Qed.

Lemma steps_evaluateLadder page : steps R (evaluateLadder env page).
Proof.
  unfold evaluateLadder. apply steps_awaiting.
  apply steps_bind; [apply steps_call_of, R_evaluate|intros _].
  apply steps_bind; [apply steps_gets|intros [el|]]; [|apply steps_ret].
  apply steps_bind; [|intros _; apply steps_ret].
  intros s. apply R_clicked.
Qed.

Lemma steps_isVisible page sel : steps R (isVisible env page sel).
Proof.
  unfold isVisible. apply steps_awaiting.
  apply steps_bind; [apply steps_call_of, R_isVisible|intros _; apply steps_gets].
Qed.

Lemma steps_tryLocators page sels : steps R (tryLocators env page sels).
Proof.
  induction sels as [|sel rest IH]; cbn [tryLocators]; [apply steps_ret|].
  apply steps_bind; [|intros [|]; [apply steps_ret|exact IH]].
  apply steps_tryCatch; [|intros _; apply steps_ret].
  apply steps_bind.
  - apply steps_tryCatch; [apply steps_isVisible|intros _; apply steps_ret].
  - intros [|]; [|apply steps_ret].
    apply steps_bind; [apply steps_await_of, R_locatorClick|intros _; apply steps_ret].
Qed.

Lemma steps_trySendClick page : steps R (trySendClick env page).
Proof.
  unfold trySendClick.
  apply steps_bind; [apply steps_evaluateLadder|].
  intros [|]; [apply steps_ret|apply steps_tryLocators].
Qed.

Lemma steps_sendAttempts n page : steps R (sendAttempts env n page).
Proof.
  induction n as [|n IH]; cbn [sendAttempts]; [apply steps_ret|].
  apply steps_bind; [apply steps_trySendClick|].
  intros [|]; [apply steps_ret|].
  apply steps_bind; [apply steps_sleep|intros _; exact IH].
Qed.

Lemma steps_csvAttempts n page sent : steps R (csvAttempts env n page sent).
Proof.
  revert sent. induction n as [|n IH]; intros sent; cbn [csvAttempts];
    [apply steps_ret|].
  destruct sent; [apply steps_ret|].
  apply steps_bind; [apply steps_trySendClick|intros sent'].
  apply steps_bind; [|intros _; apply IH].
  destruct sent'; [apply steps_ret|apply steps_sleep].
Qed.

Lemma steps_await c : steps R (await env c).
Proof. apply steps_await_of, R_called. Qed.

Lemma steps_create c : steps R (create env c).
Proof.
  unfold create. apply steps_bind; [apply steps_await|intros _].
  apply steps_bind; [apply steps_gets|intros n].
  apply steps_bind; [|intros _; apply steps_ret].
  intros s. apply R_created.
Qed.

Lemma steps_sendSingle page r : steps R (sendSingle env page r).
Proof.
  unfold sendSingle.
  apply steps_bind; [apply steps_lift|intros url].
  apply steps_bind; [apply steps_await|intros _].
  apply steps_bind; [apply steps_await|intros _].
  apply steps_bind; [apply steps_sleep|intros _].
  apply steps_bind; [apply steps_sendAttempts|].
  intros [|]; [apply steps_ret|].
  apply steps_bind; [apply steps_await|intros _; apply steps_sleep].
Qed.

Lemma steps_waitForReady page : steps R (waitForReady env page).
Proof.
  unfold waitForReady.
  apply steps_bind; [apply steps_await|intros _].
  apply steps_bind; [apply steps_await|intros _; apply steps_await].
Qed.

Lemma steps_getContext dir : steps R (getContext env dir).
Proof.
  unfold getContext, ensureDir.
  apply steps_bind; [apply steps_await|intros _; apply steps_create].
Qed.

End Frame.

(** *** Histories only grow, and interference adds no call and no callback *)

Lemma progressOf_app h1 h2 : progressOf (h1 ++ h2) = progressOf h1 ++ progressOf h2.
Proof. apply omap_app. Qed.

Lemma callsOf_app h1 h2 : callsOf (h1 ++ h2) = callsOf h1 ++ callsOf h2.
Proof. apply omap_app. Qed.

Lemma eventsOf_app m h1 h2 : eventsOf m (h1 ++ h2) = eventsOf m h1 ++ eventsOf m h2.
Proof. apply omap_app. Qed.

Lemma interfere_progress env s :
  progressOf (history (interfere env s)) = progressOf (history s).
Proof.
  destruct (interfere_history env s) as [->|[m ->]]; [reflexivity|].
  rewrite progressOf_app. apply app_nil_r.
Qed.

Lemma interfere_calls env s :
  callsOf (history (interfere env s)) = callsOf (history s).
Proof.
  destruct (interfere_history env s) as [->|[m ->]]; [reflexivity|].
  rewrite callsOf_app. apply app_nil_r.
Qed.

Lemma interfere_events env m s :
  eventsOf m (history (interfere env s)) = eventsOf m (history s).
Proof.
  destruct (interfere_history env s) as [->|[m' ->]]; [reflexivity|].
  rewrite eventsOf_app. apply app_nil_r.
Qed.

Lemma sameProgress_interfere env s : sameProgress s (interfere env s).
Proof. apply interfere_progress. Qed.

Lemma sameProgress_called c s : sameProgress s (record (Called c) s).
Proof. unfold sameProgress. cbn. rewrite progressOf_app. apply app_nil_r. Qed.

(** [sendSingle] never invokes [onProgress]. *)
Lemma sendSingle_progress env page r s :
  progressOf (history (snd (sendSingle env page r s))) = progressOf (history s).
Proof.
  apply (steps_sendSingle env sameProgress).
  - reflexivity.
  - unfold sameProgress. intros a b c Hab Hbc. congruence.
  - apply interfere_progress.
  - intros; apply sameProgress_called.
  - intros; apply sameProgress_called.
  - intros; apply sameProgress_called.
  - intros p el s0. unfold sameProgress. cbn. rewrite progressOf_app. apply app_nil_r.
  - intros; apply sameProgress_called.
  - intros; apply sameProgress_called.
Qed.

Lemma sleep_run env ms s :
  sleep env ms s = (Ok tt, interfere env (record (Called (Sleep ms)) s)).
Proof. reflexivity. Qed.

Lemma sleep_progress env ms s :
  progressOf (history (snd (sleep env ms s))) = progressOf (history s).
Proof.
  rewrite sleep_run. cbn [snd]. rewrite interfere_progress. cbn.
  rewrite progressOf_app. apply app_nil_r.
Qed.

(** *** When no driver call hangs, every promise settles *)

Section Settles.

Variable env : Env.
Hypothesis no_hang : neverHangs env.

Lemma settles_ret {A} (a : A) : settles (ret a).
Proof. intros s. discriminate. Qed.

Lemma settles_gets {A} (f : Store -> A) : settles (gets f).
Proof. intros s. discriminate. Qed.

Lemma settles_modify f : settles (modify f).
Proof. intros s. discriminate. Qed.

Lemma settles_bind {A B} (m : M A) (k : A -> M B) :
  settles m -> (forall a, settles (k a)) -> settles (bind m k).
Proof.
  intros Hm Hk s. rewrite bind_run. specialize (Hm s).
  destruct (fst (m s)); cbn; [apply Hk|discriminate|contradiction].
Qed.

Lemma settles_tryCatch {A} (m : M A) (handler : JsError -> M A) :
  settles m -> (forall e, settles (handler e)) -> settles (tryCatch m handler).
Proof.
  intros Hm Hh s. rewrite tryCatch_run. specialize (Hm s).
  destruct (fst (m s)); cbn; [discriminate|apply Hh|contradiction].
Qed.

Lemma settles_tryFinally {A} (m : M A) (fin : M unit) :
  settles m -> settles fin -> settles (tryFinally m fin).
Proof.
  intros Hm Hf s. unfold tryFinally. specialize (Hm s).
  destruct (m s) as [[a|e|] s']; cbn in *; [| |contradiction];
    specialize (Hf s'); destruct (fin s') as [[[]|e'|] s'']; cbn in *;
    congruence.
Qed.

Lemma settles_awaiting {A} (m : M A) : settles m -> settles (awaiting env m).
Proof. intros Hm s. rewrite awaiting_run. apply Hm. Qed.

Lemma settles_call c : settles (call env c).
Proof.
  intros s. unfold call, callAs. specialize (no_hang (history s) c).
  destruct (settle env (history s) c); cbn; congruence.
Qed.

Lemma settles_await c : settles (await env c).
Proof. apply settles_awaiting, settles_call. Qed.

Lemma settles_sleep ms : settles (sleep env ms).
Proof. intros s. discriminate. Qed.

Lemma settles_evaluateLadder page : settles (evaluateLadder env page).
Proof.
  unfold evaluateLadder. apply settles_awaiting.
  apply settles_bind; [apply settles_call|intros _].
  apply settles_bind; [apply settles_gets|intros [el|]]; [|apply settles_ret].
  apply settles_bind; [apply settles_modify|intros _; apply settles_ret].
Qed.

Lemma settles_tryLocators page sels : settles (tryLocators env page sels).
Proof.
  induction sels as [|sel rest IH]; cbn [tryLocators]; [apply settles_ret|].
  apply settles_bind; [|intros [|]; [apply settles_ret|exact IH]].
  apply settles_tryCatch; [|intros _; apply settles_ret].
  apply settles_bind.
  - apply settles_tryCatch; [|intros _; apply settles_ret].
    apply settles_awaiting.
    apply settles_bind; [apply settles_call|intros _; apply settles_gets].
  - intros [|]; [|apply settles_ret].
    apply settles_bind; [apply settles_await|intros _; apply settles_ret].
Qed.

Lemma settles_trySendClick page : settles (trySendClick env page).
Proof.
  unfold trySendClick.
  apply settles_bind; [apply settles_evaluateLadder|].
  intros [|]; [apply settles_ret|apply settles_tryLocators].
Qed.

Lemma settles_sendAttempts n page : settles (sendAttempts env n page).
Proof.
  induction n as [|n IH]; cbn [sendAttempts]; [apply settles_ret|].
  apply settles_bind; [apply settles_trySendClick|].
  intros [|]; [apply settles_ret|].
  apply settles_bind; [apply settles_sleep|intros _; exact IH].
Qed.

Lemma settles_sendSingle page r : settles (sendSingle env page r).
Proof.
  unfold sendSingle.
  apply settles_bind.
  { intros s. unfold lift, buildWhatsAppUrl. cbn.
    destruct (URI.encodeURIComponent (message r)); [|discriminate].
    destruct (URI.encodeURIComponent (phone r)); discriminate. }
  intros url.
  apply settles_bind; [apply settles_await|intros _].
  apply settles_bind; [apply settles_await|intros _].
  apply settles_bind; [apply settles_sleep|intros _].
  apply settles_bind; [apply settles_sendAttempts|].
  intros [|]; [apply settles_ret|].
  apply settles_bind; [apply settles_await|intros _; apply settles_sleep].
Qed.

End Settles.

(** ** sendBatch: one report per recipient *)

Lemma await_run env c s :
  await env c s =
  (match settle env (history s) c with
   | Resolves => Ok tt
   | Rejects e => Throw e
   | Hangs => Pending
   end, interfere env (record (Called c) s)).
Proof.
  unfold await. rewrite awaiting_run. unfold call, callAs.
  destruct (settle env (history s) c); reflexivity.
Qed.

Lemma batchIteration_run env page delayMs i r s :
  let out := batchIteration env page true delayMs i r s in
  match fst (sendSingle env page r s) with
  | Ok _ =>
      fst out = Ok tt /\
      progressOf (history (snd out)) =
        progressOf (history s) ++ [mkProgress i r true None]
  | Throw e =>
      fst out = Ok tt /\
      progressOf (history (snd out)) =
        progressOf (history s) ++ [mkProgress i r false (Some (errorText e))]
  | Pending => fst out = Pending
  end.
Proof.
  pose proof (sendSingle_progress env page r s) as Hsame.
  unfold batchIteration. cbn zeta.
  rewrite bind_run, tryCatch_run, bind_run.
  destruct (sendSingle env page r s) as [[[]|e|] s1]; cbn [fst snd] in *.
  - unfold notifyProgress, modify. cbn [fst snd]. split; [reflexivity|].
    rewrite sleep_progress. cbn. rewrite progressOf_app, Hsame. reflexivity.
  - unfold notifyProgress, modify. cbn [fst snd]. split; [reflexivity|].
    rewrite sleep_progress. cbn. rewrite progressOf_app, Hsame. reflexivity.
  - reflexivity.
Qed.

Lemma batchLoop_reports env page delayMs rows :
  forall i s,
    let out := batchLoop env page true delayMs i rows s in
    progressOf (history (snd out)) =
      progressOf (history s) ++ expectedReports env page delayMs i rows s /\
    (forall e, fst out <> Throw e).
Proof.
  induction rows as [|r rest IH]; intros i s; cbn zeta.
  { cbn. rewrite app_nil_r. split; [reflexivity|discriminate]. }
  cbn [batchLoop expectedReports]. rewrite bind_run.
  pose proof (batchIteration_run env page delayMs i r s) as Hit. cbn zeta in Hit.
  destruct (fst (sendSingle env page r s)) as [[]|e|].
  - destruct Hit as [-> Hp]. specialize (IH (S i) (snd (batchIteration env page true delayMs i r s))).
    cbn zeta in IH. destruct IH as [IHp IHr]. split; [|exact IHr].
    rewrite IHp, Hp, <- app_assoc. reflexivity.
  - destruct Hit as [-> Hp]. specialize (IH (S i) (snd (batchIteration env page true delayMs i r s))).
    cbn zeta in IH. destruct IH as [IHp IHr]. split; [|exact IHr].
    rewrite IHp, Hp, <- app_assoc. reflexivity.
  - rewrite Hit. cbn [fst snd]. split; [|discriminate].
    rewrite app_nil_r.
    unfold batchIteration. rewrite bind_run, tryCatch_run, bind_run.
    pose proof (sendSingle_progress env page r s) as Hsame.
    destruct (sendSingle env page r s) as [[[]|e|] s1] eqn:E; cbn [fst snd] in *.
    + unfold batchIteration in Hit. rewrite bind_run, tryCatch_run, bind_run, E in Hit.
      discriminate Hit.
    + unfold batchIteration in Hit. rewrite bind_run, tryCatch_run, bind_run, E in Hit.
      discriminate Hit.
    + exact Hsame.
Qed.

Lemma expectedReports_shape env page delayMs rows :
  neverHangs env ->
  forall i s,
    map index (expectedReports env page delayMs i rows s) = seq i (length rows) /\
    map row (expectedReports env page delayMs i rows s) = rows.
Proof.
  intros Hno. induction rows as [|r rest IH]; intros i s; [split; reflexivity|].
  cbn [expectedReports]. cbn zeta.
  pose proof (settles_sendSingle env Hno page r s) as Hs.
  destruct (fst (sendSingle env page r s)) as [[]|e|]; [| |contradiction];
    destruct (IH (S i) (snd (batchIteration env page true delayMs i r s))) as [Hi Hr];
    cbn [map length seq index row]; rewrite Hi, Hr; split; reflexivity.
Qed.

Lemma batchLoop_settles env page delayMs rows :
  neverHangs env -> forall i, settles (batchLoop env page true delayMs i rows).
Proof.
  intros Hno. induction rows as [|r rest IH]; intros i; cbn [batchLoop].
  - apply settles_ret.
  - apply settles_bind; [|intros _; apply IH].
    unfold batchIteration.
    apply settles_bind; [|intros _; apply settles_sleep].
    apply settles_tryCatch.
    + apply settles_bind; [apply settles_sendSingle; assumption|].
      intros _. apply settles_modify.
    + intros e. apply settles_modify.
Qed.

(** The setup of a session whose calls all resolve. *)
Lemma interfere_created env s : created (interfere env s) = created s.
Proof.
  rewrite interfere_run.
  destruct (stopRequested env (history s)); [|reflexivity].
  destruct (monitorHandle s) as [m|]; [|reflexivity].
  unfold afterStop. destruct (monitors s !! m) as [c|]; [|reflexivity].
  destruct (settle env (history s) (ContextClose (context c))); reflexivity.
Qed.

Lemma create_run env c s :
  resolves env c ->
  create env c s =
  (Ok (created s), withCreated (S (created s)) (interfere env (record (Called c) s))).
Proof.
  intros Hc. unfold create. rewrite bind_run, await_run, Hc. cbn [fst snd].
  unfold bind, gets, modify, ret. rewrite interfere_created. reflexivity.
Qed.

Lemma waitForReady_run env page s :
  resolves env (Goto page (lit "https://web.whatsapp.com/")) ->
  resolves env (WaitForSelector page composer 0) ->
  resolves env (Evaluate page ZoomScript) ->
  fst (waitForReady env page s) = Ok tt.
Proof.
  intros Hg Hw He. unfold waitForReady.
  rewrite bind_run, await_run, Hg. cbn [fst snd].
  rewrite bind_run, await_run, Hw. cbn [fst snd].
  rewrite await_run, He. reflexivity.
Qed.

Lemma openBatchSession_run env s :
  sessionOpens env BATCH_SESSION_DIR ->
  exists page s1, openBatchSession env s = (Ok page, s1).
Proof.
  intros (Hmk & Hl & Hn & Hg & Hw & He).
  unfold openBatchSession, getContext, ensureDir, newPage.
  rewrite bind_run, bind_run, await_run, Hmk. cbn [fst snd].
  rewrite (create_run _ _ _ Hl). cbn [fst snd].
  rewrite bind_run, (create_run _ _ _ (Hn _)). cbn [fst snd].
  rewrite bind_run.
  match goal with |- context [waitForReady env ?p ?s] =>
    pose proof (waitForReady_run env p s (Hg _) (Hw _) (He _)) as Hr;
    destruct (waitForReady env p s) as [res s1] end.
  cbn [fst snd] in *. subst res. cbn. eauto.
Qed.

Lemma openBatchSession_progress env s :
  progressOf (history (snd (openBatchSession env s))) = progressOf (history s).
Proof.
  assert (Htrans : forall a b c : Store,
             sameProgress a b -> sameProgress b c -> sameProgress a c)
    by (unfold sameProgress; intros; congruence).
  assert (Hrefl : forall s, sameProgress s s) by reflexivity.
  assert (Hcreated : forall n s, sameProgress s (withCreated n s)) by reflexivity.
  unfold openBatchSession.
  apply (steps_bind sameProgress Htrans).
  { apply steps_getContext;
      auto using sameProgress_interfere, sameProgress_called. }
  intros ctx. apply (steps_bind sameProgress Htrans).
  { apply steps_create; auto using sameProgress_interfere, sameProgress_called. }
  intros page. apply (steps_bind sameProgress Htrans).
  { apply steps_waitForReady; auto using sameProgress_interfere, sameProgress_called. }
  intros _. apply steps_ret; assumption.
Qed.

(** C1.  When the batch session opens and no driver call hangs,
    [sendBatch] invokes [onProgress] exactly once per input recipient, in
    input order: with [ok: true] when that recipient's [sendSingle]
    resolved and with [ok: false] and the error text when it rejected, the
    next recipient following in either case.  The loop itself never
    rejects. *)
Theorem sendBatch_reports_every_recipient env rows delayMs s :
  neverHangs env ->
  sessionOpens env BATCH_SESSION_DIR ->
  exists page s1,
    openBatchSession env s = (Ok page, s1) /\
    let delay := default 4000 delayMs in
    let reports := expectedReports env page delay 0 rows s1 in
    progressOf (history (snd (sendBatch env rows true delayMs s))) =
      progressOf (history s) ++ reports /\
    map index reports = seq 0 (length rows) /\
    map row reports = rows /\
    fst (batchLoop env page true delay 0 rows s1) = Ok tt /\
    fst (sendBatch env rows true delayMs s) <> Pending.
Proof.
  intros Hno Hopen.
  destruct (openBatchSession_run env s Hopen) as (page & s1 & Hrun).
  exists page, s1. split; [exact Hrun|]. cbn zeta.
  pose proof (openBatchSession_progress env s) as Hsetup.
  rewrite Hrun in Hsetup. cbn [snd] in Hsetup.
  destruct (batchLoop_reports env page (default 4000 delayMs) rows 0%nat s1) as [Hrep Hthrow].
  destruct (expectedReports_shape env page (default 4000 delayMs) rows Hno 0%nat s1) as [Hidx Hrow].
  pose proof (batchLoop_settles env page (default 4000 delayMs) rows Hno 0%nat s1) as Hset.
  assert (Hok : fst (batchLoop env page true (default 4000 delayMs) 0 rows s1) = Ok tt).
  { destruct (fst (batchLoop env page true (default 4000 delayMs) 0 rows s1)) as [[]|e|];
      [reflexivity|destruct (Hthrow e); reflexivity|contradiction]. }
  (* unfold the run of sendBatch along the run of the setup *)
  unfold openBatchSession in Hrun. unfold sendBatch. cbn zeta.
  rewrite bind_run in Hrun. rewrite bind_run.
  destruct (getContext env BATCH_SESSION_DIR s) as [[ctx|e|] sa]; cbn [fst snd] in *;
    [|discriminate..].
  rewrite bind_run in Hrun. rewrite bind_run.
  destruct (newPage env ctx sa) as [[pg|e|] sb]; cbn [fst snd] in *;
    [|discriminate..].
  rewrite bind_run in Hrun.
  unfold tryFinally. rewrite bind_run.
  destruct (waitForReady env pg sb) as [[[]|e|] sc]; cbn [fst snd] in *;
    [|discriminate..].
  injection Hrun as -> ->.
  destruct (batchLoop env page true (default 4000 delayMs) 0 rows s1) as [res s2].
  cbn [fst snd] in *. subst res.
  rewrite await_run. specialize (Hno (history s2) (ContextClose ctx)).
  assert (Hclose : progressOf (history (interfere env (record (Called (ContextClose ctx)) s2)))
                   = progressOf (history s2)).
  { rewrite interfere_progress. cbn. rewrite progressOf_app. apply app_nil_r. }
  repeat split; try assumption.
  - destruct (settle env (history s2) (ContextClose ctx)); cbn [snd];
      [| |contradiction]; rewrite Hclose, Hrep, Hsetup; reflexivity.
  - destruct (settle env (history s2) (ContextClose ctx)); cbn [fst];
      [discriminate|discriminate|contradiction].
Qed.

(** ** sendSingle: the Enter fallback *)

Lemma record_calls c s :
  callsOf (history (record (Called c) s)) = callsOf (history s) ++ [c].
Proof. cbn. rewrite callsOf_app. reflexivity. Qed.

Lemma await_calls env c s :
  callsOf (history (snd (await env c s))) = callsOf (history s) ++ [c].
Proof. rewrite await_run. cbn [snd]. rewrite interfere_calls. apply record_calls. Qed.

Lemma sleep_calls env ms s :
  callsOf (history (snd (sleep env ms s))) = callsOf (history s) ++ [Sleep ms].
Proof. rewrite sleep_run. cbn [snd]. rewrite interfere_calls. apply record_calls. Qed.

Lemma call_calls env c s :
  callsOf (history (snd (call env c s))) = callsOf (history s) ++ [c].
Proof.
  unfold call, callAs. destruct (settle env (history s) c); apply record_calls.
Qed.

Lemma evaluateLadder_calls env page s :
  callsOf (history (snd (evaluateLadder env page s))) =
  callsOf (history s) ++ [Evaluate page LadderScript].
Proof.
  unfold evaluateLadder. rewrite awaiting_run. cbn [snd]. rewrite interfere_calls.
  rewrite bind_run.
  pose proof (call_calls env (Evaluate page LadderScript) s) as Hc.
  destruct (call env (Evaluate page LadderScript) s) as [[[]|e|] s1];
    cbn [fst snd] in *; try exact Hc.
  unfold bind, gets, modify, ret.
  destruct (Ladder.script (dom env (history s1) page)); cbn; [|exact Hc].
  rewrite callsOf_app, Hc. apply app_nil_r.
Qed.

Lemma isVisible_calls env page sel s :
  callsOf (history (snd (isVisible env page sel s))) =
  callsOf (history s) ++ [IsVisible page sel].
Proof.
  unfold isVisible. rewrite awaiting_run. cbn [snd]. rewrite interfere_calls.
  rewrite bind_run.
  pose proof (call_calls env (IsVisible page sel) s) as Hc.
  destruct (call env (IsVisible page sel) s) as [[[]|e|] s1];
    cbn [fst snd] in *; exact Hc.
Qed.

Lemma tryLocators_calls env page sels :
  forall s, exists l,
    callsOf (history (snd (tryLocators env page sels s))) = callsOf (history s) ++ l /\
    forallb isLocatorCall l = true.
Proof.
  induction sels as [|sel rest IH]; intros s; cbn [tryLocators].
  { exists []. split; [symmetry; apply app_nil_r|reflexivity]. }
  rewrite bind_run, tryCatch_run, bind_run, tryCatch_run.
  pose proof (isVisible_calls env page sel s) as Hv.
  destruct (isVisible env page sel s) as [[vis|e|] s1]; cbn [fst snd ret] in *.
  - destruct vis; cbn [fst snd ret].
    + rewrite bind_run.
      pose proof (await_calls env (LocatorClick page sel) s1) as Hk.
      destruct (await env (LocatorClick page sel) s1) as [[[]|e|] s2];
        cbn [fst snd ret] in *.
      * exists [IsVisible page sel; LocatorClick page sel]. split; [|reflexivity].
        rewrite Hk, Hv, <- app_assoc. reflexivity.
      * destruct (IH s2) as (l & Hl & Hloc).
        exists (IsVisible page sel :: LocatorClick page sel :: l). split; [|exact Hloc].
        rewrite Hl, Hk, Hv, <- !app_assoc. reflexivity.
      * exists [IsVisible page sel; LocatorClick page sel]. split; [|reflexivity].
        rewrite Hk, Hv, <- app_assoc. reflexivity.
    + destruct (IH s1) as (l & Hl & Hloc).
      exists (IsVisible page sel :: l). split; [|exact Hloc].
      rewrite Hl, Hv, <- app_assoc. reflexivity.
  - destruct (IH s1) as (l & Hl & Hloc).
    exists (IsVisible page sel :: l). split; [|exact Hloc].
    rewrite Hl, Hv, <- app_assoc. reflexivity.
  - exists [IsVisible page sel]. split; [exact Hv|reflexivity].
Qed.

(** One pass of the ladder is one evaluation of the in-page script, then
    locator calls only. *)
Lemma trySendClick_calls env page s :
  exists locators,
    callsOf (history (snd (trySendClick env page s))) =
      callsOf (history s) ++ Evaluate page LadderScript :: locators /\
    forallb isLocatorCall locators = true.
Proof.
  unfold trySendClick. rewrite bind_run.
  pose proof (evaluateLadder_calls env page s) as He.
  destruct (evaluateLadder env page s) as [[[|]|e|] s1]; cbn [fst snd ret] in *;
    try (exists []; split; [exact He|reflexivity]).
  destruct (tryLocators_calls env page playwrightSelectors s1) as (l & Hl & Hloc).
  exists l. split; [|exact Hloc].
  rewrite Hl, He, <- app_assoc. reflexivity.
Qed.

Lemma sendAttempts_exhausted env page n :
  noSendControl env page ->
  forall s, exists l,
    fst (sendAttempts env n page s) = Ok false /\
    callsOf (history (snd (sendAttempts env n page s))) = callsOf (history s) ++ l /\
    failedPasses page 1000 n l.
Proof.
  intros Hnone. induction n as [|n IH]; intros s; cbn [sendAttempts].
  { exists []. repeat split. symmetry. apply app_nil_r. }
  rewrite bind_run. specialize (Hnone s).
  destruct (trySendClick_calls env page s) as (locators & Hl & Hloc).
  destruct (trySendClick env page s) as [res s1]. cbn [fst snd] in *. subst res.
  rewrite bind_run, sleep_run. cbn [fst snd].
  destruct (IH (interfere env (record (Called (Sleep 1000)) s1))) as (rest & Hres & Hcalls & Hrest).
  exists (Evaluate page LadderScript :: locators ++ Sleep 1000 :: rest).
  split; [exact Hres|]. split.
  - rewrite Hcalls, interfere_calls, record_calls, Hl.
    rewrite <- !app_assoc. reflexivity.
  - cbn [failedPasses]. exists locators, rest. repeat split; assumption.
Qed.

Lemma failedPasses_counts page gap n l :
  failedPasses page gap n l ->
  count (isPress "Enter") l = 0%nat /\
  count isLadderPass l = n /\
  sleepsOf l = replicate n gap.
Proof.
  revert l. induction n as [|n IH]; intros l; cbn [failedPasses].
  { intros ->. repeat split. }
  intros (locators & rest & -> & Hloc & Hrest).
  destruct (IH _ Hrest) as (Hp & Hn & Hs).
  assert (Hnone : count (isPress "Enter") locators = 0%nat /\
                  count isLadderPass locators = 0%nat /\
                  sleepsOf locators = []).
  { clear -Hloc. induction locators as [|c l IHl]; [repeat split|].
    cbn [forallb] in Hloc. apply andb_true_iff in Hloc as [Hc Hl].
    destruct (IHl Hl) as (H1 & H2 & H3).
    unfold count, sleepsOf in *.
    destruct c; try discriminate Hc; cbn; repeat split; assumption. }
  destruct Hnone as (Lp & Ln & Ls).
  unfold count, sleepsOf in *.
  change (Evaluate page LadderScript :: locators ++ Sleep gap :: rest)
    with ([Evaluate page LadderScript] ++ locators ++ [Sleep gap] ++ rest).
  rewrite !filter_app, !length_app, !omap_app, Lp, Ln, Ls, Hp, Hn, Hs.
  repeat split.
Qed.

(** C2.  Let the deep link be well-formed and the composer load within its
    60 s bound.  If no strategy of the click ladder ever succeeds, then
    [sendSingle] runs five passes of the ladder, each followed by a pause
    of one second, presses Enter exactly once, pauses and returns normally
    (the key press itself being accepted by the page). *)
Theorem sendSingle_falls_back_to_Enter env page r url s :
  buildWhatsAppUrl (phone r) (message r) = Ok url ->
  resolves env (Goto page url) ->
  resolves env (WaitForSelector page composer 60000) ->
  noSendControl env page ->
  resolves env (KeyboardPress page "Enter") ->
  exists passes,
    fst (sendSingle env page r s) = Ok tt /\
    callsOf (history (snd (sendSingle env page r s))) =
      callsOf (history s)
        ++ [Goto page url; WaitForSelector page composer 60000; Sleep 2000]
        ++ passes
        ++ [KeyboardPress page "Enter"; Sleep 1200] /\
    failedPasses page 1000 5 passes /\
    count isLadderPass passes = 5%nat /\
    sleepsOf passes = replicate 5 1000 /\
    count (isPress "Enter")
      ([Goto page url; WaitForSelector page composer 60000; Sleep 2000]
         ++ passes ++ [KeyboardPress page "Enter"; Sleep 1200]) = 1%nat.
Proof.
  intros Hurl Hgoto Hwait Hnone Hpress.
  destruct (sendSingle env page r s) as [res sf] eqn:E.
  unfold sendSingle in E. rewrite bind_run in E. unfold lift in E.
  rewrite Hurl in E. cbn [fst snd] in E.
  rewrite bind_run, await_run, Hgoto in E. cbn [fst snd] in E.
  rewrite bind_run, await_run, Hwait in E. cbn [fst snd] in E.
  rewrite bind_run, sleep_run in E. cbn [fst snd] in E.
  rewrite bind_run in E.
  match type of E with context [sendAttempts env 5 page ?s0] =>
    destruct (sendAttempts_exhausted env page 5 Hnone s0) as (passes & Hres & Hcalls & Hpasses);
    destruct (sendAttempts env 5 page s0) as [res5 s5] end.
  cbn [fst snd] in *. subst res5.
  rewrite bind_run, await_run, Hpress in E. cbn [fst snd] in E.
  rewrite sleep_run in E. injection E as <- <-.
  destruct (failedPasses_counts _ _ _ _ Hpasses) as (Hp & Hn & Hs).
  exists passes. split; [reflexivity|]. split; [|repeat split; try assumption].
  - rewrite interfere_calls, record_calls, interfere_calls, record_calls, Hcalls.
    repeat (rewrite interfere_calls || rewrite record_calls).
    rewrite <- !app_assoc. reflexivity.
  - unfold count in *.
    rewrite !filter_app, !length_app, Hp. reflexivity.
Qed.

(** ** trySendClick: the structural fallback *)

Lemma tryDirect_none doc sels :
  (forall sel el, In sel sels -> Dom.querySelector sel doc = Some el ->
                  Dom.hasOffsetParent doc el = false) ->
  Ladder.tryDirect doc sels = None.
Proof.
  induction sels as [|sel rest IH]; intros H; cbn [Ladder.tryDirect]; [reflexivity|].
  assert (Hrest : Ladder.tryDirect doc rest = None).
  { apply IH. intros sel' el Hin. apply H. right. exact Hin. }
  destruct (Dom.querySelector sel doc) as [el|] eqn:E; [|exact Hrest].
  rewrite (H sel el (or_introl eq_refl) E). exact Hrest.
Qed.

Lemma tryIcons_some doc spans :
  (exists span btn, In span spans /\
     Dom.closest doc Ladder.button span = Some btn /\
     Dom.hasOffsetParent doc btn = true) ->
  exists span btn,
    Ladder.tryIcons doc spans = Some btn /\
    In span spans /\
    Dom.closest doc Ladder.button span = Some btn /\
    Dom.hasOffsetParent doc btn = true.
Proof.
  induction spans as [|sp rest IH]; intros (span & btn & Hin & Hc & Hv).
  { destruct Hin. }
  cbn [Ladder.tryIcons].
  destruct (Dom.closest doc Ladder.button sp) as [b|] eqn:Eb.
  - destruct (Dom.hasOffsetParent doc b) eqn:Ev.
    + exists sp, b. repeat split; [left; reflexivity|assumption..].
    + destruct Hin as [->|Hin]; [congruence|].
      destruct IH as (span' & btn' & H1 & H2 & H3 & H4); [eauto|].
      exists span', btn'. repeat split; [assumption|right; assumption|assumption..].
  - destruct Hin as [->|Hin]; [congruence|].
    destruct IH as (span' & btn' & H1 & H2 & H3 & H4); [eauto|].
    exists span', btn'. repeat split; [assumption|right; assumption|assumption..].
Qed.

Lemma script_structural doc :
  noDirectMatch doc ->
  (exists span btn, iconButton doc span btn) ->
  exists span btn,
    Ladder.tryIcons doc (Dom.querySelectorAll Ladder.sendIcon doc) = Some btn /\
    Ladder.script doc = Some btn /\
    iconButton doc span btn.
Proof.
  intros Hdirect (span & btn & Hicon).
  unfold Ladder.script. rewrite (tryDirect_none _ _ Hdirect).
  destruct (tryIcons_some doc (Dom.querySelectorAll Ladder.sendIcon doc))
    as (span' & btn' & Hrun & Hin & Hc & Hv).
  { exists span, btn. exact Hicon. }
  rewrite Hrun. exists span', btn'. split; [reflexivity|]. split; [reflexivity|].
  repeat split; assumption.
Qed.

Lemma evaluateLadder_run env page s :
  evaluateLadder env page s =
  let s1 := record (Called (Evaluate page LadderScript)) s in
  match settle env (history s) (Evaluate page LadderScript) with
  | Resolves =>
      match Ladder.script (dom env (history s1) page) with
      | Some el => (Ok true, interfere env (record (Clicked page el) s1))
      | None => (Ok false, interfere env s1)
      end
  | Rejects e => (Throw e, interfere env s1)
  | Hangs => (Pending, interfere env s1)
  end.
Proof.
  unfold evaluateLadder, awaiting, bind, call, callAs, gets, modify, ret.
  destruct (settle env (history s) (Evaluate page LadderScript)); try reflexivity.
  destruct (Ladder.script _); reflexivity.
Qed.

(** C7.  Let the page answer the evaluation of the in-page script with a
    document in which no direct selector finds a clickable element while
    some send icon sits inside a visible button.  Then one pass of the
    ladder clicks such a button from inside the page, through the
    structural fallback, and [trySendClick] returns true without turning to
    the locators. *)
Theorem trySendClick_structural_fallback env page s :
  let doc := dom env (history (record (Called (Evaluate page LadderScript)) s)) page in
  settle env (history s) (Evaluate page LadderScript) = Resolves ->
  noDirectMatch doc ->
  (exists span btn, iconButton doc span btn) ->
  exists span btn,
    iconButton doc span btn /\
    Ladder.tryDirect doc Ladder.selectors = None /\
    Ladder.tryIcons doc (Dom.querySelectorAll Ladder.sendIcon doc) = Some btn /\
    trySendClick env page s =
      (Ok true,
       interfere env
         (record (Clicked page btn) (record (Called (Evaluate page LadderScript)) s))).
Proof.
  intros doc Hres Hdirect Hicon.
  destruct (script_structural doc Hdirect Hicon) as (span & btn & Hi & Hscript & Hb).
  exists span, btn. split; [exact Hb|].
  split; [exact (tryDirect_none _ _ Hdirect)|].
  split; [exact Hi|].
  unfold trySendClick, bind. rewrite evaluateLadder_run, Hres. cbn zeta.
  fold doc. rewrite Hscript. reflexivity.
Qed.

(** ** getScreenshot *)

(** C8.  When no page has been stored, or the stored page is closed,
    [getScreenshot] resolves to null, issues no driver call and leaves the
    store as it is; this is so in particular before any session was opened.
    A screenshot that the driver refuses also gives null, and in no state
    does [getScreenshot] reject. *)
Theorem getScreenshot_unavailable env :
  (forall s,
     lastPage s = None \/
     (exists page, lastPage s = Some page /\ isClosed env (history s) page = true) ->
     getScreenshot env s = (Ok None, s)) /\
  getScreenshot env initial = (Ok None, initial) /\
  (forall s page e,
     lastPage s = Some page ->
     settle env (history s) (Screenshot page) = Rejects e ->
     fst (getScreenshot env s) = Ok None) /\
  (forall s e, fst (getScreenshot env s) <> Throw e).
Proof.
  assert (Hrun : forall s page,
            lastPage s = Some page -> isClosed env (history s) page = false ->
            fst (getScreenshot env s) =
            match settle env (history s) (Screenshot page) with
            | Resolves => Ok (Some (png env (history (record (Called (Screenshot page)) s)) page))
            | Rejects _ => Ok None
            | Hangs => Pending
            end).
  { intros s page Hp Hc. unfold getScreenshot, bind at 1, gets at 1. rewrite Hp.
    unfold bind at 1, gets at 1. rewrite Hc.
    unfold tryCatch, awaiting, bind, call, callAs, gets, ret.
    destruct (settle env (history s) (Screenshot page)); reflexivity. }
  assert (Hnull : forall s,
            lastPage s = None \/
            (exists page, lastPage s = Some page /\ isClosed env (history s) page = true) ->
            getScreenshot env s = (Ok None, s)).
  { intros s [Hnone|(page & Hpage & Hclosed)]; unfold getScreenshot, bind, gets.
    - rewrite Hnone. reflexivity.
    - rewrite Hpage, Hclosed. reflexivity. }
  split; [exact Hnull|]. split; [reflexivity|]. split.
  - intros s page e Hp Hrej.
    destruct (isClosed env (history s) page) eqn:Hc.
    + rewrite Hnull; [reflexivity|]. right. eauto.
    + rewrite (Hrun s page Hp Hc), Hrej. reflexivity.
  - intros s e.
    destruct (lastPage s) as [page|] eqn:Hp.
    + destruct (isClosed env (history s) page) eqn:Hc.
      * rewrite Hnull; [discriminate|]. right. eauto.
      * rewrite (Hrun s page Hp Hc).
        destruct (settle env (history s) (Screenshot page)); discriminate.
    + rewrite Hnull; [discriminate|]. left. exact Hp.
Qed.

(** ** POST /api/monitor/start while a monitor is running *)

Lemma monitorStartRoute_active env q s :
  monitorActive s = true ->
  monitorStartRoute env q s = (Ok (Success true, None), s).
Proof.
  intros Hactive. unfold monitorStartRoute, bind, gets. rewrite Hactive. reflexivity.
Qed.

(** ** Monitor mode: stopping the CSV walk *)

Lemma bind_ok_inv {A B} (m : M A) (k : A -> M B) s b s' :
  bind m k s = (Ok b, s') ->
  exists a s1, m s = (Ok a, s1) /\ k a s1 = (Ok b, s').
Proof.
  unfold bind. destruct (m s) as [[a|e|] s1]; intros H; try discriminate.
  exists a, s1. split; [reflexivity|exact H].
Qed.

Lemma keepsStopped_same_monitors m s s' :
  monitors s' = monitors s -> keepsStopped m s s'.
Proof.
  intros E. unfold keepsStopped, stopMeansNotRunning, isStopped, isRunning.
  rewrite E. auto.
Qed.

Lemma keepsStopped_trans m a b c :
  keepsStopped m a b -> keepsStopped m b c -> keepsStopped m a c.
Proof. unfold keepsStopped. auto. Qed.

Lemma halted_lookup m m' s :
  isStopped m (updateMonitor m' halted s) = true ->
  isRunning m (updateMonitor m' halted s) = false \/
  (isStopped m s = true /\
   isRunning m (updateMonitor m' halted s) = isRunning m s).
Proof.
  unfold isStopped, isRunning, updateMonitor. cbn [monitors withMonitors].
  destruct (decide (m' = m)) as [->|Hne].
  - rewrite list_lookup_alter_eq. destruct (monitors s !! m); cbn; auto.
  - rewrite list_lookup_alter_ne by assumption. auto.
Qed.

Lemma keepsStopped_interfere env m s : keepsStopped m s (interfere env s).
Proof.
  rewrite interfere_run.
  destruct (stopRequested env (history s)); [|unfold keepsStopped; auto].
  destruct (monitorHandle s) as [m'|]; [|unfold keepsStopped; auto].
  unfold afterStop. destruct (monitors s !! m') as [c|] eqn:E.
  - assert (H : keepsStopped m s (updateMonitor m' halted s)).
    { unfold keepsStopped, stopMeansNotRunning. intros Hinv Hst.
      destruct (halted_lookup m m' s Hst) as [H|[H1 H2]]; [exact H|].
      rewrite H2. auto. }
    destruct (settle env (history s) (ContextClose (context c)));
      (eapply keepsStopped_trans; [exact H|]);
      apply keepsStopped_same_monitors; reflexivity.
  - apply keepsStopped_same_monitors. reflexivity.
Qed.

Lemma keepsStopped_stats m m' f s :
  (forall st, running (f st) = running st) ->
  keepsStopped m s (updateMonitor m' (withStats f) s).
Proof.
  intros Hf. unfold keepsStopped, stopMeansNotRunning, isStopped, isRunning, updateMonitor.
  cbn [monitors withMonitors].
  destruct (decide (m' = m)) as [->|Hne].
  - rewrite list_lookup_alter_eq. destruct (monitors s !! m); cbn; [|auto].
    rewrite Hf. auto.
  - rewrite list_lookup_alter_ne by assumption. auto.
Qed.

Section StopInvariant.

Variable env : Env.
Variable m : nat.

Lemma keepsStopped_refl s : keepsStopped m s s.
Proof. unfold keepsStopped. auto. Qed.

Lemma keepsStopped_record e s : keepsStopped m s (record e s).
Proof. apply keepsStopped_same_monitors. reflexivity. Qed.

Local Hint Resolve keepsStopped_refl keepsStopped_record keepsStopped_interfere : core.
Local Hint Resolve keepsStopped_trans : core.

Ltac chain := apply (steps_bind (keepsStopped m) (keepsStopped_trans m)).

Lemma keepsStopped_await c : steps (keepsStopped m) (await env c).
Proof. apply steps_await_of; eauto. Qed.

Lemma keepsStopped_sleep ms : steps (keepsStopped m) (sleep env ms).
Proof. apply steps_sleep; eauto. Qed.

Lemma keepsStopped_notifyEvent onEvent m' e : steps (keepsStopped m) (notifyEvent onEvent m' e).
Proof.
  unfold notifyEvent. destruct onEvent; intros s;
    [apply keepsStopped_record|apply keepsStopped_refl].
Qed.

Lemma keepsStopped_updateStats m' f :
  (forall st, running (f st) = running st) -> steps (keepsStopped m) (updateStats m' f).
Proof. intros Hf s. apply keepsStopped_stats, Hf. Qed.

Lemma keepsStopped_csvSend m' page onEvent i r :
  steps (keepsStopped m) (csvSend env m' page onEvent i r).
Proof.
  unfold csvSend.
  chain; [apply steps_lift; auto|intros url].
  chain; [apply keepsStopped_await|intros _].
  chain; [apply keepsStopped_await|intros _].
  chain; [apply keepsStopped_sleep|intros _].
  chain.
  { apply steps_csvAttempts; eauto. }
  intros sent. chain.
  { destruct sent; [apply steps_ret; auto|apply keepsStopped_await]. }
  intros _. chain; [apply steps_gets; auto|intros n].
  chain; [apply keepsStopped_updateStats; reflexivity|intros _].
  chain; [apply steps_gets; auto|intros t].
  chain; [apply keepsStopped_updateStats; reflexivity|intros _].
  apply keepsStopped_notifyEvent.
Qed.

Lemma keepsStopped_csvIteration m' page onEvent total i r :
  steps (keepsStopped m) (csvIteration env m' page onEvent total i r).
Proof.
  unfold csvIteration.
  chain; [apply keepsStopped_updateStats; reflexivity|intros _].
  apply (steps_tryCatch (keepsStopped m) (keepsStopped_trans m)); [apply keepsStopped_csvSend|intros e].
  chain; [apply steps_gets; auto|intros t].
  chain; [apply steps_gets; auto|intros n].
  apply keepsStopped_notifyEvent.
Qed.

End StopInvariant.

(** Once the flag is set, what is left of the walk does nothing. *)
Lemma csvLoop_stopped env m page onEvent delayMs total i rows s :
  isStopped m s = true ->
  csvLoop env m page onEvent delayMs total i rows s = (Ok tt, s).
Proof.
  intros Hst. destruct rows as [|r rest]; [reflexivity|].
  cbn [csvLoop]. unfold bind at 1, getStopped, gets. rewrite Hst. reflexivity.
Qed.

Lemma csvFinish_stopped env m onEvent s :
  isStopped m s = true -> csvFinish env m onEvent s = (Ok tt, s).
Proof.
  intros Hst. unfold csvFinish, bind at 1, getStopped, gets. rewrite Hst. reflexivity.
Qed.

Lemma csvLoop_cons env m page onEvent delayMs total i r rest s :
  csvLoop env m page onEvent delayMs total i (r :: rest) s =
  if isStopped m s then (Ok tt, s)
  else
    match csvIteration env m page onEvent total i r s with
    | (Ok _, s1) =>
        if isStopped m s1 then csvLoop env m page onEvent delayMs total (S i) rest s1
        else
          match sleep env delayMs s1 with
          | (Ok _, s2) => csvLoop env m page onEvent delayMs total (S i) rest s2
          | (Throw e, s2) => (Throw e, s2)
          | (Pending, s2) => (Pending, s2)
          end
    | (Throw e, s1) => (Throw e, s1)
    | (Pending, s1) => (Pending, s1)
    end.
Proof.
  cbn [csvLoop]. unfold bind, getStopped, gets, ret.
  destruct (isStopped m s); [reflexivity|].
  destruct (csvIteration env m page onEvent total i r s) as [[[]|e|] s1];
    [|reflexivity..].
  destruct (isStopped m s1); reflexivity.
Qed.

(** The walk over [before ++ rows] is the walk over [before] followed by
    the walk over [rows]. *)
Lemma csvLoop_app env m page onEvent delayMs total before :
  forall i rows s,
    csvLoop env m page onEvent delayMs total i (before ++ rows) s =
    (csvLoop env m page onEvent delayMs total i before;;
     csvLoop env m page onEvent delayMs total (i + length before) rows) s.
Proof.
  induction before as [|r before IH]; intros i rows s.
  { cbn [app csvLoop length]. rewrite Nat.add_0_r. reflexivity. }
  cbn [app length]. unfold bind. rewrite !csvLoop_cons.
  replace (i + S (length before))%nat with (S i + length before)%nat by lia.
  destruct (isStopped m s) eqn:Hst.
  { symmetry. apply csvLoop_stopped. exact Hst. }
  destruct (csvIteration env m page onEvent total i r s) as [[[]|e|] s1];
    [|reflexivity..].
  destruct (isStopped m s1).
  - rewrite IH. reflexivity.
  - destruct (sleep env delayMs s1) as [[[]|e|] s2]; [|reflexivity..].
    rewrite IH. reflexivity.
Qed.

(** C4.  Let the walk over [before ++ r :: rest] have processed the
    recipients [before] with the flag still unset, and let a stop request
    be served while [r], recipient number [k = length before], is
    processed, so that the flag is set when its iteration ends.  Then the
    trailing sleep is skipped, the loop exits at its next check and the
    completion block is skipped too: the whole walk ends in the very store
    that iteration left, so no recipient beyond [k] is processed, and
    [stats.running] is false. *)
Theorem csv_stop_ends_the_walk env m page onEvent delayMs before r rest s sk s1 :
  let rows := before ++ r :: rest in
  let k := length before in
  csvLoop env m page onEvent delayMs (length rows) 0 before s = (Ok tt, sk) ->
  isStopped m sk = false ->
  csvIteration env m page onEvent (length rows) k r sk = (Ok tt, s1) ->
  isStopped m s1 = true ->
  csvLoop env m page onEvent delayMs (length rows) k (r :: rest) sk = (Ok tt, s1) /\
  csvMode env m page rows delayMs onEvent s = (Ok tt, s1) /\
  isRunning m s1 = false.
Proof.
  intros rows k Hbefore Hgo Hit Hst.
  assert (Hloop : csvLoop env m page onEvent delayMs (length rows) k (r :: rest) sk = (Ok tt, s1)).
  { rewrite csvLoop_cons, Hgo, Hit, Hst. apply csvLoop_stopped. exact Hst. }
  split; [exact Hloop|]. split.
  - unfold csvMode. fold rows. unfold bind at 1. unfold rows at 2.
    rewrite csvLoop_app. unfold bind at 1. rewrite Hbefore.
    cbn [Nat.add]. fold k. rewrite Hloop.
    apply csvFinish_stopped. exact Hst.
  - pose proof (keepsStopped_csvIteration env m m page onEvent (length rows) k r sk) as H.
    rewrite Hit in H. cbn [snd] in H. apply H; [|exact Hst].
    unfold stopMeansNotRunning. rewrite Hgo. discriminate.
Qed.

(** ** Monitor mode: what [stats.clicks] counts *)

Lemma keeps_refl m s : keeps m s s.
Proof. unfold keeps. auto. Qed.

Lemma keeps_trans m a b c : keeps m a b -> keeps m b c -> keeps m a c.
Proof.
  unfold keeps. intros (H1 & H2 & H3) (H4 & H5 & H6).
  repeat split; [congruence|congruence|auto].
Qed.

Lemma keeps_record m e s : isEventOf m e = None -> keeps m s (record e s).
Proof.
  intros He. unfold keeps, clicksOf, record. cbn [history monitors withHistory].
  rewrite eventsOf_app. unfold eventsOf at 2. cbn [omap list_omap]. rewrite He.
  rewrite app_nil_r. auto.
Qed.

Lemma keeps_called m c s : keeps m s (record (Called c) s).
Proof. apply keeps_record. reflexivity. Qed.

Lemma keeps_clicked m p el s : keeps m s (record (Clicked p el) s).
Proof. apply keeps_record. reflexivity. Qed.

Lemma keeps_halted m m' s :
  clicksOf m (updateMonitor m' halted s) = clicksOf m s /\
  (is_Some (monitors s !! m) -> is_Some (monitors (updateMonitor m' halted s) !! m)).
Proof.
  unfold clicksOf, updateMonitor. cbn [monitors withMonitors].
  destruct (decide (m' = m)) as [->|Hne].
  - rewrite list_lookup_alter_eq. destruct (monitors s !! m); cbn; auto.
  - rewrite list_lookup_alter_ne by assumption. auto.
Qed.

Lemma keeps_interfere env m s : keeps m s (interfere env s).
Proof.
  unfold keeps. rewrite interfere_events. rewrite interfere_run.
  destruct (stopRequested env (history s)); [|auto].
  destruct (monitorHandle s) as [m'|]; [|auto].
  unfold afterStop. destruct (monitors s !! m') as [c|]; [|auto].
  destruct (keeps_halted m m' s) as [Hc He].
  destruct (settle env (history s) (ContextClose (context c))); auto.
Qed.

Local Hint Resolve keeps_refl keeps_trans keeps_called keeps_clicked keeps_interfere : core.

Lemma keeps_await env m c : steps (keeps m) (await env c).
Proof. apply steps_await_of; eauto. Qed.

Lemma keeps_sleep env m ms : steps (keeps m) (sleep env ms).
Proof. apply steps_sleep; eauto. Qed.

Lemma keeps_csvAttempts env m n page sent : steps (keeps m) (csvAttempts env n page sent).
Proof. apply steps_csvAttempts; eauto. Qed.

Lemma keeps_trySendClick env m page : steps (keeps m) (trySendClick env page).
Proof. apply steps_trySendClick; eauto. Qed.

(** What the end of the [try] block records. *)
Lemma clicksOf_setClicks m n s :
  is_Some (monitors s !! m) ->
  clicksOf m (updateMonitor m (withStats (setClicks n)) s) = n.
Proof.
  intros [c Hc]. unfold clicksOf, updateMonitor. cbn [monitors withMonitors].
  rewrite list_lookup_alter_eq, Hc. reflexivity.
Qed.

Lemma clicksOf_setLastClick m t s :
  clicksOf m (updateMonitor m (withStats (setLastClick t)) s) = clicksOf m s.
Proof.
  unfold clicksOf, updateMonitor. cbn [monitors withMonitors].
  rewrite list_lookup_alter_eq. destruct (monitors s !! m); reflexivity.
Qed.

Lemma clicksOf_setCurrent m c s :
  clicksOf m (updateMonitor m (withStats (setCurrent c)) s) = clicksOf m s.
Proof.
  unfold clicksOf, updateMonitor. cbn [monitors withMonitors].
  rewrite list_lookup_alter_eq. destruct (monitors s !! m); reflexivity.
Qed.

Lemma updateMonitor_is_Some m m' f s :
  is_Some (monitors s !! m) -> is_Some (monitors (updateMonitor m' f s) !! m).
Proof.
  unfold updateMonitor. cbn [monitors withMonitors].
  destruct (decide (m' = m)) as [->|Hne].
  - rewrite list_lookup_alter_eq. intros [c ->]. cbn. eauto.
  - rewrite list_lookup_alter_ne by assumption. auto.
Qed.

Lemma csvAttempts_exhausted env page n :
  noSendControl env page ->
  forall s, exists l,
    fst (csvAttempts env n page false s) = Ok false /\
    callsOf (history (snd (csvAttempts env n page false s))) = callsOf (history s) ++ l /\
    failedPasses page 1000 n l.
Proof.
  intros Hnone. induction n as [|n IH]; intros s; cbn [csvAttempts].
  { exists []. repeat split. symmetry. apply app_nil_r. }
  rewrite bind_run. specialize (Hnone s).
  destruct (trySendClick_calls env page s) as (locators & Hl & Hloc).
  destruct (trySendClick env page s) as [res s1]. cbn [fst snd] in *. subst res.
  rewrite bind_run, sleep_run. cbn [fst snd].
  destruct (IH (interfere env (record (Called (Sleep 1000)) s1))) as (rest & Hres & Hcalls & Hrest).
  exists (Evaluate page LadderScript :: locators ++ Sleep 1000 :: rest).
  split; [exact Hres|]. split.
  - rewrite Hcalls, interfere_calls, record_calls, Hl.
    rewrite <- !app_assoc. reflexivity.
  - cbn [failedPasses]. exists locators, rest. repeat split; assumption.
Qed.

(** The part of the [try] block before the counters are touched keeps
    them. *)
Lemma csvSend_inv env m page i r s s' :
  is_Some (monitors s !! m) ->
  csvSend env m page true i r s = (Ok tt, s') ->
  exists t,
    clicksOf m s' = clicksOf m s + 1 /\
    eventsOf m (history s') =
      eventsOf m (history s) ++ [RowEvent true t (clicksOf m s + 1) i r true None] /\
    (lastClick <$> statsOf m s') = Some (Some t).
Proof.
  intros Hm Hrun. unfold csvSend in Hrun.
  apply bind_ok_inv in Hrun as (url & s1 & H1 & Hrun).
  unfold lift in H1. injection H1 as _ <-.
  apply bind_ok_inv in Hrun as ([] & s2 & H2 & Hrun).
  pose proof (keeps_await env m (Goto page url) s) as K2. rewrite H2 in K2.
  apply bind_ok_inv in Hrun as ([] & s3 & H3 & Hrun).
  pose proof (keeps_await env m (WaitForSelector page composer 60000) s2) as K3.
  rewrite H3 in K3.
  apply bind_ok_inv in Hrun as ([] & s4 & H4 & Hrun).
  pose proof (keeps_sleep env m 2500 s3) as K4. rewrite H4 in K4.
  apply bind_ok_inv in Hrun as (sent & s5 & H5 & Hrun).
  pose proof (keeps_csvAttempts env m 5 page false s4) as K5. rewrite H5 in K5.
  apply bind_ok_inv in Hrun as ([] & s6 & H6 & Hrun).
  assert (K6 : keeps m s5 s6).
  { destruct sent.
    - unfold ret in H6. injection H6 as <-. apply keeps_refl.
    - pose proof (keeps_await env m (KeyboardPress page "Enter") s5) as K.
      rewrite H6 in K. exact K. }
  cbn [snd] in *.
  assert (K : keeps m s s6) by eauto 10 using keeps_trans.
  destruct K as (Kc & Ke & Kx). specialize (Kx Hm).
  apply bind_ok_inv in Hrun as (n & s7 & H7 & Hrun).
  unfold getClicks, gets in H7. injection H7 as <- <-.
  apply bind_ok_inv in Hrun as ([] & s8 & H8 & Hrun).
  unfold updateStats, modify in H8. injection H8 as <-.
  apply bind_ok_inv in Hrun as (t & s9 & H9 & Hrun).
  unfold now, gets in H9. injection H9 as <- <-.
  apply bind_ok_inv in Hrun as ([] & s10 & H10 & Hrun).
  unfold updateStats, modify in H10. injection H10 as <-.
  unfold notifyEvent, modify in Hrun. injection Hrun as <-.
  set (s8 := updateMonitor m (withStats (setClicks (clicksOf m s6 + 1))) s6) in *.
  set (t := clock env (history s8)).
  exists t. split; [|split].
  - change (clicksOf m (updateMonitor m (withStats (setLastClick t)) s8) = clicksOf m s + 1).
    rewrite clicksOf_setLastClick. unfold s8.
    rewrite (clicksOf_setClicks _ _ _ Kx), Kc. reflexivity.
  - change (eventsOf m (history s6 ++ [OnEvent m (RowEvent true t (clicksOf m s6 + 1) i r true None)])
            = eventsOf m (history s) ++ [RowEvent true t (clicksOf m s + 1) i r true None]).
    rewrite eventsOf_app, Ke, Kc. unfold eventsOf at 2. cbn [omap list_omap isEventOf].
    rewrite Nat.eqb_refl. reflexivity.
  - unfold statsOf, s8. cbn [monitors record withHistory updateMonitor withMonitors].
    rewrite !list_lookup_alter_eq. destruct Kx as [c ->]. reflexivity.
Qed.

(** C10.  In CSV sub-mode, an iteration whose [try] block completes
    without an exception increments [stats.clicks] by exactly one and
    reports [ok: true] (and [clicked: true]) for its recipient.  This
    includes the iterations in which no strategy of the ladder succeeded
    and Enter was pressed instead: [stats.clicks] counts the recipients
    that were processed without an exception, not the clicks. *)
Theorem csv_clicks_count_processed_recipients env m page total i r s :
  is_Some (monitors s !! m) ->
  let s0 := updateMonitor m (withStats (setCurrent (currentMarker i total r))) s in
  let s' := snd (csvIteration env m page true total i r s) in
  (fst (csvSend env m page true i r s0) = Ok tt ->
   exists t,
     fst (csvIteration env m page true total i r s) = Ok tt /\
     clicksOf m s' = clicksOf m s + 1 /\
     eventsOf m (history s') =
       eventsOf m (history s) ++ [RowEvent true t (clicksOf m s + 1) i r true None]) /\
  (forall url,
     buildWhatsAppUrl (phone r) (message r) = Ok url ->
     resolves env (Goto page url) ->
     resolves env (WaitForSelector page composer 60000) ->
     noSendControl env page ->
     resolves env (KeyboardPress page "Enter") ->
     exists passes,
       fst (csvSend env m page true i r s0) = Ok tt /\
       failedPasses page 1000 5 passes /\
       callsOf (history s') =
         callsOf (history s)
           ++ [Goto page url; WaitForSelector page composer 60000; Sleep 2500]
           ++ passes ++ [KeyboardPress page "Enter"]).
Proof.
  intros Hm s0 s'.
  assert (Hm0 : is_Some (monitors s0 !! m)) by (apply updateMonitor_is_Some; exact Hm).
  assert (Hit : csvIteration env m page true total i r s =
                tryCatch (csvSend env m page true i r)
                  (fun e =>
                     t <- now env;;
                     n <- getClicks m;;
                     notifyEvent true m (RowEvent false t n i r false (e_message e))) s0)
    by reflexivity.
  split.
  - intros Hok. destruct (csvSend env m page true i r s0) as [res s1] eqn:E.
    cbn [fst] in Hok. subst res.
    destruct (csvSend_inv env m page i r s0 s1 Hm0 E) as (t & Hc & He & _).
    exists t. subst s'. rewrite Hit. unfold tryCatch. rewrite E. cbn [fst snd].
    split; [reflexivity|]. split.
    + rewrite Hc. unfold s0. rewrite clicksOf_setCurrent. reflexivity.
    + rewrite He. unfold s0 at 1 2. rewrite clicksOf_setCurrent. reflexivity.
  - intros url Hurl Hgoto Hwait Hnone Hpress.
    subst s'. rewrite Hit. unfold tryCatch.
    destruct (csvSend env m page true i r s0) as [res s1] eqn:E.
    unfold csvSend in E. rewrite bind_run in E. unfold lift in E.
    rewrite Hurl in E. cbn [fst snd] in E.
    rewrite bind_run, await_run, Hgoto in E. cbn [fst snd] in E.
    rewrite bind_run, await_run, Hwait in E. cbn [fst snd] in E.
    rewrite bind_run, sleep_run in E. cbn [fst snd] in E.
    rewrite bind_run in E.
    match type of E with context [csvAttempts env 5 page false ?st] =>
      destruct (csvAttempts_exhausted env page 5 Hnone st) as (passes & Hres & Hcalls & Hpasses);
      destruct (csvAttempts env 5 page false st) as [res5 s5] end.
    cbn [fst snd] in *. subst res5.
    rewrite bind_run, await_run, Hpress in E. cbn [fst snd] in E.
    unfold bind, getClicks, gets, updateStats, modify, now, notifyEvent, ret in E.
    injection E as <- <-.
    exists passes. split; [reflexivity|]. split; [exact Hpasses|].
    cbn [snd history record withHistory updateMonitor withMonitors].
    rewrite callsOf_app. unfold callsOf at 2. cbn [omap list_omap isCalled].
    rewrite app_nil_r.
    repeat (rewrite interfere_calls || rewrite record_calls). rewrite Hcalls.
    repeat (rewrite interfere_calls || rewrite record_calls).
    rewrite <- !app_assoc. reflexivity.
Qed.

(** ** Watch mode: the debounce *)

Lemma debounced_quiet env m tail :
  Forall (quiet m) tail ->
  forall before last,
    debounced env m before last tail /\ lastAfter m last tail = last /\
    clickTimes m tail = [].
Proof.
  induction 1 as [|e tail [Hp Hc] _ IH]; intros before last; [repeat split|].
  cbn [debounced lastAfter]. unfold clickTimes. cbn [omap list_omap].
  rewrite Hp, Hc. destruct (IH (before ++ [e]) last) as (H1 & H2 & H3).
  repeat split; [discriminate|assumption..].
Qed.

Lemma debounced_app env m seg1 :
  forall before last seg2,
    debounced env m before last seg1 ->
    debounced env m (before ++ seg1) (lastAfter m last seg1) seg2 ->
    debounced env m before last (seg1 ++ seg2).
Proof.
  induction seg1 as [|e seg1 IH]; intros before last seg2 H1 H2.
  { rewrite app_nil_r in H2. exact H2. }
  cbn [app debounced lastAfter] in *.
  destruct H1 as [Hp H1]. split; [exact Hp|].
  replace (before ++ e :: seg1) with ((before ++ [e]) ++ seg1) in H2
    by (rewrite <- app_assoc; reflexivity).
  destruct (clickOf m e) as [t|].
  - destruct H1 as [Ht H1]. split; [exact Ht|]. apply IH; assumption.
  - apply IH; assumption.
Qed.

Lemma lastAfter_app m seg1 seg2 last :
  lastAfter m last (seg1 ++ seg2) = lastAfter m (lastAfter m last seg1) seg2.
Proof.
  revert last. induction seg1 as [|e seg1 IH]; intros last; [reflexivity|].
  cbn [app lastAfter]. destruct (clickOf m e); apply IH.
Qed.

Lemma clickTimes_app m h1 h2 : clickTimes m (h1 ++ h2) = clickTimes m h1 ++ clickTimes m h2.
Proof. apply omap_app. Qed.

Lemma quietStep_refl m s : quietStep m s s.
Proof. exists []. split; [symmetry; apply app_nil_r|constructor]. Qed.

Lemma quietStep_trans m a b c : quietStep m a b -> quietStep m b c -> quietStep m a c.
Proof.
  intros (t1 & H1 & Q1) (t2 & H2 & Q2). exists (t1 ++ t2). split.
  - rewrite H2, H1, app_assoc. reflexivity.
  - apply Forall_app. split; assumption.
Qed.

Lemma quietStep_record m e s : quiet m e -> quietStep m s (record e s).
Proof. intros He. exists [e]. split; [reflexivity|]. constructor; [exact He|constructor]. Qed.

Lemma quietStep_interfere env m s : quietStep m s (interfere env s).
Proof.
  destruct (interfere_history env s) as [H|[m' H]].
  - exists []. split; [rewrite H, app_nil_r; reflexivity|constructor].
  - exists [Stopping m']. split; [exact H|].
    constructor; [split; reflexivity|constructor].
Qed.

Lemma quietStep_sleep env m ms s : quietStep m s (snd (sleep env ms s)).
Proof.
  rewrite sleep_run. cbn [snd].
  eapply quietStep_trans; [|apply quietStep_interfere].
  apply quietStep_record. split; reflexivity.
Qed.

Lemma quietStep_tryLocators env m page sels s :
  quietStep m s (snd (tryLocators env page sels s)).
Proof.
  apply (steps_tryLocators env (quietStep m)).
  - apply quietStep_refl.
  - apply quietStep_trans.
  - apply quietStep_interfere.
  - intros p sel s0. apply quietStep_record. split; reflexivity.
  - intros p sel s0. apply quietStep_record. split; reflexivity.
Qed.

(** A pass of the ladder starts with the evaluation of the script; what
    follows is quiet. *)
Lemma trySendClick_history env m page s :
  exists tail,
    history (snd (trySendClick env page s)) =
      history s ++ Called (Evaluate page LadderScript) :: tail /\
    Forall (quiet m) tail.
Proof.
  unfold trySendClick. rewrite bind_run, evaluateLadder_run. cbn zeta.
  set (s1 := record (Called (Evaluate page LadderScript)) s).
  assert (H1 : history s1 = history s ++ [Called (Evaluate page LadderScript)])
    by reflexivity.
  assert (Hfin : forall s2, quietStep m s1 s2 ->
            exists tail, history s2 = history s ++ Called (Evaluate page LadderScript) :: tail /\
                         Forall (quiet m) tail).
  { intros s2 (tail & H2 & Q). exists tail. split; [|exact Q].
    rewrite H2, H1, <- app_assoc. reflexivity. }
  destruct (settle env (history s) (Evaluate page LadderScript)); cbn [fst snd];
    try (apply Hfin, quietStep_interfere).
  destruct (Ladder.script (dom env (history s1) page)) as [el|]; cbn [fst snd ret].
  - apply Hfin. eapply quietStep_trans; [|apply quietStep_interfere].
    apply quietStep_record. split; reflexivity.
  - apply Hfin. eapply quietStep_trans; [apply quietStep_interfere|].
    apply quietStep_tryLocators.
Qed.

Lemma watchTick_run env m page last s :
  watchTick env m page true last s =
  if clock env (history s) - last >? 1500 then
    match trySendClick env page s with
    | (Ok true, s1) =>
        let s2 := updateMonitor m (withStats (setClicks (clicksOf m s1 + 1))) s1 in
        let t := clock env (history s2) in
        (Ok t, record (OnEvent m (ClickEvent t (clicksOf m s1 + 1)))
                 (updateMonitor m (withStats (setLastClick t)) s2))
    | (Ok false, s1) => (Ok last, s1)
    | (Throw _, s1) => (Ok last, s1)
    | (Pending, s1) => (Pending, s1)
    end
  else (Ok last, s).
Proof.
  unfold watchTick, tryCatch, bind at 1, now at 1, gets at 1.
  destruct (clock env (history s) - last >? 1500); [|reflexivity].
  unfold bind at 1.
  destruct (trySendClick env page s) as [[[|]|e|] s1]; reflexivity.
Qed.

(** One tick, up to its sleep. *)
Lemma watchTick_debounced env m page last s :
  monotoneClock env ->
  is_Some (monitors s !! m) ->
  exists seg,
    let out := watchTick env m page true last s in
    history (snd out) = history s ++ seg /\
    debounced env m (history s) last seg /\
    (fst out = Ok (lastAfter m last seg) \/ fst out = Pending) /\
    clicksOf m (snd out) = clicksOf m s + Z.of_nat (length (clickTimes m seg)) /\
    is_Some (monitors (snd out) !! m).
Proof.
  intros Hmono Hm. cbn zeta. rewrite watchTick_run.
  destruct (clock env (history s) - last >? 1500) eqn:Hgap.
  2:{ exists []. cbn. rewrite app_nil_r, Z.add_0_r. repeat split; auto. }
  apply Z.gtb_lt in Hgap.
  destruct (trySendClick_history env m page s) as (tail & Hh & Hq).
  pose proof (keeps_trySendClick env m page s) as (Kc & Ke & Kx).
  specialize (Kx Hm).
  destruct (debounced_quiet env m tail Hq
              (history s ++ [Called (Evaluate page LadderScript)]) last)
    as (Dq & Lq & Cq).
  assert (Dpass : debounced env m (history s) last
                    (Called (Evaluate page LadderScript) :: tail)).
  { cbn [debounced clickOf]. split; [intros _; lia|exact Dq]. }
  assert (Lpass : lastAfter m last (Called (Evaluate page LadderScript) :: tail) = last)
    by exact Lq.
  assert (Cpass : clickTimes m (Called (Evaluate page LadderScript) :: tail) = [])
    by exact Cq.
  destruct (trySendClick env page s) as [[[|]|e|] s1]; cbn [fst snd] in *.
  - (* clicked *)
    cbn zeta.
    set (s2 := updateMonitor m (withStats (setClicks (clicksOf m s1 + 1))) s1).
    set (t := clock env (history s2)).
    exists ((Called (Evaluate page LadderScript) :: tail)
              ++ [OnEvent m (ClickEvent t (clicksOf m s1 + 1))]).
    assert (Ht : clock env (history s) <= t).
    { unfold t, s2. cbn [history updateMonitor withMonitors]. rewrite Hh.
      apply Hmono. }
    cbn [fst snd].
    split; [|split; [|split; [|split]]].
    + change (history s1 ++ [OnEvent m (ClickEvent t (clicksOf m s1 + 1))] =
              history s ++ (Called (Evaluate page LadderScript) :: tail) ++
                [OnEvent m (ClickEvent t (clicksOf m s1 + 1))]).
      rewrite Hh, <- app_assoc. reflexivity.
    + apply debounced_app; [exact Dpass|]. rewrite Lpass.
      cbn [debounced passOf clickOf]. rewrite Nat.eqb_refl.
      split; [discriminate|]. split; [lia|exact I].
    + left. rewrite lastAfter_app, Lpass. cbn [lastAfter clickOf].
      rewrite Nat.eqb_refl. reflexivity.
    + rewrite clickTimes_app, Cpass. cbn [app].
      unfold clickTimes. cbn [omap list_omap clickOf]. rewrite Nat.eqb_refl.
      cbn [length].
      change (clicksOf m (updateMonitor m (withStats (setLastClick t)) s2)
              = clicksOf m s + Z.of_nat 1).
      rewrite clicksOf_setLastClick. unfold s2.
      rewrite (clicksOf_setClicks _ _ _ Kx), Kc. reflexivity.
    + cbn [monitors record withHistory].
      apply updateMonitor_is_Some, updateMonitor_is_Some. exact Kx.
  - exists (Called (Evaluate page LadderScript) :: tail).
    rewrite Cpass, Lpass, Z.add_0_r. repeat split; auto.
  - exists (Called (Evaluate page LadderScript) :: tail).
    rewrite Cpass, Lpass, Z.add_0_r. repeat split; auto.
  - exists (Called (Evaluate page LadderScript) :: tail).
    rewrite Cpass, Lpass, Z.add_0_r. repeat split; auto.
Qed.

Lemma isStopped_false_is_Some m s : isStopped m s = false -> is_Some (monitors s !! m).
Proof. unfold isStopped. destruct (monitors s !! m); [eauto|discriminate]. Qed.

Lemma debounced_spaced env m seg :
  forall before last,
    debounced env m before last seg -> spaced last (clickTimes m seg).
Proof.
  induction seg as [|e seg IH]; intros before last H; [exact I|].
  cbn [debounced] in H. destruct H as [_ H].
  unfold clickTimes. cbn [omap list_omap].
  destruct (clickOf m e) as [t|].
  - destruct H as [Ht H]. cbn [spaced]. split; [exact Ht|]. exact (IH _ _ H).
  - exact (IH _ _ H).
Qed.

(** The loop, however long it runs. *)
Lemma watchLoop_debounced env m page :
  monotoneClock env ->
  forall ticks last s,
    let s' := snd (watchLoop env ticks m page true last s) in
    exists seg,
      history s' = history s ++ seg /\
      debounced env m (history s) last seg /\
      spaced last (clickTimes m seg) /\
      clicksOf m s' = clicksOf m s + Z.of_nat (length (clickTimes m seg)).
Proof.
  intros Hmono ticks last s. cbn zeta.
  cut (exists seg,
         history (snd (watchLoop env ticks m page true last s)) = history s ++ seg /\
         debounced env m (history s) last seg /\
         clicksOf m (snd (watchLoop env ticks m page true last s)) =
           clicksOf m s + Z.of_nat (length (clickTimes m seg))).
  { intros (seg & H1 & H2 & H3). exists seg. repeat split; try assumption.
    exact (debounced_spaced _ _ _ _ _ H2). }
  revert last s.
  induction ticks as [|ticks IH]; intros last s; cbn zeta.
  { exists []. cbn. rewrite app_nil_r, Z.add_0_r. repeat split. }
  destruct (watchLoop env (S ticks) m page true last s) as [res s'] eqn:E.
  cbn [snd]. cbn [watchLoop] in E.
  unfold bind at 1, getStopped at 1, gets at 1 in E.
  destruct (isStopped m s) eqn:Hst.
  { injection E as _ <-. exists []. cbn. rewrite app_nil_r, Z.add_0_r. repeat split. }
  unfold bind at 1 in E.
  destruct (watchTick_debounced env m page last s Hmono (isStopped_false_is_Some _ _ Hst))
    as (seg & Hh & Hd & Hr & Hc & Hx).
  cbn zeta in *.
  destruct (watchTick env m page true last s) as [res1 s1]. cbn [fst snd] in *.
  destruct Hr as [->| ->].
  2:{ injection E as _ <-. exists seg. repeat split; assumption. }
  unfold bind at 1 in E. rewrite sleep_run in E.
  set (s2 := interfere env (record (Called (Sleep 500)) s1)) in *.
  destruct (quietStep_sleep env m 500 s1) as (tail & Hs & Hq).
  rewrite sleep_run in Hs. cbn [snd] in Hs. fold s2 in Hs.
  pose proof (keeps_sleep env m 500 s1) as (Kc & _ & _).
  rewrite sleep_run in Kc. cbn [snd] in Kc. fold s2 in Kc.
  destruct (IH (lastAfter m last seg) s2) as (seg' & Hh' & Hd' & Hc').
  cbn zeta in *. rewrite E in Hh', Hc'. cbn [snd] in Hh', Hc'.
  destruct (debounced_quiet env m tail Hq (history s ++ seg) (lastAfter m last seg))
    as (Dq & Lq & Cq).
  exists (seg ++ tail ++ seg'). split; [|split].
  - rewrite Hh', Hs, Hh, <- !app_assoc. reflexivity.
  - apply debounced_app; [exact Hd|].
    apply debounced_app; [exact Dq|].
    rewrite Lq, <- Hh, <- Hs. exact Hd'.
  - rewrite Hc', Kc, Hc, !clickTimes_app, Cq, !length_app. cbn [length app].
    lia.
Qed.

(** A tick whose pass clicks the send control. *)
Lemma watchTick_clicks env m page last s s1 :
  monotoneClock env ->
  is_Some (monitors s !! m) ->
  1500 < clock env (history s) - last ->
  trySendClick env page s = (Ok true, s1) ->
  exists t s',
    watchTick env m page true last s = (Ok t, s') /\
    1500 < t - last /\
    clicksOf m s' = clicksOf m s + 1 /\
    lastClick <$> statsOf m s' = Some (Some t) /\
    eventsOf m (history s') = eventsOf m (history s) ++ [ClickEvent t (clicksOf m s + 1)].
Proof.
  intros Hmono Hm Hgap Hpass.
  pose proof (keeps_trySendClick env m page s) as (Kc & Ke & Kx).
  destruct (trySendClick_history env m page s) as (tail & Hh & _).
  rewrite Hpass in Kc, Ke, Kx, Hh. cbn [snd] in Kc, Ke, Kx, Hh. specialize (Kx Hm).
  assert (Hrun := watchTick_run env m page last s).
  rewrite (proj2 (Z.gtb_lt _ _) Hgap), Hpass in Hrun. cbn zeta in Hrun.
  set (s2 := updateMonitor m (withStats (setClicks (clicksOf m s1 + 1))) s1) in *.
  set (t := clock env (history s2)) in *.
  eexists. eexists. split; [exact Hrun|].
  assert (Ht : clock env (history s) <= t).
  { unfold t, s2. cbn [history updateMonitor withMonitors]. rewrite Hh. apply Hmono. }
  split; [lia|]. split; [|split].
  - change (clicksOf m (updateMonitor m (withStats (setLastClick t)) s2)
            = clicksOf m s + 1).
    rewrite clicksOf_setLastClick. unfold s2.
    rewrite (clicksOf_setClicks _ _ _ Kx), Kc. reflexivity.
  - destruct Kx as [c Hc]. unfold statsOf.
    cbn [monitors record withHistory updateMonitor withMonitors]. unfold s2.
    cbn [monitors updateMonitor withMonitors].
    rewrite !list_lookup_alter_eq, Hc. reflexivity.
  - cbn [history record withHistory updateMonitor withMonitors].
    rewrite eventsOf_app. change (history s2) with (history s1). rewrite Ke, Kc.
    unfold eventsOf at 2. cbn [omap list_omap isEventOf]. now rewrite Nat.eqb_refl.
Qed.

(** C5.  With a clock that never goes back, a tick of the watch loop that
    starts within 1500 ms of the last recorded click does nothing at all,
    whatever the page shows: no pass of the click ladder, no call, no
    click.  A tick that starts later makes one pass; when the pass clicks
    the send control, [stats.clicks] grows by exactly one, the click is
    stamped and reported once, and its time becomes the new
    [lastClickedAt]; when the pass finds nothing, nothing is counted.  So
    a send control that shows within 1.5 s of a counted click is not
    counted again, and in every run of the loop, however long, a pass
    starts only when the clock reads more than 1500 ms after the last
    recorded click, every click is recorded more than 1500 ms after the
    one before it, and [stats.clicks] grows by one per recorded click; a
    run that starts with a clicking tick counts that click. *)
Theorem watch_mode_debounce env m page :
  monotoneClock env ->
  (forall last s,
     clock env (history s) - last <= 1500 ->
     watchTick env m page true last s = (Ok last, s)) /\
  (forall last s s1,
     is_Some (monitors s !! m) ->
     1500 < clock env (history s) - last ->
     trySendClick env page s = (Ok true, s1) ->
     exists t s',
       watchTick env m page true last s = (Ok t, s') /\
       1500 < t - last /\
       clicksOf m s' = clicksOf m s + 1 /\
       lastClick <$> statsOf m s' = Some (Some t) /\
       eventsOf m (history s') =
         eventsOf m (history s) ++ [ClickEvent t (clicksOf m s + 1)] /\
       (forall s'',
          clock env (history s'') - t <= 1500 ->
          watchTick env m page true t s'' = (Ok t, s''))) /\
  (forall last s s1,
     1500 < clock env (history s) - last ->
     trySendClick env page s = (Ok false, s1) ->
     watchTick env m page true last s = (Ok last, s1) /\
     clicksOf m s1 = clicksOf m s) /\
  (forall ticks last s,
     let s' := snd (watchLoop env ticks m page true last s) in
     exists seg,
       history s' = history s ++ seg /\
       debounced env m (history s) last seg /\
       spaced last (clickTimes m seg) /\
       clicksOf m s' = clicksOf m s + Z.of_nat (length (clickTimes m seg))) /\
  (forall ticks last s s1,
     isStopped m s = false ->
     1500 < clock env (history s) - last ->
     trySendClick env page s = (Ok true, s1) ->
     clicksOf m s + 1 <= clicksOf m (snd (watchLoop env (S ticks) m page true last s))).
Proof.
  intros Hmono.
  assert (Hquiet : forall last s,
            clock env (history s) - last <= 1500 ->
            watchTick env m page true last s = (Ok last, s)).
  { intros last s Hgap. rewrite watchTick_run.
    destruct (clock env (history s) - last >? 1500) eqn:E; [|reflexivity].
    apply Z.gtb_lt in E. lia. }
  split; [exact Hquiet|]. split; [|split; [|split]].
  - intros last s s1 Hm Hgap Hpass.
    destruct (watchTick_clicks env m page last s s1 Hmono Hm Hgap Hpass)
      as (t & s' & H1 & H2 & H3 & H4 & H5).
    exists t, s'. repeat (split; [assumption|]). intros s''. apply Hquiet.
  - intros last s s1 Hgap Hpass. split.
    + rewrite watchTick_run, (proj2 (Z.gtb_lt _ _) Hgap), Hpass. reflexivity.
    + pose proof (keeps_trySendClick env m page s) as (Kc & _).
      rewrite Hpass in Kc. exact Kc.
  - exact (watchLoop_debounced env m page Hmono).
  - intros ticks last s s1 Hst Hgap Hpass.
    destruct (watchTick_clicks env m page last s s1 Hmono
                (isStopped_false_is_Some _ _ Hst) Hgap Hpass)
      as (t & s' & Htick & _ & Hc & _).
    destruct (watchLoop env (S ticks) m page true last s) as [res sf] eqn:E.
    cbn [snd]. cbn [watchLoop] in E.
    unfold bind at 1, getStopped at 1, gets at 1 in E. rewrite Hst in E.
    unfold bind at 1 in E. rewrite Htick in E.
    unfold bind at 1 in E. rewrite sleep_run in E.
    set (s2 := interfere env (record (Called (Sleep 500)) s')) in *.
    pose proof (keeps_sleep env m 500 s') as (Kc & _ & _).
    rewrite sleep_run in Kc. cbn [snd] in Kc. fold s2 in Kc.
    destruct (watchLoop_debounced env m page Hmono ticks t s2) as (seg & _ & _ & _ & Hn).
    rewrite E in Hn. cbn [snd] in Hn. lia.
Qed.

(** ** Opening a session *)

Lemma interfere_lastPage env s : lastPage (interfere env s) = lastPage s.
Proof.
  rewrite interfere_run.
  destruct (stopRequested env (history s)); [|reflexivity].
  destruct (monitorHandle s) as [m|]; [|reflexivity].
  unfold afterStop. destruct (monitors s !! m) as [c|]; [|reflexivity].
  destruct (settle env (history s) (ContextClose (context c))); reflexivity.
Qed.

Lemma getContext_run env dir s :
  resolves env (Mkdir dir) ->
  resolves env (LaunchPersistentContext dir) ->
  getContext env dir s =
  (Ok (created s),
   withCreated (S (created s))
     (interfere env
        (record (Called (LaunchPersistentContext dir))
           (interfere env (record (Called (Mkdir dir)) s))))).
Proof.
  intros Hmk Hl. unfold getContext, ensureDir, bind.
  rewrite await_run, Hmk. cbv beta iota.
  rewrite (create_run _ _ _ Hl), interfere_created. reflexivity.
Qed.

(** The calls of [getContext] and [newPage] on a directory that can be
    opened. *)
Lemma openPage_run env dir s :
  resolves env (Mkdir dir) ->
  resolves env (LaunchPersistentContext dir) ->
  (forall context, resolves env (NewPage context)) ->
  exists sa sb,
    getContext env dir s = (Ok (created s), sa) /\
    newPage env (created s) sa = (Ok (S (created s)), sb) /\
    callsOf (history sb) =
      callsOf (history s)
        ++ [Mkdir dir; LaunchPersistentContext dir; NewPage (created s)].
Proof.
  intros Hmk Hl Hn. eexists. eexists. split; [|split].
  - apply getContext_run; assumption.
  - unfold newPage. rewrite (create_run _ _ _ (Hn _)). reflexivity.
  - cbn [history withCreated].
    repeat (rewrite interfere_calls || rewrite record_calls).
    cbn [history withCreated].
    repeat (rewrite interfere_calls || rewrite record_calls).
    rewrite <- !app_assoc. reflexivity.
Qed.

(** ** Steps of the batch and of the monitor as a whole *)

Lemma tryFinally_run {A} (m : M A) (fin : M unit) s :
  tryFinally m fin s =
  match fst (m s) with
  | Pending => (Pending, snd (m s))
  | r =>
      match fst (fin (snd (m s))) with
      | Ok _ => (r, snd (fin (snd (m s))))
      | Throw e => (Throw e, snd (fin (snd (m s))))
      | Pending => (Pending, snd (fin (snd (m s))))
      end
  end.
Proof.
  unfold tryFinally. destruct (m s) as [[a|e|] s']; cbn [fst snd];
    try reflexivity; destruct (fin s') as [[[]|e'|] s'']; reflexivity.
Qed.

Section Whole.

Variable env : Env.
Variable R : Store -> Store -> Prop.
Hypothesis R_refl : forall s, R s s.
Hypothesis R_trans : forall a b c, R a b -> R b c -> R a c.
Hypothesis R_interfere : forall s, R s (interfere env s).
Hypothesis R_record : forall e s, R s (record e s).
Hypothesis R_created : forall n s, R s (withCreated n s).
Hypothesis R_update : forall m f s, R s (updateMonitor m (withStats f) s).

Lemma steps_tryFinally {A} (m : M A) (fin : M unit) :
  steps R m -> steps R fin -> steps R (tryFinally m fin).
Proof.
  intros Hm Hf s. rewrite tryFinally_run. specialize (Hm s).
  specialize (Hf (snd (m s))).
  destruct (fst (m s)); [| |exact Hm];
    destruct (fst (fin (snd (m s)))); cbn [snd]; eapply R_trans; eauto.
Qed.

Lemma steps_record e : steps R (modify (record e)).
Proof. intros s. apply R_record. Qed.

Lemma steps_awaitAny c : steps R (await env c).
Proof. apply steps_await; auto. Qed.

Lemma steps_sleepAny ms : steps R (sleep env ms).
Proof. apply steps_sleep; auto. Qed.

Lemma steps_trySendClickAny page : steps R (trySendClick env page).
Proof. apply steps_trySendClick; auto. Qed.

Lemma steps_sendSingleAny page r : steps R (sendSingle env page r).
Proof. apply steps_sendSingle; auto. Qed.

Lemma steps_notifyProgress b p : steps R (notifyProgress b p).
Proof. destruct b; [apply steps_record|apply steps_ret, R_refl]. Qed.

Lemma steps_batchIteration page b delayMs i r :
  steps R (batchIteration env page b delayMs i r).
Proof.
  unfold batchIteration.
  apply (steps_bind R R_trans); [|intros _; apply steps_sleepAny].
  apply (steps_tryCatch R R_trans).
  - apply (steps_bind R R_trans); [apply steps_sendSingleAny|intros _; apply steps_notifyProgress].
  - intros e. apply steps_notifyProgress.
Qed.

Lemma steps_batchLoop page b delayMs rows :
  forall i, steps R (batchLoop env page b delayMs i rows).
Proof.
  induction rows as [|r rest IH]; intros i; cbn [batchLoop]; [apply steps_ret, R_refl|].
  apply (steps_bind R R_trans); [apply steps_batchIteration|intros _; apply IH].
Qed.

Lemma steps_sendBatch rows b delayMs : steps R (sendBatch env rows b delayMs).
Proof.
  unfold sendBatch.
  apply (steps_bind R R_trans); [apply steps_getContext; auto|intros context].
  apply (steps_bind R R_trans); [apply steps_create; auto|intros page].
  apply steps_tryFinally; [|apply steps_awaitAny].
  apply (steps_bind R R_trans); [apply steps_waitForReady; auto|intros _].
  apply steps_batchLoop.
Qed.

Lemma steps_notifyEvent b m e : steps R (notifyEvent b m e).
Proof. destruct b; [apply steps_record|apply steps_ret, R_refl]. Qed.

Lemma steps_updateStats m f : steps R (updateStats m f).
Proof. intros s. apply R_update. Qed.

Lemma steps_csvSend m page b i r : steps R (csvSend env m page b i r).
Proof.
  unfold csvSend.
  apply (steps_bind R R_trans); [apply steps_lift, R_refl|intros url].
  apply (steps_bind R R_trans); [apply steps_awaitAny|intros _].
  apply (steps_bind R R_trans); [apply steps_awaitAny|intros _].
  apply (steps_bind R R_trans); [apply steps_sleepAny|intros _].
  apply (steps_bind R R_trans); [apply steps_csvAttempts; auto|intros sent].
  apply (steps_bind R R_trans).
  { destruct sent; [apply steps_ret, R_refl|apply steps_awaitAny]. }
  intros _. apply (steps_bind R R_trans); [apply steps_gets, R_refl|intros n].
  apply (steps_bind R R_trans); [apply steps_updateStats|intros _].
  apply (steps_bind R R_trans); [apply steps_gets, R_refl|intros t].
  apply (steps_bind R R_trans); [apply steps_updateStats|intros _].
  apply steps_notifyEvent.
Qed.

Lemma steps_csvIteration m page b total i r :
  steps R (csvIteration env m page b total i r).
Proof.
  unfold csvIteration.
  apply (steps_bind R R_trans); [apply steps_updateStats|intros _].
  apply (steps_tryCatch R R_trans); [apply steps_csvSend|intros e].
  apply (steps_bind R R_trans); [apply steps_gets, R_refl|intros t].
  apply (steps_bind R R_trans); [apply steps_gets, R_refl|intros n].
  apply steps_notifyEvent.
Qed.

Lemma steps_csvLoop m page b delayMs total rows :
  forall i, steps R (csvLoop env m page b delayMs total i rows).
Proof.
  induction rows as [|r rest IH]; intros i; cbn [csvLoop]; [apply steps_ret, R_refl|].
  apply (steps_bind R R_trans); [apply steps_gets, R_refl|intros [|]]; [apply steps_ret, R_refl|].
  apply (steps_bind R R_trans); [apply steps_csvIteration|intros _].
  apply (steps_bind R R_trans); [apply steps_gets, R_refl|intros halt].
  apply (steps_bind R R_trans); [|intros _; apply IH].
  destruct halt; [apply steps_ret, R_refl|apply steps_sleepAny].
Qed.

Lemma steps_csvFinish m b : steps R (csvFinish env m b).
Proof.
  unfold csvFinish.
  apply (steps_bind R R_trans); [apply steps_gets, R_refl|intros [|]]; [apply steps_ret, R_refl|].
  apply (steps_bind R R_trans); [apply steps_updateStats|intros _].
  apply (steps_bind R R_trans); [apply steps_updateStats|intros _].
  apply (steps_bind R R_trans); [apply steps_gets, R_refl|intros n].
  apply (steps_bind R R_trans); [apply steps_notifyEvent|intros _].
  apply (steps_bind R R_trans); [apply steps_gets, R_refl|intros [c|]]; [|apply steps_ret, R_refl].
  unfold closeQuietly. apply (steps_tryCatch R R_trans); [apply steps_awaitAny|].
  intros _. apply steps_ret, R_refl.
Qed.

Lemma steps_csvMode m page rows delayMs b : steps R (csvMode env m page rows delayMs b).
Proof.
  unfold csvMode. apply (steps_bind R R_trans); [apply steps_csvLoop|intros _; apply steps_csvFinish].
Qed.

Lemma steps_watchTick m page b last : steps R (watchTick env m page b last).
Proof.
  unfold watchTick. apply (steps_tryCatch R R_trans); [|intros _; apply steps_ret, R_refl].
  apply (steps_bind R R_trans); [apply steps_gets, R_refl|intros t0].
  destruct (t0 - last >? 1500); [|apply steps_ret, R_refl].
  apply (steps_bind R R_trans); [apply steps_trySendClickAny|intros [|]]; [|apply steps_ret, R_refl].
  apply (steps_bind R R_trans); [apply steps_gets, R_refl|intros n].
  apply (steps_bind R R_trans); [apply steps_updateStats|intros _].
  apply (steps_bind R R_trans); [apply steps_gets, R_refl|intros t].
  apply (steps_bind R R_trans); [apply steps_updateStats|intros _].
  apply (steps_bind R R_trans); [apply steps_notifyEvent|intros _; apply steps_ret, R_refl].
Qed.

Lemma steps_watchLoop ticks m page b :
  forall last, steps R (watchLoop env ticks m page b last).
Proof.
  induction ticks as [|ticks IH]; intros last; cbn [watchLoop]; [intros s; apply R_refl|].
  apply (steps_bind R R_trans); [apply steps_gets, R_refl|intros [|]]; [apply steps_ret, R_refl|].
  apply (steps_bind R R_trans); [apply steps_watchTick|intros last'].
  apply (steps_bind R R_trans); [apply steps_sleepAny|intros _; apply IH].
Qed.

End Whole.

Lemma grows_refl s : grows s s.
Proof. exists []. now rewrite app_nil_r. Qed.

Lemma grows_trans a b c : grows a b -> grows b c -> grows a c.
Proof. intros [x Hx] [y Hy]. exists (x ++ y). now rewrite Hy, Hx, app_assoc. Qed.

Lemma grows_interfere env s : grows s (interfere env s).
Proof.
  destruct (interfere_history env s) as [H|[m H]].
  - exists []. now rewrite H, app_nil_r.
  - now exists [Stopping m].
Qed.

Lemma grows_record e s : grows s (record e s).
Proof. now exists [e]. Qed.

Lemma sendBatch_grows env rows b delayMs s :
  grows s (snd (sendBatch env rows b delayMs s)).
Proof.
  apply (steps_sendBatch env grows grows_refl grows_trans (grows_interfere env) grows_record).
  intros n s0. exists []. cbn. now rewrite app_nil_r.
Qed.

(** * The CSV upload of server.js *)

Module CsvFacts.
Import Csv.

Lemma digitsOnly_app a b : digitsOnly (a ++ b) = digitsOnly a ++ digitsOnly b.
Proof. apply filter_app. Qed.

Lemma digitsOnly_rev s : digitsOnly (rev s) = rev (digitsOnly s).
Proof.
  induction s as [|c s IH]; [reflexivity|].
  cbn [rev]. rewrite digitsOnly_app, IH.
  unfold digitsOnly. rewrite !filter_cons, filter_nil.
  destruct (decide (URI.isDigit c = true)); cbn [rev]; [reflexivity|].
  now rewrite app_nil_r.
Qed.

Lemma digitsOnly_dropWhile p s :
  (forall c, p c = true -> URI.isDigit c = false) ->
  digitsOnly (dropWhile p s) = digitsOnly s.
Proof.
  intros Hp. induction s as [|c s IH]; [reflexivity|].
  cbn [dropWhile]. destruct (p c) eqn:E; [|reflexivity].
  rewrite IH. unfold digitsOnly. rewrite filter_cons.
  destruct (decide (URI.isDigit c = true)) as [Hd|]; [|reflexivity].
  rewrite (Hp c E) in Hd. discriminate.
Qed.

Lemma digitsOnly_dropWhileEnd p s :
  (forall c, p c = true -> URI.isDigit c = false) ->
  digitsOnly (dropWhileEnd p s) = digitsOnly s.
Proof.
  intros Hp. unfold dropWhileEnd.
  rewrite digitsOnly_rev, (digitsOnly_dropWhile p _ Hp), digitsOnly_rev.
  apply rev_involutive.
Qed.

Lemma whitespace_not_digit c : isWhiteSpace c = true -> URI.isDigit c = false.
Proof.
  unfold isWhiteSpace, URI.isDigit. intros H.
  apply andb_false_iff.
  destruct (N.leb_spec 48 c) as [H1|]; [|now left].
  destruct (N.leb_spec c 57) as [H2|]; [|now right].
  exfalso.
  repeat (apply orb_true_iff in H; destruct H as [H|H]);
    repeat match goal with
    | H : (_ && _)%bool = true |- _ => apply andb_true_iff in H; destruct H
    | H : (_ <=? _)%N = true |- _ => apply N.leb_le in H
    | H : (_ =? _)%N = true |- _ => apply N.eqb_eq in H
    end; lia.
Qed.

Lemma digitsOnly_stripQuotes s : digitsOnly (stripQuotes s) = digitsOnly s.
Proof.
  assert (Hq : forall c, (c =? 34)%N = true -> URI.isDigit c = false).
  { intros c H. apply N.eqb_eq in H. now subst. }
  assert (Hhead : forall t : jsstring,
            digitsOnly match t with
                       | c :: rest => if (c =? 34)%N then rest else t
                       | [] => []
                       end = digitsOnly t).
  { intros [|c t]; [reflexivity|]. destruct (c =? 34)%N eqn:E; [|reflexivity].
    unfold digitsOnly. rewrite filter_cons.
    destruct (decide (URI.isDigit c = true)) as [Hd|]; [|reflexivity].
    rewrite (Hq c E) in Hd. discriminate. }
  unfold stripQuotes.
  set (s1 := match s with c :: rest => _ | [] => [] end).
  transitivity (digitsOnly s1); [|subst s1; apply Hhead].
  clearbody s1.
  destruct (rev s1) as [|c rest] eqn:Er.
  - apply (f_equal (@rev _)) in Er. rewrite rev_involutive in Er. now rewrite Er.
  - destruct (c =? 34)%N eqn:E; [|reflexivity].
    apply (f_equal (@rev _)) in Er. rewrite rev_involutive in Er. rewrite Er.
    cbn [rev]. rewrite digitsOnly_app.
    unfold digitsOnly. rewrite filter_cons, filter_nil.
    destruct (decide (URI.isDigit c = true)) as [Hd|]; [|now rewrite app_nil_r].
    rewrite (Hq c E) in Hd. discriminate.
Qed.

Lemma digitsOnly_digits s : Forall (fun c => URI.isDigit c = true) (digitsOnly s).
Proof. unfold digitsOnly. apply Forall_forall. intros c Hc. now apply list_elem_of_filter in Hc as [? _]. Qed.

Lemma digitsOnly_idem s : digitsOnly (digitsOnly s) = digitsOnly s.
Proof.
  unfold digitsOnly. induction s as [|c s IH]; [reflexivity|].
  rewrite filter_cons. destruct (decide (URI.isDigit c = true)) as [Hd|]; [|exact IH].
  rewrite filter_cons. destruct (decide (URI.isDigit c = true)); [|contradiction].
  now rewrite IH.
Qed.

Lemma normalizePhone_digitsOnly raw : normalizePhone raw = digitsOnly (default [] raw).
Proof.
  unfold normalizePhone, stripApostrophes, trim.
  rewrite digitsOnly_stripQuotes.
  rewrite digitsOnly_dropWhile by (intros c H; apply N.eqb_eq in H; now subst).
  rewrite digitsOnly_dropWhileEnd by apply whitespace_not_digit.
  now rewrite digitsOnly_dropWhile by apply whitespace_not_digit.
Qed.

End CsvFacts.

(** X1. [normalizePhone] returns exactly the decimal digits of its input, in
    their order: trimming and the removal of leading apostrophes and of
    enclosing double quotes never change the result.  So the result holds
    digits only, and normalising it again gives it back. *)
Theorem normalizePhone_keeps_the_digits raw :
  Csv.normalizePhone raw = Csv.digitsOnly (default [] raw) /\
  Forall (fun c => URI.isDigit c = true) (Csv.normalizePhone raw) /\
  Csv.normalizePhone (Some (Csv.normalizePhone raw)) = Csv.normalizePhone raw.
Proof.
  split; [apply CsvFacts.normalizePhone_digitsOnly|]. split.
  - rewrite CsvFacts.normalizePhone_digitsOnly. apply CsvFacts.digitsOnly_digits.
  - rewrite !CsvFacts.normalizePhone_digitsOnly. cbn [default].
    apply CsvFacts.digitsOnly_idem.
Qed.

Lemma readRecords_from idx records :
  let (rows, errors) := Csv.readRecords idx records in
  (length rows + length errors = length records)%nat /\
  (forall i r, records !! i = Some r ->
     match Csv.readRecord (idx + i) r with
     | inl row => row ∈ rows
     | inr e => e ∈ errors
     end) /\
  (forall row, row ∈ rows ->
     exists i r, records !! i = Some r /\ Csv.readRecord (idx + i) r = inl row) /\
  (forall e, e ∈ errors ->
     exists i r, records !! i = Some r /\ Csv.readRecord (idx + i) r = inr e) /\
  StronglySorted lt (map Csv.id rows) /\
  StronglySorted lt (map Csv.e_row errors) /\
  Forall (fun n => idx < n)%nat (map Csv.id rows) /\
  Forall (fun n => idx < n)%nat (map Csv.e_row errors).
Proof.
  revert idx. induction records as [|r records IH]; intros idx.
  - cbn. repeat split; try constructor; try (intros ? ? H; discriminate H);
      intros ? H; now apply elem_of_nil in H.
  - cbn [Csv.readRecords]. specialize (IH (S idx)).
    destruct (Csv.readRecords (S idx) records) as [rows errors].
    destruct IH as (Hlen & Hall & Hrows & Herrs & Hsr & Hse & Hbr & Hbe).
    assert (Hid : forall row, Csv.readRecord idx r = inl row -> Csv.id row = (idx + 1)%nat).
    { unfold Csv.readRecord. intros row.
      destruct (Csv.RowSchema _ _); intros [= <-]; reflexivity. }
    assert (Herow : forall e, Csv.readRecord idx r = inr e -> Csv.e_row e = (idx + 1)%nat).
    { unfold Csv.readRecord. intros e.
      destruct (Csv.RowSchema _ _); intros [= <-]; reflexivity. }
    assert (Hshift : forall i, (S idx + i = idx + S i)%nat) by (intros; lia).
    destruct (Csv.readRecord idx r) as [row|e] eqn:E.
    + repeat split.
      * cbn [length]. lia.
      * intros [|i] r' Hi.
        -- cbn in Hi. injection Hi as <-. rewrite Nat.add_0_r, E. apply elem_of_cons. now left.
        -- cbn in Hi. specialize (Hall i r' Hi). rewrite Hshift in Hall.
           destruct (Csv.readRecord (idx + S i) r'); [apply elem_of_cons; now right|exact Hall].
      * intros row' [->|Hin]%elem_of_cons.
        -- exists 0%nat, r. rewrite Nat.add_0_r. now split.
        -- destruct (Hrows row' Hin) as (i & r' & Hi & Hr). exists (S i), r'.
           rewrite <- Hshift. now split.
      * intros e Hin. destruct (Herrs e Hin) as (i & r' & Hi & Hr). exists (S i), r'.
        rewrite <- Hshift. now split.
      * cbn [map]. constructor; [exact Hsr|]. rewrite (Hid row eq_refl).
        eapply Forall_impl; [exact Hbr|]. cbn. intros; lia.
      * exact Hse.
      * cbn [map]. constructor; [rewrite (Hid row eq_refl); lia|].
        eapply Forall_impl; [exact Hbr|]. cbn. intros; lia.
      * eapply Forall_impl; [exact Hbe|]. cbn. intros; lia.
    + repeat split.
      * cbn [length]. lia.
      * intros [|i] r' Hi.
        -- cbn in Hi. injection Hi as <-. rewrite Nat.add_0_r, E. apply elem_of_cons. now left.
        -- cbn in Hi. specialize (Hall i r' Hi). rewrite Hshift in Hall.
           destruct (Csv.readRecord (idx + S i) r'); [exact Hall|apply elem_of_cons; now right].
      * intros row Hin. destruct (Hrows row Hin) as (i & r' & Hi & Hr). exists (S i), r'.
        rewrite <- Hshift. now split.
      * intros e' [->|Hin]%elem_of_cons.
        -- exists 0%nat, r. rewrite Nat.add_0_r. now split.
        -- destruct (Herrs e' Hin) as (i & r' & Hi & Hr). exists (S i), r'.
           rewrite <- Hshift. now split.
      * exact Hsr.
      * cbn [map]. constructor; [exact Hse|]. rewrite (Herow e eq_refl).
        eapply Forall_impl; [exact Hbe|]. cbn. intros; lia.
      * eapply Forall_impl; [exact Hbr|]. cbn. intros; lia.
      * cbn [map]. constructor; [rewrite (Herow e eq_refl); lia|].
        eapply Forall_impl; [exact Hbe|]. cbn. intros; lia.
Qed.

(** X2. What [POST /api/parse-csv] makes of one record: it is accepted
    exactly when the first phone column present holds a digit and the first
    message column present is not empty.  The row then carries those digits
    and that message under the 1-based position of the record; otherwise
    the error carries that position and names the empty field or fields. *)
Theorem readRecord_accepts_digits_and_text idx r :
  let phone := Csv.digitsOnly (default [] (Csv.firstDefined r Csv.phoneKeys)) in
  let message := default [] (Csv.firstDefined r Csv.messageKeys) in
  match Csv.readRecord idx r with
  | inl row =>
      phone <> [] /\ message <> [] /\
      Csv.id row = (idx + 1)%nat /\ Csv.p_phone row = phone /\ Csv.p_message row = message
  | inr e =>
      (phone = [] \/ message = []) /\
      Csv.e_row e = (idx + 1)%nat /\
      (Csv.PhoneEmpty ∈ Csv.issues e <-> phone = []) /\
      (Csv.MessageEmpty ∈ Csv.issues e <-> message = [])
  end.
Proof.
  intros phone message. unfold Csv.readRecord.
  rewrite CsvFacts.normalizePhone_digitsOnly. fold phone message.
  unfold Csv.RowSchema.
  destruct phone as [|c p], message as [|d m]; cbn.
  all: repeat split; auto; try congruence;
    try (intros _; repeat constructor; fail);
    try (intros H; repeat (apply elem_of_cons in H as [H|H]; [discriminate H|]);
         now apply elem_of_nil in H).
Qed.

(** X3. The preview partitions the records: every record gives one row or
    one error, found under its 1-based position; rows and errors keep the
    order of the file; and [count] is the number of rows. *)
Theorem parseCsvRoute_partitions_the_records parse csvText rows errors n :
  Csv.parseCsvRoute parse (Some csvText) = Csv.Parsed rows errors n ->
  exists records,
    (parse csvText (Csv.delimiterGuess csvText) = inr records \/
     parse csvText Csv.Tab = inr records) /\
    n = length rows /\
    (length rows + length errors = length records)%nat /\
    (forall i r, records !! i = Some r ->
       match Csv.readRecord i r with
       | inl row => row ∈ rows
       | inr e => e ∈ errors
       end) /\
    (forall row, row ∈ rows ->
       exists r, records !! (Csv.id row - 1)%nat = Some r /\
                 Csv.readRecord (Csv.id row - 1) r = inl row) /\
    (forall e, e ∈ errors ->
       exists r, records !! (Csv.e_row e - 1)%nat = Some r /\
                 Csv.readRecord (Csv.e_row e - 1) r = inr e) /\
    StronglySorted lt (map Csv.id rows) /\
    StronglySorted lt (map Csv.e_row errors).
Proof.
  unfold Csv.parseCsvRoute. intros H.
  assert (Hrec : exists records,
            (parse csvText (Csv.delimiterGuess csvText) = inr records \/
             parse csvText Csv.Tab = inr records) /\
            (let (rows, errors) := Csv.readRecords 0 records in
             Csv.Parsed rows errors (length rows)) = Csv.Parsed rows errors n).
  { destruct (parse csvText (Csv.delimiterGuess csvText)) as [e|records] eqn:E1.
    - destruct (parse csvText Csv.Tab) as [e'|records] eqn:E2; [discriminate|].
      exists records. split; [now right|exact H].
    - exists records. split; [now left|exact H]. }
  destruct Hrec as (records & Hparse & Hread). exists records. split; [exact Hparse|].
  pose proof (readRecords_from 0 records) as Hfrom.
  destruct (Csv.readRecords 0 records) as [rows' errors'].
  injection Hread as -> -> <-.
  destruct Hfrom as (Hlen & Hall & Hrows & Herrs & Hsr & Hse & _ & _).
  assert (Hid : forall i r row, Csv.readRecord i r = inl row -> (Csv.id row - 1 = i)%nat).
  { unfold Csv.readRecord. intros i r row.
    destruct (Csv.RowSchema _ _); intros [= <-]; cbn; lia. }
  assert (Herow : forall i r e, Csv.readRecord i r = inr e -> (Csv.e_row e - 1 = i)%nat).
  { unfold Csv.readRecord. intros i r e.
    destruct (Csv.RowSchema _ _); intros [= <-]; cbn; lia. }
  repeat split; auto.
  - intros row Hin. destruct (Hrows row Hin) as (i & r & Hi & Hr). cbn in Hr.
    rewrite (Hid _ _ _ Hr). now exists r.
  - intros e Hin. destruct (Herrs e Hin) as (i & r & Hi & Hr). cbn in Hr.
    rewrite (Herow _ _ _ Hr). now exists r.
Qed.

Lemma firstDefined_none r keys :
  Forall (fun k => r !! k = None) keys -> Csv.firstDefined r keys = None.
Proof.
  induction 1 as [|k keys Hk _ IH]; [reflexivity|].
  cbn [Csv.firstDefined]. now rewrite Hk.
Qed.

(** X4. A record without any of the thirteen phone columns is an error of
    the preview, and so is a record whose [phone] column holds no digit,
    whatever its other phone columns hold: the first column present is the
    one that is read, even when it is empty. *)
Theorem readRecord_without_phone idx r :
  Forall (fun k => r !! k = None) Csv.phoneKeys \/
  (exists v, r !! "phone"%string = Some v /\ Csv.digitsOnly v = []) ->
  exists e,
    Csv.readRecord idx r = inr e /\
    Csv.e_row e = (idx + 1)%nat /\
    Csv.PhoneEmpty ∈ Csv.issues e.
Proof.
  intros H.
  assert (Hp : Csv.normalizePhone (Csv.firstDefined r Csv.phoneKeys) = []).
  { rewrite CsvFacts.normalizePhone_digitsOnly.
    destruct H as [H|(v & Hv & Hd)].
    - now rewrite (firstDefined_none _ _ H).
    - unfold Csv.phoneKeys. cbn [Csv.firstDefined]. rewrite Hv. exact Hd. }
  unfold Csv.readRecord. rewrite Hp. unfold Csv.RowSchema. cbn [length Nat.leb app].
  eexists. split; [reflexivity|]. split; [reflexivity|]. apply elem_of_cons. now left.
Qed.

(** X9. [POST /api/parse-csv] answers 400 exactly when no file came with the
    request, and 500 exactly when the parse with the guessed delimiter
    threw and the parse with a tab threw as well; the message is then that
    of the tab attempt (or the fixed text when it has none), and what the
    first attempt threw is lost. *)
Theorem parseCsvRoute_failures parse file :
  (Csv.parseCsvRoute parse file = Csv.NoFile <-> file = None) /\
  (forall msg,
     Csv.parseCsvRoute parse file = Csv.ParseFailed msg <->
     exists csvText e0 e,
       file = Some csvText /\
       parse csvText (Csv.delimiterGuess csvText) = inl e0 /\
       parse csvText Csv.Tab = inl e /\
       msg = Csv.failureText e).
Proof.
  split.
  - destruct file as [csvText|]; [|now split].
    split; [|discriminate]. unfold Csv.parseCsvRoute.
    destruct (parse csvText (Csv.delimiterGuess csvText)) as [e0|records].
    + destruct (parse csvText Csv.Tab) as [e|records]; [discriminate|].
      destruct (Csv.readRecords 0 records); discriminate.
    + destruct (Csv.readRecords 0 records); discriminate.
  - intros msg. destruct file as [csvText|]; cbn [Csv.parseCsvRoute].
    2: { split; [discriminate|]. intros (? & ? & ? & [=] & _). }
    destruct (parse csvText (Csv.delimiterGuess csvText)) as [e0|records] eqn:E0.
    + destruct (parse csvText Csv.Tab) as [e|records] eqn:E1.
      * split.
        -- intros [= <-]. now exists csvText, e0, e.
        -- intros (t & a & b & [= <-] & Ha & Hb & ->). rewrite E1 in Hb. now injection Hb as <-.
      * destruct (Csv.readRecords 0 records). split; [discriminate|].
        intros (t & a & b & [= <-] & Ha & Hb & _). rewrite E1 in Hb. discriminate.
    + destruct (Csv.readRecords 0 records). split; [discriminate|].
      intros (t & a & b & [= <-] & Ha & _). rewrite E0 in Ha. discriminate.
Qed.

(** * Batch jobs of server.js *)

Lemma drop_S_tail {A} (l : list A) k : drop (S k) l = tail (drop k l).
Proof.
  revert l. induction k as [|k IH]; intros [|y l]; try reflexivity.
  cbn [drop]. rewrite <- IH. reflexivity.
Qed.

Lemma lastN_snoc {A} (l : list A) (x : A) :
  (let pushed := lastN 200 l ++ [x] in
   if (200 <? length pushed)%nat then Jobs.shift pushed else pushed) = lastN 200 (l ++ [x]).
Proof.
  cbn zeta. unfold lastN, Jobs.shift. rewrite !length_app, length_drop. cbn [length].
  destruct (Nat.ltb_spec 200 (length l - (length l - 200) + 1)) as [H|H].
  - assert (Hl : (200 <= length l)%nat) by lia.
    replace (length l + 1 - 200)%nat with (S (length l - 200)) by lia.
    rewrite drop_app_le by lia. rewrite drop_S_tail.
    destruct (drop (length l - 200) l) as [|y t] eqn:E; [|reflexivity].
    apply (f_equal length) in E. rewrite length_drop in E. cbn in E. lia.
  - replace (length l - 200)%nat with 0%nat by lia.
    replace (length l + 1 - 200)%nat with 0%nat by lia.
    reflexivity.
Qed.

Lemma replay_run env segment :
  forall before job all,
    Jobs.events job = lastN 200 all ->
    let job' := Jobs.replay env before segment job in
    Jobs.events job' = lastN 200 (all ++ stamped env before segment) /\
    Jobs.done job' = (Jobs.done job + length (stamped env before segment))%nat /\
    Jobs.ok job' = (Jobs.ok job + countOk (stamped env before segment))%nat /\
    (Jobs.ok job' + Jobs.failed job' =
       Jobs.ok job + Jobs.failed job + length (stamped env before segment))%nat /\
    Jobs.total job' = Jobs.total job /\
    Jobs.status job' = Jobs.status job /\
    Jobs.id job' = Jobs.id job /\
    Jobs.startedAt job' = Jobs.startedAt job /\
    Jobs.finishedAt job' = Jobs.finishedAt job.
Proof.
  induction segment as [|e rest IH]; intros before job all Hev; cbn zeta.
  - cbn. rewrite app_nil_r. repeat split; auto; lia.
  - cbn [Jobs.replay stamped].
    destruct e as [c|p el|[i r o err]|m ev|m];
      try (apply (IH (before ++ [_]) job all Hev)).
    set (before' := before ++ [OnProgress (mkProgress i r o err)]).
    set (x := Jobs.mkJobEvent (clock env before') (Some i) (Some (phone r)) o err).
    specialize (IH before' (Jobs.onProgress (clock env before') (mkProgress i r o err) job)
                   (all ++ [x])).
    cbn zeta in IH.
    destruct IH as (He & Hd & Ho & Hs & Ht & Hst & Hid & Hsa & Hfa).
    { cbn [Jobs.onProgress Jobs.events]. rewrite Hev. apply lastN_snoc. }
    rewrite Hs, He, Hd, Ho, Ht, Hst, Hid, Hsa, Hfa.
    rewrite <- app_assoc. cbn [app length Jobs.onProgress Jobs.done Jobs.ok Jobs.failed
      Jobs.total Jobs.status Jobs.id Jobs.startedAt Jobs.finishedAt].
    unfold countOk. rewrite filter_cons. cbn [Jobs.j_ok x].
    repeat split; auto; try lia.
    + subst x. cbn [Jobs.j_ok]. destruct o; destruct (decide _); cbn [length]; try lia; congruence.
    + destruct o; lia.
Qed.

Lemma expectedReports_length env page delayMs rows :
  forall i s, (length (expectedReports env page delayMs i rows s) <= length rows)%nat.
Proof.
  induction rows as [|r rest IH]; intros i s; [reflexivity|].
  cbn [expectedReports]. cbn zeta.
  destruct (fst (sendSingle env page r s)); cbn [length];
    try specialize (IH (S i) (snd (batchIteration env page true delayMs i r s))); lia.
Qed.

Lemma sameProgress_steps env :
  (forall s, sameProgress s s) /\
  (forall a b c, sameProgress a b -> sameProgress b c -> sameProgress a c) /\
  (forall s, sameProgress s (interfere env s)) /\
  (forall c s, sameProgress s (record (Called c) s)) /\
  (forall n s, sameProgress s (withCreated n s)).
Proof.
  repeat split.
  - unfold sameProgress. intros a b c Hab Hbc. congruence.
  - apply interfere_progress.
  - apply sameProgress_called.
Qed.

(** What a batch reports, whatever the browser does: at most one report
    per recipient. *)
Lemma sendBatch_progress env rows delayMs s :
  exists reports,
    progressOf (history (snd (sendBatch env rows true delayMs s))) =
      progressOf (history s) ++ reports /\
    (length reports <= length rows)%nat /\
    (neverHangs env -> sessionOpens env BATCH_SESSION_DIR ->
     length reports = length rows /\
     map index reports = seq 0 (length rows) /\
     fst (sendBatch env rows true delayMs s) <> Pending /\
     ((forall context, resolves env (ContextClose context)) ->
      fst (sendBatch env rows true delayMs s) = Ok tt)).
Proof.
  destruct (sameProgress_steps env) as (Hrefl & Htrans & Hint & Hcall & Hcre).
  remember (sendBatch env rows true delayMs s) as out eqn:Eout.
  unfold sendBatch in Eout.
  pose proof (steps_getContext env sameProgress Hrefl Htrans Hint Hcall Hcre BATCH_SESSION_DIR s) as H1.
  assert (Hopen1 : sessionOpens env BATCH_SESSION_DIR ->
                   exists ctx, fst (getContext env BATCH_SESSION_DIR s) = Ok ctx).
  { intros (Hmk & Hl & _). unfold getContext, ensureDir.
    rewrite bind_run, await_run, Hmk. cbn [fst snd].
    rewrite (create_run _ _ _ Hl). eauto. }
  unfold bind at 1 in Eout.
  destruct (getContext env BATCH_SESSION_DIR s) as [[ctx|e|] s1]; cbn [fst snd] in *.
  2,3: subst out; cbn [fst snd]; exists []; rewrite app_nil_r; split; [exact H1|]; split; [cbn; lia|];
       intros _ Ho; destruct (Hopen1 Ho) as [? [=]].
  pose proof (steps_create env sameProgress Hrefl Htrans Hint Hcall Hcre (NewPage ctx) s1) as H2.
  change (create env (NewPage ctx)) with (newPage env ctx) in H2.
  assert (Hopen2 : sessionOpens env BATCH_SESSION_DIR ->
                   exists page, fst (newPage env ctx s1) = Ok page).
  { intros (_ & _ & Hn & _). unfold newPage. rewrite (create_run _ _ _ (Hn _)). eauto. }
  unfold bind at 1 in Eout.
  destruct (newPage env ctx s1) as [[page|e|] s2]; cbn [fst snd] in *.
  2,3: subst out; cbn [fst snd]; exists []; rewrite app_nil_r; split; [unfold sameProgress in *; congruence|];
       split; [cbn; lia|]; intros _ Ho; destruct (Hopen2 Ho) as [? [=]].
  rewrite tryFinally_run, bind_run in Eout.
  pose proof (steps_waitForReady env sameProgress Htrans Hint Hcall page s2) as H3.
  assert (Hopen3 : sessionOpens env BATCH_SESSION_DIR ->
                   fst (waitForReady env page s2) = Ok tt).
  { intros (_ & _ & _ & Hg & Hw & He). now apply waitForReady_run. }
  assert (Hfin : forall r (s3 : Store) reports,
            progressOf (history s3) = progressOf (history s) ++ reports ->
            progressOf (history (snd
              (match fst (await env (ContextClose ctx) s3) with
               | Ok _ => (r, snd (await env (ContextClose ctx) s3))
               | Throw e => (Throw e, snd (await env (ContextClose ctx) s3))
               | Pending => (Pending, snd (await env (ContextClose ctx) s3))
               end : Res unit * Store))) = progressOf (history s) ++ reports).
  { intros r s3 reports Hs3.
    assert (Hc : progressOf (history (snd (await env (ContextClose ctx) s3)))
                 = progressOf (history s3)).
    { rewrite await_run. cbn [snd]. rewrite interfere_progress. apply sameProgress_called. }
    destruct (fst (await env (ContextClose ctx) s3)); cbn [snd]; congruence. }
  assert (H012 : progressOf (history s2) = progressOf (history s))
    by (unfold sameProgress in *; congruence).
  destruct (waitForReady env page s2) as [[[]|e|] s3]; cbn [fst snd] in *; subst out.
  - pose proof (batchLoop_reports env page (default 4000 delayMs) rows 0%nat s3) as Hb.
    cbn zeta in Hb. destruct Hb as [Hp Hnt].
    exists (expectedReports env page (default 4000 delayMs) 0 rows s3).
    assert (Hp' : progressOf (history (snd (batchLoop env page true (default 4000 delayMs) 0 rows s3)))
                  = progressOf (history s) ++
                    expectedReports env page (default 4000 delayMs) 0 rows s3).
    { rewrite Hp. unfold sameProgress in H3. congruence. }
    split; [|split; [apply expectedReports_length|]].
    + destruct (fst (batchLoop env page true (default 4000 delayMs) 0 rows s3)) as [[]|e|];
        cbn [snd]; [apply Hfin; exact Hp'|apply Hfin; exact Hp'|exact Hp'].
    + intros Hno Ho.
      destruct (expectedReports_shape env page (default 4000 delayMs) rows Hno 0%nat s3)
        as [Hi Hr].
      split; [rewrite <- (length_map index), Hi; apply length_seq|]. split; [exact Hi|].
      pose proof (batchLoop_settles env page (default 4000 delayMs) rows Hno 0%nat s3) as Hset.
      destruct (fst (batchLoop env page true (default 4000 delayMs) 0 rows s3)) as [[]|e|];
        [|exfalso; exact (Hnt e eq_refl)|contradiction].
      rewrite await_run. split.
      * pose proof (Hno (history (snd (batchLoop env page true (default 4000 delayMs) 0 rows s3)))
                        (ContextClose ctx)) as Hh.
        destruct (settle env _ (ContextClose ctx)); cbn; congruence.
      * intros Hclose. rewrite (Hclose ctx). reflexivity.
  - exists []. split; [|split; [cbn; lia|]].
    + apply Hfin. rewrite app_nil_r. unfold sameProgress in H3. congruence.
    + intros _ Ho. specialize (Hopen3 Ho). discriminate.
  - exists []. rewrite app_nil_r. split; [|split; [cbn; lia|]].
    + unfold sameProgress in H3. cbn [snd]. congruence.
    + intros _ Ho. specialize (Hopen3 Ho). discriminate.
Qed.

Lemma stamped_progress env segment :
  forall before,
    length (stamped env before segment) = length (progressOf segment) /\
    map Jobs.j_index (stamped env before segment) =
      map (fun p => Some (index p)) (progressOf segment) /\
    map Jobs.j_phone (stamped env before segment) =
      map (fun p => Some (phone (row p))) (progressOf segment) /\
    map Jobs.j_ok (stamped env before segment) = map ok (progressOf segment) /\
    map Jobs.j_error (stamped env before segment) = map error (progressOf segment).
Proof.
  induction segment as [|e rest IH]; intros before; [repeat split|].
  cbn [stamped]. unfold progressOf in *. cbn [omap list_omap isProgress].
  destruct e as [c|p el|[i r o err]|m ev|m]; cbn [isProgress]; try apply IH.
  destruct (IH (before ++ [OnProgress (mkProgress i r o err)])) as (H1 & H2 & H3 & H4 & H5).
  cbn [length map Jobs.j_index Jobs.j_phone Jobs.j_ok Jobs.j_error index row ok error].
  rewrite H1, H2, H3, H4, H5. repeat split.
Qed.

(** The batch of a request served by [POST /api/send], and the job the
    handler has built by its end. *)
Lemma sendRoute_run env random q sv :
  Jobs.SendRequestSchema q = true ->
  exists batch segment,
    Jobs.rows q = Some batch /\
    let s := Jobs.engine sv in
    let jobId := Jobs.decimalZ (clock env (history s)) ++ lit "-" ++ random in
    let out := sendBatch env batch true (Some (default 1500 (Jobs.delayMs q))) s in
    let job := {| Jobs.id := jobId; Jobs.status := Jobs.Running;
                  Jobs.total := length batch; Jobs.done := 0; Jobs.ok := 0;
                  Jobs.failed := 0; Jobs.events := [];
                  Jobs.startedAt := clock env (history s); Jobs.finishedAt := None |} in
    let job1 := Jobs.replay env (history s) segment job in
    history (snd out) = history s ++ segment /\
    Jobs.sendRoute env random q sv =
      (Jobs.Accepted jobId,
       {| Jobs.jobs := <[jobId := match fst out with
                                  | Ok _ => Jobs.finish (clock env (history (snd out))) job1
                                  | Throw e => Jobs.fail (clock env (history (snd out))) e job1
                                  | Pending => job1
                                  end]> (Jobs.jobs sv);
          Jobs.engine := snd out |}).
Proof.
  intros Hq. unfold Jobs.sendRoute. rewrite Hq. cbn [negb].
  unfold Jobs.SendRequestSchema in Hq.
  destruct (Jobs.rows q) as [batch|] eqn:Eb; [|discriminate].
  destruct (sendBatch_grows env batch true (Some (default 1500 (Jobs.delayMs q)))
              (Jobs.engine sv)) as [segment Hseg].
  exists batch, segment. split; [reflexivity|]. cbn zeta. split; [exact Hseg|].
  change (default [] (Some batch)) with batch.
  destruct (sendBatch env batch true (Some (default 1500 (Jobs.delayMs q))) (Jobs.engine sv))
    as [r s'] eqn:E.
  cbn [fst snd] in *. rewrite Hseg, drop_app_length. reflexivity.
Qed.

(** X5. Whatever the browser does, an accepted [POST /api/send] answers
    with an id under which [GET /api/job/:id] finds the job; the job
    counts every report once, as sent or as failed, never counts more
    reports than recipients, keeps at most 200 of them (201 entries once
    the batch itself has failed), and has a finishing time exactly when it
    is no longer running.  No other job is touched. *)
Theorem sendRoute_job_bookkeeping env random q sv :
  Jobs.SendRequestSchema q = true ->
  exists jobId job batch,
    Jobs.rows q = Some batch /\
    fst (Jobs.sendRoute env random q sv) = Jobs.Accepted jobId /\
    Jobs.jobRoute jobId (snd (Jobs.sendRoute env random q sv)) = Some job /\
    Jobs.id job = jobId /\
    Jobs.total job = length batch /\
    Jobs.done job = (Jobs.ok job + Jobs.failed job)%nat /\
    (Jobs.done job <= Jobs.total job)%nat /\
    (length (Jobs.events job) <= 201)%nat /\
    (Jobs.status job = Jobs.Running <-> Jobs.finishedAt job = None) /\
    (forall other, other <> jobId ->
       Jobs.jobRoute other (snd (Jobs.sendRoute env random q sv)) = Jobs.jobRoute other sv).
Proof.
  intros Hq. destruct (sendRoute_run env random q sv Hq) as (batch & segment & Hb & Hrun).
  cbn zeta in Hrun. destruct Hrun as [Hseg Hrun]. rewrite Hrun. cbn [fst snd].
  set (s := Jobs.engine sv) in *.
  set (jobId := Jobs.decimalZ (clock env (history s)) ++ lit "-" ++ random) in *.
  set (out := sendBatch env batch true (Some (default 1500 (Jobs.delayMs q))) s) in *.
  set (job := {| Jobs.id := jobId; Jobs.status := Jobs.Running; Jobs.total := length batch;
                 Jobs.done := 0; Jobs.ok := 0; Jobs.failed := 0; Jobs.events := [];
                 Jobs.startedAt := clock env (history s); Jobs.finishedAt := None |}) in *.
  destruct (replay_run env segment (history s) job [] eq_refl)
    as (He & Hd & Ho & Hs & Ht & Hst & Hid & _ & Hfa).
  cbn zeta in *. cbn [app] in He.
  destruct (sendBatch_progress env batch (Some (default 1500 (Jobs.delayMs q))) s)
    as (reports & Hp & Hlen & _).
  fold out in Hp. rewrite Hseg, progressOf_app in Hp. apply app_inv_head in Hp.
  destruct (stamped_progress env segment (history s)) as (Hsl & _).
  rewrite Hp in Hsl.
  assert (Hev : (length (lastN 200 (stamped env (history s) segment)) <= 200)%nat).
  { unfold lastN. rewrite length_drop. lia. }
  set (job1 := Jobs.replay env (history s) segment job) in *.
  eexists jobId, _, batch. split; [exact Hb|]. split; [reflexivity|].
  split; [unfold Jobs.jobRoute; cbn [Jobs.jobs]; apply lookup_insert_eq|].
  cbn [Jobs.done Jobs.ok Jobs.failed Jobs.total job] in Hd, Ho, Hs, Ht.
  cbn [Jobs.status Jobs.id Jobs.finishedAt job] in Hst, Hid, Hfa.
  assert (Hothers : forall other, other <> jobId ->
            Jobs.jobRoute other
              {| Jobs.jobs := <[jobId := match fst out with
                                         | Ok _ => Jobs.finish (clock env (history (snd out))) job1
                                         | Throw e => Jobs.fail (clock env (history (snd out))) e job1
                                         | Pending => job1
                                         end]> (Jobs.jobs sv);
                 Jobs.engine := snd out |} = Jobs.jobRoute other sv).
  { intros other Hne. unfold Jobs.jobRoute. cbn [Jobs.jobs].
    apply lookup_insert_ne. congruence. }
  destruct (fst out) as [[]|e|];
    cbn [Jobs.finish Jobs.fail Jobs.id Jobs.total Jobs.done Jobs.ok Jobs.failed
         Jobs.events Jobs.status Jobs.finishedAt];
    rewrite ?Hid, ?Ht, ?Hd, ?He, ?Hst, ?Hfa, ?length_app; cbn [length];
    repeat split; try lia; try congruence; try exact Hothers.
Qed.

Lemma getContext_fails env dir e s :
  resolves env (Mkdir dir) ->
  (forall h, settle env h (LaunchPersistentContext dir) = Rejects e) ->
  getContext env dir s =
    (Throw e, interfere env (record (Called (LaunchPersistentContext dir))
                (interfere env (record (Called (Mkdir dir)) s)))).
Proof.
  intros Hmk Hl. unfold getContext, ensureDir.
  rewrite bind_run, await_run, Hmk. cbn [fst snd].
  unfold create. rewrite bind_run, await_run, Hl. reflexivity.
Qed.

(** X6. When the session opens, no driver call hangs and the browser closes
    cleanly, the job of an accepted request ends as [finished] with
    [done = total]: one report per recipient, each counted as sent or as
    failed.  Its events are the reports of the last 200 recipients, in
    order. *)
Theorem sendRoute_finishes_the_job env random q sv batch :
  neverHangs env ->
  sessionOpens env BATCH_SESSION_DIR ->
  (forall context, resolves env (ContextClose context)) ->
  Jobs.SendRequestSchema q = true ->
  Jobs.rows q = Some batch ->
  exists jobId job,
    fst (Jobs.sendRoute env random q sv) = Jobs.Accepted jobId /\
    Jobs.jobRoute jobId (snd (Jobs.sendRoute env random q sv)) = Some job /\
    Jobs.status job = Jobs.Finished /\
    Jobs.finishedAt job <> None /\
    Jobs.total job = length batch /\
    Jobs.done job = length batch /\
    (Jobs.ok job + Jobs.failed job = length batch)%nat /\
    map Jobs.j_index (Jobs.events job) = map Some (lastN 200 (seq 0 (length batch))).
Proof.
  intros Hno Hopen Hclose Hq Hb.
  destruct (sendRoute_run env random q sv Hq) as (batch' & segment & Hb' & Hrun).
  rewrite Hb in Hb'. injection Hb' as <-.
  cbn zeta in Hrun. destruct Hrun as [Hseg Hrun]. rewrite Hrun. cbn [fst snd].
  set (s := Jobs.engine sv) in *.
  set (jobId := Jobs.decimalZ (clock env (history s)) ++ lit "-" ++ random) in *.
  set (out := sendBatch env batch true (Some (default 1500 (Jobs.delayMs q))) s) in *.
  set (job := {| Jobs.id := jobId; Jobs.status := Jobs.Running; Jobs.total := length batch;
                 Jobs.done := 0; Jobs.ok := 0; Jobs.failed := 0; Jobs.events := [];
                 Jobs.startedAt := clock env (history s); Jobs.finishedAt := None |}) in *.
  destruct (replay_run env segment (history s) job [] eq_refl)
    as (He & Hd & Ho & Hs & Ht & _).
  cbn zeta in *. cbn [app] in He.
  destruct (sendBatch_progress env batch (Some (default 1500 (Jobs.delayMs q))) s)
    as (reports & Hp & _ & Hfull).
  destruct (Hfull Hno Hopen) as (Hlen & Hidx & _ & Hok). specialize (Hok Hclose).
  fold out in Hp, Hok. rewrite Hseg, progressOf_app in Hp. apply app_inv_head in Hp.
  destruct (stamped_progress env segment (history s)) as (Hsl & Hsi & _).
  rewrite Hp in Hsl, Hsi.
  cbn [Jobs.done Jobs.ok Jobs.failed Jobs.total job] in Hd, Ho, Hs, Ht.
  eexists jobId, _. split; [reflexivity|].
  split; [unfold Jobs.jobRoute; cbn [Jobs.jobs]; apply lookup_insert_eq|].
  rewrite Hok.
  cbn [Jobs.finish Jobs.id Jobs.total Jobs.done Jobs.ok Jobs.failed Jobs.events
       Jobs.status Jobs.finishedAt].
  rewrite Ht, Hd, He, Hs, Hsl, Hlen.
  repeat split; try lia; try discriminate.
  unfold lastN. rewrite <- !skipn_map, Hsi, Hsl, Hlen, length_seq.
  rewrite <- Hidx, map_map. reflexivity.
Qed.

(** X7. When the browser cannot be launched, the request is accepted all
    the same; the job ends as [error] with nothing done and a single event
    that carries the error text and names no recipient.  The engine has
    called [mkdir] and the launch, and nothing else: there is no context
    to close. *)
Theorem sendRoute_launch_failure env random q sv e :
  Jobs.SendRequestSchema q = true ->
  resolves env (Mkdir BATCH_SESSION_DIR) ->
  (forall h, settle env h (LaunchPersistentContext BATCH_SESSION_DIR) = Rejects e) ->
  exists jobId job t t',
    fst (Jobs.sendRoute env random q sv) = Jobs.Accepted jobId /\
    Jobs.jobRoute jobId (snd (Jobs.sendRoute env random q sv)) = Some job /\
    Jobs.status job = Jobs.Errored /\
    Jobs.finishedAt job = Some t /\
    Jobs.done job = 0%nat /\
    Jobs.events job = [ Jobs.mkJobEvent t' None None false (Some (errorText e)) ] /\
    callsOf (history (Jobs.engine (snd (Jobs.sendRoute env random q sv)))) =
      callsOf (history (Jobs.engine sv))
        ++ [Mkdir BATCH_SESSION_DIR; LaunchPersistentContext BATCH_SESSION_DIR].
Proof.
  intros Hq Hmk Hl.
  destruct (sendRoute_run env random q sv Hq) as (batch & segment & Hb & Hrun).
  cbn zeta in Hrun. destruct Hrun as [Hseg Hrun]. rewrite Hrun. cbn [fst snd Jobs.engine].
  set (s := Jobs.engine sv) in *.
  set (jobId := Jobs.decimalZ (clock env (history s)) ++ lit "-" ++ random) in *.
  assert (Hout : sendBatch env batch true (Some (default 1500 (Jobs.delayMs q))) s =
                 (Throw e, interfere env (record (Called (LaunchPersistentContext BATCH_SESSION_DIR))
                             (interfere env (record (Called (Mkdir BATCH_SESSION_DIR)) s))))).
  { unfold sendBatch. unfold bind at 1.
    rewrite (getContext_fails env BATCH_SESSION_DIR e s Hmk Hl). reflexivity. }
  rewrite Hout in *. cbn [fst snd] in *.
  set (job := {| Jobs.id := jobId; Jobs.status := Jobs.Running; Jobs.total := length batch;
                 Jobs.done := 0; Jobs.ok := 0; Jobs.failed := 0; Jobs.events := [];
                 Jobs.startedAt := clock env (history s); Jobs.finishedAt := None |}) in *.
  assert (Hcalls : callsOf (history (interfere env (record (Called (LaunchPersistentContext BATCH_SESSION_DIR))
                             (interfere env (record (Called (Mkdir BATCH_SESSION_DIR)) s))))) =
                   callsOf (history s)
                     ++ [Mkdir BATCH_SESSION_DIR; LaunchPersistentContext BATCH_SESSION_DIR]).
  { rewrite interfere_calls, record_calls, interfere_calls, record_calls, <- app_assoc.
    reflexivity. }
  assert (Hnone : progressOf segment = []).
  { pose proof (f_equal progressOf Hseg) as Hp. rewrite progressOf_app in Hp.
    rewrite interfere_progress in Hp.
    rewrite (sameProgress_called _ _) in Hp. rewrite interfere_progress in Hp.
    rewrite (sameProgress_called _ _) in Hp.
    rewrite <- (app_nil_r (progressOf (history s))) in Hp at 1.
    now apply app_inv_head in Hp. }
  destruct (replay_run env segment (history s) job [] eq_refl) as (He & Hd & _).
  destruct (stamped_progress env segment (history s)) as (Hsl & _).
  rewrite Hnone in Hsl. cbn [length] in Hsl.
  apply length_zero_iff_nil in Hsl. rewrite Hsl in He, Hd.
  eexists jobId, _, _, _. split; [reflexivity|].
  split; [unfold Jobs.jobRoute; cbn [Jobs.jobs]; apply lookup_insert_eq|].
  cbn [Jobs.fail Jobs.status Jobs.finishedAt Jobs.done Jobs.events].
  rewrite He, Hd. repeat split. exact Hcalls.
Qed.

(** X8. A row of the preview passes the schema of [POST /api/send] exactly
    when its phone has at least five digits.  The preview itself accepts
    any phone with a digit; a request that holds a preview row with fewer
    than five is refused as a whole, with no job and no browser call. *)
Theorem preview_rows_and_the_send_schema idx r row :
  Csv.readRecord idx r = inl row ->
  let sent := mkRow (Csv.p_phone row) (Csv.p_message row) (Csv.p_name row) in
  (validRow sent = true <-> (5 <= length (Csv.p_phone row))%nat) /\
  ((length (Csv.p_phone row) < 5)%nat ->
   forall env random q batch sv,
     Jobs.rows q = Some batch -> sent ∈ batch ->
     Jobs.sendRoute env random q sv = (Jobs.Invalid, sv)).
Proof.
  intros Hrow sent.
  assert (Hm : (1 <= length (Csv.p_message row))%nat).
  { unfold Csv.readRecord, Csv.RowSchema in Hrow.
    destruct (1 <=? length (Csv.normalizePhone _))%nat; [|discriminate Hrow].
    destruct (1 <=? length (default [] (Csv.firstDefined r Csv.messageKeys)))%nat eqn:E;
      [|discriminate Hrow].
    cbn [app] in Hrow. injection Hrow as <-. cbn [Csv.p_message].
    now apply Nat.leb_le in E. }
  assert (Hv : validRow sent = true <-> (5 <= length (Csv.p_phone row))%nat).
  { unfold validRow, sent. cbn [phone message].
    rewrite andb_true_iff, !Nat.leb_le. split; [now intros [? _]|now split]. }
  split; [exact Hv|].
  intros Hshort env random q batch sv Hb Hin.
  unfold Jobs.sendRoute.
  assert (Hq : Jobs.SendRequestSchema q = false).
  { unfold Jobs.SendRequestSchema. rewrite Hb.
    apply andb_false_iff. left. apply not_true_is_false. intros Hall.
    rewrite forallb_forall in Hall. apply list_elem_of_In in Hin.
    specialize (Hall sent Hin). apply Hv in Hall. lia. }
  rewrite Hq. reflexivity.
Qed.

(** * The monitor routes of server.js *)

Lemma monitorStopRoute_run env s m c :
  monitorHandle s = Some m ->
  monitors s !! m = Some c ->
  monitorStopRoute env s =
    (match settle env (history s) (ContextClose (context c)) with
     | Hangs => Pending
     | _ => Ok (Success false)
     end, afterStop env m s).
Proof.
  intros Hh Hc. unfold monitorStopRoute, bind, gets. cbn [fst snd]. rewrite Hh.
  unfold afterStop, tryCatch, stop, bind, modify, gets, callAs, ret.
  cbn [monitors updateMonitor withMonitors history].
  rewrite list_lookup_alter_eq, Hc. cbn [fmap option_fmap option_map].
  change (context (halted c)) with (context c).
  unfold tryCatch. cbn [history updateMonitor withMonitors].
  destruct (settle env (history s) (ContextClose (context c))); reflexivity.
Qed.

Lemma afterStop_cell env m c s :
  monitors s !! m = Some c ->
  monitors (afterStop env m s) !! m = Some (halted c).
Proof.
  intros Hc. unfold afterStop. rewrite Hc.
  destruct (settle env (history s) (ContextClose (context c)));
    cbn [monitors withMonitorHandle record withHistory updateMonitor withMonitors];
    now rewrite list_lookup_alter_eq, Hc.
Qed.

(** X10. [POST /api/monitor/stop] without a monitor answers [not running]
    and changes nothing.  With one, it never answers 500, whatever closing
    the browser does: the monitor is marked stopped and not running and
    keeps its click count, and once the close has settled the answer is
    [ok], the handle is dropped, the status route reports the idle
    defaults (zero clicks included) and a second stop finds nothing
    running. *)
Theorem monitorStopRoute_stops env s :
  (monitorHandle s = None -> monitorStopRoute env s = (Ok NotRunning, s)) /\
  (forall m c,
     monitorHandle s = Some m ->
     monitors s !! m = Some c ->
     let out := monitorStopRoute env s in
     (forall msg, fst out <> Ok (Failure msg)) /\
     (forall e, fst out <> Throw e) /\
     isStopped m (snd out) = true /\
     isRunning m (snd out) = false /\
     clicksOf m (snd out) = clicksOf m s /\
     (settle env (history s) (ContextClose (context c)) <> Hangs ->
      fst out = Ok (Success false) /\
      monitorHandle (snd out) = None /\
      fst (monitorStatusRoute (snd out)) = Ok (Some (mkStats false 0 None None)) /\
      monitorStopRoute env (snd out) = (Ok NotRunning, snd out))).
Proof.
  split.
  { intros Hh. unfold monitorStopRoute, bind, gets. cbn [fst snd]. now rewrite Hh. }
  intros m c Hh Hc out. subst out.
  rewrite (monitorStopRoute_run env s m c Hh Hc). cbn [fst snd].
  pose proof (afterStop_cell env m c s Hc) as Hcell.
  assert (Hhandle : settle env (history s) (ContextClose (context c)) <> Hangs ->
                    monitorHandle (afterStop env m s) = None).
  { intros Hs. unfold afterStop. rewrite Hc.
    destruct (settle env (history s) (ContextClose (context c))); [reflexivity..|contradiction]. }
  repeat split.
  - intros msg. destruct (settle env (history s) (ContextClose (context c))); discriminate.
  - intros e. destruct (settle env (history s) (ContextClose (context c))); discriminate.
  - unfold isStopped. now rewrite Hcell.
  - unfold isRunning. now rewrite Hcell.
  - unfold clicksOf. now rewrite Hcell, Hc.
  - destruct (settle env (history s) (ContextClose (context c))); [reflexivity..|contradiction].
  - now apply Hhandle.
  - unfold monitorStatusRoute, bind, gets. cbn [fst snd]. now rewrite (Hhandle H).
  - unfold monitorStopRoute, bind, gets. cbn [fst snd]. now rewrite (Hhandle H).
Qed.

Lemma afterStop_length env m s :
  length (monitors (afterStop env m s)) = length (monitors s).
Proof.
  unfold afterStop. destruct (monitors s !! m) as [c|]; [|reflexivity].
  destruct (settle env (history s) (ContextClose (context c)));
    cbn [monitors withMonitorHandle record withHistory updateMonitor withMonitors];
    apply length_alter.
Qed.

Lemma afterStop_handle env m s :
  monitorHandle s = Some m ->
  monitorHandle (afterStop env m s) = Some m \/ monitorHandle (afterStop env m s) = None.
Proof.
  intros Hh. unfold afterStop. destruct (monitors s !! m) as [c|]; [|now right].
  destruct (settle env (history s) (ContextClose (context c))); cbn; auto.
Qed.

Lemma afterStop_other env m m' s :
  m <> m' -> monitors (afterStop env m s) !! m' = monitors s !! m'.
Proof.
  intros Hne. unfold afterStop. destruct (monitors s !! m) as [c|]; [|reflexivity].
  destruct (settle env (history s) (ContextClose (context c)));
    cbn [monitors withMonitorHandle record withHistory updateMonitor withMonitors];
    now rewrite list_lookup_alter_ne.
Qed.

Lemma sameMonitors_interfere env s : sameMonitors s (interfere env s).
Proof.
  rewrite interfere_run.
  destruct (stopRequested env (history s)); [|now split].
  destruct (monitorHandle s) as [m|] eqn:Hh; [|now split].
  split; [apply afterStop_length|].
  intros Hr m' Hm'. rewrite afterStop_length.
  destruct (afterStop_handle env m s Hh) as [H|H]; rewrite H in Hm'; [|discriminate].
  injection Hm' as <-. now apply Hr.
Qed.

Lemma untouched_interfere env m s : untouched m s (interfere env s).
Proof.
  intros Hne. rewrite interfere_run.
  destruct (stopRequested env (history s)); [|now split].
  destruct (monitorHandle s) as [h|] eqn:Hh; [|split; [reflexivity|congruence]].
  split; [apply afterStop_other; congruence|].
  destruct (afterStop_handle env h s Hh) as [H|H]; rewrite H; congruence.
Qed.

Lemma sameMonitors_trans a b c : sameMonitors a b -> sameMonitors b c -> sameMonitors a c.
Proof. intros [H1 H2] [H3 H4]. split; [congruence|auto]. Qed.

Lemma untouched_trans m a b c : untouched m a b -> untouched m b c -> untouched m a c.
Proof.
  intros H1 H2 Ha. destruct (H1 Ha) as [Hb Hb']. destruct (H2 Hb') as [Hc Hc'].
  split; [congruence|assumption].
Qed.

Lemma handleKept_trans a b c : handleKept a b -> handleKept b c -> handleKept a c.
Proof. unfold handleKept. intros [H1|H1] [H2|H2]; rewrite ?H2, ?H1; auto. Qed.

Lemma handleKept_interfere env s : handleKept s (interfere env s).
Proof.
  unfold handleKept. rewrite interfere_run.
  destruct (stopRequested env (history s)); [|now left].
  destruct (monitorHandle s) as [h|] eqn:Hh; [|now left].
  destruct (afterStop_handle env h s Hh); auto.
Qed.

(** [startMonitor] once the session directory, the browser and the page
    are there: the monitor is created and the readiness wait begins. *)
Lemma startMonitor_opened env rows delayMs onEvent s :
  resolves env (Mkdir MONITOR_SESSION_DIR) ->
  resolves env (LaunchPersistentContext MONITOR_SESSION_DIR) ->
  (forall context, resolves env (NewPage context)) ->
  let page := S (created s) in
  let m := length (monitors s) in
  exists s3,
    startMonitor env rows delayMs onEvent s =
      (waitForReady env page;;
       task <- startLoop env m page rows (default 4000 delayMs) onEvent;;
       ret (m, task)) s3 /\
    callsOf (history s3) =
      callsOf (history s)
        ++ [Mkdir MONITOR_SESSION_DIR; LaunchPersistentContext MONITOR_SESSION_DIR;
            NewPage (created s)] /\
    lastPage s3 = Some page /\
    monitors s3 !! m = Some {| stats := mkStats true 0 None None; stopped := false;
                               context := created s |} /\
    length (monitors s3) = S m /\
    (monitorHandle s3 = monitorHandle s \/ monitorHandle s3 = None) /\
    (handleInRange s -> monitorHandle s3 <> Some m) /\
    (forall m', eventsOf m' (history s3) = eventsOf m' (history s)).
Proof.
  intros Hmk Hl Hn page m.
  destruct (openPage_run env MONITOR_SESSION_DIR s Hmk Hl Hn)
    as (sa & s2 & Hc1 & Hc2 & Hcalls).
  assert (Hrefl : forall s, sameMonitors s s) by (now split).
  assert (Hrec : forall c s, sameMonitors s (record (Called c) s)) by (now split).
  assert (Hcre : forall n s, sameMonitors s (withCreated n s)) by (now split).
  pose proof (steps_getContext env sameMonitors Hrefl sameMonitors_trans
                (sameMonitors_interfere env) Hrec Hcre MONITOR_SESSION_DIR s) as Ha.
  rewrite Hc1 in Ha. cbn [snd] in Ha.
  pose proof (steps_create env sameMonitors Hrefl sameMonitors_trans
                (sameMonitors_interfere env) Hrec Hcre (NewPage (created s)) sa) as Hb.
  change (create env (NewPage (created s))) with (newPage env (created s)) in Hb.
  rewrite Hc2 in Hb. cbn [snd] in Hb.
  destruct (sameMonitors_trans _ _ _ Ha Hb) as [Hlen Hrange].
  assert (Hhandle : handleKept s s2).
  { assert (Hkrefl : forall s, handleKept s s) by (now left).
    assert (Hkrec : forall c s, handleKept s (record (Called c) s)) by (now left).
    assert (Hkcre : forall n s, handleKept s (withCreated n s)) by (now left).
    pose proof (steps_getContext env handleKept Hkrefl handleKept_trans
                  (handleKept_interfere env) Hkrec Hkcre MONITOR_SESSION_DIR s) as Ha'.
    rewrite Hc1 in Ha'. cbn [snd] in Ha'.
    pose proof (steps_create env handleKept Hkrefl handleKept_trans
                  (handleKept_interfere env) Hkrec Hkcre (NewPage (created s)) sa) as Hb'.
    change (create env (NewPage (created s))) with (newPage env (created s)) in Hb'.
    rewrite Hc2 in Hb'. cbn [snd] in Hb'.
    exact (handleKept_trans _ _ _ Ha' Hb'). }
  assert (Hevents : forall m', eventsOf m' (history s2) = eventsOf m' (history s)).
  { intros m'.
    set (R := fun a b : Store => eventsOf m' (history b) = eventsOf m' (history a)).
    assert (Herefl : forall s, R s s) by reflexivity.
    assert (Hetrans : forall a b c, R a b -> R b c -> R a c)
      by (unfold R; intros; congruence).
    assert (Heint : forall s, R s (interfere env s)) by (intros; apply interfere_events).
    assert (Herec : forall c s, R s (record (Called c) s)).
    { intros c s0. unfold R. cbn [history record withHistory].
      rewrite eventsOf_app. apply app_nil_r. }
    assert (Hecre : forall n s, R s (withCreated n s)) by reflexivity.
    pose proof (steps_getContext env R Herefl Hetrans Heint Herec Hecre
                  MONITOR_SESSION_DIR s) as Ha'.
    rewrite Hc1 in Ha'. cbn [snd] in Ha'.
    pose proof (steps_create env R Herefl Hetrans Heint Herec Hecre
                  (NewPage (created s)) sa) as Hb'.
    change (create env (NewPage (created s))) with (newPage env (created s)) in Hb'.
    rewrite Hc2 in Hb'. cbn [snd] in Hb'.
    exact (Hetrans _ _ _ Ha' Hb'). }
  exists (withMonitors
            (monitors s2 ++ [ {| stats := mkStats true 0 None None; stopped := false;
                                 context := created s |} ])
            (withLastPage (Some page) s2)).
  split.
  { unfold startMonitor. cbn zeta. unfold bind at 1. rewrite Hc1.
    unfold bind at 1. rewrite Hc2.
    unfold bind at 1, modify at 1. unfold bind at 1, newMonitor at 1.
    unfold bind at 1, gets at 1. cbn [monitors withLastPage].
    unfold bind at 1, modify at 1. unfold ret at 1.
    subst m. rewrite <- Hlen. reflexivity. }
  cbn [history lastPage monitors monitorHandle withMonitors withLastPage].
  split; [exact Hcalls|]. split; [reflexivity|]. split.
  { subst m. rewrite <- Hlen. rewrite lookup_app_r by lia.
    now rewrite Nat.sub_diag. }
  split; [rewrite length_app, Hlen; cbn; subst m; lia|].
  split; [exact Hhandle|].
  split; [|exact Hevents].
  intros Hr Hm. specialize (Hrange Hr _ Hm). subst m. lia.
Qed.

Lemma untouched_waitForReady env m page s :
  untouched m s (snd (waitForReady env page s)).
Proof.
  apply (steps_waitForReady env (untouched m) (untouched_trans m) (untouched_interfere env m)).
  intros c s0 Hne. now split.
Qed.

(** X12. A start that fails after the browser was launched: when the first
    navigation rejects, [POST /api/monitor/start] answers 500 with the
    error text and leaves no task, and no monitor is registered.  But the
    engine has issued no [context.close()]: the browser it launched stays
    open, and [lastPage] now names its page, so that the screenshot route
    shows the session of the failed start. *)
Theorem monitorStartRoute_failed_start env q s e :
  resolves env (Mkdir MONITOR_SESSION_DIR) ->
  resolves env (LaunchPersistentContext MONITOR_SESSION_DIR) ->
  (forall context, resolves env (NewPage context)) ->
  (forall h page, settle env h (Goto page (lit "https://web.whatsapp.com/")) = Rejects e) ->
  MonitorStartSchema q = true ->
  monitorActive s = false ->
  let page := S (created s) in
  exists s',
    monitorStartRoute env q s = (Ok (Failure (errorText e), None), s') /\
    callsOf (history s') =
      callsOf (history s)
        ++ [Mkdir MONITOR_SESSION_DIR; LaunchPersistentContext MONITOR_SESSION_DIR;
            NewPage (created s); Goto page (lit "https://web.whatsapp.com/")] /\
    lastPage s' = Some page /\
    handleKept s s' /\
    length (monitors s') = S (length (monitors s)).
Proof.
  intros Hmk Hl Hn Hg Hq Hidle page.
  destruct (startMonitor_opened env (req_rows q) (Some (default 4000 (req_delayMs q))) true s
              Hmk Hl Hn) as (s3 & Hstart & Hcalls & Hpage & _ & Hlen & Hkept & _).
  fold page in Hstart, Hpage.
  assert (Hw : waitForReady env page s3 =
               (Throw e, interfere env
                           (record (Called (Goto page (lit "https://web.whatsapp.com/"))) s3))).
  { unfold waitForReady. unfold bind at 1. rewrite await_run, Hg. reflexivity. }
  unfold monitorStartRoute. unfold bind at 1, gets at 1. rewrite Hidle, Hq. cbn [negb].
  unfold tryCatch, bind at 1. rewrite Hstart. unfold bind at 1. rewrite Hw.
  eexists. split; [reflexivity|].
  split; [rewrite interfere_calls, record_calls, Hcalls, <- app_assoc; reflexivity|].
  split; [rewrite interfere_lastPage; exact Hpage|].
  split.
  - eapply handleKept_trans; [exact Hkept|].
    eapply handleKept_trans; [|apply handleKept_interfere]. now left.
  - destruct (sameMonitors_interfere env
                (record (Called (Goto page (lit "https://web.whatsapp.com/"))) s3)) as [H _].
    rewrite H. exact Hlen.
Qed.

(** X13. [GET /api/screenshot] never answers 500: it answers 404 when no
    monitor page was stored, when the stored page is closed and when the
    screenshot itself is refused, and the image otherwise.  A batch never
    stores its page, so that after any batch the route answers as it did
    before: from a server that has only run batches, always 404. *)
Theorem screenshotRoute_never_fails env s :
  (forall msg, fst (screenshotRoute env s) <> Ok (ScreenshotFailed msg)) /\
  (forall e, fst (screenshotRoute env s) <> Throw e) /\
  (lastPage s = None -> screenshotRoute env s = (Ok NoSession, s)) /\
  (forall page,
     lastPage s = Some page ->
     fst (screenshotRoute env s) =
       if isClosed env (history s) page then Ok NoSession
       else match settle env (history s) (Screenshot page) with
            | Resolves => Ok (Image (png env (history s ++ [Called (Screenshot page)]) page))
            | Rejects _ => Ok NoSession
            | Hangs => Pending
            end) /\
  (forall rows onProgress delayMs,
     lastPage (snd (sendBatch env rows onProgress delayMs s)) = lastPage s).
Proof.
  assert (Hnone : lastPage s = None -> screenshotRoute env s = (Ok NoSession, s)).
  { intros Hp. unfold screenshotRoute, tryCatch, bind, getScreenshot, bind, gets.
    now rewrite Hp. }
  assert (Hsome : forall page,
     lastPage s = Some page ->
     fst (screenshotRoute env s) =
       if isClosed env (history s) page then Ok NoSession
       else match settle env (history s) (Screenshot page) with
            | Resolves => Ok (Image (png env (history s ++ [Called (Screenshot page)]) page))
            | Rejects _ => Ok NoSession
            | Hangs => Pending
            end).
  { intros page Hp. unfold screenshotRoute, tryCatch, bind, getScreenshot, bind, gets.
    rewrite Hp. destruct (isClosed env (history s) page); [reflexivity|].
    unfold tryCatch, awaiting, bind, call, callAs, gets, ret.
    destruct (settle env (history s) (Screenshot page)); reflexivity. }
  split; [|split; [|split; [exact Hnone|split; [exact Hsome|]]]].
  - intros msg. destruct (lastPage s) as [page|] eqn:Hp.
    + rewrite (Hsome page eq_refl). destruct (isClosed env (history s) page); [discriminate|].
      destruct (settle env (history s) (Screenshot page)); discriminate.
    + rewrite (Hnone eq_refl). discriminate.
  - intros e. destruct (lastPage s) as [page|] eqn:Hp.
    + rewrite (Hsome page eq_refl). destruct (isClosed env (history s) page); [discriminate|].
      destruct (settle env (history s) (Screenshot page)); discriminate.
    + rewrite (Hnone eq_refl). discriminate.
  - intros rows onProgress delayMs.
    apply (steps_sendBatch env (fun a b => lastPage b = lastPage a)).
    + reflexivity.
    + intros a b c Hab Hbc. congruence.
    + apply interfere_lastPage.
    + reflexivity.
    + reflexivity.
Qed.

(** * The click ladder of waSender.js *)

Lemma tryDirect_some doc sels el :
  Ladder.tryDirect doc sels = Some el ->
  Dom.hasOffsetParent doc el = true /\
  exists sel, In sel sels /\ Dom.querySelector sel doc = Some el.
Proof.
  induction sels as [|sel rest IH]; cbn [Ladder.tryDirect]; [discriminate|].
  destruct (Dom.querySelector sel doc) as [el'|] eqn:E.
  - destruct (Dom.hasOffsetParent doc el') eqn:Ev.
    + intros [= <-]. split; [exact Ev|]. exists sel. split; [now left|exact E].
    + intros H. destruct (IH H) as (Hv & sel' & Hin & Hq).
      split; [exact Hv|]. exists sel'. split; [now right|exact Hq].
  - intros H. destruct (IH H) as (Hv & sel' & Hin & Hq).
    split; [exact Hv|]. exists sel'. split; [now right|exact Hq].
Qed.

Lemma tryDirect_none_inv doc sels :
  Ladder.tryDirect doc sels = None ->
  forall sel el, In sel sels -> Dom.querySelector sel doc = Some el ->
                 Dom.hasOffsetParent doc el = false.
Proof.
  induction sels as [|sel rest IH]; cbn [Ladder.tryDirect]; intros H sel' el Hin Hq;
    [destruct Hin|].
  destruct Hin as [<-|Hin].
  - rewrite Hq in H. destruct (Dom.hasOffsetParent doc el); [discriminate|reflexivity].
  - apply (IH) with (sel := sel'); [|exact Hin|exact Hq].
    destruct (Dom.querySelector sel doc) as [el'|]; [|exact H].
    destruct (Dom.hasOffsetParent doc el'); [discriminate|exact H].
Qed.

Lemma tryIcons_some_inv doc spans btn :
  Ladder.tryIcons doc spans = Some btn ->
  exists span, In span spans /\ Dom.closest doc Ladder.button span = Some btn /\
               Dom.hasOffsetParent doc btn = true.
Proof.
  induction spans as [|sp rest IH]; cbn [Ladder.tryIcons]; [discriminate|].
  destruct (Dom.closest doc Ladder.button sp) as [b|] eqn:Eb.
  - destruct (Dom.hasOffsetParent doc b) eqn:Ev.
    + intros [= <-]. exists sp. repeat split; [now left|assumption..].
    + intros H. destruct (IH H) as (span & Hin & Hc & Hv). exists span.
      repeat split; [now right|assumption..].
  - intros H. destruct (IH H) as (span & Hin & Hc & Hv). exists span.
    repeat split; [now right|assumption..].
Qed.

Lemma tryIcons_none_inv doc spans :
  Ladder.tryIcons doc spans = None ->
  forall span btn, In span spans -> Dom.closest doc Ladder.button span = Some btn ->
                   Dom.hasOffsetParent doc btn = false.
Proof.
  intros H span btn Hin Hc.
  destruct (Dom.hasOffsetParent doc btn) eqn:Ev; [|reflexivity].
  destruct (tryIcons_some doc spans) as (span' & btn' & Hrun & _); [eauto|].
  congruence.
Qed.

Lemma tryLabels_some doc btns btn :
  Ladder.tryLabels doc btns = Some btn ->
  In btn btns /\
  Dom.includes "send" (Dom.toLowerCase (Ladder.ariaLabel doc btn)) = true /\
  Dom.hasOffsetParent doc btn = true.
Proof.
  induction btns as [|b rest IH]; cbn [Ladder.tryLabels]; [discriminate|].
  destruct (Dom.includes "send" (Dom.toLowerCase (Ladder.ariaLabel doc b))
            && Dom.hasOffsetParent doc b) eqn:E.
  - intros [= <-]. apply andb_true_iff in E as [E1 E2]. repeat split; [now left|assumption..].
  - intros H. destruct (IH H) as (Hin & Hl & Hv). repeat split; [now right|assumption..].
Qed.

Lemma tryLabels_none doc btns :
  Ladder.tryLabels doc btns = None <->
  forall btn, In btn btns ->
    Dom.includes "send" (Dom.toLowerCase (Ladder.ariaLabel doc btn)) = true ->
    Dom.hasOffsetParent doc btn = false.
Proof.
  induction btns as [|b rest IH]; cbn [Ladder.tryLabels].
  { split; [intros _ btn []|reflexivity]. }
  destruct (Dom.includes "send" (Dom.toLowerCase (Ladder.ariaLabel doc b))) eqn:El;
    cbn [andb].
  - destruct (Dom.hasOffsetParent doc b) eqn:Ev.
    + split; [discriminate|]. intros H. specialize (H b (or_introl eq_refl) El). congruence.
    + rewrite IH. split.
      * intros H btn [<-|Hin] Hl; [exact Ev|now apply H].
      * intros H btn Hin. apply H. now right.
  - rewrite IH. split.
    + intros H btn [<-|Hin] Hl; [congruence|now apply H].
    + intros H btn Hin. apply H. now right.
Qed.

(** X14. The in-page script of [trySendClick] only ever clicks an element
    with an offset parent, and that element is the first match of a direct
    selector, the button around a send icon, or a button whose label
    contains "send".  It reports that it clicked nothing exactly when none
    of the three is there: every first match of a direct selector, every
    button around a send icon and every button labelled "send" lacks an
    offset parent. *)
Theorem script_clicks_what_is_rendered doc :
  (forall el,
     Ladder.script doc = Some el ->
     Dom.hasOffsetParent doc el = true /\
     (directMatch doc el \/ (exists span, iconButton doc span el) \/ labelledSend doc el)) /\
  (Ladder.script doc = None <->
   noDirectMatch doc /\
   (forall span btn, ~ iconButton doc span btn) /\
   (forall btn, labelledSend doc btn -> Dom.hasOffsetParent doc btn = false)).
Proof.
  split.
  - intros el. unfold Ladder.script.
    destruct (Ladder.tryDirect doc Ladder.selectors) as [d|] eqn:Ed.
    { intros [= <-]. destruct (tryDirect_some _ _ _ Ed) as [Hv Hsel]. split; [exact Hv|now left]. }
    destruct (Ladder.tryIcons doc (Dom.querySelectorAll Ladder.sendIcon doc)) as [b|] eqn:Ei.
    { intros [= <-]. destruct (tryIcons_some_inv _ _ _ Ei) as (span & Hin & Hc & Hv).
      split; [exact Hv|]. right. left. exists span. repeat split; assumption. }
    intros Hl. destruct (tryLabels_some _ _ _ Hl) as (Hin & Hlab & Hv).
    split; [exact Hv|]. right. right. split; assumption.
  - unfold Ladder.script. split.
    + destruct (Ladder.tryDirect doc Ladder.selectors) as [d|] eqn:Ed; [discriminate|].
      destruct (Ladder.tryIcons doc (Dom.querySelectorAll Ladder.sendIcon doc)) as [b|] eqn:Ei;
        [discriminate|].
      intros Hl. split; [exact (tryDirect_none_inv _ _ Ed)|]. split.
      * intros span btn (Hin & Hc & Hv).
        rewrite (tryIcons_none_inv _ _ Ei span btn Hin Hc) in Hv. discriminate.
      * intros btn [Hin Hlab]. exact (proj1 (tryLabels_none _ _) Hl btn Hin Hlab).
    + intros (Hd & Hi & Hl). rewrite (tryDirect_none _ _ Hd).
      destruct (Ladder.tryIcons doc (Dom.querySelectorAll Ladder.sendIcon doc)) as [b|] eqn:Ei.
      { destruct (tryIcons_some_inv _ _ _ Ei) as (span & Hin & Hc & Hv).
        exfalso. apply (Hi span b). repeat split; assumption. }
      apply tryLabels_none. intros btn Hin Hlab. apply Hl. split; assumption.
Qed.

Lemma clickedOf_app h1 h2 : clickedOf (h1 ++ h2) = clickedOf h1 ++ clickedOf h2.
Proof. apply omap_app. Qed.

Lemma interfere_clicked env s : clickedOf (history (interfere env s)) = clickedOf (history s).
Proof.
  destruct (interfere_history env s) as [->|[m ->]]; [reflexivity|].
  rewrite clickedOf_app. apply app_nil_r.
Qed.

Lemma record_called_clicked c s :
  clickedOf (history (record (Called c) s)) = clickedOf (history s).
Proof. cbn. rewrite clickedOf_app. apply app_nil_r. Qed.

Lemma tryLocators_never_rejects env page sels :
  forall s e, fst (tryLocators env page sels s) <> Throw e.
Proof.
  induction sels as [|sel rest IH]; intros s e; cbn [tryLocators]; [discriminate|].
  rewrite bind_run, tryCatch_run.
  destruct (fst (_ s)) as [[|]|e'|]; cbn [fst snd ret]; try discriminate; apply IH.
Qed.

Lemma tryLocators_clicked env page sels s :
  clickedOf (history (snd (tryLocators env page sels s))) = clickedOf (history s).
Proof.
  apply (steps_tryLocators env (fun a b => clickedOf (history b) = clickedOf (history a))).
  - reflexivity.
  - intros a b c Hab Hbc. congruence.
  - apply interfere_clicked.
  - intros; apply record_called_clicked.
  - intros; apply record_called_clicked.
Qed.

(** X15. One pass of [trySendClick] rejects exactly when the evaluation of
    the in-page script rejects, with that error: whatever goes wrong with
    the locators is swallowed.  When the script finds an element, the pass
    clicks it, once, answers true and touches no locator; in every other
    case the pass makes no click inside the page. *)
Theorem trySendClick_outcomes env page s :
  let out := trySendClick env page s in
  let evaluated := history s ++ [Called (Evaluate page LadderScript)] in
  (forall e, fst out = Throw e <->
             settle env (history s) (Evaluate page LadderScript) = Rejects e) /\
  (forall el,
     settle env (history s) (Evaluate page LadderScript) = Resolves ->
     Ladder.script (dom env evaluated page) = Some el ->
     fst out = Ok true /\
     clickedOf (history (snd out)) = clickedOf (history s) ++ [(page, el)] /\
     callsOf (history (snd out)) = callsOf (history s) ++ [Evaluate page LadderScript]) /\
  (settle env (history s) (Evaluate page LadderScript) <> Resolves \/
   Ladder.script (dom env evaluated page) = None ->
   clickedOf (history (snd out)) = clickedOf (history s)).
Proof.
  cbn zeta. unfold trySendClick. rewrite bind_run, evaluateLadder_run. cbn zeta.
  change (history (record (Called (Evaluate page LadderScript)) s))
    with (history s ++ [Called (Evaluate page LadderScript)]).
  set (s1 := record (Called (Evaluate page LadderScript)) s).
  assert (H1 : clickedOf (history s1) = clickedOf (history s))
    by apply record_called_clicked.
  destruct (settle env (history s) (Evaluate page LadderScript)) as [|e0|] eqn:Es;
    cbn [fst snd].
  - destruct (Ladder.script (dom env (history s ++ [Called (Evaluate page LadderScript)]) page))
      as [el0|] eqn:El; cbn [fst snd ret].
    + split; [intros e; split; discriminate|]. split.
      * intros el _ [= <-]. split; [reflexivity|]. split.
        -- rewrite interfere_clicked.
           change (history (record (Clicked page el0) s1))
             with (history s1 ++ [Clicked page el0]).
           rewrite clickedOf_app, H1. reflexivity.
        -- rewrite interfere_calls.
           change (history (record (Clicked page el0) s1))
             with (history s1 ++ [Clicked page el0]).
           rewrite callsOf_app. cbn [callsOf omap list_omap isCalled].
           rewrite app_nil_r. apply record_calls.
      * intros [H|H]; [contradiction|discriminate].
    + split.
      { intros e. split; [|discriminate].
        intros H. exfalso. exact (tryLocators_never_rejects _ _ _ _ _ H). }
      split; [intros el _ [=]|].
      intros _. rewrite tryLocators_clicked, interfere_clicked. exact H1.
  - split; [intros e; split; congruence|].
    split; [intros el [=]|]. intros _. rewrite interfere_clicked. exact H1.
  - split; [intros e; split; discriminate|].
    split; [intros el [=]|]. intros _. rewrite interfere_clicked. exact H1.
Qed.

(** * sendSingle *)

Lemma trySendClick_clicked env page s :
  (fst (trySendClick env page s) <> Ok true /\
   clickedOf (history (snd (trySendClick env page s))) = clickedOf (history s)) \/
  (fst (trySendClick env page s) = Ok true /\
   (length (clickedOf (history (snd (trySendClick env page s))))
      <= S (length (clickedOf (history s))))%nat).
Proof.
  unfold trySendClick. rewrite bind_run, evaluateLadder_run. cbn zeta.
  set (s1 := record (Called (Evaluate page LadderScript)) s).
  assert (H1 : clickedOf (history s1) = clickedOf (history s))
    by apply record_called_clicked.
  destruct (settle env (history s) (Evaluate page LadderScript)); cbn [fst snd].
  - destruct (Ladder.script (dom env (history s1) page)) as [el|]; cbn [fst snd ret].
    + right. split; [reflexivity|]. rewrite interfere_clicked.
      change (history (record (Clicked page el) s1)) with (history s1 ++ [Clicked page el]).
      rewrite clickedOf_app, H1, length_app. cbn. lia.
    + pose proof (tryLocators_clicked env page playwrightSelectors (interfere env s1)) as Hl.
      rewrite interfere_clicked, H1 in Hl.
      destruct (fst (tryLocators env page playwrightSelectors (interfere env s1)))
        as [[|]|e|] eqn:E.
      * right. split; [reflexivity|]. rewrite Hl. lia.
      * left. split; [discriminate|exact Hl].
      * left. split; [discriminate|exact Hl].
      * left. split; [discriminate|exact Hl].
  - left. split; [discriminate|]. rewrite interfere_clicked. exact H1.
  - left. split; [discriminate|]. rewrite interfere_clicked. exact H1.
Qed.

Lemma count_app f l1 l2 : count f (l1 ++ l2) = (count f l1 + count f l2)%nat.
Proof. unfold count. rewrite filter_app. apply length_app. Qed.

Lemma count_locators f locators :
  (forall c, isLocatorCall c = true -> f c = false) ->
  forallb isLocatorCall locators = true -> count f locators = 0%nat.
Proof.
  intros Hf. induction locators as [|c l IH]; [reflexivity|].
  cbn [forallb]. intros [Hc Hl]%andb_true_iff.
  unfold count in *. rewrite filter_cons.
  destruct (decide (f c = true)) as [Hfc|]; [|now apply IH].
  rewrite (Hf c Hc) in Hfc. discriminate.
Qed.

Lemma press_not_locator key c : isLocatorCall c = true -> isPress key c = false.
Proof. destruct c; try discriminate; reflexivity. Qed.

Lemma pass_not_locator c : isLocatorCall c = true -> isLadderPass c = false.
Proof. destruct c; try discriminate; reflexivity. Qed.

(** The passes of [sendSingle]: at most [n], without any key press; when
    all of them answered false there were [n] of them and none clicked
    inside the page. *)
Lemma sendAttempts_passes env page n :
  forall s, exists l,
    callsOf (history (snd (sendAttempts env n page s))) = callsOf (history s) ++ l /\
    (forall key, count (isPress key) l = 0%nat) /\
    (count isLadderPass l <= n)%nat /\
    (length (clickedOf (history (snd (sendAttempts env n page s))))
       <= S (length (clickedOf (history s))))%nat /\
    (fst (sendAttempts env n page s) = Ok false ->
     count isLadderPass l = n /\
     clickedOf (history (snd (sendAttempts env n page s))) = clickedOf (history s)).
Proof.
  induction n as [|n IH]; intros s; cbn [sendAttempts].
  { exists []. cbn [ret fst snd]. rewrite app_nil_r. repeat split; auto. }
  rewrite bind_run.
  destruct (trySendClick_calls env page s) as (locators & Hl & Hloc).
  pose proof (trySendClick_clicked env page s) as Hc.
  assert (Hpress : forall key,
            count (isPress key) (Evaluate page LadderScript :: locators) = 0%nat).
  { intros key. change (Evaluate page LadderScript :: locators)
      with ([Evaluate page LadderScript] ++ locators).
    rewrite count_app, (count_locators _ _ (press_not_locator key) Hloc). reflexivity. }
  assert (Hpass : count isLadderPass (Evaluate page LadderScript :: locators) = 1%nat).
  { change (Evaluate page LadderScript :: locators)
      with ([Evaluate page LadderScript] ++ locators).
    rewrite count_app, (count_locators _ _ pass_not_locator Hloc). reflexivity. }
  destruct (trySendClick env page s) as [[[|]|e|] s1]; cbn [fst snd ret] in *.
  1,3,4: exists (Evaluate page LadderScript :: locators);
         (split; [exact Hl|]); (split; [exact Hpress|]); (split; [rewrite Hpass; lia|]);
         (split; [destruct Hc as [[_ Hc]|[_ Hc]]; [rewrite Hc|]; lia|discriminate]).
  destruct Hc as [[_ Hc]|[[=] _]].
  rewrite bind_run, sleep_run. cbn [fst snd].
  set (s2 := interfere env (record (Called (Sleep 1000)) s1)).
  assert (H2 : callsOf (history s2) = callsOf (history s1) ++ [Sleep 1000]).
  { subst s2. rewrite interfere_calls. apply record_calls. }
  assert (H2c : clickedOf (history s2) = clickedOf (history s)).
  { subst s2. rewrite interfere_clicked, record_called_clicked. exact Hc. }
  destruct (IH s2) as (rest & Hr & Hrp & Hrn & Hrc & Hrf).
  exists ((Evaluate page LadderScript :: locators) ++ [Sleep 1000] ++ rest).
  split; [rewrite Hr, H2, Hl, <- !app_assoc; reflexivity|].
  assert (Hz : count isLadderPass [Sleep 1000] = 0%nat) by reflexivity.
  assert (Hzp : forall key, count (isPress key) [Sleep 1000] = 0%nat) by reflexivity.
  split; [intros key; rewrite !count_app, Hpress, Hrp, Hzp; reflexivity|].
  split; [rewrite !count_app, Hpass, Hz; lia|].
  split; [rewrite <- H2c; exact Hrc|].
  intros Hf. destruct (Hrf Hf) as [Hn Hcl].
  split; [rewrite !count_app, Hpass, Hn, Hz; reflexivity|].
  rewrite Hcl. exact H2c.
Qed.

Lemma await_clicked env c s :
  clickedOf (history (snd (await env c s))) = clickedOf (history s).
Proof. rewrite await_run. cbn [snd]. rewrite interfere_clicked. apply record_called_clicked. Qed.

Lemma sleep_clicked env ms s :
  clickedOf (history (snd (sleep env ms s))) = clickedOf (history s).
Proof. rewrite sleep_run. cbn [snd]. rewrite interfere_clicked. apply record_called_clicked. Qed.

(** X16. Whatever the page does, [sendSingle] runs at most five passes of
    the click ladder, makes at most one click inside the page, presses no
    key but Enter and presses it at most once: only after five passes, and
    only when it has clicked nothing inside the page. *)
Theorem sendSingle_clicks_or_presses_Enter env page r s :
  let s' := snd (sendSingle env page r s) in
  exists l,
    callsOf (history s') = callsOf (history s) ++ l /\
    (count isLadderPass l <= 5)%nat /\
    (count (isPress "Enter") l <= 1)%nat /\
    (forall key, key <> "Enter"%string -> count (isPress key) l = 0%nat) /\
    (length (clickedOf (history s')) <= S (length (clickedOf (history s))))%nat /\
    (count (isPress "Enter") l = 1%nat ->
     count isLadderPass l = 5%nat /\ clickedOf (history s') = clickedOf (history s)).
Proof.
  assert (Hearly : forall (s' : Store) l,
            count isLadderPass l = 0%nat ->
            (forall key, count (isPress key) l = 0%nat) ->
            callsOf (history s') = callsOf (history s) ++ l ->
            clickedOf (history s') = clickedOf (history s) ->
            exists l,
              callsOf (history s') = callsOf (history s) ++ l /\
              (count isLadderPass l <= 5)%nat /\
              (count (isPress "Enter") l <= 1)%nat /\
              (forall key, key <> "Enter"%string -> count (isPress key) l = 0%nat) /\
              (length (clickedOf (history s')) <= S (length (clickedOf (history s))))%nat /\
              (count (isPress "Enter") l = 1%nat ->
               count isLadderPass l = 5%nat /\
               clickedOf (history s') = clickedOf (history s))).
  { intros s' l Hn Hp Hc Hk. exists l. rewrite Hn, Hp, Hk.
    repeat split; auto; try lia; discriminate. }
  cbn zeta. remember (sendSingle env page r s) as out eqn:Eout.
  unfold sendSingle in Eout. rewrite bind_run in Eout. unfold lift at 1 2 3 in Eout.
  cbn [fst snd] in Eout.
  destruct (buildWhatsAppUrl (phone r) (message r)) as [url|e|]; cbn [fst snd] in Eout.
  2,3: subst out; cbn [snd]; apply (Hearly s []);
       [reflexivity|reflexivity|now rewrite app_nil_r|reflexivity].
  rewrite bind_run in Eout.
  pose proof (await_calls env (Goto page url) s) as Hg.
  pose proof (await_clicked env (Goto page url) s) as Hgc.
  destruct (await env (Goto page url) s) as [[[]|e|] s1]; cbn [fst snd] in *.
  2,3: subst out; cbn [snd]; apply (Hearly s1 [Goto page url]);
       [reflexivity|reflexivity|exact Hg|exact Hgc].
  rewrite bind_run in Eout.
  pose proof (await_calls env (WaitForSelector page composer 60000) s1) as Hw.
  pose proof (await_clicked env (WaitForSelector page composer 60000) s1) as Hwc.
  rewrite Hg in Hw. rewrite Hgc in Hwc. rewrite <- app_assoc in Hw. cbn [app] in Hw.
  destruct (await env (WaitForSelector page composer 60000) s1) as [[[]|e|] s2];
    cbn [fst snd] in *.
  2,3: subst out; cbn [snd];
       apply (Hearly s2 [Goto page url; WaitForSelector page composer 60000]);
       [reflexivity|reflexivity|exact Hw|exact Hwc].
  rewrite bind_run, sleep_run in Eout. cbn [fst snd] in Eout.
  set (s3 := interfere env (record (Called (Sleep 2000)) s2)) in *.
  assert (H3 : callsOf (history s3) =
               callsOf (history s)
                 ++ [Goto page url; WaitForSelector page composer 60000; Sleep 2000]).
  { subst s3. rewrite interfere_calls, record_calls, Hw, <- app_assoc. reflexivity. }
  assert (H3c : clickedOf (history s3) = clickedOf (history s)).
  { subst s3. rewrite interfere_clicked, record_called_clicked. exact Hwc. }
  clearbody s3. clear Hg Hgc Hw Hwc s1 s2 Hearly.
  set (setup := [Goto page url; WaitForSelector page composer 60000; Sleep 2000]) in *.
  assert (Hsetup : count isLadderPass setup = 0%nat /\
                   forall key, count (isPress key) setup = 0%nat) by (split; reflexivity).
  destruct Hsetup as [Hs0 Hsp].
  rewrite bind_run in Eout.
  destruct (sendAttempts_passes env page 5 s3) as (passes & Hp & Hpp & Hpn & Hpc & Hpf).
  rewrite H3, <- app_assoc in Hp. rewrite H3c in Hpc.
  assert (Hstop : exists l,
            callsOf (history (snd (sendAttempts env 5 page s3))) = callsOf (history s) ++ l /\
            (count isLadderPass l <= 5)%nat /\
            (count (isPress "Enter") l <= 1)%nat /\
            (forall key, key <> "Enter"%string -> count (isPress key) l = 0%nat) /\
            (length (clickedOf (history (snd (sendAttempts env 5 page s3))))
               <= S (length (clickedOf (history s))))%nat /\
            (count (isPress "Enter") l = 1%nat ->
             count isLadderPass l = 5%nat /\
             clickedOf (history (snd (sendAttempts env 5 page s3))) = clickedOf (history s))).
  { exists (setup ++ passes). split; [exact Hp|].
    split; [rewrite count_app, Hs0; lia|].
    split; [rewrite count_app, Hsp, Hpp; lia|].
    split; [intros key _; rewrite count_app, Hsp, Hpp; reflexivity|].
    split; [exact Hpc|].
    rewrite count_app, Hsp, Hpp. discriminate. }
  destruct (fst (sendAttempts env 5 page s3)) as [[|]|e|] eqn:Ea; cbn [fst snd ret] in Eout;
    try (subst out; exact Hstop).
  clear Hstop. destruct (Hpf eq_refl) as [Hn Hcl]. rewrite H3c in Hcl.
  set (s4 := snd (sendAttempts env 5 page s3)) in *. clearbody s4.
  rewrite bind_run in Eout.
  pose proof (await_calls env (KeyboardPress page "Enter") s4) as Hk.
  pose proof (await_clicked env (KeyboardPress page "Enter") s4) as Hkc.
  rewrite Hp in Hk. rewrite Hcl in Hkc. rewrite <- !app_assoc in Hk.
  assert (Hone : count (isPress "Enter") [KeyboardPress page "Enter"] = 1%nat) by reflexivity.
  assert (Hother : forall key, key <> "Enter"%string ->
                     count (isPress key) [KeyboardPress page "Enter"] = 0%nat).
  { intros key Hne. unfold count. rewrite filter_cons. cbn [isPress].
    destruct (decide (("Enter" =? key)%string = true)) as [Heq|]; [|reflexivity].
    apply String.eqb_eq in Heq. congruence. }
  assert (Hkp : count isLadderPass [KeyboardPress page "Enter"] = 0%nat) by reflexivity.
  destruct (await env (KeyboardPress page "Enter") s4) as [[[]|e|] s5]; cbn [fst snd] in *.
  2,3: subst out; cbn [snd]; exists (setup ++ passes ++ [KeyboardPress page "Enter"]);
       (split; [exact Hk|]);
       (split; [rewrite !count_app, Hs0, Hn, Hkp; lia|]);
       (split; [rewrite !count_app, Hsp, Hpp, Hone; lia|]);
       (split; [intros key Hne; rewrite !count_app, Hsp, Hpp, (Hother key Hne); reflexivity|]);
       (split; [rewrite Hkc; lia|]);
       intros _; split; [rewrite !count_app, Hs0, Hn, Hkp; reflexivity|exact Hkc].
  rewrite sleep_run in Eout. subst out. cbn [snd].
  exists (setup ++ passes ++ [KeyboardPress page "Enter"] ++ [Sleep 1200]).
  assert (Hz : count isLadderPass [Sleep 1200] = 0%nat) by reflexivity.
  assert (Hzp : forall key, count (isPress key) [Sleep 1200] = 0%nat) by reflexivity.
  split; [rewrite interfere_calls, record_calls, Hk, <- !app_assoc; reflexivity|].
  split; [rewrite !count_app, Hs0, Hn, Hkp, Hz; lia|].
  split; [rewrite !count_app, Hsp, Hpp, Hone, Hzp; lia|].
  split; [intros key Hne; rewrite !count_app, Hsp, Hpp, (Hother key Hne), Hzp; reflexivity|].
  rewrite interfere_clicked, record_called_clicked, Hkc.
  split; [lia|]. intros _. split; [rewrite !count_app, Hs0, Hn, Hkp, Hz; reflexivity|reflexivity].
Qed.

Lemma batchIteration_failed env page delayMs i r s e s1 :
  sendSingle env page r s = (Throw e, s1) ->
  batchIteration env page true delayMs i r s =
    (Ok tt, interfere env
              (record (Called (Sleep delayMs))
                 (record (OnProgress (mkProgress i r false (Some (errorText e)))) s1))).
Proof.
  intros H. unfold batchIteration. unfold bind at 1, tryCatch at 1, bind at 1.
  rewrite H. reflexivity.
Qed.

Lemma record_progress_calls p s :
  callsOf (history (record (OnProgress p) s)) = callsOf (history s).
Proof.
  change (history (record (OnProgress p) s)) with (history s ++ [OnProgress p]).
  rewrite callsOf_app. apply app_nil_r.
Qed.

Lemma record_progress p s :
  progressOf (history (record (OnProgress p) s)) = progressOf (history s) ++ [p].
Proof.
  change (history (record (OnProgress p) s)) with (history s ++ [OnProgress p]).
  now rewrite progressOf_app.
Qed.

(** X17. A recipient whose message holds an unpaired surrogate cannot be
    put into a deep link: [sendSingle] rejects with the URIError of
    [encodeURIComponent] before any driver call.  In a batch the recipient
    is reported with [ok: false] and the text "URI malformed", and after the
    usual pause the batch goes on. *)
Theorem unpaired_surrogate_fails_the_recipient env page delayMs i r s :
  PercentEncoding.codeUnits (message r) ->
  PercentEncoding.codePoints (message r) = None ->
  sendSingle env page r s = (Throw URIError, s) /\
  let out := batchIteration env page true delayMs i r s in
  fst out = Ok tt /\
  progressOf (history (snd out)) =
    progressOf (history s) ++ [mkProgress i r false (Some "URI malformed"%string)] /\
  callsOf (history (snd out)) = callsOf (history s) ++ [Sleep delayMs].
Proof.
  intros Hcu Hbad.
  assert (Henc : URI.encodeURIComponent (message r) = None).
  { pose proof (PercentEncodingFacts.encode_right (message r) Hcu) as H.
    unfold PercentEncoding.encodedRight, URI.encodeURIComponent in *.
    destruct (URI.encode (message r)) as [text|]; [|reflexivity].
    destruct H as (_ & octets & Ho & _).
    unfold PercentEncoding.octetsOf in Ho. rewrite Hbad in Ho. discriminate. }
  assert (Hsingle : sendSingle env page r s = (Throw URIError, s)).
  { unfold sendSingle, bind at 1, lift, buildWhatsAppUrl. rewrite Henc. reflexivity. }
  split; [exact Hsingle|]. cbn zeta.
  rewrite (batchIteration_failed env page delayMs i r s URIError s Hsingle). cbn [fst snd].
  split; [reflexivity|]. split.
  - rewrite interfere_progress, (sameProgress_called _ _). apply record_progress.
  - rewrite interfere_calls, record_calls, record_progress_calls. reflexivity.
Qed.

(** X18. A recipient whose chat does not load: when the wait for the
    composer rejects (its 60 s run out, or the number is unknown),
    [sendSingle] rejects with that error after the navigation and the wait
    alone: no pass of the click ladder, no key press.  In a batch the
    recipient is reported with [ok: false] and the error text, and the
    batch goes on after the pause. *)
Theorem chat_not_loaded_fails_the_recipient env page delayMs i r url e s :
  buildWhatsAppUrl (phone r) (message r) = Ok url ->
  resolves env (Goto page url) ->
  (forall h, settle env h (WaitForSelector page composer 60000) = Rejects e) ->
  fst (sendSingle env page r s) = Throw e /\
  callsOf (history (snd (sendSingle env page r s))) =
    callsOf (history s) ++ [Goto page url; WaitForSelector page composer 60000] /\
  let out := batchIteration env page true delayMs i r s in
  fst out = Ok tt /\
  progressOf (history (snd out)) =
    progressOf (history s) ++ [mkProgress i r false (Some (errorText e))] /\
  callsOf (history (snd out)) =
    callsOf (history s)
      ++ [Goto page url; WaitForSelector page composer 60000; Sleep delayMs].
Proof.
  intros Hurl Hg Hw.
  assert (Hsingle : sendSingle env page r s =
            (Throw e,
             interfere env (record (Called (WaitForSelector page composer 60000))
               (interfere env (record (Called (Goto page url)) s))))).
  { unfold sendSingle, bind at 1, lift. rewrite Hurl.
    unfold bind at 1. rewrite await_run, Hg.
    unfold bind at 1. rewrite await_run, Hw. reflexivity. }
  rewrite Hsingle. cbn [fst snd].
  assert (Hcalls : callsOf (history
            (interfere env (record (Called (WaitForSelector page composer 60000))
               (interfere env (record (Called (Goto page url)) s))))) =
          callsOf (history s) ++ [Goto page url; WaitForSelector page composer 60000]).
  { rewrite interfere_calls, record_calls, interfere_calls, record_calls, <- app_assoc.
    reflexivity. }
  split; [reflexivity|]. split; [exact Hcalls|]. cbn zeta.
  rewrite (batchIteration_failed env page delayMs i r s e _ Hsingle). cbn [fst snd].
  split; [reflexivity|]. split.
  - rewrite interfere_progress, (sameProgress_called _ _), record_progress.
    rewrite interfere_progress, (sameProgress_called _ _).
    rewrite interfere_progress, (sameProgress_called _ _). reflexivity.
  - rewrite interfere_calls, record_calls, record_progress_calls, Hcalls, <- app_assoc.
    reflexivity.
Qed.

(** * sendBatch *)

Lemma callsGrow_refl s : callsGrow s s.
Proof. exists []. now rewrite app_nil_r. Qed.

Lemma callsGrow_trans a b c : callsGrow a b -> callsGrow b c -> callsGrow a c.
Proof. intros [x Hx] [y Hy]. exists (x ++ y). now rewrite Hy, Hx, app_assoc. Qed.

Lemma callsGrow_interfere env s : callsGrow s (interfere env s).
Proof. exists []. now rewrite interfere_calls, app_nil_r. Qed.

Lemma callsGrow_record e s : callsGrow s (record e s).
Proof.
  exists (callsOf [e]).
  change (history (record e s)) with (history s ++ [e]). apply callsOf_app.
Qed.

Lemma waitForReady_settles env page :
  neverHangs env -> settles (waitForReady env page).
Proof.
  intros Hno. unfold waitForReady.
  apply settles_bind; [now apply settles_await|intros _].
  apply settles_bind; [now apply settles_await|intros _].
  now apply settles_await.
Qed.

(** X19. Once [sendBatch] has its browser context and page, and as long as
    no driver call hangs, the last call it issues is the [close()] of that
    context, whatever happened before.  In particular, when the first
    navigation rejects, the batch closes the browser and rejects with that
    error without having reported any recipient. *)
Theorem sendBatch_always_closes env rows delayMs s :
  neverHangs env ->
  resolves env (Mkdir BATCH_SESSION_DIR) ->
  resolves env (LaunchPersistentContext BATCH_SESSION_DIR) ->
  (forall context, resolves env (NewPage context)) ->
  let out := sendBatch env rows true delayMs s in
  let context := created s in
  let page := S (created s) in
  (exists l,
     callsOf (history (snd out)) = callsOf (history s) ++ l ++ [ContextClose context]) /\
  (forall e,
     (forall h, settle env h (Goto page (lit "https://web.whatsapp.com/")) = Rejects e) ->
     resolves env (ContextClose context) ->
     fst out = Throw e /\
     progressOf (history (snd out)) = progressOf (history s) /\
     callsOf (history (snd out)) =
       callsOf (history s)
         ++ [Mkdir BATCH_SESSION_DIR; LaunchPersistentContext BATCH_SESSION_DIR;
             NewPage context; Goto page (lit "https://web.whatsapp.com/");
             ContextClose context]).
Proof.
  intros Hno Hmk Hl Hn. cbn zeta.
  destruct (openPage_run env BATCH_SESSION_DIR s Hmk Hl Hn)
    as (sa & s2 & Hc1 & Hc2 & Hcalls).
  set (body := (waitForReady env (S (created s));;
                batchLoop env (S (created s)) true (default 4000 delayMs) 0 rows)).
  assert (Hrun : sendBatch env rows true delayMs s =
                 tryFinally body (await env (ContextClose (created s))) s2).
  { unfold sendBatch. unfold bind at 1. rewrite Hc1. unfold bind at 1. rewrite Hc2.
    reflexivity. }
  rewrite Hrun, tryFinally_run.
  assert (Hsettles : fst (body s2) <> Pending).
  { apply settles_bind; [now apply waitForReady_settles|intros _].
    now apply batchLoop_settles. }
  assert (Hgrow : callsGrow s2 (snd (body s2))).
  { apply (steps_bind callsGrow callsGrow_trans).
    - apply steps_waitForReady;
        [apply callsGrow_trans|apply callsGrow_interfere|intros; apply callsGrow_record].
    - intros _. apply steps_batchLoop;
        [apply callsGrow_refl|apply callsGrow_trans|apply callsGrow_interfere
        |apply callsGrow_record]. }
  destruct Hgrow as [l Hl2].
  assert (Hclose : forall r : Res unit,
            callsOf (history (snd
              (match fst (await env (ContextClose (created s)) (snd (body s2))) with
               | Ok _ => (r, snd (await env (ContextClose (created s)) (snd (body s2))))
               | Throw e => (Throw e, snd (await env (ContextClose (created s)) (snd (body s2))))
               | Pending => (Pending, snd (await env (ContextClose (created s)) (snd (body s2))))
               end : Res unit * Store))) =
            callsOf (history s)
              ++ ([Mkdir BATCH_SESSION_DIR; LaunchPersistentContext BATCH_SESSION_DIR;
                   NewPage (created s)] ++ l) ++ [ContextClose (created s)]).
  { intros r.
    assert (Hc : callsOf (history (snd (await env (ContextClose (created s)) (snd (body s2))))) =
                 callsOf (history s)
                   ++ ([Mkdir BATCH_SESSION_DIR; LaunchPersistentContext BATCH_SESSION_DIR;
                        NewPage (created s)] ++ l) ++ [ContextClose (created s)]).
    { rewrite await_calls, Hl2, Hcalls, <- !app_assoc. reflexivity. }
    destruct (fst (await env (ContextClose (created s)) (snd (body s2)))); exact Hc. }
  split.
  - eexists. destruct (fst (body s2)) as [[]|e|]; [apply Hclose|apply Hclose|contradiction].
  - intros e Hg Hcl.
    assert (Hbody : body s2 =
              (Throw e, interfere env
                (record (Called (Goto (S (created s)) (lit "https://web.whatsapp.com/"))) s2))).
    { subst body. unfold bind at 1, waitForReady, bind at 1. rewrite await_run, Hg. reflexivity. }
    rewrite Hbody. cbn [fst snd]. rewrite await_run, Hcl. cbn [fst snd].
    split; [reflexivity|]. split.
    + rewrite interfere_progress, (sameProgress_called _ _).
      rewrite interfere_progress, (sameProgress_called _ _).
      pose proof (openBatchSession_progress env s) as Hp.
      destruct (sameProgress_steps env) as (Hrefl & Htrans & Hint & Hcall & Hcre).
      pose proof (steps_getContext env sameProgress Hrefl Htrans Hint Hcall Hcre
                    BATCH_SESSION_DIR s) as H1.
      pose proof (steps_create env sameProgress Hrefl Htrans Hint Hcall Hcre
                    (NewPage (created s)) sa) as H2.
      change (create env (NewPage (created s))) with (newPage env (created s)) in H2.
      rewrite Hc1 in H1. rewrite Hc2 in H2. cbn [snd] in *.
      unfold sameProgress in *. congruence.
    + rewrite interfere_calls, record_calls, interfere_calls, record_calls, Hcalls.
      rewrite <- !app_assoc. reflexivity.
Qed.

(** * CSV mode of the monitor *)

Lemma csvSend_split env m page onEvent i r s :
  csvSend env m page onEvent i r s =
  (csvDeliver env page r;; csvCount env m onEvent i r) s.
Proof.
  unfold csvSend, csvDeliver, csvCount, bind.
  destruct (lift _ s) as [[url|e|] s1]; try reflexivity.
  destruct (await env (Goto page url) s1) as [[[]|e|] s2]; try reflexivity.
  destruct (await env (WaitForSelector page composer 60000) s2) as [[[]|e|] s3];
    try reflexivity.
  destruct (sleep env 2500 s3) as [[[]|e|] s4]; try reflexivity.
  destruct (csvAttempts env 5 page false s4) as [[sent|e|] s5]; reflexivity.
Qed.

Lemma keeps_csvDeliver env m page r : steps (keeps m) (csvDeliver env page r).
Proof.
  unfold csvDeliver.
  apply (steps_bind (keeps m) (keeps_trans m)); [apply steps_lift, keeps_refl|intros url].
  apply (steps_bind (keeps m) (keeps_trans m)); [apply keeps_await|intros _].
  apply (steps_bind (keeps m) (keeps_trans m)); [apply keeps_await|intros _].
  apply (steps_bind (keeps m) (keeps_trans m)); [apply keeps_sleep|intros _].
  apply (steps_bind (keeps m) (keeps_trans m)); [apply keeps_csvAttempts|intros sent].
  destruct sent; [apply steps_ret, keeps_refl|apply keeps_await].
Qed.

Lemma csvCount_run env m i r s :
  csvCount env m true i r s =
  (Ok tt,
   let n := clicksOf m s in
   let s1 := updateMonitor m (withStats (setClicks (n + 1))) s in
   let t := clock env (history s1) in
   record (OnEvent m (RowEvent true t (n + 1) i r true None))
     (updateMonitor m (withStats (setLastClick t)) s1)).
Proof. reflexivity. Qed.

(** The [try] block can only throw before the counters are touched. *)
Lemma csvSend_throws env m page i r s e s' :
  csvSend env m page true i r s = (Throw e, s') ->
  csvDeliver env page r s = (Throw e, s') /\ keeps m s s'.
Proof.
  rewrite csvSend_split. unfold bind at 1.
  pose proof (keeps_csvDeliver env m page r s) as K.
  destruct (csvDeliver env page r s) as [[[]|e'|] s1]; cbn [snd] in K.
  - rewrite csvCount_run. discriminate.
  - intros [= <- <-]. now split.
  - discriminate.
Qed.

Lemma eventsOf_record m e s :
  eventsOf m (history (record (OnEvent m e) s)) = eventsOf m (history s) ++ [e].
Proof.
  change (history (record (OnEvent m e) s)) with (history s ++ [OnEvent m e]).
  rewrite eventsOf_app. unfold eventsOf at 2. cbn [omap list_omap isEventOf].
  now rewrite Nat.eqb_refl.
Qed.

(** X20. A CSV iteration whose [try] block throws: the loop does not
    stop.  The iteration resolves, [stats.clicks] stays as it was, and the
    recipient is reported once, with [clicked: false], [ok: false], the
    unchanged count and [e.message] as the error: unlike the batch,
    without the fallback to [String(e)], so that a thrown value without a
    message is reported without any error text. *)
Theorem csvIteration_reports_the_failure env m page total i r s e s1 :
  let s0 := updateMonitor m (withStats (setCurrent (currentMarker i total r))) s in
  csvSend env m page true i r s0 = (Throw e, s1) ->
  exists t,
    csvIteration env m page true total i r s =
      (Ok tt, record (OnEvent m (RowEvent false t (clicksOf m s) i r false (e_message e))) s1) /\
    clicksOf m (snd (csvIteration env m page true total i r s)) = clicksOf m s /\
    eventsOf m (history (snd (csvIteration env m page true total i r s))) =
      eventsOf m (history s)
        ++ [RowEvent false t (clicksOf m s) i r false (e_message e)].
Proof.
  intros s0 Hthrow.
  destruct (csvSend_throws env m page i r s0 e s1 Hthrow) as [_ (Kc & Ke & _)].
  assert (Hc0 : clicksOf m s0 = clicksOf m s) by apply clicksOf_setCurrent.
  assert (He0 : eventsOf m (history s0) = eventsOf m (history s)) by reflexivity.
  assert (Hit : csvIteration env m page true total i r s =
                (Ok tt, record (OnEvent m (RowEvent false (clock env (history s1))
                                             (clicksOf m s1) i r false (e_message e))) s1)).
  { unfold csvIteration. unfold bind at 1, updateStats at 1, modify at 1.
    fold s0. unfold tryCatch. rewrite Hthrow. reflexivity. }
  exists (clock env (history s1)). rewrite Hit. cbn [snd].
  rewrite Kc, Hc0. split; [reflexivity|]. split.
  - transitivity (clicksOf m s1); [reflexivity|congruence].
  - rewrite eventsOf_record, Ke, He0. reflexivity.
Qed.

Lemma interfere_quiet env s : neverStops env -> interfere env s = s.
Proof. intros H. unfold interfere. now rewrite H. Qed.

Lemma onlyCalls_refl m s : onlyCalls m s s.
Proof. repeat split. apply callsGrow_refl. Qed.

Lemma onlyCalls_trans m a b c : onlyCalls m a b -> onlyCalls m b c -> onlyCalls m a c.
Proof.
  intros (H1 & H2 & H3) (H4 & H5 & H6).
  repeat split; [congruence|congruence|eapply callsGrow_trans; eassumption].
Qed.

Lemma onlyCalls_record m e s : isEventOf m e = None -> onlyCalls m s (record e s).
Proof.
  intros He. split; [reflexivity|]. split; [|apply callsGrow_record].
  change (history (record e s)) with (history s ++ [e]).
  rewrite eventsOf_app. unfold eventsOf at 2. cbn [omap list_omap]. rewrite He.
  apply app_nil_r.
Qed.

Section Undisturbed.

Variable env : Env.
Hypothesis never_stops : neverStops env.
Hypothesis no_hang : neverHangs env.
Variable m : nat.

Lemma onlyCalls_interfere s : onlyCalls m s (interfere env s).
Proof. rewrite interfere_quiet by assumption. apply onlyCalls_refl. Qed.

Lemma onlyCalls_await c : steps (onlyCalls m) (await env c).
Proof.
  apply steps_await_of; [apply onlyCalls_trans|apply onlyCalls_interfere|].
  intros s. now apply onlyCalls_record.
Qed.

Lemma onlyCalls_sleep ms : steps (onlyCalls m) (sleep env ms).
Proof.
  apply steps_sleep; [apply onlyCalls_trans|apply onlyCalls_interfere|].
  intros ms' s. now apply onlyCalls_record.
Qed.

Lemma onlyCalls_csvDeliver page r : steps (onlyCalls m) (csvDeliver env page r).
Proof.
  unfold csvDeliver.
  apply (steps_bind _ (onlyCalls_trans m)); [apply steps_lift, onlyCalls_refl|intros url].
  apply (steps_bind _ (onlyCalls_trans m)); [apply onlyCalls_await|intros _].
  apply (steps_bind _ (onlyCalls_trans m)); [apply onlyCalls_await|intros _].
  apply (steps_bind _ (onlyCalls_trans m)); [apply onlyCalls_sleep|intros _].
  apply (steps_bind _ (onlyCalls_trans m)).
  - apply steps_csvAttempts;
      [apply onlyCalls_refl|apply onlyCalls_trans|apply onlyCalls_interfere|..];
      intros; now apply onlyCalls_record.
  - intros [|]; [apply steps_ret, onlyCalls_refl|apply onlyCalls_await].
Qed.

Lemma settles_csvAttempts n page : forall sent, settles (csvAttempts env n page sent).
Proof.
  induction n as [|n IH]; intros sent; cbn [csvAttempts]; [apply settles_ret|].
  destruct sent; [apply settles_ret|].
  apply settles_bind; [now apply settles_trySendClick|intros sent'].
  apply settles_bind; [|intros _; apply IH].
  destruct sent'; [apply settles_ret|now apply settles_sleep].
Qed.

Lemma settles_csvDeliver page r : settles (csvDeliver env page r).
Proof.
  unfold csvDeliver.
  apply settles_bind.
  { intros s. unfold lift. cbn [fst].
    unfold buildWhatsAppUrl. destruct (URI.encodeURIComponent (message r)); [|discriminate].
    destruct (URI.encodeURIComponent (phone r)); discriminate. }
  intros url.
  apply settles_bind; [now apply settles_await|intros _].
  apply settles_bind; [now apply settles_await|intros _].
  apply settles_bind; [now apply settles_sleep|intros _].
  apply settles_bind; [apply settles_csvAttempts|intros [|]];
    [apply settles_ret|now apply settles_await].
Qed.

(** One iteration that nobody interrupts: one event for the recipient,
    and one more click counted exactly when it reports [ok]. *)
Lemma csvIteration_completes page total i r s c :
  monitors s !! m = Some c ->
  exists ev s' c',
    csvIteration env m page true total i r s = (Ok tt, s') /\
    eventsOf m (history s') = eventsOf m (history s) ++ [ev] /\
    reportsRow i r ev /\
    clicksOf m s' = clicksOf m s + (if sentOk ev then 1 else 0) /\
    monitors s' !! m = Some c' /\
    stopped c' = stopped c /\ context c' = context c /\
    running (stats c') = running (stats c) /\
    callsGrow s s'.
Proof.
  intros Hc.
  set (s0 := updateMonitor m (withStats (setCurrent (currentMarker i total r))) s).
  assert (Hc0 : monitors s0 !! m = Some (withStats (setCurrent (currentMarker i total r)) c)).
  { subst s0. cbn [monitors updateMonitor withMonitors]. now rewrite list_lookup_alter_eq, Hc. }
  assert (Hit : csvIteration env m page true total i r s =
                tryCatch (csvSend env m page true i r)
                  (fun e =>
                     t <- now env;;
                     n <- getClicks m;;
                     notifyEvent true m (RowEvent false t n i r false (e_message e))) s0)
    by reflexivity.
  rewrite Hit. unfold tryCatch. rewrite csvSend_split. unfold bind at 1.
  pose proof (onlyCalls_csvDeliver page r s0) as (Hm1 & He1 & Hg1).
  pose proof (settles_csvDeliver page r s0) as Hs1.
  destruct (csvDeliver env page r s0) as [[[]|e|] s1]; cbn [fst snd] in *;
    [| |contradiction].
  - rewrite csvCount_run. cbn zeta.
    set (n := clicksOf m s1).
    set (s2 := updateMonitor m (withStats (setClicks (n + 1))) s1).
    set (t := clock env (history s2)).
    eexists (RowEvent true t (n + 1) i r true None), _, _.
    split; [reflexivity|]. split; [rewrite eventsOf_record; apply (f_equal (fun l => l ++ [_])); exact He1|].
    split; [repeat split|].
    assert (Hfinal : monitors (record (OnEvent m (RowEvent true t (n + 1) i r true None))
                                 (updateMonitor m (withStats (setLastClick t)) s2)) !! m =
                     Some (withStats (setLastClick t)
                             (withStats (setClicks (n + 1))
                                (withStats (setCurrent (currentMarker i total r)) c)))).
    { cbn [monitors record withHistory updateMonitor withMonitors]. subst s2.
      cbn [monitors updateMonitor withMonitors].
      now rewrite !list_lookup_alter_eq, Hm1, Hc0. }
    split.
    { unfold clicksOf at 1. rewrite Hfinal. cbn. subst n. unfold clicksOf.
      rewrite Hm1, Hc0, Hc. reflexivity. }
    split; [exact Hfinal|]. repeat split.
    eapply callsGrow_trans; [|apply callsGrow_record].
    destruct Hg1 as [l Hl]. exists l. exact Hl.
  - unfold bind, now, getClicks, gets, notifyEvent, modify.
    eexists (RowEvent false (clock env (history s1)) (clicksOf m s1) i r false (e_message e)),
            _, _.
    split; [reflexivity|]. split; [rewrite eventsOf_record; apply (f_equal (fun l => l ++ [_])); exact He1|].
    split; [repeat split|].
    assert (Hfinal : monitors (record (OnEvent m (RowEvent false (clock env (history s1))
                                 (clicksOf m s1) i r false (e_message e))) s1) !! m =
                     Some (withStats (setCurrent (currentMarker i total r)) c)).
    { cbn [monitors record withHistory]. now rewrite Hm1, Hc0. }
    split.
    { unfold clicksOf at 1. rewrite Hfinal. cbn. unfold clicksOf. rewrite Hc. lia. }
    split; [exact Hfinal|]. repeat split.
    eapply callsGrow_trans; [|apply callsGrow_record].
    destruct Hg1 as [l Hl]. exists l. exact Hl.
Qed.

Lemma csvLoop_completes page delayMs total rows :
  forall i s c,
    monitors s !! m = Some c ->
    stopped c = false ->
    exists events s' c',
      csvLoop env m page true delayMs total i rows s = (Ok tt, s') /\
      eventsOf m (history s') = eventsOf m (history s) ++ events /\
      reportsRows i rows events /\
      clicksOf m s' = clicksOf m s + sentCount events /\
      monitors s' !! m = Some c' /\
      stopped c' = false /\ context c' = context c /\
      running (stats c') = running (stats c) /\
      callsGrow s s'.
Proof.
  induction rows as [|r rest IH]; intros i s c Hc Hst; cbn [csvLoop].
  { exists [], s, c. rewrite app_nil_r. unfold sentCount. cbn.
    repeat split; auto; try lia. apply callsGrow_refl. }
  unfold bind at 1, getStopped at 1, gets at 1.
  unfold isStopped at 1. rewrite Hc, Hst.
  destruct (csvIteration_completes page total i r s c Hc)
    as (ev & s1 & c1 & Hrun & He & Hrep & Hcl & Hc1 & Hst1 & Hctx1 & Hrun1 & Hg1).
  unfold bind at 1. rewrite Hrun.
  unfold bind at 1, getStopped at 1, gets at 1.
  unfold isStopped at 1. rewrite Hc1, Hst1, Hst.
  unfold bind at 1. rewrite sleep_run, interfere_quiet by assumption.
  set (s2 := record (Called (Sleep delayMs)) s1).
  destruct (IH (S i) s2 c1) as (events & s' & c' & Hloop & He' & Hreps & Hcl' & Hc' & Hst' & Hctx' & Hrun' & Hg');
    [exact Hc1|congruence|].
  exists (ev :: events), s', c'. split; [exact Hloop|].
  split.
  { rewrite He'. subst s2.
    change (history (record (Called (Sleep delayMs)) s1))
      with (history s1 ++ [Called (Sleep delayMs)]).
    rewrite eventsOf_app, He. unfold eventsOf at 3. cbn [omap list_omap isEventOf].
    rewrite app_nil_r, <- app_assoc. reflexivity. }
  split; [split; assumption|].
  split.
  { rewrite Hcl'. change (clicksOf m s2) with (clicksOf m s1). rewrite Hcl.
    unfold sentCount. rewrite filter_cons.
    destruct (sentOk ev); destruct (decide _); cbn [length]; try congruence; lia. }
  split; [exact Hc'|]. split; [exact Hst'|]. split; [congruence|]. split; [congruence|].
  eapply callsGrow_trans; [exact Hg1|].
  eapply callsGrow_trans; [apply callsGrow_record|exact Hg'].
Qed.

End Undisturbed.

(** X21. A CSV walk that nobody stops, on a browser that never hangs, ends
    by itself: every recipient is reported exactly once, in input order,
    as sent or as failed; then comes the [done] event with the final count,
    which is the count at the start plus the number of recipients reported
    as sent.  The monitor is left not running, with [current] set to
    "Done", and the last call of the loop closes its browser context. *)
Theorem csvMode_completes env m page rows delayMs s c :
  neverStops env ->
  neverHangs env ->
  monitors s !! m = Some c ->
  stopped c = false ->
  exists events s' l,
    csvMode env m page rows delayMs true s = (Ok tt, s') /\
    eventsOf m (history s') =
      eventsOf m (history s) ++ events ++ [DoneEvent (clicksOf m s')] /\
    reportsRows 0 rows events /\
    clicksOf m s' = clicksOf m s + sentCount events /\
    isRunning m s' = false /\
    (current <$> statsOf m s') = Some (Some (lit "Done")) /\
    callsOf (history s') = callsOf (history s) ++ l ++ [ContextClose (context c)].
Proof.
  intros Hns Hno Hc Hst.
  destruct (csvLoop_completes env Hns Hno m page delayMs (length rows) rows 0%nat s c Hc Hst)
    as (events & s1 & c1 & Hloop & He & Hreps & Hcl & Hc1 & Hst1 & Hctx1 & _ & [l Hl]).
  unfold csvMode. unfold bind at 1. rewrite Hloop.
  unfold csvFinish. unfold bind at 1, getStopped at 1, gets at 1.
  unfold isStopped at 1. rewrite Hc1, Hst1.
  unfold bind at 1, updateStats at 1, modify at 1.
  unfold bind at 1, updateStats at 1, modify at 1.
  unfold bind at 1, getClicks at 1, gets at 1.
  unfold bind at 1, notifyEvent at 1, modify at 1.
  unfold bind at 1, gets at 1.
  set (s2 := updateMonitor m (withStats (setCurrent (lit "Done")))
               (updateMonitor m (withStats (setRunning false)) s1)).
  set (s3 := record (OnEvent m (DoneEvent (clicksOf m s2))) s2).
  assert (Hc3 : monitors s3 !! m =
                Some (withStats (setCurrent (lit "Done")) (withStats (setRunning false) c1))).
  { subst s3 s2. cbn [monitors record withHistory updateMonitor withMonitors].
    now rewrite !list_lookup_alter_eq, Hc1. }
  rewrite Hc3. cbn [context withStats].
  unfold closeQuietly. rewrite tryCatch_run, await_run, interfere_quiet by assumption.
  set (s4 := record (Called (ContextClose (context c1))) s3).
  assert (Hc4 : monitors s4 !! m =
                Some (withStats (setCurrent (lit "Done")) (withStats (setRunning false) c1)))
    by exact Hc3.
  assert (Hclicks : clicksOf m s4 = clicksOf m s1).
  { unfold clicksOf. rewrite Hc4, Hc1. reflexivity. }
  assert (Hclicks2 : clicksOf m s2 = clicksOf m s1).
  { unfold clicksOf. subst s2. cbn [monitors updateMonitor withMonitors].
    rewrite !list_lookup_alter_eq, Hc1. reflexivity. }
  assert (Hfinal : exists l',
            eventsOf m (history s4) =
              eventsOf m (history s) ++ events ++ [DoneEvent (clicksOf m s4)] /\
            reportsRows 0 rows events /\
            clicksOf m s4 = clicksOf m s + sentCount events /\
            isRunning m s4 = false /\
            (current <$> statsOf m s4) = Some (Some (lit "Done")) /\
            callsOf (history s4) = callsOf (history s) ++ l' ++ [ContextClose (context c)]).
  { exists l. split.
    { change (history s4)
        with ((history s1 ++ [OnEvent m (DoneEvent (clicksOf m s2))])
                ++ [Called (ContextClose (context c1))]).
      rewrite !eventsOf_app. unfold eventsOf at 2 3. cbn [omap list_omap isEventOf].
      rewrite Nat.eqb_refl, app_nil_r.
      rewrite He, Hclicks2, Hclicks, <- app_assoc. reflexivity. }
    split; [exact Hreps|]. split; [rewrite Hclicks; exact Hcl|].
    split; [unfold isRunning; now rewrite Hc4|].
    split; [unfold statsOf; now rewrite Hc4|].
    change (history s4)
      with ((history s1 ++ [OnEvent m (DoneEvent (clicksOf m s2))])
              ++ [Called (ContextClose (context c1))]).
    rewrite !callsOf_app. unfold callsOf at 2 3. cbn [omap list_omap isCalled].
    rewrite app_nil_r, Hl, Hctx1, <- !app_assoc. reflexivity. }
  destruct Hfinal as (l' & Hfinal).
  pose proof (Hno (history s3) (ContextClose (context c1))) as Hh.
  destruct (settle env (history s3) (ContextClose (context c1))); cbn [fst snd ret];
    [| |contradiction]; exists events, s4, l'; (split; [reflexivity|exact Hfinal]).
Qed.

(** * Watch mode of the monitor *)

Lemma watchTick_never_rejects env m page onEvent last s e :
  fst (watchTick env m page onEvent last s) <> Throw e.
Proof.
  unfold watchTick. rewrite tryCatch_run.
  destruct (fst (_ s)); cbn [fst ret]; discriminate.
Qed.

Lemma isStopped_withStats m m' f s :
  isStopped m (updateMonitor m' (withStats f) s) = isStopped m s.
Proof.
  unfold isStopped, updateMonitor. cbn [monitors withMonitors].
  destruct (decide (m' = m)) as [->|Hne].
  - rewrite list_lookup_alter_eq. destruct (monitors s !! m); reflexivity.
  - now rewrite list_lookup_alter_ne.
Qed.

Lemma watchLoop_run env ticks m page onEvent last s :
  watchLoop env (S ticks) m page onEvent last s =
  if isStopped m s then (Ok tt, s)
  else match watchTick env m page onEvent last s with
       | (Ok last', s1) =>
           watchLoop env ticks m page onEvent last'
             (interfere env (record (Called (Sleep 500)) s1))
       | (Throw e, s1) => (Throw e, s1)
       | (Pending, s1) => (Pending, s1)
       end.
Proof.
  cbn [watchLoop]. unfold bind at 1, getStopped, gets.
  destruct (isStopped m s); [reflexivity|].
  unfold bind at 1. destruct (watchTick env m page onEvent last s) as [[last'|e|] s1];
    reflexivity.
Qed.

(** X22. The watch loop never rejects: an error inside a tick (the page
    navigating) is swallowed and the loop goes on to its next tick.  It
    ends only by finding its stop flag set; as long as nobody stops the
    monitor, it is still running after any number of ticks. *)
Theorem watchLoop_ends_only_when_stopped env ticks m page last s :
  let out := watchLoop env ticks m page true last s in
  (forall e, fst out <> Throw e) /\
  (fst out = Ok tt -> isStopped m (snd out) = true) /\
  (neverStops env -> isStopped m s = false -> fst out = Pending).
Proof.
  cbn zeta.
  assert (H12 : forall ticks last s,
            (forall e, fst (watchLoop env ticks m page true last s) <> Throw e) /\
            (fst (watchLoop env ticks m page true last s) = Ok tt ->
             isStopped m (snd (watchLoop env ticks m page true last s)) = true)).
  { clear. induction ticks as [|ticks IH]; intros last s.
    { cbn [watchLoop]. split; [discriminate|]. unfold stillRunning. discriminate. }
    rewrite watchLoop_run.
    destruct (isStopped m s) eqn:Hs; [split; [discriminate|intros _; exact Hs]|].
    pose proof (watchTick_never_rejects env m page true last s) as Ht.
    destruct (watchTick env m page true last s) as [[last'|e|] s1]; cbn [fst snd] in *;
      [apply IH|exfalso; exact (Ht e eq_refl)|split; discriminate]. }
  destruct (H12 ticks last s) as [H1 H2]. split; [exact H1|]. split; [exact H2|].
  intros Hns Hrun.
  assert (Hkeep : isStopped m (snd (watchLoop env ticks m page true last s)) = isStopped m s).
  { apply (steps_watchLoop env (fun a b => isStopped m b = isStopped m a)).
    - reflexivity.
    - intros a b c Hab Hbc. congruence.
    - intros s0. now rewrite interfere_quiet.
    - reflexivity.
    - intros m' f s0. apply isStopped_withStats. }
  destruct (fst (watchLoop env ticks m page true last s)) as [[]|e|] eqn:E.
  - specialize (H2 eq_refl). congruence.
  - exfalso. exact (H1 e eq_refl).
  - reflexivity.
Qed.

(** * The deep link for a phone of the preview *)

Lemma encode_digits s :
  Forall (fun c => URI.isDigit c = true) s -> URI.encode s = Some s.
Proof.
  induction 1 as [|c s Hc _ IH]; [reflexivity|].
  cbn [URI.encode]. unfold URI.unescaped. rewrite Hc, orb_true_r. cbn [orb].
  now rewrite IH.
Qed.

(** X23. A phone as [normalizePhone] returns it goes into the deep link
    as it is: digits are never escaped, and the phone can never make
    [buildWhatsAppUrl] throw.  For a row of the preview the link is
    [https://web.whatsapp.com/send?phone=] followed by the digits, [&text=]
    and the encoded message, and building it fails exactly when the
    message cannot be encoded. *)
Theorem normalized_phone_goes_verbatim_into_the_link raw message :
  let phone := Csv.normalizePhone raw in
  buildWhatsAppUrl phone message =
    match URI.encodeURIComponent message with
    | Some text =>
        Ok (lit "https://web.whatsapp.com/send?phone=" ++ phone ++ lit "&text=" ++ text)
    | None => Throw URIError
    end /\
  (forall idx r row,
     Csv.readRecord idx r = inl row ->
     buildWhatsAppUrl (Csv.p_phone row) (Csv.p_message row) =
       match URI.encodeURIComponent (Csv.p_message row) with
       | Some text =>
           Ok (lit "https://web.whatsapp.com/send?phone=" ++ Csv.p_phone row
                 ++ lit "&text=" ++ text)
       | None => Throw URIError
       end).
Proof.
  assert (H : forall raw message,
            buildWhatsAppUrl (Csv.normalizePhone raw) message =
            match URI.encodeURIComponent message with
            | Some text =>
                Ok (lit "https://web.whatsapp.com/send?phone=" ++ Csv.normalizePhone raw
                      ++ lit "&text=" ++ text)
            | None => Throw URIError
            end).
  { intros raw' message'. unfold buildWhatsAppUrl.
    destruct (URI.encodeURIComponent message') as [text|]; [|reflexivity].
    unfold URI.encodeURIComponent. rewrite encode_digits; [reflexivity|].
    rewrite CsvFacts.normalizePhone_digitsOnly. apply CsvFacts.digitsOnly_digits. }
  split; [apply H|].
  intros idx r row Hrow. unfold Csv.readRecord in Hrow.
  destruct (Csv.RowSchema _ _); [|discriminate].
  injection Hrow as <-. cbn [Csv.p_phone Csv.p_message]. apply H.
Qed.

(** ** The deep link determines the recipient and the message *)

Module Utf8Facts.
Import URI PercentEncoding.

Local Open Scope N_scope.

Lemma lor_high hi width x :
  forallb (fun x => N.lor hi x =? hi + x) (map N.of_nat (seq 0 width)) = true ->
  x < N.of_nat width -> N.lor hi x = hi + x.
Proof.
  intros Hall Hx. rewrite forallb_forall in Hall.
  apply N.eqb_eq. apply Hall. apply in_map_iff. exists (N.to_nat x).
  split; [apply N2Nat.id|]. apply in_seq. lia.
Qed.

Lemma lor_80 x : x < 64 -> N.lor 0x80 x = 0x80 + x.
Proof. apply (lor_high 0x80 64). vm_compute. reflexivity. Qed.

Lemma lor_C0 x : x < 32 -> N.lor 0xC0 x = 0xC0 + x.
Proof. apply (lor_high 0xC0 32). vm_compute. reflexivity. Qed.

Lemma lor_E0 x : x < 16 -> N.lor 0xE0 x = 0xE0 + x.
Proof. apply (lor_high 0xE0 16). vm_compute. reflexivity. Qed.

Lemma lor_F0 x : x < 8 -> N.lor 0xF0 x = 0xF0 + x.
Proof. apply (lor_high 0xF0 8). vm_compute. reflexivity. Qed.

Lemma low6 x : N.land x 0x3F = x mod 64.
Proof. change 0x3F with (N.ones 6). apply N.land_ones. Qed.

Lemma continuation x : N.lor 0x80 (N.land x 0x3F) = 0x80 + x mod 64.
Proof.
  rewrite low6. apply lor_80. apply N.mod_lt. discriminate.
Qed.

Lemma decodeFirst_utf8 cp rest :
  cp < 0x110000 -> Utf8.decodeFirst (utf8 cp ++ rest) = Some (cp, rest).
Proof.
  intros Hcp. unfold utf8.
  pose proof (N.div_mod cp 64 ltac:(discriminate)) as D0.
  pose proof (N.mod_lt cp 64 ltac:(discriminate)) as M0.
  pose proof (N.div_mod (cp / 64) 64 ltac:(discriminate)) as D1.
  pose proof (N.mod_lt (cp / 64) 64 ltac:(discriminate)) as M1.
  pose proof (N.div_mod (cp / 64 / 64) 64 ltac:(discriminate)) as D2.
  pose proof (N.mod_lt (cp / 64 / 64) 64 ltac:(discriminate)) as M2.
  assert (S6 : N.shiftr cp 6 = cp / 64) by (rewrite N.shiftr_div_pow2; reflexivity).
  assert (S12 : N.shiftr cp 12 = cp / 64 / 64).
  { rewrite N.shiftr_div_pow2, N.Div0.div_div. reflexivity. }
  assert (S18 : N.shiftr cp 18 = cp / 64 / 64 / 64).
  { rewrite N.shiftr_div_pow2, !N.Div0.div_div. reflexivity. }
  assert (L0 : N.lor 0x80 (N.land cp 0x3F) = 0x80 + cp mod 64) by apply continuation.
  assert (L1 : N.lor 0x80 (N.land (N.shiftr cp 6) 0x3F) = 0x80 + (cp / 64) mod 64)
    by (rewrite continuation, S6; reflexivity).
  assert (L2 : N.lor 0x80 (N.land (N.shiftr cp 12) 0x3F) = 0x80 + (cp / 64 / 64) mod 64)
    by (rewrite continuation, S12; reflexivity).
  rewrite L0, L1, L2, S6, S12, S18. clear L0 L1 L2 S6 S12 S18.
  generalize dependent (cp / 64 / 64 / 64). intros q2.
  generalize dependent ((cp / 64 / 64) mod 64). intros m2.
  generalize dependent (cp / 64 / 64). intros q1.
  generalize dependent ((cp / 64) mod 64). intros m1.
  generalize dependent (cp / 64). intros q0.
  generalize dependent (cp mod 64). intros m0.
  intros D0 M0 D1 M1 D2 M2.
  destruct (N.ltb_spec cp 0x80) as [H1|H1].
  { cbn [app Utf8.decodeFirst]. destruct (N.ltb_spec cp 0x80); [reflexivity|lia]. }
  destruct (N.ltb_spec cp 0x800) as [H2|H2].
  { rewrite lor_C0 by lia.
    cbn [app Utf8.decodeFirst].
    destruct (N.ltb_spec (0xC0 + q0) 0x80); [lia|].
    destruct (N.ltb_spec (0xC0 + q0) 0xE0); [|lia].
    do 2 f_equal. lia. }
  destruct (N.ltb_spec cp 0x10000) as [H3|H3].
  { rewrite lor_E0 by lia.
    cbn [app Utf8.decodeFirst].
    destruct (N.ltb_spec (0xE0 + q1) 0x80); [lia|].
    destruct (N.ltb_spec (0xE0 + q1) 0xE0); [lia|].
    destruct (N.ltb_spec (0xE0 + q1) 0xF0); [|lia].
    do 2 f_equal. lia. }
  rewrite lor_F0 by lia.
  cbn [app Utf8.decodeFirst].
  destruct (N.ltb_spec (0xF0 + q2) 0x80); [lia|].
  destruct (N.ltb_spec (0xF0 + q2) 0xE0); [lia|].
  destruct (N.ltb_spec (0xF0 + q2) 0xF0); [lia|].
  do 2 f_equal. lia.
Qed.

Lemma utf8_nonempty cp : utf8 cp <> [].
Proof.
  unfold utf8. destruct (cp <? 0x80); [discriminate|].
  destruct (cp <? 0x800); [discriminate|]. destruct (cp <? 0x10000); discriminate.
Qed.

Lemma octets_injective cps1 :
  forall cps2,
    Forall (fun cp => cp < 0x110000) cps1 ->
    Forall (fun cp => cp < 0x110000) cps2 ->
    concat (map utf8 cps1) = concat (map utf8 cps2) ->
    cps1 = cps2.
Proof.
  induction cps1 as [|c1 t1 IH]; intros [|c2 t2] H1 H2 E; cbn [map concat] in E.
  - reflexivity.
  - symmetry in E. apply app_eq_nil in E as [E _]. now apply utf8_nonempty in E.
  - apply app_eq_nil in E as [E _]. now apply utf8_nonempty in E.
  - inversion H1 as [|? ? Hc1 Ht1]; inversion H2 as [|? ? Hc2 Ht2]; subst.
    pose proof (f_equal Utf8.decodeFirst E) as D.
    rewrite !decodeFirst_utf8 in D by assumption.
    injection D as -> Hrest. f_equal. now apply IH.
Qed.

Lemma codePoints_bound s :
  codeUnits s -> forall cps, codePoints s = Some cps ->
  Forall (fun cp => cp < 0x110000) cps.
Proof.
  intros Hcu. remember (length s) as n eqn:Hn.
  revert s Hcu Hn. induction n as [n IH] using lt_wf_ind. intros s Hcu Hn cps.
  destruct s as [|c rest]; cbn [codePoints].
  { intros [= <-]. constructor. }
  inversion Hcu as [|? ? Hc Hrest]; subst.
  destruct (isSurrogate c) eqn:Es; cbn [negb].
  - destruct (N.leb_spec c 0xDBFF) as [Hlead|]; [|discriminate].
    destruct rest as [|d rest']; [discriminate|].
    destruct ((0xDC00 <=? d) && (d <=? 0xDFFF))%bool eqn:Ed; [|discriminate].
    destruct (codePoints rest') as [cps'|] eqn:E; [|discriminate].
    cbn [option_map]. intros [= <-].
    apply andb_true_iff in Ed as [Hd1 Hd2]. apply N.leb_le in Hd1, Hd2.
    unfold isSurrogate in Es. apply andb_true_iff in Es as [Hs1 Hs2].
    apply N.leb_le in Hs1, Hs2.
    inversion Hrest as [|? ? Hd Hrest']; subst.
    constructor; [lia|].
    apply (IH (length rest')) with (s := rest'); [cbn [length]; lia|assumption|reflexivity|exact E].
  - destruct (codePoints rest) as [cps'|] eqn:E; [|discriminate].
    cbn [option_map]. intros [= <-]. constructor; [lia|].
    apply (IH (length rest)) with (s := rest); [cbn [length]; lia|assumption|reflexivity|exact E].
Qed.

Lemma codePoints_injective s1 :
  forall s2 cps,
    codeUnits s1 -> codeUnits s2 ->
    codePoints s1 = Some cps -> codePoints s2 = Some cps -> s1 = s2.
Proof.
  remember (length s1) as n eqn:Hn.
  revert s1 Hn. induction n as [n IH] using lt_wf_ind. intros s1 Hn s2 cps Hu1 Hu2.
  destruct s1 as [|c1 r1], s2 as [|c2 r2]; cbn [codePoints].
  - reflexivity.
  - intros [= <-].
    destruct (negb (isSurrogate c2)).
    + destruct (codePoints r2); discriminate.
    + destruct (c2 <=? 0xDBFF); [|discriminate].
      destruct r2 as [|d r2']; [discriminate|].
      destruct ((0xDC00 <=? d) && (d <=? 0xDFFF))%bool; [|discriminate].
      destruct (codePoints r2'); discriminate.
  - intros H [= <-].
    destruct (negb (isSurrogate c1)).
    + destruct (codePoints r1); discriminate.
    + destruct (c1 <=? 0xDBFF); [|discriminate].
      destruct r1 as [|d r1']; [discriminate|].
      destruct ((0xDC00 <=? d) && (d <=? 0xDFFF))%bool; [|discriminate].
      destruct (codePoints r1'); discriminate.
  - inversion Hu1 as [|? ? Hc1 Hr1]; inversion Hu2 as [|? ? Hc2 Hr2]; subst.
    destruct (isSurrogate c1) eqn:Es1, (isSurrogate c2) eqn:Es2; cbn [negb].
    + destruct (N.leb_spec c1 0xDBFF) as [Hl1|]; [|discriminate].
      destruct (N.leb_spec c2 0xDBFF) as [Hl2|]; [|intros _; discriminate].
      destruct r1 as [|d1 r1']; [discriminate|].
      destruct r2 as [|d2 r2']; [intros _; discriminate|].
      destruct ((0xDC00 <=? d1) && (d1 <=? 0xDFFF))%bool eqn:Ed1; [|discriminate].
      destruct ((0xDC00 <=? d2) && (d2 <=? 0xDFFF))%bool eqn:Ed2; [|intros _; discriminate].
      destruct (codePoints r1') as [t1|] eqn:E1; [|discriminate].
      destruct (codePoints r2') as [t2|] eqn:E2; [|intros _; discriminate].
      cbn [option_map]. intros [= <-] [= Hcp Ht]. subst t2.
      apply andb_true_iff in Ed1 as [Ha1 Ha2]. apply N.leb_le in Ha1, Ha2.
      apply andb_true_iff in Ed2 as [Hb1 Hb2]. apply N.leb_le in Hb1, Hb2.
      unfold isSurrogate in Es1, Es2.
      apply andb_true_iff in Es1 as [Hs1 _]. apply N.leb_le in Hs1.
      apply andb_true_iff in Es2 as [Hs2 _]. apply N.leb_le in Hs2.
      inversion Hr1 as [|? ? _ Hr1']; inversion Hr2 as [|? ? _ Hr2']; subst.
      assert (c1 = c2 /\ d1 = d2) as [-> ->] by lia.
      do 2 f_equal.
      apply (IH (length r1')) with (cps := t1); [cbn [length]; lia|reflexivity|assumption..].
    + destruct (N.leb_spec c1 0xDBFF) as [Hl1|]; [|discriminate].
      destruct r1 as [|d1 r1']; [discriminate|].
      destruct ((0xDC00 <=? d1) && (d1 <=? 0xDFFF))%bool eqn:Ed1; [|discriminate].
      destruct (codePoints r1') as [t1|] eqn:E1; [|discriminate].
      destruct (codePoints r2) as [t2|] eqn:E2; [|intros _; discriminate].
      cbn [option_map]. intros [= <-] [= Hcp Ht].
      apply andb_true_iff in Ed1 as [Ha1 Ha2]. apply N.leb_le in Ha1, Ha2.
      unfold isSurrogate in Es1.
      apply andb_true_iff in Es1 as [Hs1 _]. apply N.leb_le in Hs1. lia.
    + destruct (N.leb_spec c2 0xDBFF) as [Hl2|]; [|intros _; discriminate].
      destruct r2 as [|d2 r2']; [intros _; discriminate|].
      destruct ((0xDC00 <=? d2) && (d2 <=? 0xDFFF))%bool eqn:Ed2; [|intros _; discriminate].
      destruct (codePoints r1) as [t1|] eqn:E1; [|discriminate].
      destruct (codePoints r2') as [t2|] eqn:E2; [|intros _; discriminate].
      cbn [option_map]. intros [= <-] [= Hcp Ht].
      apply andb_true_iff in Ed2 as [Hb1 Hb2]. apply N.leb_le in Hb1, Hb2.
      unfold isSurrogate in Es2.
      apply andb_true_iff in Es2 as [Hs2 _]. apply N.leb_le in Hs2. lia.
    + destruct (codePoints r1) as [t1|] eqn:E1; [|discriminate].
      destruct (codePoints r2) as [t2|] eqn:E2; [|intros _; discriminate].
      cbn [option_map]. intros [= <-] [= -> ->]. f_equal.
      apply (IH (length r1)) with (cps := t1); [cbn [length]; lia|reflexivity|assumption..].
Qed.

Lemma encode_injective s1 s2 text :
  codeUnits s1 -> codeUnits s2 ->
  encodeURIComponent s1 = Some text -> encodeURIComponent s2 = Some text -> s1 = s2.
Proof.
  intros Hu1 Hu2 E1 E2.
  destruct (PercentEncodingFacts.encode_some s1 text Hu1 E1) as (_ & o1 & Ho1 & Hd1).
  destruct (PercentEncodingFacts.encode_some s2 text Hu2 E2) as (_ & o2 & Ho2 & Hd2).
  assert (o1 = o2) as <- by congruence.
  unfold octetsOf in Ho1, Ho2.
  destruct (codePoints s1) as [cps1|] eqn:C1; [|discriminate].
  destruct (codePoints s2) as [cps2|] eqn:C2; [|discriminate].
  cbn [option_map] in Ho1, Ho2.
  assert (cps1 = cps2) as <-.
  { apply octets_injective;
      [exact (codePoints_bound s1 Hu1 _ C1)|exact (codePoints_bound s2 Hu2 _ C2)|congruence]. }
  exact (codePoints_injective s1 s2 cps1 Hu1 Hu2 C1 C2).
Qed.

(** A text of safe characters holds no "&". *)
Lemma split_at_ampersand (a a' b b' : jsstring) :
  forallb safe a = true -> forallb safe a' = true ->
  a ++ 38 :: b = a' ++ 38 :: b' -> a = a' /\ b = b'.
Proof.
  revert a'. induction a as [|x a IH]; intros [|y a'] Ha Ha' E; cbn [app] in E.
  - injection E as <-. now split.
  - injection E as <- _. cbn [forallb] in Ha'. discriminate.
  - injection E as -> _. cbn [forallb] in Ha. discriminate.
  - injection E as -> E. cbn [forallb] in Ha, Ha'.
    apply andb_true_iff in Ha as [_ Ha]. apply andb_true_iff in Ha' as [_ Ha'].
    destruct (IH a' Ha Ha' E) as [-> ->]. now split.
Qed.

End Utf8Facts.

(** X24. The deep link determines the recipient and the message: two
    calls of [buildWhatsAppUrl] that return the same URL were given the
    same phone and the same message. *)
Theorem buildWhatsAppUrl_injective phone1 message1 phone2 message2 url :
  PercentEncoding.codeUnits phone1 -> PercentEncoding.codeUnits message1 ->
  PercentEncoding.codeUnits phone2 -> PercentEncoding.codeUnits message2 ->
  buildWhatsAppUrl phone1 message1 = Ok url ->
  buildWhatsAppUrl phone2 message2 = Ok url ->
  phone1 = phone2 /\ message1 = message2.
Proof.
  intros Hp1 Hm1 Hp2 Hm2. unfold buildWhatsAppUrl.
  destruct (URI.encodeURIComponent message1) as [t1|] eqn:Et1; [|discriminate].
  destruct (URI.encodeURIComponent phone1) as [p1|] eqn:Ep1; [|discriminate].
  destruct (URI.encodeURIComponent message2) as [t2|] eqn:Et2; [|discriminate].
  destruct (URI.encodeURIComponent phone2) as [p2|] eqn:Ep2; [|discriminate].
  intros [= <-] E.
  assert (E' : lit "https://web.whatsapp.com/send?phone=" ++ p2 ++ lit "&text=" ++ t2 =
               lit "https://web.whatsapp.com/send?phone=" ++ p1 ++ lit "&text=" ++ t1)
    by (apply (f_equal (fun r => match r with Ok u => u | _ => [] end)) in E; exact E).
  clear E. apply app_inv_head in E'.
  change (p2 ++ 38%N :: (lit "text=" ++ t2) = p1 ++ 38%N :: (lit "text=" ++ t1)) in E'.
  rename E' into E.
  destruct (PercentEncodingFacts.encode_some _ _ Hp1 Ep1) as [Sp1 _].
  destruct (PercentEncodingFacts.encode_some _ _ Hp2 Ep2) as [Sp2 _].
  destruct (Utf8Facts.split_at_ampersand p2 p1 (lit "text=" ++ t2) (lit "text=" ++ t1) Sp2 Sp1 E)
    as [-> Et].
  apply app_inv_head in Et. subst t2. split.
  - eapply Utf8Facts.encode_injective; eassumption.
  - eapply Utf8Facts.encode_injective; eassumption.
Qed.

(** *** The loop up to its first await *)

Lemma callsOf_map_Called l : callsOf (map Called l) = l.
Proof.
  induction l as [|c l IH]; [reflexivity|].
  change (c :: callsOf (map Called l) = c :: l). now rewrite IH.
Qed.

Lemma callsOf_map_OnEvent m l : callsOf (map (OnEvent m) l) = [].
Proof. induction l as [|c l IH]; [reflexivity|exact IH]. Qed.

Lemma eventsOf_map_Called m l : eventsOf m (map Called l) = [].
Proof. induction l as [|c l IH]; [reflexivity|exact IH]. Qed.

Lemma eventsOf_map_OnEvent m l : eventsOf m (map (OnEvent m) l) = l.
Proof.
  induction l as [|c l IH]; [reflexivity|].
  unfold eventsOf. cbn [map omap list_omap isEventOf]. rewrite Nat.eqb_refl.
  cbn [option_bind]. f_equal. exact IH.
Qed.

Lemma buildWhatsAppUrl_outcome phone message :
  (exists url, buildWhatsAppUrl phone message = Ok url) \/
  buildWhatsAppUrl phone message = Throw URIError.
Proof.
  unfold buildWhatsAppUrl.
  destruct (URI.encodeURIComponent message); [|now right].
  destruct (URI.encodeURIComponent phone); [left; eauto|now right].
Qed.

(** The loop runs up to its first await without being interrupted: it
    leaves the marker in [stats.current], reports a first recipient that
    cannot be put into a link, and issues the call it is then suspended
    in. *)
Lemma startLoop_run env m page rows delayMs onEvent s cell :
  monitors s !! m = Some cell ->
  stopped cell = false ->
  exists task c,
    startLoop env m page rows delayMs onEvent s =
      (Ok task,
       withHistory
         (history s
            ++ map (OnEvent m) (reported (clock env (history s)) (clicks (stats cell)) task)
            ++ map Called (suspendedIn task))
         (updateMonitor m (withStats (setCurrent c)) s)) /\
    suspendedLoop rows delayMs onEvent m page task.
Proof.
  intros Hcell Hrun.
  assert (Hst : isStopped m s = false) by (unfold isStopped; now rewrite Hcell).
  assert (Hwatch : exists task c,
            startWatch env m page onEvent s =
              (Ok task,
               withHistory
                 (history s
                    ++ map (OnEvent m)
                         (reported (clock env (history s)) (clicks (stats cell)) task)
                    ++ map Called (suspendedIn task))
                 (updateMonitor m (withStats (setCurrent c)) s)) /\
            ((exists evaluated, task = WatchTask m page onEvent evaluated) \/
             task = WatchPause m page onEvent)).
  { unfold startWatch, bind, updateStats, modify, getStopped, now, gets, issueLadder, ret.
    unfold isStopped. cbn [monitors updateMonitor withMonitors history].
    rewrite list_lookup_alter_eq, Hcell. cbn [fmap option_fmap option_map stopped withStats].
    rewrite Hrun. cbv beta iota.
    change (history (updateMonitor m (withStats (setCurrent watching)) s)) with (history s).
    destruct (clock env (history s) - 0 >? 1500);
      match goal with |- exists task c, (Ok ?T, _) = _ /\ _ => exists T, watching end;
      (split; [reflexivity|]); [left; eauto|now right]. }
  destruct rows as [[|r rest]|]; [exact Hwatch| |exact Hwatch].
  unfold startLoop, suspendedLoop, startCsv.
  unfold bind at 1, getStopped at 1, gets at 1. rewrite Hst.
  unfold bind at 1, updateStats at 1, modify at 1.
  set (s1 := updateMonitor m _ s).
  assert (Hcell1 : monitors s1 !! m =
                   Some (withStats (setCurrent (currentMarker 0 (length (r :: rest)) r)) cell)).
  { unfold s1. cbn [monitors updateMonitor withMonitors].
    now rewrite list_lookup_alter_eq, Hcell. }
  destruct (buildWhatsAppUrl_outcome (phone r) (message r)) as [[url ->]| ->].
  - unfold bind, issue, issueAs, ret.
    match goal with |- exists task c, (Ok ?T, _) = _ /\ _ =>
      exists T, (currentMarker 0 (length (r :: rest)) r) end.
    split; [reflexivity|]. eauto.
  - exists (CsvPause m page r rest delayMs onEvent),
           (currentMarker 0 (length (r :: rest)) r).
    split; [|reflexivity].
    unfold csvCatch, bind, now, getClicks, notifyEvent, getStopped, gets, modify, ret.
    assert (Hc : clicksOf m s1 = clicks (stats cell))
      by (unfold clicksOf; now rewrite Hcell1).
    rewrite Hc.
    destruct onEvent; cbn [reported map app];
      unfold isStopped; cbn [monitors record withHistory]; rewrite Hcell1;
      cbn [stopped withStats]; rewrite Hrun; unfold record;
      cbn [history withHistory monitors lastPage monitorHandle created];
      rewrite <- ?app_assoc; reflexivity.
Qed.

Lemma startLoop_effect env m page rows delayMs onEvent s cell :
  monitors s !! m = Some cell ->
  stopped cell = false ->
  exists task s',
    startLoop env m page rows delayMs onEvent s = (Ok task, s') /\
    suspendedLoop rows delayMs onEvent m page task /\
    callsOf (history s') = callsOf (history s) ++ suspendedIn task /\
    eventsOf m (history s') =
      eventsOf m (history s)
        ++ reported (clock env (history s)) (clicks (stats cell)) task /\
    (exists c, monitors s' !! m = Some (withStats (setCurrent c) cell)) /\
    (forall m', m' <> m -> monitors s' !! m' = monitors s !! m') /\
    length (monitors s') = length (monitors s) /\
    monitorHandle s' = monitorHandle s /\
    lastPage s' = lastPage s /\
    created s' = created s.
Proof.
  intros Hcell Hrun.
  destruct (startLoop_run env m page rows delayMs onEvent s cell Hcell Hrun)
    as (task & c & -> & Hshape).
  eexists. eexists. split; [reflexivity|]. split; [exact Hshape|].
  cbn [history monitors monitorHandle lastPage created withHistory updateMonitor withMonitors].
  rewrite !callsOf_app, !eventsOf_app, callsOf_map_Called, callsOf_map_OnEvent,
    eventsOf_map_Called, eventsOf_map_OnEvent, app_nil_r.
  repeat split.
  - exists c. now rewrite list_lookup_alter_eq, Hcell.
  - intros m' Hne. now rewrite list_lookup_alter_ne.
  - apply length_alter.
Qed.

(** *** The task is the rest of the loop *)

Lemma trySendClick_resumed env page s :
  (evaluated <- issueLadder env page;; trySendClickFrom env page evaluated) s =
  trySendClick env page s.
Proof.
  unfold trySendClick, trySendClickFrom. rewrite (bind_run (evaluateLadder env page)).
  rewrite evaluateLadder_run. cbn zeta.
  unfold bind at 1, issueLadder at 1. unfold bind at 1. rewrite awaiting_run.
  unfold lift, bind, gets, modify, ret.
  destruct (settle env (history s) (Evaluate page LadderScript)); cbn [fst snd];
    try reflexivity.
  destruct (Ladder.script _); reflexivity.
Qed.

Lemma issueLadder_run env page s :
  issueLadder env page s =
  (Ok match settle env (history s) (Evaluate page LadderScript) with
      | Resolves =>
          Ok (Ladder.script
                (dom env (history (record (Called (Evaluate page LadderScript)) s)) page))
      | Rejects e => Throw e
      | Hangs => Pending
      end, record (Called (Evaluate page LadderScript)) s).
Proof. reflexivity. Qed.

Lemma now_run env s : now env s = (Ok (clock env (history s)), s).
Proof. reflexivity. Qed.

Lemma watchTick_resumed env m page onEvent s :
  (clock env (history s) - 0 >? 1500) = true ->
  (evaluated <- issueLadder env page;; watchTickFrom env m page onEvent 0 evaluated) s =
  watchTick env m page onEvent 0 s.
Proof.
  intros Hgap.
  pose proof (trySendClick_resumed env page s) as H.
  rewrite bind_run, issueLadder_run in H. cbn [fst snd] in H.
  rewrite bind_run, issueLadder_run. cbn [fst snd].
  unfold watchTickFrom, watchTick. rewrite !tryCatch_run.
  rewrite (bind_run (now env)), now_run. cbn [fst snd]. rewrite Hgap.
  rewrite (bind_run (trySendClick env page)), <- H.
  rewrite (bind_run (trySendClickFrom env page _)). reflexivity.
Qed.

Lemma startWatch_run env m page onEvent s :
  startWatch env m page onEvent s =
  let s1 := updateMonitor m (withStats (setCurrent watching)) s in
  if isStopped m s1 then (Ok Ended, s1)
  else if clock env (history s1) - 0 >? 1500 then
    (evaluated <- issueLadder env page;; ret (WatchTask m page onEvent evaluated)) s1
  else (Ok (WatchPause m page onEvent), record (Called (Sleep 500)) s1).
Proof.
  unfold startWatch, updateStats, getStopped, now.
  unfold bind at 1, modify at 1. unfold bind at 1, gets at 1. cbn zeta.
  destruct (isStopped m _); [reflexivity|].
  unfold bind at 1, gets at 1.
  destruct (_ >? 1500); reflexivity.
Qed.

Lemma watchMode_run env ticks m page onEvent s :
  watchMode env (S ticks) m page onEvent s =
  let s1 := updateMonitor m (withStats (setCurrent watching)) s in
  if isStopped m s1 then (Ok tt, s1)
  else
    (lastClickedAt <- watchTick env m page onEvent 0;;
     sleep env 500;;
     watchLoop env ticks m page onEvent lastClickedAt) s1.
Proof.
  unfold watchMode, updateStats. cbn [watchLoop]. unfold getStopped.
  unfold bind at 1, modify at 1. unfold bind at 1, gets at 1. cbn zeta.
  destruct (isStopped m _); reflexivity.
Qed.

(** Watch mode is its start followed by the task that the start leaves. *)
Lemma watchMode_resumed env ticks m page onEvent s :
  (task <- startWatch env m page onEvent;; runTask env ticks task) s =
  watchMode env (S ticks) m page onEvent s.
Proof.
  rewrite watchMode_run, bind_run, startWatch_run. cbn zeta.
  set (s1 := updateMonitor m _ s).
  destruct (isStopped m s1); [reflexivity|].
  destruct (clock env (history s1) - 0 >? 1500) eqn:Hgap.
  - rewrite (bind_run (watchTick env m page onEvent 0)).
    rewrite <- (watchTick_resumed env m page onEvent s1 Hgap).
    rewrite !(bind_run (issueLadder env page)), issueLadder_run. cbn [fst snd ret runTask].
    rewrite (bind_run (watchTickFrom env m page onEvent 0 _)). reflexivity.
  - cbn [fst snd runTask].
    rewrite (bind_run (resume env (Ok ()))). unfold resume at 1 2, lift.
    rewrite awaiting_run. cbn [fst snd].
    rewrite (bind_run (watchTick env m page onEvent 0)).
    unfold watchTick. rewrite !tryCatch_run.
    rewrite !(bind_run (now env)), now_run. cbn [fst snd]. rewrite Hgap.
    cbn [ret fst snd]. rewrite (bind_run (sleep env 500)), sleep_run. reflexivity.
Qed.

Lemma startCsv_run env m page r rest delayMs onEvent s :
  startCsv env m page r rest delayMs onEvent s =
  if isStopped m s then (Ok Ended, s)
  else
    let s1 := updateMonitor m
                (withStats (setCurrent (currentMarker 0 (length (r :: rest)) r))) s in
    match buildWhatsAppUrl (phone r) (message r) with
    | Ok url =>
        (Ok (CsvTask m page r rest delayMs onEvent url (settle env (history s1) (Goto page url))),
         record (Called (Goto page url)) s1)
    | Throw e =>
        match csvCatch env m onEvent 0 r e s1 with
        | (Ok _, s2) =>
            if isStopped m s2 then (Ok Ended, s2)
            else (Ok (CsvPause m page r rest delayMs onEvent),
                  record (Called (Sleep delayMs)) s2)
        | (Throw e', s2) => (Throw e', s2)
        | (Pending, s2) => (Pending, s2)
        end
    | Pending => (Pending, s1)
    end.
Proof.
  unfold startCsv, updateStats, getStopped.
  unfold bind at 1, gets at 1.
  destruct (isStopped m s); [reflexivity|].
  unfold bind at 1, modify at 1. cbn zeta.
  destruct (buildWhatsAppUrl (phone r) (message r)) as [url|e|]; [reflexivity| |reflexivity].
  unfold bind at 1.
  destruct (csvCatch env m onEvent 0 r e _) as [[[]|e'|] s2]; [|reflexivity..].
  unfold bind at 1, gets at 1.
  destruct (isStopped m s2); reflexivity.
Qed.

Lemma bind_assoc_run {A B C} (m : M A) (k : A -> M B) (k' : B -> M C) s :
  bind (bind m k) k' s = bind m (fun a => bind (k a) k') s.
Proof. unfold bind. destruct (m s) as [[a|e|] s']; reflexivity. Qed.

Lemma bind_ext_run {A B} (m : M A) (k k' : A -> M B) s :
  (forall a s', k a s' = k' a s') -> bind m k s = bind m k' s.
Proof. intros H. unfold bind. destruct (m s) as [[a|e|] s']; auto. Qed.

Lemma updateStats_run m f s :
  updateStats m f s = (Ok tt, updateMonitor m (withStats f) s).
Proof. reflexivity. Qed.

Lemma getStopped_run m s : getStopped m s = (Ok (isStopped m s), s).
Proof. reflexivity. Qed.

Lemma csvMode_run env m page r rest delayMs onEvent s :
  csvMode env m page (r :: rest) delayMs onEvent s =
  if isStopped m s then (Ok tt, s)
  else
    let s1 := updateMonitor m
                (withStats (setCurrent (currentMarker 0 (length (r :: rest)) r))) s in
    (tryCatch (csvSend env m page onEvent 0 r) (csvCatch env m onEvent 0 r);;
     halt <- getStopped m;;
     (if halt then ret tt else sleep env delayMs);;
     csvLoop env m page onEvent delayMs (length (r :: rest)) 1 rest;;
     csvFinish env m onEvent) s1.
Proof.
  unfold csvMode. cbn [csvLoop]. rewrite bind_assoc_run.
  rewrite (bind_run (getStopped m)), getStopped_run. cbn [fst snd].
  destruct (isStopped m s) eqn:Hst.
  { rewrite (bind_run (ret ())). cbn [ret fst snd]. now apply csvFinish_stopped. }
  cbn zeta. rewrite bind_assoc_run. unfold csvIteration. rewrite bind_assoc_run.
  rewrite (bind_run (updateStats m _)), updateStats_run. cbn [fst snd].
  apply bind_ext_run. intros [] s2. rewrite bind_assoc_run.
  apply bind_ext_run. intros halt s3. apply bind_assoc_run.
Qed.

Lemma csvSend_resumed env m page onEvent i r url s :
  buildWhatsAppUrl (phone r) (message r) = Ok url ->
  csvSendFrom env m page onEvent i r (settled (settle env (history s) (Goto page url)))
    (record (Called (Goto page url)) s) =
  csvSend env m page onEvent i r s.
Proof.
  intros Hurl. unfold csvSend, csvSendFrom. rewrite Hurl.
  rewrite (bind_run (lift (Ok url))). cbn [lift fst snd].
  rewrite (bind_run (resume env _)), (bind_run (await env (Goto page url))).
  unfold resume, lift. rewrite awaiting_run, await_run. cbn [fst snd].
  destruct (settle env (history s) (Goto page url)); reflexivity.
Qed.

(** CSV mode is its start followed by the task that the start leaves. *)
Lemma csvMode_resumed env ticks m page r rest delayMs onEvent s :
  (task <- startCsv env m page r rest delayMs onEvent;; runTask env ticks task) s =
  csvMode env m page (r :: rest) delayMs onEvent s.
Proof.
  rewrite csvMode_run, bind_run, startCsv_run.
  destruct (isStopped m s); [reflexivity|]. cbn zeta.
  set (s1 := updateMonitor m _ s).
  destruct (buildWhatsAppUrl (phone r) (message r)) as [url|e|] eqn:Hurl; cbn [fst snd].
  - cbn [runTask].
    rewrite (bind_run (tryCatch (csvSendFrom _ _ _ _ _ _ _) _)),
            (bind_run (tryCatch (csvSend _ _ _ _ _ _) _)), !tryCatch_run.
    now rewrite (csvSend_resumed env m page onEvent 0%nat r url s1 Hurl).
  - rewrite (bind_run (tryCatch (csvSend _ _ _ _ _ _) _)), tryCatch_run.
    assert (Hs : csvSend env m page onEvent 0 r s1 = (Throw e, s1)).
    { unfold csvSend. rewrite Hurl. reflexivity. }
    rewrite Hs. cbn [fst snd].
    destruct (csvCatch env m onEvent 0 r e s1) as [[[]|e'|] s2]; cbn [fst snd];
      [|reflexivity..].
    rewrite (bind_run (getStopped m)), getStopped_run. cbn [fst snd].
    destruct (isStopped m s2) eqn:Hst2.
    + cbn [runTask ret fst snd]. rewrite (bind_run (ret ())). cbn [ret fst snd].
      rewrite bind_run, csvLoop_stopped by exact Hst2. cbn [fst snd].
      now rewrite csvFinish_stopped.
    + cbn [runTask fst snd]. rewrite (bind_run (sleep env delayMs)), sleep_run.
      rewrite (bind_run (resume env (Ok ()))). unfold resume, lift.
      rewrite awaiting_run. reflexivity.
  - rewrite (bind_run (tryCatch (csvSend _ _ _ _ _ _) _)), tryCatch_run.
    assert (Hs : csvSend env m page onEvent 0 r s1 = (Pending, s1)).
    { unfold csvSend. rewrite Hurl. reflexivity. }
    rewrite Hs. reflexivity.
Qed.

(** ** startMonitor: what the caller waits for *)

Lemma waitForReady_ready env page s :
  resolves env (Goto page (lit "https://web.whatsapp.com/")) ->
  resolves env (WaitForSelector page composer 0) ->
  resolves env (Evaluate page ZoomScript) ->
  exists s',
    waitForReady env page s = (Ok tt, s') /\
    callsOf (history s') =
      callsOf (history s)
        ++ [Goto page (lit "https://web.whatsapp.com/"); WaitForSelector page composer 0;
            Evaluate page ZoomScript] /\
    lastPage s' = lastPage s /\
    (forall m, eventsOf m (history s') = eventsOf m (history s)) /\
    sameMonitors s s' /\
    handleKept s s' /\
    (forall m, untouched m s s').
Proof.
  intros Hg Hw He.
  assert (Hrun : waitForReady env page s =
            (Ok tt,
             interfere env
               (record (Called (Evaluate page ZoomScript))
                  (interfere env
                     (record (Called (WaitForSelector page composer 0))
                        (interfere env
                           (record (Called (Goto page (lit "https://web.whatsapp.com/")))
                              s))))))).
  { unfold waitForReady.
    rewrite bind_run, await_run, Hg. cbn [fst snd].
    rewrite bind_run, await_run, Hw. cbn [fst snd].
    rewrite await_run, He. reflexivity. }
  eexists. split; [exact Hrun|].
  split.
  { repeat (rewrite interfere_calls, record_calls). rewrite <- !app_assoc. reflexivity. }
  split.
  { repeat (rewrite interfere_lastPage; cbn [lastPage record withHistory]). reflexivity. }
  split.
  { intros m. repeat (rewrite interfere_events; cbn [history record withHistory];
                      rewrite eventsOf_app, app_nil_r).
    reflexivity. }
  replace (interfere env _) with (snd (waitForReady env page s)) by (now rewrite Hrun).
  split; [|split].
  - apply (steps_waitForReady env sameMonitors sameMonitors_trans
             (sameMonitors_interfere env)).
    intros c s0. now split.
  - apply (steps_waitForReady env handleKept handleKept_trans (handleKept_interfere env)).
    intros c s0. now left.
  - intros m. apply untouched_waitForReady.
Qed.

(** [startMonitor] on a session that opens and is ready: it returns the
    new monitor, whose loop is suspended at its first await. *)
Lemma startMonitor_ready env rows delayMs onEvent s :
  resolves env (Mkdir MONITOR_SESSION_DIR) ->
  resolves env (LaunchPersistentContext MONITOR_SESSION_DIR) ->
  (forall context, resolves env (NewPage context)) ->
  handleInRange s ->
  let page := S (created s) in
  let m := length (monitors s) in
  resolves env (Goto page (lit "https://web.whatsapp.com/")) ->
  resolves env (WaitForSelector page composer 0) ->
  resolves env (Evaluate page ZoomScript) ->
  exists task s' c t,
    startMonitor env rows delayMs onEvent s = (Ok (m, task), s') /\
    suspendedLoop rows (default 4000 delayMs) onEvent m page task /\
    callsOf (history s') =
      callsOf (history s)
        ++ [Mkdir MONITOR_SESSION_DIR; LaunchPersistentContext MONITOR_SESSION_DIR;
            NewPage (created s); Goto page (lit "https://web.whatsapp.com/");
            WaitForSelector page composer 0; Evaluate page ZoomScript]
        ++ suspendedIn task /\
    eventsOf m (history s') = eventsOf m (history s) ++ reported t 0 task /\
    lastPage s' = Some page /\
    monitors s' !! m =
      Some (withStats (setCurrent c)
              {| stats := mkStats true 0 None None; stopped := false;
                 context := created s |}) /\
    length (monitors s') = S m /\
    handleKept s s' /\
    monitorHandle s' <> Some m.
Proof.
  intros Hmk Hl Hn Hrange page m Hg Hw He.
  destruct (startMonitor_opened env rows delayMs onEvent s Hmk Hl Hn)
    as (s3 & Hstart & Hcalls & Hpage & Hcell & Hlen & Hkept & Hne & Hev).
  fold m page in Hstart, Hcalls, Hpage, Hcell, Hlen, Hne. specialize (Hne Hrange).
  destruct (waitForReady_ready env page s3 Hg Hw He)
    as (s4 & Hready & Hcalls4 & Hpage4 & Hev4 & [Hlen4 _] & Hkept4 & Hun4).
  destruct (Hun4 m Hne) as [Hcell4 Hne4]. rewrite Hcell in Hcell4.
  destruct (startLoop_effect env m page rows (default 4000 delayMs) onEvent s4 _
              Hcell4 eq_refl)
    as (task & s5 & Hloop & Hshape & Hcalls5 & Hev5 & [c Hcell5] & _ & Hlen5 & Hh5 & Hp5 & _).
  exists task, s5, c, (clock env (history s4)).
  split.
  { rewrite Hstart. rewrite bind_run, Hready. cbn [fst snd].
    rewrite bind_run, Hloop. reflexivity. }
  split; [exact Hshape|].
  split; [rewrite Hcalls5, Hcalls4, Hcalls, <- !app_assoc; reflexivity|].
  split; [rewrite Hev5, Hev4, Hev; reflexivity|].
  split; [congruence|].
  split; [exact Hcell5|].
  split; [congruence|].
  split.
  { eapply handleKept_trans; [exact Hkept|].
    eapply handleKept_trans; [exact Hkept4|]. left. exact Hh5. }
  congruence.
Qed.

(** C9, as amended.  [startMonitor] itself opens the session and awaits
    the readiness wait; the loop is what it does not await.  When the
    setup resolves, [startMonitor] returns its handle with the loop
    suspended at its first await: after the six calls of the setup the
    loop has issued one call of its own (the navigation to the first deep
    link, the evaluation of the first pass of the ladder, or its first
    pause) and has reported a first recipient that cannot be put into a
    link, and [startMonitor] returns without any assumption on how that
    call settles, so that the caller never waits for the loop.  While the
    readiness wait stays pending (nobody logs in), [startMonitor] does not
    return. *)
Theorem startMonitor_returns_once_ready env rows delayMs onEvent s :
  resolves env (Mkdir MONITOR_SESSION_DIR) ->
  resolves env (LaunchPersistentContext MONITOR_SESSION_DIR) ->
  (forall context, resolves env (NewPage context)) ->
  (forall page, resolves env (Goto page (lit "https://web.whatsapp.com/"))) ->
  handleInRange s ->
  let page := S (created s) in
  let m := length (monitors s) in
  let setup :=
    [Mkdir MONITOR_SESSION_DIR; LaunchPersistentContext MONITOR_SESSION_DIR;
     NewPage (created s); Goto page (lit "https://web.whatsapp.com/");
     WaitForSelector page composer 0] in
  (resolves env (WaitForSelector page composer 0) ->
   resolves env (Evaluate page ZoomScript) ->
   exists task s',
     startMonitor env rows delayMs onEvent s = (Ok (m, task), s') /\
     suspendedLoop rows (default 4000 delayMs) onEvent m page task /\
     callsOf (history s') =
       callsOf (history s) ++ setup ++ [Evaluate page ZoomScript] ++ suspendedIn task /\
     (exists t, eventsOf m (history s') = eventsOf m (history s) ++ reported t 0 task) /\
     lastPage s' = Some page /\
     isRunning m s' = true) /\
  ((forall h, settle env h (WaitForSelector page composer 0) = Hangs) ->
   fst (startMonitor env rows delayMs onEvent s) = Pending /\
   callsOf (history (snd (startMonitor env rows delayMs onEvent s))) =
     callsOf (history s) ++ setup).
Proof.
  intros Hmk Hl Hn Hg Hrange page m setup. split.
  - intros Hw He.
    destruct (startMonitor_ready env rows delayMs onEvent s Hmk Hl Hn Hrange (Hg _) Hw He)
      as (task & s' & c & t & Hrun & Hshape & Hcalls & Hev & Hpage & Hcell & _).
    exists task, s'. split; [exact Hrun|]. split; [exact Hshape|].
    split; [exact Hcalls|]. split; [eauto|]. split; [exact Hpage|].
    unfold isRunning. fold m in Hcell. now rewrite Hcell.
  - intros Hw.
    destruct (startMonitor_opened env rows delayMs onEvent s Hmk Hl Hn)
      as (s3 & Hstart & Hcalls & _).
    fold page m in Hstart.
    assert (Hrun : waitForReady env page s3 =
              (Pending,
               interfere env
                 (record (Called (WaitForSelector page composer 0))
                    (interfere env
                       (record (Called (Goto page (lit "https://web.whatsapp.com/")))
                          s3))))).
    { unfold waitForReady.
      rewrite bind_run, await_run, Hg. cbn [fst snd].
      rewrite bind_run, await_run, Hw. reflexivity. }
    rewrite Hstart, bind_run, Hrun. cbn [fst snd]. split; [reflexivity|].
    repeat (rewrite interfere_calls, record_calls).
    rewrite Hcalls, <- !app_assoc. reflexivity.
Qed.

(** ** Handlers that overlap *)

(** Served without anything in between, the two halves of the start
    handler are the start route. *)
Lemma monitorStartRoute_phases env q s :
  monitorStartRoute env q s =
  (p <- monitorStartUntilLogin env q;;
   match p with
   | StartAnswered r => ret (r, None)
   | AwaitingLogin m page login => monitorStartFromLogin env q m page login
   end) s.
Proof.
  unfold monitorStartRoute, monitorStartUntilLogin, monitorStartFromLogin, startMonitor,
    waitForReady, newMonitor, tryCatch, bind, gets, modify, ret.
  destruct (monitorActive s); [reflexivity|].
  destruct (MonitorStartSchema q); cbn [negb]; [|reflexivity].
  destruct (getContext env MONITOR_SESSION_DIR s) as [[ctx|e|] sa]; [|reflexivity..].
  destruct (newPage env ctx sa) as [[page|e|] sb]; [|reflexivity..].
  destruct (await env (Goto page (lit "https://web.whatsapp.com/")) _) as [[[]|e|] sc];
    [|reflexivity..].
  rewrite await_run. unfold issue, issueAs, resume, lift. rewrite awaiting_run.
  cbn [fst snd settled].
  destruct (settle env (history sc) (WaitForSelector page composer 0)); [|reflexivity..].
  destruct (await env (Evaluate page ZoomScript) _) as [[[]|e|] sd]; [|reflexivity..].
  change (default 4000 (Some (default 4000 (req_delayMs q))))
    with (default 4000 (req_delayMs q)).
  destruct (startLoop env _ page (req_rows q) (default 4000 (req_delayMs q)) true sd)
    as [[task|e|] se]; reflexivity.
Qed.

(** Served without anything in between, the two halves of the stop
    handler are the stop route. *)
Lemma monitorStopRoute_phases env s :
  monitorStopRoute env s =
  (p <- monitorStopBegin env;;
   match p with
   | StopAnswered r => ret r
   | Closing close => monitorStopEnd close
   end) s.
Proof.
  unfold monitorStopRoute, monitorStopBegin, monitorStopEnd, stop, tryCatch, bind, gets,
    modify, ret, callAs, issueAs, lift.
  destruct (monitorHandle s) as [m|]; [|reflexivity].
  destruct (monitors (updateMonitor m halted s) !! m) as [c|]; [|reflexivity].
  destruct (settle env _ (ContextClose (context c))); reflexivity.
Qed.

(** The second half of the stop handler changes nothing but the handle,
    which no task of the engine reads. *)
Lemma monitorStopEnd_handle_only close s :
  let s' := snd (monitorStopEnd close s) in
  history s' = history s /\
  monitors s' = monitors s /\
  lastPage s' = lastPage s /\
  created s' = created s.
Proof. destruct close; repeat split. Qed.

(** ** POST /api/monitor/start when no monitor is registered *)

Lemma launchesOf_setup dir ctx page calls :
  String.eqb dir dir = true ->
  count (fun c => match c with
                  | LaunchPersistentContext d => String.eqb d dir
                  | _ => false
                  end)
        ([Mkdir dir; LaunchPersistentContext dir; NewPage ctx;
          Goto page (lit "https://web.whatsapp.com/"); WaitForSelector page composer 0;
          Evaluate page ZoomScript]
           ++ calls) =
  S (count (fun c => match c with
                     | LaunchPersistentContext d => String.eqb d dir
                     | _ => false
                     end) calls).
Proof.
  intros Hd. unfold count. cbn [app].
  rewrite filter_cons_False by discriminate.
  rewrite filter_cons_True by exact Hd.
  rewrite !filter_cons_False by discriminate. reflexivity.
Qed.

Lemma launchesOf_suspendedIn dir task :
  count (fun c => match c with
                  | LaunchPersistentContext d => String.eqb d dir
                  | _ => false
                  end) (suspendedIn task) = 0%nat.
Proof. destruct task; reflexivity. Qed.

(** The start route on a server without a handle. *)
Lemma monitorStartRoute_fresh env q s :
  sessionOpens env MONITOR_SESSION_DIR ->
  MonitorStartSchema q = true ->
  monitorHandle s = None ->
  let m := length (monitors s) in
  let page := S (created s) in
  exists task s',
    monitorStartRoute env q s = (Ok (Success false, Some task), s') /\
    suspendedLoop (req_rows q) (default 4000 (req_delayMs q)) true m page task /\
    monitorHandle s' = Some m /\
    isRunning m s' = true /\
    isStopped m s' = false /\
    clicksOf m s' = 0 /\
    lastPage s' = Some page /\
    length (monitors s') = S m /\
    launchesOf MONITOR_SESSION_DIR (history s') =
      S (launchesOf MONITOR_SESSION_DIR (history s)).
Proof.
  intros (Hmk & Hl & Hn & Hg & Hw & He) Hq Hnone m page.
  assert (Hrange : handleInRange s) by (intros h Hh; congruence).
  assert (Hidle : monitorActive s = false) by (unfold monitorActive; now rewrite Hnone).
  destruct (startMonitor_ready env (req_rows q) (Some (default 4000 (req_delayMs q))) true s
              Hmk Hl Hn Hrange (Hg _) (Hw _) (He _))
    as (task & s' & c & t & Hrun & Hshape & Hcalls & _ & Hpage & Hcell & Hlen & _).
  fold m page in Hrun, Hshape, Hcalls, Hpage, Hcell, Hlen.
  exists task, (withMonitorHandle (Some m) s').
  split.
  { unfold monitorStartRoute. rewrite (bind_run (gets monitorActive)).
    change (gets monitorActive s) with (Ok (monitorActive s), s). cbn [fst snd].
    rewrite Hidle, Hq. cbn [negb]. rewrite tryCatch_run, bind_run, Hrun. reflexivity. }
  split; [exact Hshape|].
  split; [reflexivity|].
  unfold isRunning, isStopped, clicksOf. cbn [monitors withMonitorHandle]. rewrite Hcell.
  repeat (split; [reflexivity|]).
  split; [exact Hpage|]. split; [exact Hlen|].
  unfold launchesOf. cbn [history withMonitorHandle]. rewrite Hcalls, count_app.
  rewrite launchesOf_setup by reflexivity.
  rewrite launchesOf_suspendedIn. lia.
Qed.

(** X11. On a server that holds no monitor handle, when the session opens
    and the payload is valid, [POST /api/monitor/start] answers [ok] and
    registers a new monitor that runs, is not stopped and has counted no
    click, with its loop suspended at its first await (CSV mode for a
    non-empty [rows], watch mode when [rows] is missing or empty), even if
    stop requests arrive while it is starting: they find no handle.  One
    browser is launched, and a start request that is served next is
    answered [already] without effect.  But a stop handler that was
    suspended in its [context.close()] and resumes only now sets the
    handle to null whatever it holds: the new monitor runs on, the stop
    route answers [not running], and the guard of the start route lets
    the next start launch another browser. *)
Theorem monitorStartRoute_registers env q s :
  sessionOpens env MONITOR_SESSION_DIR ->
  MonitorStartSchema q = true ->
  monitorHandle s = None ->
  let m := length (monitors s) in
  let page := S (created s) in
  exists task s',
    monitorStartRoute env q s = (Ok (Success false, Some task), s') /\
    suspendedLoop (req_rows q) (default 4000 (req_delayMs q)) true m page task /\
    monitorHandle s' = Some m /\
    isRunning m s' = true /\
    isStopped m s' = false /\
    clicksOf m s' = 0 /\
    lastPage s' = Some page /\
    launchesOf MONITOR_SESSION_DIR (history s') =
      S (launchesOf MONITOR_SESSION_DIR (history s)) /\
    (forall q', monitorStartRoute env q' s' = (Ok (Success true, None), s')) /\
    (forall close,
       close <> Hangs ->
       exists s'',
         monitorStopEnd close s' = (Ok (Success false), s'') /\
         monitorHandle s'' = None /\
         isRunning m s'' = true /\
         isStopped m s'' = false /\
         monitorStopRoute env s'' = (Ok NotRunning, s'') /\
         monitorActive s'' = false).
Proof.
  intros Hopen Hq Hnone m page.
  destruct (monitorStartRoute_fresh env q s Hopen Hq Hnone)
    as (task & s' & Hrun & Hshape & Hh & Hr & Hst & Hc & Hp & _ & Hlaunch).
  fold m page in Hrun, Hshape, Hh, Hr, Hst, Hc, Hp.
  exists task, s'.
  repeat (split; [assumption|]). split.
  - intros q'. apply monitorStartRoute_active. unfold monitorActive. now rewrite Hh.
  - intros close Hclose. exists (withMonitorHandle None s').
    split; [destruct close; [reflexivity..|congruence]|].
    repeat split; assumption.
Qed.

(** A stop handler that resumes after a start has registered its monitor
    drops the handle of that monitor, and the start that follows launches
    another browser. *)
Lemma late_stop_loses_the_handle env q q' close s :
  sessionOpens env MONITOR_SESSION_DIR ->
  MonitorStartSchema q = true ->
  MonitorStartSchema q' = true ->
  monitorHandle s = None ->
  close <> Hangs ->
  exists task s1 s2 task' s3,
    monitorStartRoute env q s = (Ok (Success false, Some task), s1) /\
    monitorHandle s1 = Some (length (monitors s)) /\
    monitorStopEnd close s1 = (Ok (Success false), s2) /\
    isRunning (length (monitors s)) s2 = true /\
    monitorStartRoute env q' s2 = (Ok (Success false, Some task'), s3) /\
    monitorHandle s3 = Some (S (length (monitors s))) /\
    launchesOf MONITOR_SESSION_DIR (history s3) =
      S (S (launchesOf MONITOR_SESSION_DIR (history s))).
Proof.
  intros Hopen Hq Hq' Hnone Hclose.
  destruct (monitorStartRoute_fresh env q s Hopen Hq Hnone)
    as (task & s1 & Hrun & _ & Hh & Hr & _ & _ & _ & Hlen & Hlaunch).
  destruct (monitorStartRoute_fresh env q' (withMonitorHandle None s1) Hopen Hq' eq_refl)
    as (task' & s3 & Hrun' & _ & Hh' & _ & _ & _ & _ & _ & Hlaunch').
  cbn [monitors withMonitorHandle history] in Hrun', Hh', Hlaunch'.
  rewrite Hlen in Hh'. rewrite Hlaunch in Hlaunch'.
  exists task, s1, (withMonitorHandle None s1), task', s3.
  split; [exact Hrun|]. split; [exact Hh|].
  split; [destruct close; [reflexivity..|congruence]|].
  split; [exact Hr|]. split; [exact Hrun'|]. split; [exact Hh'|exact Hlaunch'].
Qed.

(** ** Start requests that overlap *)

Lemma newMonitor_run context s :
  newMonitor context s =
  (Ok (length (monitors s)),
   withMonitors
     (monitors s ++ [ {| stats := mkStats true 0 None None; stopped := false;
                         context := context |} ]) s).
Proof. reflexivity. Qed.

Lemma count_single_true f c : f c = true -> count f [c] = 1%nat.
Proof. intros H. unfold count. now rewrite filter_cons_True. Qed.

Lemma count_single_false f c : f c = false -> count f [c] = 0%nat.
Proof.
  intros H. unfold count. rewrite filter_cons_False; [reflexivity|].
  rewrite H. discriminate.
Qed.

Lemma bind_ok {A B} (m : M A) (k : A -> M B) s a s' :
  m s = (Ok a, s') -> bind m k s = k a s'.
Proof. intros H. unfold bind. now rewrite H. Qed.

Lemma tryCatch_ok {A} (m : M A) (handler : JsError -> M A) s a s' :
  m s = (Ok a, s') -> tryCatch m handler s = (Ok a, s').
Proof. intros H. unfold tryCatch. now rewrite H. Qed.

Lemma await_quiet env c s :
  neverStops env -> resolves env c -> await env c s = (Ok tt, record (Called c) s).
Proof. intros Hquiet Hc. now rewrite await_run, Hc, interfere_quiet. Qed.

Lemma create_quiet env c s :
  neverStops env -> resolves env c ->
  create env c s = (Ok (created s), withCreated (S (created s)) (record (Called c) s)).
Proof. intros Hquiet Hc. now rewrite (create_run env c s Hc), interfere_quiet. Qed.

(** The first half of a start handler, with no stop request around. *)
Lemma monitorStartUntilLogin_quiet env q s :
  sessionOpens env MONITOR_SESSION_DIR ->
  neverStops env ->
  MonitorStartSchema q = true ->
  monitorActive s = false ->
  exists page s1,
    monitorStartUntilLogin env q s =
      (Ok (AwaitingLogin (length (monitors s)) page Resolves), s1) /\
    monitors s1 =
      monitors s ++ [ {| stats := mkStats true 0 None None; stopped := false;
                         context := created s |} ] /\
    monitorHandle s1 = monitorHandle s /\
    launchesOf MONITOR_SESSION_DIR (history s1) =
      S (launchesOf MONITOR_SESSION_DIR (history s)).
Proof.
  intros (Hmk & Hl & Hn & Hg & Hw & He) Hquiet Hq Hidle.
  set (s1 := withCreated (S (created s))
               (record (Called (LaunchPersistentContext MONITOR_SESSION_DIR))
                  (record (Called (Mkdir MONITOR_SESSION_DIR)) s))).
  set (s2 := withCreated (S (S (created s))) (record (Called (NewPage (created s))) s1)).
  set (s3 := withMonitors
               (monitors s ++ [ {| stats := mkStats true 0 None None; stopped := false;
                                   context := created s |} ])
               (withLastPage (Some (S (created s))) s2)).
  exists (S (created s)),
         (record (Called (WaitForSelector (S (created s)) composer 0))
            (record (Called (Goto (S (created s)) (lit "https://web.whatsapp.com/"))) s3)).
  split.
  { unfold monitorStartUntilLogin.
    rewrite (bind_ok (gets monitorActive) _ s (monitorActive s) s eq_refl).
    rewrite Hidle, Hq. cbn [negb]. apply tryCatch_ok.
    assert (H1 : getContext env MONITOR_SESSION_DIR s = (Ok (created s), s1)).
    { rewrite (getContext_run env _ _ Hmk Hl). now rewrite !interfere_quiet. }
    rewrite (bind_ok _ _ _ _ _ H1).
    assert (H2 : newPage env (created s) s1 = (Ok (S (created s)), s2)).
    { unfold newPage. now rewrite (create_quiet env _ _ Hquiet (Hn _)). }
    rewrite (bind_ok _ _ _ _ _ H2).
    rewrite (bind_ok (modify _) _ s2 tt (withLastPage (Some (S (created s))) s2) eq_refl).
    rewrite (bind_ok _ _ _ _ _ (newMonitor_run _ _)).
    change (withMonitors _ (withLastPage (Some (S (created s))) s2)) with s3.
    rewrite (bind_ok _ _ _ _ _ (await_quiet env _ s3 Hquiet (Hg _))).
    unfold bind, issue, issueAs, ret. rewrite Hw. reflexivity. }
  split; [reflexivity|]. split; [reflexivity|].
  unfold launchesOf.
  change (callsOf (history (record _ (record _ s3))))
    with (callsOf (((((history s ++ [Called (Mkdir MONITOR_SESSION_DIR)])
                        ++ [Called (LaunchPersistentContext MONITOR_SESSION_DIR)])
                       ++ [Called (NewPage (created s))])
                      ++ [Called (Goto (S (created s)) (lit "https://web.whatsapp.com/"))])
                     ++ [Called (WaitForSelector (S (created s)) composer 0)])).
  rewrite !callsOf_app, !count_app.
  change (callsOf [Called ?c]) with [c].
  rewrite (count_single_true _ (LaunchPersistentContext _)) by reflexivity.
  rewrite !count_single_false by reflexivity. lia.
Qed.

(** The second half, once the login is done. *)
Lemma monitorStartFromLogin_quiet env q m page s cell :
  resolves env (Evaluate page ZoomScript) ->
  neverStops env ->
  monitors s !! m = Some cell ->
  stopped cell = false ->
  exists task s' c,
    monitorStartFromLogin env q m page Resolves s = (Ok (Success false, Some task), s') /\
    monitors s' = alter (withStats (setCurrent c)) m (monitors s) /\
    monitorHandle s' = Some m /\
    launchesOf MONITOR_SESSION_DIR (history s') = launchesOf MONITOR_SESSION_DIR (history s).
Proof.
  intros He Hquiet Hcell Hrun.
  set (s1 := record (Called (Evaluate page ZoomScript)) s).
  destruct (startLoop_effect env m page (req_rows q) (default 4000 (req_delayMs q)) true
              s1 cell Hcell Hrun)
    as (task & s2 & Hloop & _ & Hcalls & _).
  destruct (startLoop_run env m page (req_rows q) (default 4000 (req_delayMs q)) true
              s1 cell Hcell Hrun) as (task' & c & Hloop' & _).
  rewrite Hloop in Hloop'. injection Hloop' as <- Hs2.
  exists task, (withMonitorHandle (Some m) s2), c. split.
  { unfold monitorStartFromLogin. apply tryCatch_ok.
    assert (H0 : resume env (settled Resolves) s = (Ok tt, s)).
    { unfold resume, lift. rewrite awaiting_run. cbn [fst snd settled].
      now rewrite interfere_quiet. }
    rewrite (bind_ok _ _ _ _ _ H0).
    rewrite (bind_ok _ _ _ _ _ (await_quiet env _ s Hquiet He)). fold s1.
    rewrite (bind_ok _ _ _ _ _ Hloop). reflexivity. }
  cbn [monitors monitorHandle history withMonitorHandle].
  split; [rewrite Hs2; reflexivity|]. split; [reflexivity|].
  unfold launchesOf. rewrite Hcalls. unfold s1. rewrite record_calls, !count_app.
  rewrite launchesOf_suspendedIn, count_single_false by reflexivity. lia.
Qed.

(** C3, what the code does.  The guard of the start route reads
    [monitorHandle], which a start sets only when [startMonitor] has
    returned, after the login.  Served one after the other, the second of
    two start requests is answered [already] and one browser is launched.
    But when the second request arrives while the first is in its
    readiness wait, both pass the guard: two browsers are launched, two
    monitors run and neither is stopped, both requests are answered
    [ok] without [already], and the handle names the second monitor only,
    so that the stop route cannot reach the first. *)
Theorem overlapping_starts_run_two_monitors env q1 q2 s :
  sessionOpens env MONITOR_SESSION_DIR ->
  neverStops env ->
  MonitorStartSchema q1 = true ->
  MonitorStartSchema q2 = true ->
  monitorHandle s = None ->
  let m1 := length (monitors s) in
  let m2 := S m1 in
  (exists task1 s',
     startRequests env [q1; q2] s =
       (Ok [(Success false, Some task1); (Success true, None)], s') /\
     launchesOf MONITOR_SESSION_DIR (history s') =
       S (launchesOf MONITOR_SESSION_DIR (history s)) /\
     isRunning m1 s' = true /\
     isRunning m2 s' = false) /\
  (exists task1 task2 s',
     overlappingStarts env q1 q2 s =
       (Ok ((Success false, Some task1), (Success false, Some task2)), s') /\
     launchesOf MONITOR_SESSION_DIR (history s') =
       S (S (launchesOf MONITOR_SESSION_DIR (history s))) /\
     isRunning m1 s' = true /\
     isStopped m1 s' = false /\
     isRunning m2 s' = true /\
     isStopped m2 s' = false /\
     monitorHandle s' = Some m2).
Proof.
  intros Hopen Hquiet Hq1 Hq2 Hnone m1 m2. split.
  - destruct (monitorStartRoute_fresh env q1 s Hopen Hq1 Hnone)
      as (task1 & s' & Hrun & _ & Hh & Hr & _ & _ & _ & Hlen & Hlaunch).
    fold m1 in Hrun, Hh, Hr, Hlen.
    exists task1, s'. split.
    { cbn [startRequests]. rewrite bind_run, Hrun. cbn [fst snd].
      rewrite bind_run, bind_run, monitorStartRoute_active
        by (unfold monitorActive; now rewrite Hh).
      reflexivity. }
    split; [exact Hlaunch|]. split; [exact Hr|].
    unfold isRunning. rewrite lookup_ge_None_2; [reflexivity|]. unfold m2. lia.
  - assert (Hidle : monitorActive s = false) by (unfold monitorActive; now rewrite Hnone).
    destruct (monitorStartUntilLogin_quiet env q1 s Hopen Hquiet Hq1 Hidle)
      as (page1 & s1 & Hu1 & Hm1 & Hh1 & Hl1).
    assert (Hidle1 : monitorActive s1 = false)
      by (unfold monitorActive; now rewrite Hh1, Hnone).
    destruct (monitorStartUntilLogin_quiet env q2 s1 Hopen Hquiet Hq2 Hidle1)
      as (page2 & s2 & Hu2 & Hm2 & Hh2 & Hl2).
    assert (Hlen1 : length (monitors s1) = m2)
      by (rewrite Hm1, length_app; cbn; unfold m2, m1; lia).
    rewrite Hlen1 in Hu2.
    destruct Hopen as (_ & _ & _ & _ & _ & He).
    assert (Hc1 : monitors s2 !! m1 =
                  Some {| stats := mkStats true 0 None None; stopped := false;
                          context := created s |}).
    { rewrite Hm2, Hm1, lookup_app_l by (rewrite length_app; cbn; unfold m1; lia).
      rewrite lookup_app_r by (unfold m1; lia). unfold m1. now rewrite Nat.sub_diag. }
    assert (Hc2 : monitors s2 !! m2 =
                  Some {| stats := mkStats true 0 None None; stopped := false;
                          context := created s1 |}).
    { rewrite Hm2, lookup_app_r by lia. now rewrite Hlen1, Nat.sub_diag. }
    destruct (monitorStartFromLogin_quiet env q1 m1 page1 s2 _ (He _) Hquiet Hc1 eq_refl)
      as (task1 & s3 & c1 & Hf1 & Hm3 & Hh3 & Hl3).
    assert (Hc2' : monitors s3 !! m2 =
                   Some {| stats := mkStats true 0 None None; stopped := false;
                           context := created s1 |}).
    { rewrite Hm3, list_lookup_alter_ne by (unfold m2; lia). exact Hc2. }
    destruct (monitorStartFromLogin_quiet env q2 m2 page2 s3 _ (He _) Hquiet Hc2' eq_refl)
      as (task2 & s4 & c2 & Hf2 & Hm4 & Hh4 & Hl4).
    exists task1, task2, s4. split.
    { unfold overlappingStarts.
      rewrite (bind_ok _ _ _ _ _ Hu1), (bind_ok _ _ _ _ _ Hu2).
      rewrite (bind_ok _ _ _ _ _ Hf1), (bind_ok _ _ _ _ _ Hf2). reflexivity. }
    split; [congruence|].
    unfold isRunning, isStopped. rewrite Hm4.
    rewrite list_lookup_alter_ne by (unfold m2; lia).
    rewrite list_lookup_alter_eq, Hc2'.
    rewrite Hm3, list_lookup_alter_eq, Hc1.
    repeat split. exact Hh4.
Qed.

(** ** The theorems at work on example pages *)

Lemma quietPage_resolves c : resolves quietPage c.
Proof. intros h. reflexivity. Qed.

Lemma quietPage_noSendControl page : noSendControl quietPage page.
Proof. intros s. reflexivity. Qed.

(** A batch of two recipients on a page without any send control: both
    are reported, in order. *)
Lemma sendBatch_reports_every_recipient_witness :
  neverHangs quietPage /\
  sessionOpens quietPage BATCH_SESSION_DIR /\
  exists page s1,
    openBatchSession quietPage initial = (Ok page, s1) /\
    let delay := default 4000 (Some 500) in
    let reports := expectedReports quietPage page delay 0 [recipient; secondRecipient] s1 in
    progressOf (history (snd (sendBatch quietPage [recipient; secondRecipient] true (Some 500) initial))) =
      progressOf (history initial) ++ reports /\
    map index reports = seq 0 (length [recipient; secondRecipient]) /\
    map row reports = [recipient; secondRecipient] /\
    fst (batchLoop quietPage page true delay 0 [recipient; secondRecipient] s1) = Ok tt /\
    fst (sendBatch quietPage [recipient; secondRecipient] true (Some 500) initial) <> Pending.
Proof.
  assert (H1 : neverHangs quietPage) by (intros h c; discriminate).
  assert (H2 : sessionOpens quietPage BATCH_SESSION_DIR)
    by (repeat split; intros ?; reflexivity).
  split; [exact H1|]. split; [exact H2|].
  exact (sendBatch_reports_every_recipient quietPage [recipient; secondRecipient]
           (Some 500) initial H1 H2).
Defined.

Lemma sendSingle_falls_back_to_Enter_witness :
  exists passes,
    fst (sendSingle quietPage 1 recipient initial) = Ok tt /\
    callsOf (history (snd (sendSingle quietPage 1 recipient initial))) =
      callsOf (history initial)
        ++ [Goto 1 recipientUrl; WaitForSelector 1 composer 60000; Sleep 2000]
        ++ passes
        ++ [KeyboardPress 1 "Enter"; Sleep 1200] /\
    failedPasses 1 1000 5 passes /\
    count isLadderPass passes = 5%nat /\
    sleepsOf passes = replicate 5 1000 /\
    count (isPress "Enter")
      ([Goto 1 recipientUrl; WaitForSelector 1 composer 60000; Sleep 2000]
         ++ passes ++ [KeyboardPress 1 "Enter"; Sleep 1200]) = 1%nat.
Proof.
  apply (sendSingle_falls_back_to_Enter quietPage 1%nat recipient recipientUrl initial).
  - reflexivity.
  - intros h. reflexivity.
  - intros h. reflexivity.
  - intros s. reflexivity.
  - intros h. reflexivity.
Defined.

(** Three recipients; the stop request is served while the second one's
    Enter key press is pending: the third is never processed. *)
Lemma csv_stop_ends_the_walk_witness :
  let rows := [recipient; secondRecipient; thirdRecipient] in
  let sk := snd (csvLoop (stopAtEnter 2) 0 1 true 4000 3 0 [recipient] monitoring) in
  let s1 := snd (csvIteration (stopAtEnter 2) 0 1 true 3 1 secondRecipient sk) in
  isStopped 0 sk = false /\
  isStopped 0 s1 = true /\
  csvLoop (stopAtEnter 2) 0 1 true 4000 3 1 [secondRecipient; thirdRecipient] sk = (Ok tt, s1) /\
  csvMode (stopAtEnter 2) 0 1 rows 4000 true monitoring = (Ok tt, s1) /\
  isRunning 0 s1 = false.
Proof.
  cbn zeta. split; [vm_compute; reflexivity|]. split; [vm_compute; reflexivity|].
  apply (csv_stop_ends_the_walk (stopAtEnter 2) 0%nat 1%nat true 4000
           [recipient] secondRecipient [thirdRecipient] monitoring).
  - vm_compute. reflexivity.
  - vm_compute. reflexivity.
  - vm_compute. reflexivity.
  - vm_compute. reflexivity.
Defined.

Lemma iconOnlyPage_monotone : monotoneClock iconOnlyPage.
Proof.
  intros h h'. cbn. rewrite length_app. lia.
Qed.

Lemma sendControlShown_monotone : monotoneClock sendControlShown.
Proof.
  intros h h'. cbn. rewrite length_app. lia.
Qed.

(** Six ticks on a chat that shows its send control all the time: the
    first tick clicks it, the four ticks that start within 1.5 s of that
    click do nothing but pause, and the sixth tick clicks again.  Two
    passes, two clicks counted. *)
Lemma watch_mode_debounce_witness :
  monotoneClock sendControlShown /\
  (let s' := snd (watchLoop sendControlShown 6 0 1 true 0 monitoring) in
   callsOf (history s') =
     [Evaluate 1 LadderScript; Sleep 500; Sleep 500; Sleep 500; Sleep 500; Sleep 500;
      Evaluate 1 LadderScript; Sleep 500] /\
   clickTimes 0 (history s') = [2600; 5000] /\
   clicksOf 0 s' = 2) /\
  (exists t s',
     watchTick sendControlShown 0 1 true 0 monitoring = (Ok t, s') /\
     1500 < t - 0 /\
     clicksOf 0 s' = clicksOf 0 monitoring + 1 /\
     lastClick <$> statsOf 0 s' = Some (Some t) /\
     eventsOf 0 (history s') =
       eventsOf 0 (history monitoring) ++ [ClickEvent t (clicksOf 0 monitoring + 1)] /\
     (forall s'',
        clock sendControlShown (history s'') - t <= 1500 ->
        watchTick sendControlShown 0 1 true t s'' = (Ok t, s''))) /\
  (let s := snd (sleep sendControlShown 500
                   (snd (watchTick sendControlShown 0 1 true 0 monitoring))) in
   clock sendControlShown (history s) - 2600 <= 1500 /\
   fst (trySendClick sendControlShown 1 s) = Ok true /\
   watchTick sendControlShown 0 1 true 2600 s = (Ok 2600, s)) /\
  (let s' := snd (watchLoop sendControlShown 6 0 1 true 0 monitoring) in
   exists seg,
     history s' = history monitoring ++ seg /\
     debounced sendControlShown 0 (history monitoring) 0 seg /\
     spaced 0 (clickTimes 0 seg) /\
     clicksOf 0 s' = clicksOf 0 monitoring + Z.of_nat (length (clickTimes 0 seg))).
Proof.
  destruct (watch_mode_debounce sendControlShown 0%nat 1%nat sendControlShown_monotone)
    as (Hquiet & Hclick & _ & Hloop & _).
  split; [exact sendControlShown_monotone|].
  split; [repeat split|].
  split.
  { apply (Hclick 0 monitoring (snd (trySendClick sendControlShown 1 monitoring))).
    - eexists. reflexivity.
    - reflexivity.
    - reflexivity. }
  split.
  { cbn zeta. split; [vm_compute; discriminate|]. split; [reflexivity|].
    apply Hquiet. vm_compute. discriminate. }
  exact (Hloop 6%nat 0 monitoring).
Defined.

Lemma trySendClick_structural_fallback_witness :
  exists span btn,
    iconButton iconOnlyDocument span btn /\
    Ladder.tryDirect iconOnlyDocument Ladder.selectors = None /\
    Ladder.tryIcons iconOnlyDocument
      (Dom.querySelectorAll Ladder.sendIcon iconOnlyDocument) = Some btn /\
    trySendClick iconOnlyPage 1 initial =
      (Ok true,
       interfere iconOnlyPage
         (record (Clicked 1 btn) (record (Called (Evaluate 1 LadderScript)) initial))).
Proof.
  apply (trySendClick_structural_fallback iconOnlyPage 1%nat initial).
  - reflexivity.
  - intros sel el [<-|[<-|[<-|[<-|[]]]]]; vm_compute; discriminate.
  - exists 2%nat, 1%nat. repeat split; vm_compute; auto.
Defined.

Lemma getScreenshot_unavailable_witness :
  getScreenshot quietPage (withLastPage None monitoring) = (Ok None, withLastPage None monitoring).
Proof.
  apply (proj1 (getScreenshot_unavailable quietPage)). left. reflexivity.
Defined.

(** On a session whose operator never logs in, the call of [startMonitor]
    issues the readiness wait itself and stays pending in it: no handle is
    returned.  (So the readiness wait is not part of the detached work, as
    C9 is stated.) *)
Lemma startMonitor_blocks_on_login :
  fst (startMonitor loginPending None None true initial) = Pending /\
  callsOf (history (snd (startMonitor loginPending None None true initial))) =
    [Mkdir MONITOR_SESSION_DIR; LaunchPersistentContext MONITOR_SESSION_DIR;
     NewPage 0; Goto 1 (lit "https://web.whatsapp.com/");
     WaitForSelector 1 composer 0] /\
  ~ (exists handle, fst (startMonitor loginPending None None true initial) = Ok handle).
Proof.
  split; [reflexivity|]. split; [reflexivity|].
  intros [handle H]. discriminate H.
Qed.

Lemma csv_clicks_count_processed_recipients_witness :
  is_Some (monitors monitoring !! 0%nat) /\
  exists passes,
    fst (csvSend quietPage 0 1 true 0 recipient
           (updateMonitor 0 (withStats (setCurrent (currentMarker 0 1 recipient))) monitoring))
      = Ok tt /\
    failedPasses 1 1000 5 passes /\
    callsOf (history (snd (csvIteration quietPage 0 1 true 1 0 recipient monitoring))) =
      callsOf (history monitoring)
        ++ [Goto 1 recipientUrl; WaitForSelector 1 composer 60000; Sleep 2500]
        ++ passes ++ [KeyboardPress 1 "Enter"].
Proof.
  assert (H : is_Some (monitors monitoring !! 0%nat)) by (eexists; reflexivity).
  split; [exact H|].
  apply (proj2 (csv_clicks_count_processed_recipients quietPage 0%nat 1%nat 1%nat 0%nat
                  recipient monitoring H) recipientUrl).
  - reflexivity.
  - intros h. reflexivity.
  - intros h. reflexivity.
  - intros s. reflexivity.
  - intros h. reflexivity.
Defined.

(** ** The further theorems at work on examples *)

Lemma quietPage_neverHangs : neverHangs quietPage.
Proof. intros h c. discriminate. Qed.

Lemma quietPage_sessionOpens dir : sessionOpens quietPage dir.
Proof. repeat split; intros ?; reflexivity. Qed.

(** The sheet of three records: two rows, one error. *)
Lemma parseCsvRoute_partitions_the_records_witness :
  Csv.parseCsvRoute parseSheet (Some sheetText) = Csv.Parsed sheetRows sheetErrors 2 /\
  exists records,
    (parseSheet sheetText (Csv.delimiterGuess sheetText) = inr records \/
     parseSheet sheetText Csv.Tab = inr records) /\
    2%nat = length sheetRows /\
    (length sheetRows + length sheetErrors = length records)%nat /\
    (forall i r, records !! i = Some r ->
       match Csv.readRecord i r with
       | inl row => row ∈ sheetRows
       | inr e => e ∈ sheetErrors
       end) /\
    (forall row, row ∈ sheetRows ->
       exists r, records !! (Csv.id row - 1)%nat = Some r /\
                 Csv.readRecord (Csv.id row - 1) r = inl row) /\
    (forall e, e ∈ sheetErrors ->
       exists r, records !! (Csv.e_row e - 1)%nat = Some r /\
                 Csv.readRecord (Csv.e_row e - 1) r = inr e) /\
    StronglySorted lt (map Csv.id sheetRows) /\
    StronglySorted lt (map Csv.e_row sheetErrors).
Proof.
  assert (H : Csv.parseCsvRoute parseSheet (Some sheetText) = Csv.Parsed sheetRows sheetErrors 2)
    by (vm_compute; reflexivity).
  split; [exact H|].
  exact (parseCsvRoute_partitions_the_records parseSheet sheetText sheetRows sheetErrors 2 H).
Defined.

(** The record whose [phone] column reads "n/a" is refused although its
    [Phone] column holds a number. *)
Lemma readRecord_without_phone_witness :
  shadowedRecord !! "phone"%string = Some (lit "n/a") /\
  Csv.digitsOnly (lit "n/a") = [] /\
  exists e,
    Csv.readRecord 1 shadowedRecord = inr e /\
    Csv.e_row e = (1 + 1)%nat /\
    Csv.PhoneEmpty ∈ Csv.issues e.
Proof.
  assert (H1 : shadowedRecord !! "phone"%string = Some (lit "n/a")) by (vm_compute; reflexivity).
  assert (H2 : Csv.digitsOnly (lit "n/a") = []) by (vm_compute; reflexivity).
  split; [exact H1|]. split; [exact H2|].
  apply (readRecord_without_phone 1 shadowedRecord).
  right. exists (lit "n/a"). split; [exact H1|exact H2].
Defined.

Lemma sendTwo_valid : Jobs.SendRequestSchema sendTwo = true.
Proof. reflexivity. Qed.

Lemma sendRoute_job_bookkeeping_witness :
  Jobs.SendRequestSchema sendTwo = true /\
  exists jobId job batch,
    Jobs.rows sendTwo = Some batch /\
    fst (Jobs.sendRoute quietPage (lit "a3f") sendTwo server) = Jobs.Accepted jobId /\
    Jobs.jobRoute jobId (snd (Jobs.sendRoute quietPage (lit "a3f") sendTwo server)) = Some job /\
    Jobs.id job = jobId /\
    Jobs.total job = length batch /\
    Jobs.done job = (Jobs.ok job + Jobs.failed job)%nat /\
    (Jobs.done job <= Jobs.total job)%nat /\
    (length (Jobs.events job) <= 201)%nat /\
    (Jobs.status job = Jobs.Running <-> Jobs.finishedAt job = None) /\
    (forall other, other <> jobId ->
       Jobs.jobRoute other (snd (Jobs.sendRoute quietPage (lit "a3f") sendTwo server)) =
       Jobs.jobRoute other server).
Proof.
  split; [exact sendTwo_valid|].
  exact (sendRoute_job_bookkeeping quietPage (lit "a3f") sendTwo server sendTwo_valid).
Defined.

Lemma sendRoute_finishes_the_job_witness :
  neverHangs quietPage /\
  sessionOpens quietPage BATCH_SESSION_DIR /\
  (forall context, resolves quietPage (ContextClose context)) /\
  Jobs.SendRequestSchema sendTwo = true /\
  Jobs.rows sendTwo = Some [recipient; secondRecipient] /\
  exists jobId job,
    fst (Jobs.sendRoute quietPage (lit "a3f") sendTwo server) = Jobs.Accepted jobId /\
    Jobs.jobRoute jobId (snd (Jobs.sendRoute quietPage (lit "a3f") sendTwo server)) = Some job /\
    Jobs.status job = Jobs.Finished /\
    Jobs.finishedAt job <> None /\
    Jobs.total job = length [recipient; secondRecipient] /\
    Jobs.done job = length [recipient; secondRecipient] /\
    (Jobs.ok job + Jobs.failed job = length [recipient; secondRecipient])%nat /\
    map Jobs.j_index (Jobs.events job) =
      map Some (lastN 200 (seq 0 (length [recipient; secondRecipient]))).
Proof.
  split; [exact quietPage_neverHangs|]. split; [apply quietPage_sessionOpens|].
  split; [intros context; apply quietPage_resolves|]. split; [exact sendTwo_valid|].
  split; [reflexivity|].
  exact (sendRoute_finishes_the_job quietPage (lit "a3f") sendTwo server
           [recipient; secondRecipient] quietPage_neverHangs
           (quietPage_sessionOpens BATCH_SESSION_DIR)
           (fun context => quietPage_resolves (ContextClose context))
           sendTwo_valid eq_refl).
Defined.

Lemma sendRoute_launch_failure_witness :
  Jobs.SendRequestSchema sendTwo = true /\
  resolves launchFails (Mkdir BATCH_SESSION_DIR) /\
  (forall h, settle launchFails h (LaunchPersistentContext BATCH_SESSION_DIR)
             = Rejects launchError) /\
  exists jobId job t t',
    fst (Jobs.sendRoute launchFails (lit "a3f") sendTwo server) = Jobs.Accepted jobId /\
    Jobs.jobRoute jobId (snd (Jobs.sendRoute launchFails (lit "a3f") sendTwo server)) = Some job /\
    Jobs.status job = Jobs.Errored /\
    Jobs.finishedAt job = Some t /\
    Jobs.done job = 0%nat /\
    Jobs.events job = [ Jobs.mkJobEvent t' None None false (Some (errorText launchError)) ] /\
    callsOf (history (Jobs.engine (snd (Jobs.sendRoute launchFails (lit "a3f") sendTwo server)))) =
      callsOf (history (Jobs.engine server))
        ++ [Mkdir BATCH_SESSION_DIR; LaunchPersistentContext BATCH_SESSION_DIR].
Proof.
  assert (H1 : resolves launchFails (Mkdir BATCH_SESSION_DIR)) by (intros h; reflexivity).
  assert (H2 : forall h, settle launchFails h (LaunchPersistentContext BATCH_SESSION_DIR)
                         = Rejects launchError) by (intros h; reflexivity).
  split; [exact sendTwo_valid|]. split; [exact H1|]. split; [exact H2|].
  exact (sendRoute_launch_failure launchFails (lit "a3f") sendTwo server launchError
           sendTwo_valid H1 H2).
Defined.

(** The preview accepts the phone 112; a request that holds it is
    refused. *)
Lemma preview_rows_and_the_send_schema_witness :
  Csv.readRecord 2 shortRecord = inl shortRow /\
  let sent := mkRow (Csv.p_phone shortRow) (Csv.p_message shortRow) (Csv.p_name shortRow) in
  (validRow sent = true <-> (5 <= length (Csv.p_phone shortRow))%nat) /\
  ((length (Csv.p_phone shortRow) < 5)%nat ->
   forall env random q batch sv,
     Jobs.rows q = Some batch -> sent ∈ batch ->
     Jobs.sendRoute env random q sv = (Jobs.Invalid, sv)).
Proof.
  assert (H : Csv.readRecord 2 shortRecord = inl shortRow) by (vm_compute; reflexivity).
  split; [exact H|].
  exact (preview_rows_and_the_send_schema 2 shortRecord shortRow H).
Defined.

Lemma readRecord_accepts_digits_and_text_witness :
  let phone := Csv.digitsOnly (default [] (Csv.firstDefined shortRecord Csv.phoneKeys)) in
  let message := default [] (Csv.firstDefined shortRecord Csv.messageKeys) in
  match Csv.readRecord 2 shortRecord with
  | inl row =>
      phone <> [] /\ message <> [] /\
      Csv.id row = (2 + 1)%nat /\ Csv.p_phone row = phone /\ Csv.p_message row = message
  | inr e =>
      (phone = [] \/ message = []) /\
      Csv.e_row e = (2 + 1)%nat /\
      (Csv.PhoneEmpty ∈ Csv.issues e <-> phone = []) /\
      (Csv.MessageEmpty ∈ Csv.issues e <-> message = [])
  end.
Proof. exact (readRecord_accepts_digits_and_text 2 shortRecord). Defined.

(** A request without a file, and a file that neither attempt can
    parse. *)
Lemma parseCsvRoute_failures_witness :
  let parse := fun (_ : jsstring) (_ : Csv.Delimiter) =>
                 inl (mkError None "Error"%string) : JsError + list Csv.Record_ in
  Csv.parseCsvRoute parse None = Csv.NoFile /\
  Csv.parseCsvRoute parse (Some sheetText) = Csv.ParseFailed "Failed to parse CSV".
Proof.
  intros parse.
  destruct (parseCsvRoute_failures parse None) as [[_ H1] _].
  destruct (parseCsvRoute_failures parse (Some sheetText)) as [_ H2].
  split; [exact (H1 eq_refl)|].
  apply (proj2 (H2 "Failed to parse CSV"%string)).
  exists sheetText, (mkError None "Error"%string), (mkError None "Error"%string).
  repeat split.
Defined.

(** Stopping the registered monitor of [monitoring]. *)
Lemma monitorStopRoute_stops_witness :
  monitorHandle monitoring = Some 0%nat /\
  monitors monitoring !! 0%nat =
    Some {| stats := mkStats true 0 None None; stopped := false; context := 0 |} /\
  let out := monitorStopRoute quietPage monitoring in
  (forall msg, fst out <> Ok (Failure msg)) /\
  (forall e, fst out <> Throw e) /\
  isStopped 0 (snd out) = true /\
  isRunning 0 (snd out) = false /\
  clicksOf 0 (snd out) = clicksOf 0 monitoring /\
  (settle quietPage (history monitoring) (ContextClose 0) <> Hangs ->
   fst out = Ok (Success false) /\
   monitorHandle (snd out) = None /\
   fst (monitorStatusRoute (snd out)) = Ok (Some (mkStats false 0 None None)) /\
   monitorStopRoute quietPage (snd out) = (Ok NotRunning, snd out)).
Proof.
  split; [reflexivity|]. split; [reflexivity|].
  exact (proj2 (monitorStopRoute_stops quietPage monitoring) 0%nat
           {| stats := mkStats true 0 None None; stopped := false; context := 0 |}
           eq_refl eq_refl).
Defined.

Lemma initial_handleInRange : handleInRange initial.
Proof. intros m H. discriminate H. Qed.

(** The first start request on a fresh server, in watch mode. *)
Lemma stopWhileStarting_sessionOpens : sessionOpens stopWhileStarting MONITOR_SESSION_DIR.
Proof. repeat split. Qed.

(** A start for one recipient, with a stop request that arrives while the
    start is in its readiness wait. *)
Lemma monitorStartRoute_registers_witness :
  sessionOpens stopWhileStarting MONITOR_SESSION_DIR /\
  MonitorStartSchema (mkStartRequest (Some [recipient]) (Some 500)) = true /\
  monitorHandle initial = None /\
  stopRequested stopWhileStarting
    [Called (Mkdir MONITOR_SESSION_DIR); Called (LaunchPersistentContext MONITOR_SESSION_DIR);
     Called (NewPage 0); Called (Goto 1 (lit "https://web.whatsapp.com/"));
     Called (WaitForSelector 1 composer 0)] = true /\
  exists task s',
    monitorStartRoute stopWhileStarting (mkStartRequest (Some [recipient]) (Some 500)) initial =
      (Ok (Success false, Some task), s') /\
    suspendedLoop (Some [recipient]) 500 true 0 1 task /\
    monitorHandle s' = Some 0%nat /\
    isRunning 0 s' = true /\
    isStopped 0 s' = false /\
    clicksOf 0 s' = 0 /\
    lastPage s' = Some 1%nat /\
    launchesOf MONITOR_SESSION_DIR (history s') = 1%nat /\
    (forall q', monitorStartRoute stopWhileStarting q' s' = (Ok (Success true, None), s')) /\
    (forall close,
       close <> Hangs ->
       exists s'',
         monitorStopEnd close s' = (Ok (Success false), s'') /\
         monitorHandle s'' = None /\
         isRunning 0 s'' = true /\
         isStopped 0 s'' = false /\
         monitorStopRoute stopWhileStarting s'' = (Ok NotRunning, s'') /\
         monitorActive s'' = false).
Proof.
  split; [exact stopWhileStarting_sessionOpens|]. split; [reflexivity|].
  split; [reflexivity|]. split; [reflexivity|].
  exact (monitorStartRoute_registers stopWhileStarting
           (mkStartRequest (Some [recipient]) (Some 500)) initial
           stopWhileStarting_sessionOpens eq_refl eq_refl).
Defined.

Lemma monitorStartRoute_failed_start_witness :
  resolves navigationFails (Mkdir MONITOR_SESSION_DIR) /\
  resolves navigationFails (LaunchPersistentContext MONITOR_SESSION_DIR) /\
  (forall context, resolves navigationFails (NewPage context)) /\
  (forall h page, settle navigationFails h (Goto page (lit "https://web.whatsapp.com/"))
                  = Rejects navigationError) /\
  MonitorStartSchema (mkStartRequest None None) = true /\
  monitorActive initial = false /\
  let page := S (created initial) in
  exists s',
    monitorStartRoute navigationFails (mkStartRequest None None) initial =
      (Ok (Failure (errorText navigationError), None), s') /\
    callsOf (history s') =
      callsOf (history initial)
        ++ [Mkdir MONITOR_SESSION_DIR; LaunchPersistentContext MONITOR_SESSION_DIR;
            NewPage (created initial); Goto page (lit "https://web.whatsapp.com/")] /\
    lastPage s' = Some page /\
    handleKept initial s' /\
    length (monitors s') = S (length (monitors initial)).
Proof.
  assert (H1 : resolves navigationFails (Mkdir MONITOR_SESSION_DIR)) by (intros h; reflexivity).
  assert (H2 : resolves navigationFails (LaunchPersistentContext MONITOR_SESSION_DIR))
    by (intros h; reflexivity).
  assert (H3 : forall context, resolves navigationFails (NewPage context))
    by (intros context h; reflexivity).
  assert (H4 : forall h page,
            settle navigationFails h (Goto page (lit "https://web.whatsapp.com/"))
            = Rejects navigationError) by (intros h page; reflexivity).
  split; [exact H1|]. split; [exact H2|]. split; [exact H3|]. split; [exact H4|].
  split; [reflexivity|]. split; [reflexivity|].
  exact (monitorStartRoute_failed_start navigationFails (mkStartRequest None None) initial
           navigationError H1 H2 H3 H4 eq_refl eq_refl).
Defined.

(** Before any monitor was started, and after a batch. *)
Lemma screenshotRoute_never_fails_witness :
  lastPage initial = None /\
  screenshotRoute quietPage initial = (Ok NoSession, initial) /\
  lastPage (snd (sendBatch quietPage [recipient] true None initial)) = lastPage initial.
Proof.
  destruct (screenshotRoute_never_fails quietPage initial) as (_ & _ & H3 & _ & H5).
  split; [reflexivity|]. split; [exact (H3 eq_refl)|]. exact (H5 [recipient] true None).
Defined.

(** On the page whose send control is only known by its icon, the script
    clicks the button around the icon. *)
Lemma script_clicks_what_is_rendered_witness :
  Ladder.script iconOnlyDocument = Some 1%nat /\
  Dom.hasOffsetParent iconOnlyDocument 1 = true /\
  (directMatch iconOnlyDocument 1 \/
   (exists span, iconButton iconOnlyDocument span 1) \/
   labelledSend iconOnlyDocument 1).
Proof.
  assert (H : Ladder.script iconOnlyDocument = Some 1%nat) by reflexivity.
  split; [exact H|].
  exact (proj1 (script_clicks_what_is_rendered iconOnlyDocument) 1%nat H).
Defined.

Lemma trySendClick_outcomes_witness :
  settle iconOnlyPage (history initial) (Evaluate 1 LadderScript) = Resolves /\
  Ladder.script (dom iconOnlyPage (history initial ++ [Called (Evaluate 1 LadderScript)]) 1)
    = Some 1%nat /\
  let out := trySendClick iconOnlyPage 1 initial in
  fst out = Ok true /\
  clickedOf (history (snd out)) = clickedOf (history initial) ++ [(1%nat, 1%nat)] /\
  callsOf (history (snd out)) = callsOf (history initial) ++ [Evaluate 1 LadderScript].
Proof.
  split; [reflexivity|]. split; [reflexivity|].
  destruct (trySendClick_outcomes iconOnlyPage 1 initial) as (_ & H & _).
  exact (H 1%nat eq_refl eq_refl).
Defined.

Lemma sendSingle_clicks_or_presses_Enter_witness :
  let s' := snd (sendSingle quietPage 1 recipient initial) in
  exists l,
    callsOf (history s') = callsOf (history initial) ++ l /\
    (count isLadderPass l <= 5)%nat /\
    (count (isPress "Enter") l <= 1)%nat /\
    (forall key, key <> "Enter"%string -> count (isPress key) l = 0%nat) /\
    (length (clickedOf (history s')) <= S (length (clickedOf (history initial))))%nat /\
    (count (isPress "Enter") l = 1%nat ->
     count isLadderPass l = 5%nat /\ clickedOf (history s') = clickedOf (history initial)).
Proof. exact (sendSingle_clicks_or_presses_Enter quietPage 1 recipient initial). Defined.

Lemma brokenMessage_codeUnits : PercentEncoding.codeUnits (message brokenMessage).
Proof. repeat constructor. Qed.

Lemma unpaired_surrogate_fails_the_recipient_witness :
  PercentEncoding.codeUnits (message brokenMessage) /\
  PercentEncoding.codePoints (message brokenMessage) = None /\
  sendSingle quietPage 1 brokenMessage initial = (Throw URIError, initial) /\
  let out := batchIteration quietPage 1 true 1500 0 brokenMessage initial in
  fst out = Ok tt /\
  progressOf (history (snd out)) =
    progressOf (history initial)
      ++ [mkProgress 0 brokenMessage false (Some "URI malformed"%string)] /\
  callsOf (history (snd out)) = callsOf (history initial) ++ [Sleep 1500].
Proof.
  split; [exact brokenMessage_codeUnits|]. split; [reflexivity|].
  exact (unpaired_surrogate_fails_the_recipient quietPage 1 1500 0 brokenMessage initial
           brokenMessage_codeUnits eq_refl).
Defined.

Lemma chat_not_loaded_fails_the_recipient_witness :
  buildWhatsAppUrl (phone recipient) (message recipient) = Ok recipientUrl /\
  resolves chatNeverLoads (Goto 1 recipientUrl) /\
  (forall h, settle chatNeverLoads h (WaitForSelector 1 composer 60000) = Rejects timeoutError) /\
  fst (sendSingle chatNeverLoads 1 recipient initial) = Throw timeoutError /\
  callsOf (history (snd (sendSingle chatNeverLoads 1 recipient initial))) =
    callsOf (history initial) ++ [Goto 1 recipientUrl; WaitForSelector 1 composer 60000] /\
  let out := batchIteration chatNeverLoads 1 true 1500 0 recipient initial in
  fst out = Ok tt /\
  progressOf (history (snd out)) =
    progressOf (history initial)
      ++ [mkProgress 0 recipient false (Some (errorText timeoutError))] /\
  callsOf (history (snd out)) =
    callsOf (history initial)
      ++ [Goto 1 recipientUrl; WaitForSelector 1 composer 60000; Sleep 1500].
Proof.
  assert (H1 : buildWhatsAppUrl (phone recipient) (message recipient) = Ok recipientUrl)
    by reflexivity.
  assert (H2 : resolves chatNeverLoads (Goto 1 recipientUrl)) by (intros h; reflexivity).
  assert (H3 : forall h, settle chatNeverLoads h (WaitForSelector 1 composer 60000)
                         = Rejects timeoutError) by (intros h; reflexivity).
  split; [exact H1|]. split; [exact H2|]. split; [exact H3|].
  exact (chat_not_loaded_fails_the_recipient chatNeverLoads 1 1500 0 recipient recipientUrl
           timeoutError initial H1 H2 H3).
Defined.

Lemma navigationFails_neverHangs : neverHangs navigationFails.
Proof. intros h c. destruct c; discriminate. Qed.

Lemma sendBatch_always_closes_witness :
  neverHangs navigationFails /\
  resolves navigationFails (Mkdir BATCH_SESSION_DIR) /\
  resolves navigationFails (LaunchPersistentContext BATCH_SESSION_DIR) /\
  (forall context, resolves navigationFails (NewPage context)) /\
  (forall h, settle navigationFails h (Goto 1 (lit "https://web.whatsapp.com/"))
             = Rejects navigationError) /\
  resolves navigationFails (ContextClose 0) /\
  let out := sendBatch navigationFails [recipient] true None initial in
  (exists l, callsOf (history (snd out)) = callsOf (history initial) ++ l ++ [ContextClose 0]) /\
  fst out = Throw navigationError /\
  progressOf (history (snd out)) = progressOf (history initial) /\
  callsOf (history (snd out)) =
    callsOf (history initial)
      ++ [Mkdir BATCH_SESSION_DIR; LaunchPersistentContext BATCH_SESSION_DIR;
          NewPage 0; Goto 1 (lit "https://web.whatsapp.com/"); ContextClose 0].
Proof.
  assert (H1 : resolves navigationFails (Mkdir BATCH_SESSION_DIR)) by (intros h; reflexivity).
  assert (H2 : resolves navigationFails (LaunchPersistentContext BATCH_SESSION_DIR))
    by (intros h; reflexivity).
  assert (H3 : forall context, resolves navigationFails (NewPage context))
    by (intros context h; reflexivity).
  assert (H4 : forall h, settle navigationFails h (Goto 1 (lit "https://web.whatsapp.com/"))
                         = Rejects navigationError) by (intros h; reflexivity).
  assert (H5 : resolves navigationFails (ContextClose 0)) by (intros h; reflexivity).
  split; [exact navigationFails_neverHangs|]. split; [exact H1|]. split; [exact H2|].
  split; [exact H3|]. split; [exact H4|]. split; [exact H5|].
  destruct (sendBatch_always_closes navigationFails [recipient] None initial
              navigationFails_neverHangs H1 H2 H3) as [Ha Hb].
  split; [exact Ha|]. exact (Hb navigationError H4 H5).
Defined.

(** A CSV iteration for a number that is not on WhatsApp. *)
Lemma csvIteration_reports_the_failure_witness :
  let s0 := updateMonitor 0 (withStats (setCurrent (currentMarker 0 1 recipient))) monitoring in
  let s1 := snd (csvSend chatNeverLoads 0 1 true 0 recipient s0) in
  csvSend chatNeverLoads 0 1 true 0 recipient s0 = (Throw timeoutError, s1) /\
  exists t,
    csvIteration chatNeverLoads 0 1 true 1 0 recipient monitoring =
      (Ok tt, record (OnEvent 0 (RowEvent false t (clicksOf 0 monitoring) 0 recipient false
                                   (e_message timeoutError))) s1) /\
    clicksOf 0 (snd (csvIteration chatNeverLoads 0 1 true 1 0 recipient monitoring))
      = clicksOf 0 monitoring /\
    eventsOf 0 (history (snd (csvIteration chatNeverLoads 0 1 true 1 0 recipient monitoring))) =
      eventsOf 0 (history monitoring)
        ++ [RowEvent false t (clicksOf 0 monitoring) 0 recipient false (e_message timeoutError)].
Proof.
  intros s0 s1.
  assert (H : csvSend chatNeverLoads 0 1 true 0 recipient s0 = (Throw timeoutError, s1))
    by (vm_compute; reflexivity).
  split; [exact H|].
  exact (csvIteration_reports_the_failure chatNeverLoads 0 1 1 0 recipient monitoring
           timeoutError s1 H).
Defined.

Lemma quietPage_neverStops : neverStops quietPage.
Proof. intros h. reflexivity. Qed.

(** A CSV walk over two recipients on the quiet page. *)
Lemma csvMode_completes_witness :
  neverStops quietPage /\
  neverHangs quietPage /\
  monitors monitoring !! 0%nat =
    Some {| stats := mkStats true 0 None None; stopped := false; context := 0 |} /\
  exists events s' l,
    csvMode quietPage 0 1 [recipient; secondRecipient] 500 true monitoring = (Ok tt, s') /\
    eventsOf 0 (history s') =
      eventsOf 0 (history monitoring) ++ events ++ [DoneEvent (clicksOf 0 s')] /\
    reportsRows 0 [recipient; secondRecipient] events /\
    clicksOf 0 s' = clicksOf 0 monitoring + sentCount events /\
    isRunning 0 s' = false /\
    (current <$> statsOf 0 s') = Some (Some (lit "Done")) /\
    callsOf (history s') = callsOf (history monitoring) ++ l ++ [ContextClose 0].
Proof.
  split; [exact quietPage_neverStops|]. split; [exact quietPage_neverHangs|].
  split; [reflexivity|].
  exact (csvMode_completes quietPage 0 1 [recipient; secondRecipient] 500 monitoring
           {| stats := mkStats true 0 None None; stopped := false; context := 0 |}
           quietPage_neverStops quietPage_neverHangs eq_refl eq_refl).
Defined.

(** Three ticks of the watch loop that nobody stops. *)
Lemma watchLoop_ends_only_when_stopped_witness :
  neverStops quietPage /\
  isStopped 0 monitoring = false /\
  fst (watchLoop quietPage 3 0 1 true 0 monitoring) = Pending.
Proof.
  split; [exact quietPage_neverStops|]. split; [reflexivity|].
  destruct (watchLoop_ends_only_when_stopped quietPage 3 0 1 0 monitoring) as (_ & _ & H).
  exact (H quietPage_neverStops eq_refl).
Defined.

(** A phone as a spreadsheet exports it. *)
Lemma normalized_phone_goes_verbatim_into_the_link_witness :
  Csv.normalizePhone (Some (lit "'+91 99999-99999")) = lit "919999999999" /\
  buildWhatsAppUrl (Csv.normalizePhone (Some (lit "'+91 99999-99999"))) (lit "hi") =
    Ok recipientUrl /\
  Csv.readRecord 2 shortRecord = inl shortRow /\
  buildWhatsAppUrl (Csv.p_phone shortRow) (Csv.p_message shortRow) =
    Ok (lit "https://web.whatsapp.com/send?phone=112&text=call%20me").
Proof.
  assert (H : Csv.readRecord 2 shortRecord = inl shortRow) by (vm_compute; reflexivity).
  destruct (normalized_phone_goes_verbatim_into_the_link (Some (lit "'+91 99999-99999")) (lit "hi"))
    as [H1 H2].
  split; [vm_compute; reflexivity|]. split; [exact H1|]. split; [exact H|].
  exact (H2 2%nat shortRecord shortRow H).
Defined.

Lemma recipient_codeUnits :
  PercentEncoding.codeUnits (phone recipient) /\ PercentEncoding.codeUnits (message recipient).
Proof. split; vm_compute; repeat constructor. Qed.

Lemma buildWhatsAppUrl_injective_witness :
  PercentEncoding.codeUnits (phone recipient) /\
  PercentEncoding.codeUnits (message recipient) /\
  buildWhatsAppUrl (phone recipient) (message recipient) = Ok recipientUrl /\
  phone recipient = phone recipient /\ message recipient = message recipient.
Proof.
  split; [exact (proj1 recipient_codeUnits)|]. split; [exact (proj2 recipient_codeUnits)|].
  split; [reflexivity|].
  exact (buildWhatsAppUrl_injective (phone recipient) (message recipient)
           (phone recipient) (message recipient) recipientUrl
           (proj1 recipient_codeUnits) (proj2 recipient_codeUnits)
           (proj1 recipient_codeUnits) (proj2 recipient_codeUnits) eq_refl eq_refl).
Defined.

Lemma chatHangs_root_resolves page :
  resolves chatHangs (Goto page (lit "https://web.whatsapp.com/")).
Proof. intros h. reflexivity. Qed.

(** The chat of the first recipient never loads: [startMonitor] returns
    all the same, with the loop suspended in the navigation that hangs. *)
Lemma startMonitor_returns_once_ready_witness :
  startMonitor chatHangs (Some [recipient]) (Some 500) true initial =
    (Ok (0%nat, CsvTask 0 1 recipient [] 500 true recipientUrl Hangs),
     snd (startMonitor chatHangs (Some [recipient]) (Some 500) true initial)) /\
  handleInRange initial /\
  exists task s',
    startMonitor chatHangs (Some [recipient]) (Some 500) true initial = (Ok (0%nat, task), s') /\
    suspendedLoop (Some [recipient]) 500 true 0 1 task /\
    callsOf (history s') =
      callsOf (history initial)
        ++ [Mkdir MONITOR_SESSION_DIR; LaunchPersistentContext MONITOR_SESSION_DIR;
            NewPage 0; Goto 1 (lit "https://web.whatsapp.com/");
            WaitForSelector 1 composer 0]
        ++ [Evaluate 1 ZoomScript] ++ suspendedIn task /\
    (exists t, eventsOf 0 (history s') = eventsOf 0 (history initial) ++ reported t 0 task) /\
    lastPage s' = Some 1%nat /\
    isRunning 0 s' = true.
Proof.
  split; [reflexivity|]. split; [exact initial_handleInRange|].
  apply (proj1 (startMonitor_returns_once_ready chatHangs (Some [recipient]) (Some 500)
                  true initial
                  (fun h => eq_refl) (fun h => eq_refl) (fun c h => eq_refl)
                  chatHangs_root_resolves initial_handleInRange)).
  - intros h. reflexivity.
  - intros h. reflexivity.
Defined.

(** Two start requests on a fresh server, the second one for a recipient,
    arriving while the first is in its readiness wait. *)
Lemma overlapping_starts_run_two_monitors_witness :
  sessionOpens quietPage MONITOR_SESSION_DIR /\
  neverStops quietPage /\
  monitorHandle initial = None /\
  exists task1 task2 s',
    overlappingStarts quietPage (mkStartRequest None None)
      (mkStartRequest (Some [recipient]) (Some 500)) initial =
      (Ok ((Success false, Some task1), (Success false, Some task2)), s') /\
    launchesOf MONITOR_SESSION_DIR (history s') = 2%nat /\
    isRunning 0 s' = true /\
    isStopped 0 s' = false /\
    isRunning 1 s' = true /\
    isStopped 1 s' = false /\
    monitorHandle s' = Some 1%nat.
Proof.
  split; [apply quietPage_sessionOpens|]. split; [exact quietPage_neverStops|].
  split; [reflexivity|].
  exact (proj2 (overlapping_starts_run_two_monitors quietPage (mkStartRequest None None)
                  (mkStartRequest (Some [recipient]) (Some 500)) initial
                  (quietPage_sessionOpens MONITOR_SESSION_DIR) quietPage_neverStops
                  eq_refl eq_refl eq_refl)).
Defined.
